(** * x402 Hyperliquid facilitator: verify, settle and the payment codec

    A shallow embedding of
    - [schemes/exact/hyperliquid/facilitator/verify.ts],
    - [schemes/exact/hyperliquid/facilitator/settle.ts],
    - [shared/hyperliquid/index.ts] (token-info cache), and
    - [encodePayment] / [decodePayment] of [schemes/exact/evm/utils/paymentUtils.ts],
    followed by the properties the specification states about them.

    Conventions of the embedding.
    - A JavaScript string is a [string]; a character is read as the code
      unit of the same number (U+0000 .. U+00FF).
    - A JavaScript number is a [number]: NaN, the two infinities, or a finite
      value carried as the rational it denotes.  [+] and [*] round the exact
      result to the nearest number of binary64, a tie going to the even
      one and what lies beyond the range to an infinity; the sign of zero
      is not kept.
    - A JavaScript value of unknown type is a [value]; an object keeps its
      properties in insertion order.
    - [await] is sequencing.  Calls that leave the process (HTTP, clock) are
      answered by a [World]; what the code did is recorded in a log. *)

From Stdlib Require Import ZArith QArith Qround Qabs Qpower Lia Lqa Bool List Sorted Ascii String
  DecimalString.
From Stdlib Require DecimalFacts DecimalPos DecimalN DecimalZ.
From stdpp Require Import base option gmap strings.

Import ListNotations.
Local Open Scope string_scope.
Local Open Scope Z_scope.
Set Warnings "-register-all".

(** stdpp freezes [String.append]; the development computes with it. *)
Arguments String.append !_ _ / : simpl nomatch.

(* ================================================================== *)
(** ** JavaScript strings *)
(* ================================================================== *)

Module JsString.

Definition code (c : ascii) : N := N_of_ascii c.

Definition is_digit (c : ascii) : bool :=
  ((48 <=? code c) && (code c <=? 57))%N.

Definition is_hex_digit (c : ascii) : bool :=
  (is_digit c
   || ((65 <=? code c) && (code c <=? 70))
   || ((97 <=? code c) && (code c <=? 102)))%N.

(** WhiteSpace and LineTerminator code points below U+0100. *)
Definition is_space (c : ascii) : bool :=
  (((9 <=? code c) && (code c <=? 13)) || (code c =? 32) || (code c =? 160))%N.

(** [String.prototype.toLowerCase] on one code unit: A-Z, and the
    Latin-1 capitals U+00C0..U+00DE except the multiplication sign. *)
Definition lower_char (c : ascii) : ascii :=
  let n := code c in
  if (((65 <=? n) && (n <=? 90))
      || ((192 <=? n) && (n <=? 214))
      || ((216 <=? n) && (n <=? 222)))%N
  then ascii_of_N (n + 32) else c.

Fixpoint toLowerCase (s : string) : string :=
  match s with
  | EmptyString => EmptyString
  | String c r => String (lower_char c) (toLowerCase r)
  end.

Fixpoint all_chars (p : ascii -> bool) (s : string) : bool :=
  match s with
  | EmptyString => true
  | String c r => p c && all_chars p r
  end.

Fixpoint drop_while (p : ascii -> bool) (s : string) : string :=
  match s with
  | EmptyString => EmptyString
  | String c r => if p c then drop_while p r else s
  end.

Fixpoint rev_onto (s acc : string) : string :=
  match s with
  | EmptyString => acc
  | String c r => rev_onto r (String c acc)
  end.

Definition rev (s : string) : string := rev_onto s EmptyString.

(** [String.prototype.trim]. *)
Definition trim (s : string) : string :=
  rev (drop_while is_space (rev (drop_while is_space s))).

(** [s.split(sep)] for a one-character separator: never empty. *)
Fixpoint split (sep : ascii) (s : string) : list string :=
  match s with
  | EmptyString => [EmptyString]
  | String c r =>
      if Ascii.eqb c sep then EmptyString :: split sep r
      else match split sep r with
           | h :: t => String c h :: t
           | [] => [String c EmptyString]
           end
  end.

Definition startsWith (s p : string) : bool := String.prefix p s.

(** [s.includes(sub)]. *)
Fixpoint includes (s sub : string) : bool :=
  String.prefix sub s
  || match s with
     | EmptyString => false
     | String _ r => includes r sub
     end.

Fixpoint take (n : nat) (s : string) : string :=
  match n, s with
  | O, _ => EmptyString
  | S _, EmptyString => EmptyString
  | S k, String c r => String c (take k r)
  end.

Fixpoint zeros (n : nat) : string :=
  match n with
  | O => EmptyString
  | S k => String "0" (zeros k)
  end.

(** [s.slice(0, n)] for [0 <= n]. *)
Definition slice0 (s : string) (n : nat) : string := take n s.

(** [s.padEnd(n, "0")]. *)
Definition padEnd0 (s : string) (n : nat) : string :=
  s ++ zeros (n - String.length s).

Definition is_empty (s : string) : bool :=
  match s with EmptyString => true | _ => false end.

(** The value of a digit in a radix, when it is one. *)
Definition digit_value (radix : N) (c : ascii) : option Z :=
  let n := code c in
  let v := if ((48 <=? n) && (n <=? 57))%N then Some (n - 48)%N
           else if ((97 <=? n) && (n <=? 122))%N then Some (n - 87)%N
           else if ((65 <=? n) && (n <=? 90))%N then Some (n - 55)%N
           else None in
  match v with
  | Some d => if (d <? radix)%N then Some (Z.of_N d) else None
  | None => None
  end.

(** Left-to-right value of a string of digits; [None] on a foreign
    character. *)
Fixpoint digits_from (radix : N) (acc : Z) (s : string) : option Z :=
  match s with
  | EmptyString => Some acc
  | String c r =>
      match digit_value radix c with
      | Some d => digits_from radix (acc * Z.of_N radix + d) r
      | None => None
      end
  end.

Definition parse_digits (radix : N) (s : string) : option Z :=
  if is_empty s then None else digits_from radix 0 s.

(** [BigInt(s)] on a string (StringToBigInt): surrounding white space is
    dropped, the empty string is zero, a radix prefix takes no sign, a
    decimal literal takes an optional sign; [None] is the SyntaxError. *)
Definition toBigInt (s : string) : option Z :=
  match trim s with
  | EmptyString => Some 0
  | String "0" (String x r) =>
      if (Ascii.eqb x "x" || Ascii.eqb x "X")%bool then parse_digits 16 r
      else if (Ascii.eqb x "o" || Ascii.eqb x "O")%bool then parse_digits 8 r
      else if (Ascii.eqb x "b" || Ascii.eqb x "B")%bool then parse_digits 2 r
      else parse_digits 10 (String "0" (String x r))
  | String "-" r => Z.opp <$> parse_digits 10 r
  | String "+" r => parse_digits 10 r
  | t => parse_digits 10 t
  end.

End JsString.

(* ================================================================== *)
(** ** JavaScript numbers *)
(* ================================================================== *)

Inductive number : Type :=
| NaN
| PosInf
| NegInf
| Fin (q : Q).

Module JsNumber.

Definition of_Z (z : Z) : number := Fin (inject_Z z).

Definition isFinite (n : number) : bool :=
  match n with Fin _ => true | _ => false end.

Definition isNaN (n : number) : bool :=
  match n with NaN => true | _ => false end.

Definition sign (q : Q) : comparison := (Qnum q ?= 0)%Z.

(** *** Rounding to binary64

    Binary64 has 53 bits of precision and exponents from -1022 to 1023;
    below 2^-1022 the numbers are spaced 2^-1074 apart. *)

(** The integer nearest to [q], a tie going to the even one. *)
Definition nearest_even (q : Q) : Z :=
  let f := Qfloor q in
  match (q - inject_Z f ?= 1 # 2)%Q with
  | Lt => f
  | Gt => (f + 1)%Z
  | Eq => if Z.even f then f else (f + 1)%Z
  end.

(** The exponent [e] with [2^e <= |q| < 2^(e+1)], for [q] not zero. *)
Definition exponent (q : Q) : Z :=
  let e := (Z.log2 (Z.abs (Qnum q)) - Z.log2 (Zpos (Qden q)))%Z in
  if Qle_bool (2 ^ e) (Qabs q) then e else (e - 1)%Z.

(** The binade of [q]: its exponent, or -1022 where the numbers are
    spaced evenly down to zero. *)
Definition binade (q : Q) : Z := Z.max (exponent q) (-1022).

(** The spacing of the numbers of the format around [q]. *)
Definition quantum (q : Q) : Q := (2 ^ (binade q - 52))%Q.

(** The multiple of the spacing nearest to [q]. *)
Definition nearest (q : Q) : Q :=
  (inject_Z (nearest_even (q / quantum q)) * quantum q)%Q.

(** The number an operation with the exact result [q] returns. *)
Definition round64 (q : Q) : number :=
  let r := nearest q in
  if Qle_bool (2 ^ 1024) r then PosInf
  else if Qle_bool r (- 2 ^ 1024) then NegInf
  else Fin r.

(** [a + b] *)
Definition add (a b : number) : number :=
  match a, b with
  | NaN, _ | _, NaN => NaN
  | PosInf, NegInf | NegInf, PosInf => NaN
  | PosInf, _ | _, PosInf => PosInf
  | NegInf, _ | _, NegInf => NegInf
  | Fin x, Fin y => round64 (x + y)
  end.

Definition inf_times (positive : bool) (q : Q) : number :=
  match sign q with
  | Eq => NaN
  | Gt => if positive then PosInf else NegInf
  | Lt => if positive then NegInf else PosInf
  end.

(** [a * b] *)
Definition mul (a b : number) : number :=
  match a, b with
  | NaN, _ | _, NaN => NaN
  | PosInf, PosInf | NegInf, NegInf => PosInf
  | PosInf, NegInf | NegInf, PosInf => NegInf
  | PosInf, Fin q | Fin q, PosInf => inf_times true q
  | NegInf, Fin q | Fin q, NegInf => inf_times false q
  | Fin x, Fin y => round64 (x * y)
  end.

(** [a <= b] *)
Definition le (a b : number) : bool :=
  match a, b with
  | NaN, _ | _, NaN => false
  | NegInf, _ | _, PosInf => true
  | PosInf, _ | _, NegInf => false
  | Fin x, Fin y => Qle_bool x y
  end.

(** [a >= b] *)
Definition ge (a b : number) : bool := le b a.

(** [a < b] *)
Definition lt (a b : number) : bool :=
  match a, b with
  | NaN, _ | _, NaN => false
  | PosInf, _ | _, NegInf => false
  | NegInf, _ | _, PosInf => true
  | Fin x, Fin y => negb (Qle_bool y x)
  end.

(** [a > b] *)
Definition gt (a b : number) : bool := lt b a.

(** [a === b] on numbers. *)
Definition strict_eq (a b : number) : bool :=
  match a, b with
  | PosInf, PosInf | NegInf, NegInf => true
  | Fin x, Fin y => Qeq_bool x y
  | _, _ => false
  end.

(** The integer a finite number denotes, when it denotes one. *)
Definition as_integer (q : Q) : option Z :=
  if (Qnum q mod Zpos (Qden q) =? 0)%Z then Some (Qnum q / Zpos (Qden q))%Z
  else None.

End JsNumber.

(* ================================================================== *)
(** ** JavaScript values *)
(* ================================================================== *)

Inductive value : Type :=
| VUndefined
| VNull
| VBool (b : bool)
| VNumber (n : number)
| VString (s : string)
| VBigInt (z : Z)
| VObject (props : list (string * value))
| VArray (items : list value).

(** A thrown exception, kept as the text [String(error?.toString())]
    gives for it. *)
Definition exn : Type := string.

Inductive outcome (A : Type) : Type :=
| Returned (a : A)
| Thrown (e : exn).
Arguments Returned {A} a.
Arguments Thrown {A} e.

Module Js.

Definition typeof (v : value) : string :=
  match v with
  | VUndefined => "undefined"
  | VNull => "object"
  | VBool _ => "boolean"
  | VNumber _ => "number"
  | VString _ => "string"
  | VBigInt _ => "bigint"
  | VObject _ | VArray _ => "object"
  end.

(** ToBoolean *)
Definition truthy (v : value) : bool :=
  match v with
  | VUndefined | VNull => false
  | VBool b => b
  | VNumber NaN => false
  | VNumber (Fin q) => negb (Qeq_bool q 0)
  | VNumber _ => true
  | VString s => negb (JsString.is_empty s)
  | VBigInt z => negb (z =? 0)
  | VObject _ | VArray _ => true
  end.

(** [v == null] *)
Definition nullish (v : value) : bool :=
  match v with VUndefined | VNull => true | _ => false end.

Fixpoint lookup (k : string) (props : list (string * value)) : value :=
  match props with
  | [] => VUndefined
  | (k', v) :: rest => if String.eqb k k' then v else lookup k rest
  end.

(** Own property [k] of a value that is not nullish.  None of the
    property names the code reads lives on a built-in prototype, so
    everything but an object answers [undefined]. *)
Definition own (v : value) (k : string) : value :=
  match v with
  | VObject props => lookup k props
  | _ => VUndefined
  end.

(** [v.k] *)
Definition get (v : value) (k : string) : outcome value :=
  if nullish v
  then Thrown ("TypeError: Cannot read properties of " ++
               (match v with VNull => "null" | _ => "undefined" end))
  else Returned (own v k).

(** [v?.k] *)
Definition get_opt (v : value) (k : string) : value :=
  if nullish v then VUndefined else own v k.

(** [k in v] for an object [v]. *)
Fixpoint has_key (k : string) (props : list (string * value)) : bool :=
  match props with
  | [] => false
  | (k', _) :: rest => String.eqb k k' || has_key k rest
  end.

(** [a ?? b] *)
Definition coalesce (a b : value) : value := if nullish a then b else a.

Definition is_array (v : value) : bool :=
  match v with VArray _ => true | _ => false end.

Definition of_option (o : option string) : value :=
  match o with Some s => VString s | None => VUndefined end.

End Js.

(* ================================================================== *)
(** ** JSON.stringify followed by JSON.parse *)
(* ================================================================== *)

Module Json.

(** What SerializeJSONProperty keeps of a value: [None] when the
    property is left out ([undefined]); a BigInt is a TypeError. *)
Fixpoint serializable (v : value) : outcome (option value) :=
  match v with
  | VUndefined => Returned None
  | VNull => Returned (Some VNull)
  | VBool b => Returned (Some (VBool b))
  | VNumber (Fin q) => Returned (Some (VNumber (Fin q)))
  | VNumber _ => Returned (Some VNull)
  | VString s => Returned (Some (VString s))
  | VBigInt _ => Thrown "TypeError: Do not know how to serialize a BigInt"
  | VObject props =>
      let fix go (ps : list (string * value)) : outcome (list (string * value)) :=
        match ps with
        | [] => Returned []
        | (k, x) :: rest =>
            match serializable x with
            | Thrown e => Thrown e
            | Returned ox =>
                match go rest with
                | Thrown e => Thrown e
                | Returned rest' =>
                    Returned (match ox with
                              | Some x' => (k, x') :: rest'
                              | None => rest'
                              end)
                end
            end
        end in
      match go props with
      | Thrown e => Thrown e
      | Returned ps => Returned (Some (VObject ps))
      end
  | VArray items =>
      let fix go (xs : list value) : outcome (list value) :=
        match xs with
        | [] => Returned []
        | x :: rest =>
            match serializable x with
            | Thrown e => Thrown e
            | Returned ox =>
                match go rest with
                | Thrown e => Thrown e
                | Returned rest' =>
                    Returned (match ox with
                              | Some x' => x'
                              | None => VNull
                              end :: rest')
                end
            end
        end in
      match go items with
      | Thrown e => Thrown e
      | Returned xs => Returned (Some (VArray xs))
      end
  end.

(** Values JSON text can carry and give back unchanged. *)
Inductive plain : value -> Prop :=
| plain_null : plain VNull
| plain_bool b : plain (VBool b)
| plain_number q : plain (VNumber (Fin q))
| plain_string s : plain (VString s)
| plain_object props :
    List.NoDup (map fst props) ->
    Forall (fun kv => plain (snd kv)) props -> plain (VObject props)
| plain_array items : Forall plain items -> plain (VArray items).

End Json.

(* ================================================================== *)
(** ** Types of [types/verify] and [types/shared] *)
(* ================================================================== *)

(** [SCHEME] of [schemes/exact]; the tests of [verify] and [settle] pass
    it as "exact". *)
Definition SCHEME : string := "exact".

(** [SupportedHLNetworks] of [types/shared/network.ts]. *)
Definition SupportedHLNetworks : list string :=
  ["hyperliquid-testnet"; "hyperliquid"].

Definition includes_network (l : list string) (n : string) : bool :=
  existsb (String.eqb n) l.

Inductive ErrorReason : Type :=
| invalid_exact_hl_payload
| invalid_exact_hl_payload_signature
| invalid_exact_hl_payload_asset_mismatch
| invalid_exact_hl_payload_recipient_mismatch
| invalid_exact_hl_payload_amount_mismatch
| invalid_exact_hl_network
| hl_exchange_error
| hl_tx_not_found
| hl_tx_unconfirmed
| payment_expired.

Module PaymentRequirements.
Record t : Type := {
  scheme : string;
  network : string;
  maxAmountRequired : string;
  resource : string;
  description : string;
  mimeType : string;
  payTo : string;
  maxTimeoutSeconds : number;
  asset : string;
  extra : value   (* [VUndefined] when the field is absent *)
}.
End PaymentRequirements.

Module PaymentPayload.
Record t : Type := {
  x402Version : number;
  scheme : string;
  network : string;
  payload : value
}.
End PaymentPayload.

Module VerifyResponse.
Record t : Type := {
  isValid : bool;
  invalidReason : option ErrorReason;
  payer : option string
}.
End VerifyResponse.

Module SettleResponse.
Record t : Type := {
  success : bool;
  errorReason : option ErrorReason;
  transaction : string;
  network : string;
  payer : option string
}.
End SettleResponse.

(* ================================================================== *)
(** ** The host and the effects of a call *)
(* ================================================================== *)

(** [hl.InfoClient]: all the code configures is the test-net flag. *)
Record InfoClient : Type := { isTestnet : bool }.

(** [TokenDetailsResponse] of the SDK, the fields the code reads. *)
Record TokenDetailsResponse : Type := {
  weiDecimals : number;
  name : string
}.

(** [HyperliquidSettleResponse] of [settle.ts]. *)
Module HyperliquidSettleResponse.
Record inner : Type := { txHash : option string }.
Record t : Type := {
  status : option string;
  response : option inner;
  txHash_top : option string;   (* the top-level [txHash] *)
  hash : option string
}.
End HyperliquidSettleResponse.

(** What [fetch] gives for the POST to the exchange. *)
Inductive FetchReply : Type :=
| FetchRejects (e : exn)
| FetchResponse (ok : bool) (json : option HyperliquidSettleResponse.t).
   (* [json = None]: [response.json()] rejects or yields [null] *)

Record World : Type := {
  (** [Date.now()] *)
  now : Z;
  (** [Number(s)] on a string, and [n.toString()] on a finite number:
      taken from the runtime as they are. *)
  StringToNumber : string -> number;
  NumberToString : Q -> string;
  (** [client.tokenDetails({ tokenId })] *)
  tokenDetails : InfoClient -> string -> outcome TokenDetailsResponse;
  (** [fetch(endpoint, { method: "POST", body })], the body as the JSON
      text carries it *)
  fetch : string -> value -> FetchReply;
  (** [client.userDetails({ user })] *)
  userDetails : InfoClient -> string -> outcome value;
  (** [client.txDetails({ hash })], by the number of earlier calls *)
  txDetails : InfoClient -> nat -> string -> outcome value
}.

(** [HyperliquidTokenInfo] of [shared/hyperliquid]. *)
Module HyperliquidTokenInfo.
Record t : Type := {
  decimals : number;
  symbol : option string;
  name : option string;
  tokenId : option string
}.
End HyperliquidTokenInfo.

Inductive event : Type :=
| CallFetchTokenInfo (network tokenId : string)
| RequestTokenDetails (client : InfoClient) (tokenId : string)
| PostExchange (endpoint : string) (body : value)
| RequestUserDetails (client : InfoClient) (user : string)
| RequestTxDetails (client : InfoClient) (hash : string)
| Delay (ms : Z).

(** The process state a call can read and change: the module-level token
    cache, and the log of what has been done (latest first). *)
Record State : Type := {
  hyperliquidTokenInfoCache : gmap string HyperliquidTokenInfo.t;
  log : list event
}.

Definition M (A : Type) : Type := State -> outcome A * State.

Definition ret {A} (a : A) : M A := fun s => (Returned a, s).

Definition throw {A} (e : exn) : M A := fun s => (Thrown e, s).

Definition bind {A B} (m : M A) (k : A -> M B) : M B :=
  fun s => match m s with
           | (Returned a, s') => k a s'
           | (Thrown e, s') => (Thrown e, s')
           end.

(** [try { m } catch (e) { h e }] *)
Definition try_catch {A} (m : M A) (h : exn -> M A) : M A :=
  fun s => match m s with
           | (Returned a, s') => (Returned a, s')
           | (Thrown e, s') => h e s'
           end.

Definition lift {A} (o : outcome A) : M A := fun s => (o, s).

Definition emit (e : event) : M unit :=
  fun s => (Returned tt,
            {| hyperliquidTokenInfoCache := hyperliquidTokenInfoCache s;
               log := e :: log s |}).

Definition get_cache : M (gmap string HyperliquidTokenInfo.t) :=
  fun s => (Returned (hyperliquidTokenInfoCache s), s).

Definition set_cache (c : gmap string HyperliquidTokenInfo.t) : M unit :=
  fun s => (Returned tt, {| hyperliquidTokenInfoCache := c; log := log s |}).

Declare Scope js_scope.
Delimit Scope js_scope with js.
Notation "'let!' x ':=' m 'in' k" := (bind m (fun x => k))
  (at level 10, x name, m at level 100, k at level 200) : js_scope.
Local Open Scope js_scope.

Definition initial_state : State :=
  {| hyperliquidTokenInfoCache := ∅; log := [] |}.

(* ================================================================== *)
(** ** [shared/hyperliquid/index.ts] *)
(* ================================================================== *)

Module Shared.
Section WithWorld.
Variable w : World.

Definition assertHyperliquidNetwork (network : string) : outcome unit :=
  if includes_network SupportedHLNetworks network then Returned tt
  else Thrown ("Error: Unsupported Hyperliquid network: " ++ network).

Definition createInfoClient (network : string) : outcome InfoClient :=
  match assertHyperliquidNetwork network with
  | Thrown e => Thrown e
  | Returned _ =>
      Returned {| isTestnet := String.eqb network "hyperliquid-testnet" |}
  end.

Definition getExchangeBaseUrl (network : string) : outcome string :=
  match assertHyperliquidNetwork network with
  | Thrown e => Thrown e
  | Returned _ =>
      Returned (if String.eqb network "hyperliquid-testnet"
                then "https://api.hyperliquid-testnet.xyz/exchange"
                else "https://api.hyperliquid.xyz/exchange")
  end.

(** The [attempt]-th call of [client.txDetails]. *)
Definition fetchTransactionDetails
    (client : InfoClient) (attempt : nat) (hash : string) : M value :=
  let! _ := emit (RequestTxDetails client hash) in
  let! response := lift (txDetails w client attempt hash) in
  lift (Js.get response "tx").

Definition fetchHyperliquidTokenInfo
    (network tokenId : string) : M HyperliquidTokenInfo.t :=
  let! _ := emit (CallFetchTokenInfo network tokenId) in
  let! _ := lift (assertHyperliquidNetwork network) in
  let cacheKey := network ++ ":" ++ JsString.toLowerCase tokenId in
  let! cache := get_cache in
  match cache !! cacheKey with
  | Some cached => ret cached
  | None =>
      let! client := lift (createInfoClient network) in
      let! _ := emit (RequestTokenDetails client tokenId) in
      let! response := lift (tokenDetails w client tokenId) in
      let info :=
        {| HyperliquidTokenInfo.decimals := weiDecimals response;
           HyperliquidTokenInfo.symbol := Some (name response);
           HyperliquidTokenInfo.name := Some (name response);
           HyperliquidTokenInfo.tokenId := Some tokenId |} in
      let! cache' := get_cache in
      let! _ := set_cache (<[cacheKey := info]> cache') in
      ret info
  end.

End WithWorld.
End Shared.

(* ================================================================== *)
(** ** [schemes/exact/hyperliquid/facilitator/verify.ts] *)
(* ================================================================== *)

Module Verify.

(** [typeof v === "string" ? v : undefined] *)
Definition string_or_undefined (v : value) : option string :=
  match v with VString s => Some s | _ => None end.

(** [!s] for [s : string | undefined] *)
Definition missing (o : option string) : bool :=
  match o with
  | None => true
  | Some s => JsString.is_empty s
  end.

Definition extractPayer (payload : value) : outcome (option string) :=
  match Js.get payload "user" with
  | Thrown e => Thrown e
  | Returned (VString user) => Returned (Some user)
  | Returned _ =>
      match Js.get payload "action" with
      | Thrown e => Thrown e
      | Returned action =>
          match Js.get action "user" with
          | Thrown e => Thrown e
          | Returned u => Returned (string_or_undefined u)
          end
      end
  end.

(** [/^\d+(\.\d+)?$/.test(s)] *)
Definition is_decimal_literal (s : string) : bool :=
  let digits x := negb (JsString.is_empty x) && JsString.all_chars JsString.is_digit x in
  match JsString.split "." s with
  | [whole] => digits whole
  | [whole; fraction] => digits whole && digits fraction
  | _ => false
  end.

(** [BigInt(n)] on a number: a RangeError unless [n] is an integer. *)
Definition BigInt_of_number (n : number) : outcome Z :=
  match n with
  | Fin q =>
      match JsNumber.as_integer q with
      | Some z => Returned z
      | None => Thrown "RangeError: not an integer"
      end
  | _ => Thrown "RangeError: not an integer"
  end.

(** [BigInt(s)] on a string. *)
Definition BigInt_of_string (s : string) : outcome Z :=
  match JsString.toBigInt s with
  | Some z => Returned z
  | None => Thrown "SyntaxError: Cannot convert to a BigInt"
  end.

(** [decimalToAtomic].  It is called with [decimals] not below zero.
    When [decimals] is not an integer, [BigInt(decimals)] throws (or
    [padEnd] before it, on infinity); the two are not kept apart. *)
Definition decimalToAtomic (value : string) (decimals : number) : outcome Z :=
  let sanitized := JsString.trim value in
  if negb (is_decimal_literal sanitized) then Thrown "Error: invalid decimal"
  else
    match BigInt_of_number decimals with
    | Thrown e => Thrown e
    | Returned d =>
        let parts := JsString.split "." sanitized in
        let whole := nth 0 parts "" in
        let fraction := nth 1 parts "" in
        let normalizedFraction :=
          if (d <? Z.of_nat (String.length fraction))
          then JsString.slice0 fraction (Z.to_nat d)
          else JsString.padEnd0 fraction (Z.to_nat d) in
        match BigInt_of_string (if JsString.is_empty whole then "0" else whole) with
        | Thrown e => Thrown e
        | Returned wholeBig =>
            let wholeUnits := wholeBig * 10 ^ d in
            match BigInt_of_string
                    (if JsString.is_empty normalizedFraction then "0"
                     else normalizedFraction) with
            | Thrown e => Thrown e
            | Returned fractionalUnits => Returned (wholeUnits + fractionalUnits)
            end
        end
    end.

(** [withinTtl], given the reading of the clock. *)
Definition withinTtl (dateNow : Z) (actionTime : value) (maxTimeoutSeconds : number) : bool :=
  match actionTime with
  | VNumber (Fin t) =>
      let expiresAt :=
        JsNumber.add (Fin t) (JsNumber.mul maxTimeoutSeconds (JsNumber.of_Z 1000)) in
      JsNumber.le (JsNumber.of_Z dateNow) expiresAt
  | _ => false
  end.

Definition extractHyperliquidTokenId (asset : string) : option string :=
  if JsString.is_empty asset then None
  else
    let parts := JsString.split ":" asset in
    if (length parts =? 2)%nat then nth_error parts 1
    else match nth_error parts 0 with
         | Some p0 => if JsString.startsWith p0 "0x" then Some p0 else None
         | None => None
         end.

Section WithWorld.
Variable w : World.

Definition ensureAmountMeetsRequirement
    (payloadAmount requiredAtomicAmount : string) (decimals : option number) : bool :=
  let loose :=
    JsNumber.ge (StringToNumber w payloadAmount) (StringToNumber w requiredAtomicAmount) in
  match decimals with
  | None => loose
  | Some d =>
      if JsNumber.lt d (JsNumber.of_Z 0) then loose
      else
        match decimalToAtomic payloadAmount d with
        | Thrown _ => false
        | Returned payloadAtomic =>
            match BigInt_of_string requiredAtomicAmount with
            | Thrown _ => false
            | Returned required => required <=? payloadAtomic
            end
        end
  end.

Definition resolveDecimals (paymentRequirements : PaymentRequirements.t)
  : M (option number) :=
  let provided := Js.get_opt (PaymentRequirements.extra paymentRequirements) "decimals" in
  match provided with
  | VNumber n => ret (Some n)
  | _ =>
      let tokenId := extractHyperliquidTokenId (PaymentRequirements.asset paymentRequirements) in
      match tokenId with
      | None => ret None
      | Some tokenId =>
          if JsString.is_empty tokenId then ret None
          else
            try_catch
              (let! info := Shared.fetchHyperliquidTokenInfo w
                              (PaymentRequirements.network paymentRequirements) tokenId in
               ret (Some (HyperliquidTokenInfo.decimals info)))
              (fun _ => ret None)
      end
  end.

Definition reject (reason : ErrorReason) : VerifyResponse.t :=
  {| VerifyResponse.isValid := false;
     VerifyResponse.invalidReason := Some reason;
     VerifyResponse.payer := None |}.

Definition verify
    (paymentPayload : PaymentPayload.t)
    (paymentRequirements : PaymentRequirements.t) : M VerifyResponse.t :=
  if negb (String.eqb (PaymentPayload.scheme paymentPayload) SCHEME)
     || negb (String.eqb (PaymentRequirements.scheme paymentRequirements) SCHEME)
     || negb (String.eqb (PaymentPayload.network paymentPayload)
                         (PaymentRequirements.network paymentRequirements))
     || negb (includes_network SupportedHLNetworks
                               (PaymentRequirements.network paymentRequirements))
  then ret (reject invalid_exact_hl_network)
  else
    let payload := PaymentPayload.payload paymentPayload in
    let! rawAction := lift (Js.get payload "action") in
    if negb (Js.truthy rawAction) || negb (String.eqb (Js.typeof rawAction) "object")
    then ret (reject invalid_exact_hl_payload)
    else
      let action := rawAction in
      let destination := string_or_undefined (Js.own action "destination") in
      let token := string_or_undefined (Js.own action "token") in
      let amount := string_or_undefined (Js.own action "amount") in
      match destination, token, amount with
      | Some destination, Some token, Some amount =>
          if JsString.is_empty destination || JsString.is_empty token
             || JsString.is_empty amount
          then ret (reject invalid_exact_hl_payload)
          else if negb (String.eqb
                          (JsString.toLowerCase destination)
                          (JsString.toLowerCase (PaymentRequirements.payTo paymentRequirements)))
          then ret (reject invalid_exact_hl_payload_recipient_mismatch)
          else if negb (String.eqb token (PaymentRequirements.asset paymentRequirements))
          then ret (reject invalid_exact_hl_payload_asset_mismatch)
          else
            let! decimals := resolveDecimals paymentRequirements in
            let hasValidAmount :=
              ensureAmountMeetsRequirement amount
                (PaymentRequirements.maxAmountRequired paymentRequirements) decimals in
            if negb hasValidAmount
            then ret (reject invalid_exact_hl_payload_amount_mismatch)
            else if negb (withinTtl (now w) (Js.own action "time")
                            (PaymentRequirements.maxTimeoutSeconds paymentRequirements))
            then ret (reject payment_expired)
            else
              let! payer := lift (extractPayer payload) in
              ret {| VerifyResponse.isValid := true;
                     VerifyResponse.invalidReason := None;
                     VerifyResponse.payer := payer |}
      | _, _, _ => ret (reject invalid_exact_hl_payload)
      end.

End WithWorld.
End Verify.

(* ================================================================== *)
(** ** [schemes/exact/hyperliquid/facilitator/settle.ts] *)
(* ================================================================== *)

Module Settle.

Definition CONFIRMATION_RETRIES : nat := 3.
Definition CONFIRMATION_DELAY_MS : Z := 250.

Inductive ConfirmationResult : Type := confirmed | not_found | timeout.

(** [/^0x[0-9a-fA-F]{64}$/.test(value)] *)
Definition isHexHash (value : string) : bool :=
  match value with
  | String "0" (String "x" digits) =>
      (String.length digits =? 64)%nat
      && JsString.all_chars JsString.is_hex_digit digits
  | _ => false
  end.

Definition extractPayer (payload : value) : outcome (option string) :=
  match payload with
  | VObject props =>
      if negb (Js.has_key "action" props) then Returned None
      else
        match Js.lookup "user" props with
        | VString user => Returned (Some user)
        | _ =>
            let action := Js.lookup "action" props in
            match Js.get action "user" with
            | Thrown e => Thrown e
            | Returned u => Returned (Verify.string_or_undefined u)
            end
        end
  | _ => Returned None
  end.

Definition extractFallbackTransaction (paymentRequirements : PaymentRequirements.t) : string :=
  PaymentRequirements.payTo paymentRequirements.

Definition failureResponse
    (reason : ErrorReason)
    (paymentRequirements : PaymentRequirements.t)
    (payload : PaymentPayload.t)
    (txHash : option string) (payer : option string) : outcome SettleResponse.t :=
  let transaction :=
    match txHash with
    | Some h => h
    | None => extractFallbackTransaction paymentRequirements
    end in
  match match payer with
        | Some p => Returned (Some p)
        | None => extractPayer (PaymentPayload.payload payload)
        end with
  | Thrown e => Thrown e
  | Returned payer' =>
      Returned {| SettleResponse.success := false;
                  SettleResponse.errorReason := Some reason;
                  SettleResponse.transaction := transaction;
                  SettleResponse.network := PaymentRequirements.network paymentRequirements;
                  SettleResponse.payer := payer' |}
  end.

Definition extractExchangeTxHash (response : HyperliquidSettleResponse.t) : option string :=
  match match HyperliquidSettleResponse.response response with
        | Some inner => HyperliquidSettleResponse.txHash inner
        | None => None
        end with
  | Some h => Some h
  | None =>
      match HyperliquidSettleResponse.txHash_top response with
      | Some h => Some h
      | None => HyperliquidSettleResponse.hash response
      end
  end.

Definition extractUserTransactions (details : value) : list value :=
  let txCollections :=
    [Js.get_opt details "txs"; Js.get_opt details "userFlow";
     Js.get_opt details "actions"; Js.get_opt details "transactions"] in
  match find Js.is_array txCollections with
  | Some (VArray items) => items
  | _ => []
  end.

Definition getTxAction (tx : value) : value :=
  let candidate := Js.coalesce (Js.get_opt tx "action") tx in
  if Js.truthy candidate && String.eqb (Js.typeof candidate) "object"
  then candidate else VUndefined.

Definition toNumber (v : value) : option number :=
  match v with
  | VNumber (Fin q) => Some (Fin q)
  | _ => None
  end.

(** [a === b] for [a : number] and [b : number | undefined] *)
Definition same_number (a : number) (b : option number) : bool :=
  match b with
  | Some b => JsNumber.strict_eq a b
  | None => false
  end.

Definition getTxTimestamp (tx : value) : outcome number :=
  match toNumber (Js.get_opt (Js.get_opt tx "action") "time") with
  | Some actionTime => Returned actionTime
  | None =>
      match Js.get tx "time" with
      | Thrown e => Thrown e
      | Returned t =>
          Returned (match toNumber t with
                    | Some n => n
                    | None => JsNumber.of_Z 0
                    end)
      end
  end.

(** [list.sort((a, b) => key(b) - key(a))] on keys already computed:
    the stable sort by falling key. *)
Fixpoint insert_by_key (x : number * value) (l : list (number * value))
  : list (number * value) :=
  match l with
  | [] => [x]
  | y :: rest =>
      if JsNumber.ge (fst x) (fst y) then x :: y :: rest
      else y :: insert_by_key x rest
  end.

Definition sort_by_key (l : list (number * value)) : list (number * value) :=
  fold_right insert_by_key [] l.

Fixpoint with_timestamps (txs : list value) : outcome (list (number * value)) :=
  match txs with
  | [] => Returned []
  | tx :: rest =>
      match getTxTimestamp tx with
      | Thrown e => Thrown e
      | Returned t =>
          match with_timestamps rest with
          | Thrown e => Thrown e
          | Returned rest' => Returned ((t, tx) :: rest')
          end
      end
  end.

Section WithWorld.
Variable w : World.

Definition stringify (v : value) : option string :=
  match v with
  | VString s => Some s
  | VNumber (Fin q) => Some (NumberToString w q)
  | _ => None
  end.

Definition toLower (v : value) : option string :=
  JsString.toLowerCase <$> stringify v.

Definition equalsIgnoreCase (a b : value) : bool :=
  match toLower a, toLower b with
  | Some lhs, Some rhs => String.eqb lhs rhs
  | _, _ => false
  end.

Definition valuesMatch (candidate expected : value) : bool :=
  if Js.nullish expected then true else equalsIgnoreCase candidate expected.

Definition coerceAmountToNumber (v : value) : option number :=
  match v with
  | VNumber (Fin q) => Some (Fin q)
  | VString s =>
      let parsed := StringToNumber w s in
      if JsNumber.isNaN parsed then None else Some parsed
  | _ => None
  end.

Definition transactionMatchesPayment
    (tx payload : value) (paymentRequirements : PaymentRequirements.t) : outcome bool :=
  let action := getTxAction tx in
  let payloadAction := Js.own payload "action" in
  let destinationMatches :=
    equalsIgnoreCase (Js.get_opt action "destination")
                     (VString (PaymentRequirements.payTo paymentRequirements)) in
  let tokenMatches :=
    equalsIgnoreCase (Js.get_opt action "token")
                     (VString (PaymentRequirements.asset paymentRequirements)) in
  let payloadAmount := coerceAmountToNumber (Js.get_opt payloadAction "amount") in
  let txAmount := coerceAmountToNumber (Js.get_opt action "amount") in
  let amountMatches :=
    match payloadAmount, txAmount with
    | Some p, Some t => JsNumber.strict_eq t p
    | _, _ => false
    end in
  let signatureChainMatches :=
    valuesMatch (Js.get_opt action "signatureChainId")
                (Js.get_opt payloadAction "signatureChainId") in
  let hyperliquidChainMatches :=
    valuesMatch (Js.get_opt action "hyperliquidChain")
                (Js.get_opt payloadAction "hyperliquidChain") in
  let typeMatches :=
    valuesMatch (Js.get_opt action "type") (Js.get_opt payloadAction "type") in
  match match toNumber (Js.get_opt action "time") with
        | Some t => Returned (Some t)
        | None =>
            match Js.get tx "time" with
            | Thrown e => Thrown e
            | Returned t => Returned (toNumber t)
            end
        end with
  | Thrown e => Thrown e
  | Returned txTime =>
      let payloadTime := toNumber (Js.get_opt payloadAction "time") in
      let nonce :=
        match Js.own payload "nonce" with
        | VNumber n => Some n
        | _ => None
        end in
      let timeOrNonceMatches :=
        match payloadTime, nonce with
        | None, None => true
        | _, _ =>
            match txTime with
            | Some t => same_number t payloadTime || same_number t nonce
            | None => false
            end
        end in
      Returned (destinationMatches && tokenMatches && amountMatches
                && signatureChainMatches && hyperliquidChainMatches
                && typeMatches && timeOrNonceMatches)
  end.

(** [userTxs.filter(tx => transactionMatchesPayment(tx, ...))] *)
Fixpoint filter_matching
    (txs : list value) (payload : value) (paymentRequirements : PaymentRequirements.t)
  : outcome (list value) :=
  match txs with
  | [] => Returned []
  | tx :: rest =>
      match transactionMatchesPayment tx payload paymentRequirements with
      | Thrown e => Thrown e
      | Returned keep =>
          match filter_matching rest payload paymentRequirements with
          | Thrown e => Thrown e
          | Returned rest' => Returned (if keep then tx :: rest' else rest')
          end
      end
  end.

(** [typeof hash === "string" && isHexHash(hash)] *)
Definition is_hash_value (v : value) : bool :=
  match v with
  | VString h => isHexHash h
  | _ => false
  end.

(** The body of the [try] of [findMatchingTransactionHash].  The
    comparator of [sort] reads the time stamps of transactions the
    filter has kept; they are read here before the sort. *)
Definition findMatchingTransactionHash_body
    (infoClient : InfoClient) (payer : string) (payload : value)
    (paymentRequirements : PaymentRequirements.t) : M (option string) :=
  let! _ := emit (RequestUserDetails infoClient payer) in
  let! userDetails := lift (userDetails w infoClient payer) in
  let userTxs := extractUserTransactions userDetails in
  let! kept := lift (filter_matching userTxs payload paymentRequirements) in
  let! keyed := lift (with_timestamps kept) in
  let matches := map snd (sort_by_key keyed) in
  let matchingHash := find is_hash_value (map (fun tx => Js.own tx "hash") matches) in
  ret (match matchingHash with
       | Some (VString h) => Some h
       | _ => None
       end).

Definition findMatchingTransactionHash
    (infoClient : InfoClient) (payer : string) (payload : value)
    (paymentRequirements : PaymentRequirements.t) : M (option string) :=
  try_catch
    (findMatchingTransactionHash_body infoClient payer payload paymentRequirements)
    (fun _ => ret None).

Definition submitExchange (endpoint : string) (payload : value)
  : M HyperliquidSettleResponse.t :=
  let request :=
    VObject [("action", Js.own payload "action");
             ("signature", Js.own payload "signature");
             ("nonce", Js.own payload "nonce")] in
  let! body := lift (Json.serializable request) in
  let body := match body with Some b => b | None => VUndefined end in
  let! _ := emit (PostExchange endpoint body) in
  match fetch w endpoint body with
  | FetchRejects e => throw e
  | FetchResponse ok json =>
      if negb ok then throw "Error: hyperliquid_exchange_failed"
      else
        match json with
        | None => throw "Error: hyperliquid_exchange_failed"
        | Some body =>
            match HyperliquidSettleResponse.status body with
            | Some status =>
                if String.eqb status "ok" then ret body
                else throw "Error: hyperliquid_exchange_failed"
            | None => throw "Error: hyperliquid_exchange_failed"
            end
        end
  end.

(** The loop of [confirmTransaction] from [attempt] on, with
    [remaining = CONFIRMATION_RETRIES - attempt] rounds to go. *)
Fixpoint confirm_from
    (infoClient : InfoClient) (hash : string) (remaining attempt : nat)
  : M ConfirmationResult :=
  match remaining with
  | O => ret timeout
  | S remaining' =>
      let! round :=
        try_catch
          (let! _ := Shared.fetchTransactionDetails w infoClient attempt hash in
           ret (Some confirmed))
          (fun error =>
             if JsString.includes (JsString.toLowerCase error) "not found"
             then ret (Some not_found)
             else ret None) in
      match round with
      | Some result => ret result
      | None =>
          let! _ := emit (Delay CONFIRMATION_DELAY_MS) in
          confirm_from infoClient hash remaining' (S attempt)
      end
  end.

Definition confirmTransaction (infoClient : InfoClient) (hash : string)
  : M ConfirmationResult :=
  confirm_from infoClient hash CONFIRMATION_RETRIES 0.

Definition settle
    (paymentPayload : PaymentPayload.t)
    (paymentRequirements : PaymentRequirements.t) : M SettleResponse.t :=
  if negb (String.eqb (PaymentPayload.scheme paymentPayload) SCHEME)
     || negb (String.eqb (PaymentRequirements.scheme paymentRequirements) SCHEME)
     || negb (String.eqb (PaymentPayload.network paymentPayload)
                         (PaymentRequirements.network paymentRequirements))
     || negb (includes_network SupportedHLNetworks
                               (PaymentRequirements.network paymentRequirements))
  then lift (failureResponse invalid_exact_hl_network
               paymentRequirements paymentPayload None None)
  else
    let payload := PaymentPayload.payload paymentPayload in
    let action := Js.get_opt payload "action" in
    if negb (Js.truthy action) || negb (String.eqb (Js.typeof action) "object")
    then lift (failureResponse invalid_exact_hl_payload
                 paymentRequirements paymentPayload None None)
    else
      let! payer := lift (extractPayer payload) in
      let! endpoint := lift (Shared.getExchangeBaseUrl
                               (PaymentRequirements.network paymentRequirements)) in
      let! infoClient := lift (Shared.createInfoClient
                                 (PaymentRequirements.network paymentRequirements)) in
      try_catch
        (let! exchangeResponse := submitExchange endpoint payload in
         let exchangeTxHash := extractExchangeTxHash exchangeResponse in
         let payer_known := negb (Verify.missing payer) in
         let! matchedHash :=
           match payer with
           | Some p =>
               if payer_known
               then findMatchingTransactionHash infoClient p payload paymentRequirements
               else ret None
           | None => ret None
           end in
         if payer_known && Verify.missing matchedHash
         then lift (failureResponse hl_tx_not_found
                      paymentRequirements paymentPayload exchangeTxHash payer)
         else
           let txHash :=
             match matchedHash with
             | Some h => Some h
             | None => exchangeTxHash
             end in
           match txHash with
           | None =>
               lift (failureResponse hl_tx_not_found
                       paymentRequirements paymentPayload exchangeTxHash payer)
           | Some txHash =>
               if JsString.is_empty txHash || negb (isHexHash txHash)
               then lift (failureResponse hl_tx_not_found
                            paymentRequirements paymentPayload exchangeTxHash payer)
               else
                 let! confirmationResult := confirmTransaction infoClient txHash in
                 match confirmationResult with
                 | not_found =>
                     lift (failureResponse hl_tx_not_found
                             paymentRequirements paymentPayload (Some txHash) payer)
                 | timeout =>
                     lift (failureResponse hl_tx_unconfirmed
                             paymentRequirements paymentPayload (Some txHash) payer)
                 | confirmed =>
                     ret {| SettleResponse.success := true;
                            SettleResponse.errorReason := None;
                            SettleResponse.transaction := txHash;
                            SettleResponse.network :=
                              PaymentRequirements.network paymentRequirements;
                            SettleResponse.payer := payer |}
                 end
           end)
        (fun _ =>
           lift (failureResponse hl_exchange_error
                   paymentRequirements paymentPayload None None)).

End WithWorld.
End Settle.

(* ================================================================== *)
(** ** The schema combinators of zod that [x402Specs.ts] uses *)
(* ================================================================== *)

(** A schema is its [parse]: the value it gives back, or the ZodError. *)
Definition schema : Type := value -> outcome value.

Module Zod.

Definition invalid : outcome value := Thrown "ZodError".

(** [z.any()] *)
Definition any : schema := fun v => Returned v.

(** [z.string()] *)
Definition string_ : schema :=
  fun v => match v with VString _ => Returned v | _ => invalid end.

(** [z.string().min(1)] *)
Definition string_min1 : schema :=
  fun v => match v with
           | VString s => if JsString.is_empty s then invalid else Returned v
           | _ => invalid
           end.

(** [z.number()]: a number that is not NaN. *)
Definition number_ : schema :=
  fun v => match v with
           | VNumber NaN => invalid
           | VNumber _ => Returned v
           | _ => invalid
           end.

(** [z.number().int().positive()] *)
Definition number_int_positive : schema :=
  fun v => match v with
           | VNumber (Fin q) =>
               match JsNumber.as_integer q with
               | Some z => if 0 <? z then Returned v else invalid
               | None => invalid
               end
           | _ => invalid
           end.

(** [s.refine(check)] *)
Definition refine (s : schema) (check : value -> bool) : schema :=
  fun v => match s v with
           | Returned r => if check r then Returned r else invalid
           | Thrown e => Thrown e
           end.

(** [z.enum(options)] *)
Definition enum (options : list string) : schema :=
  fun v => match v with
           | VString s => if includes_network options s then Returned v else invalid
           | _ => invalid
           end.

(** [s.optional()] *)
Definition optional (s : schema) : schema :=
  fun v => match v with VUndefined => Returned VUndefined | _ => s v end.

(** [z.union(options)]: the first option that accepts. *)
Fixpoint union (options : list schema) : schema :=
  fun v => match options with
           | [] => invalid
           | s :: rest =>
               match s v with
               | Returned r => Returned r
               | Thrown _ => union rest v
               end
           end.

(** [z.record(z.any())]: an object that is not an array, as it is. *)
Definition record_any : schema :=
  fun v => match v with VObject _ => Returned v | _ => invalid end.

(** The properties [z.object(shape)] builds from those of the input:
    the keys of the shape, in its order, unknown keys dropped; a key is
    set when its parsed value is defined or the input has the key. *)
Fixpoint object_fields (shape : list (string * schema)) (props : list (string * value))
  : outcome (list (string * value)) :=
  match shape with
  | [] => Returned []
  | (k, s) :: rest =>
      match s (Js.lookup k props) with
      | Thrown e => Thrown e
      | Returned r =>
          match object_fields rest props with
          | Thrown e => Thrown e
          | Returned fields =>
              Returned (if negb (match r with VUndefined => true | _ => false end)
                           || Js.has_key k props
                        then (k, r) :: fields else fields)
          end
      end
  end.

(** [z.object(shape)] *)
Definition object (shape : list (string * schema)) : schema :=
  fun v => match v with
           | VObject props =>
               match object_fields shape props with
               | Returned fields => Returned (VObject fields)
               | Thrown e => Thrown e
               end
           | _ => invalid
           end.

End Zod.

(* ================================================================== *)
(** ** [types/verify/x402Specs.ts] and [types/shared/network.ts] *)
(* ================================================================== *)

Module X402Specs.

(** [NetworkSchema] *)
Definition networks : list string :=
  ["abstract"; "abstract-testnet"; "base-sepolia"; "base"; "avalanche-fuji";
   "avalanche"; "iotex"; "solana-devnet"; "solana"; "sei"; "sei-testnet";
   "polygon"; "polygon-amoy"; "peaq"; "story"; "educhain"; "skale-base-sepolia";
   "hyperliquid-testnet"; "hyperliquid"].

Definition NetworkSchema : schema := Zod.enum networks.

(** Modelled from the spec: [schemes] and [x402Versions], whose
    declarations are not among the sources; the scheme is "a fixed
    discriminator, currently one value", and the one version in use is 1. *)
Definition schemes : list string := [SCHEME].
Definition x402Versions : list number := [JsNumber.of_Z 1].

(** [ExactHlPayloadSchema] *)
Definition ExactHlPayloadSchema : schema :=
  Zod.object
    [("action", Zod.record_any);
     ("signature",
      Zod.union [Zod.string_min1;
                 Zod.object [("r", Zod.string_); ("s", Zod.string_); ("v", Zod.number_)]]);
     ("nonce", Zod.number_int_positive)].

Section Families.
(** The payload schemas of the two other families are not among the
    sources. *)
Variables ExactEvmPayloadSchema ExactSvmPayloadSchema : schema.

Definition PaymentPayloadSchema : schema :=
  Zod.object
    [("x402Version",
      Zod.refine Zod.number_
        (fun val => match val with
                    | VNumber n => existsb (JsNumber.strict_eq n) x402Versions
                    | _ => false
                    end));
     ("scheme", Zod.enum schemes);
     ("network", NetworkSchema);
     ("payload",
      Zod.union [ExactEvmPayloadSchema; ExactSvmPayloadSchema; ExactHlPayloadSchema])].

End Families.
End X402Specs.

(* ================================================================== *)
(** ** [schemes/exact/evm/utils/paymentUtils.ts] *)
(* ================================================================== *)

(** What the codec takes from outside the sources: the two other network
    families, the base64 helpers of [shared], the text side of [JSON], and
    the payload schemas of the two other families. *)
Module Codec.
Record t : Type := {
  SupportedEVMNetworks : list string;
  SupportedSVMNetworks : list string;
  safeBase64Encode : string -> string;
  safeBase64Decode : string -> outcome string;
  (** the JSON text of a value that [Json.serializable] has passed *)
  JSON_text : value -> string;
  (** [JSON.parse] *)
  JSON_parse : string -> outcome value;
  ExactEvmPayloadSchema : schema;
  ExactSvmPayloadSchema : schema
}.
End Codec.

Module PaymentUtils.

(** [list.includes(v)] for a list of network names *)
Definition includes (l : list string) (v : value) : bool :=
  match v with
  | VString n => includes_network l n
  | _ => false
  end.

(** The decimal text of a natural number, and [z.toString()] of a BigInt. *)
Definition index_key (i : nat) : string := NilZero.string_of_uint (Nat.to_uint i).
Definition bigint_toString (z : Z) : string := NilZero.string_of_int (Z.to_int z).

Fixpoint indexed (i : nat) (items : list value) : list (string * value) :=
  match items with
  | [] => []
  | x :: rest => (index_key i, x) :: indexed (S i) rest
  end.

Fixpoint chars (s : string) : list value :=
  match s with
  | EmptyString => []
  | String c r => VString (String c EmptyString) :: chars r
  end.

(** The own enumerable properties a spread [{...v}] copies. *)
Definition spread (v : value) : list (string * value) :=
  match v with
  | VObject props => props
  | VArray items => indexed 0 items
  | VString s => indexed 0 (chars s)
  | _ => []
  end.

(** [{...props, k: v}]: the key keeps its place when it is there. *)
Fixpoint set_prop (k : string) (v : value) (props : list (string * value))
  : list (string * value) :=
  match props with
  | [] => [(k, v)]
  | (k', v') :: rest =>
      if String.eqb k k' then (k, v) :: rest else (k', v') :: set_prop k v rest
  end.

(** [Object.entries(v)] *)
Definition Object_entries (v : value) : outcome (list (string * value)) :=
  if Js.nullish v then Thrown "TypeError: Cannot convert undefined or null to object"
  else Returned (spread v).

(** [Object.fromEntries(entries)] *)
Definition Object_fromEntries (entries : list (string * value)) : value :=
  VObject (fold_left (fun acc kv => set_prop (fst kv) (snd kv) acc) entries []).

(** [JSON.stringify(v)]; [None] is [undefined]. *)
Definition JSON_stringify (c : Codec.t) (v : value) : outcome (option string) :=
  match Json.serializable v with
  | Thrown e => Thrown e
  | Returned (Some j) => Returned (Some (Codec.JSON_text c j))
  | Returned None => Returned None
  end.

Section WithCodec.
Variable c : Codec.t.

(** [safeBase64Encode(JSON.stringify(safe))].  [safe] is an object, the
    text is never [undefined]. *)
Definition stringify_and_encode (safe : value) : outcome string :=
  match JSON_stringify c safe with
  | Thrown e => Thrown e
  | Returned (Some text) => Returned (Codec.safeBase64Encode c text)
  | Returned None => Thrown "TypeError: not a string"
  end.

Definition PaymentPayloadSchema : schema :=
  X402Specs.PaymentPayloadSchema
    (Codec.ExactEvmPayloadSchema c) (Codec.ExactSvmPayloadSchema c).

Definition encodePayment (payment : value) : outcome string :=
  match Js.get payment "network" with
  | Thrown e => Thrown e
  | Returned network =>
      if includes (Codec.SupportedEVMNetworks c) network then
        let evmPayload := Js.own payment "payload" in
        match Js.get evmPayload "authorization" with
        | Thrown e => Thrown e
        | Returned authorization =>
            match Object_entries authorization with
            | Thrown e => Thrown e
            | Returned entries =>
                let safe :=
                  VObject
                    (set_prop "payload"
                       (VObject
                          (set_prop "authorization"
                             (Object_fromEntries
                                (map (fun kv =>
                                        (fst kv,
                                         match snd kv with
                                         | VBigInt z => VString (bigint_toString z)
                                         | v => v
                                         end)) entries))
                             (spread evmPayload)))
                       (spread payment)) in
                stringify_and_encode safe
            end
        end
      else if includes (Codec.SupportedSVMNetworks c) network then
        let safe :=
          VObject (set_prop "payload" (Js.own payment "payload") (spread payment)) in
        stringify_and_encode safe
      else if includes SupportedHLNetworks network then
        let safe :=
          VObject (set_prop "payload" (Js.own payment "payload") (spread payment)) in
        stringify_and_encode safe
      else Thrown "Error: Invalid network"
  end.

Definition decodePayment (payment : string) : outcome value :=
  match Codec.safeBase64Decode c payment with
  | Thrown e => Thrown e
  | Returned decoded =>
      match Codec.JSON_parse c decoded with
      | Thrown e => Thrown e
      | Returned parsed =>
          match Js.get parsed "network" with
          | Thrown e => Thrown e
          | Returned network =>
              let obj :=
                VObject (set_prop "payload" (Js.own parsed "payload") (spread parsed)) in
              if includes (Codec.SupportedEVMNetworks c) network then
                PaymentPayloadSchema obj
              else if includes (Codec.SupportedSVMNetworks c) network then
                PaymentPayloadSchema obj
              else if includes SupportedHLNetworks network then
                PaymentPayloadSchema obj
              else Thrown "Error: Invalid network"
          end
      end
  end.

End WithCodec.
End PaymentUtils.

(* ================================================================== *)
(** ** [shared/hyperliquid/index.ts]: the network configuration *)
(* ================================================================== *)

Module SharedConfig.

(** [HyperliquidNetworkConfig] *)
Record HyperliquidNetworkConfig : Type := {
  token : string;
  decimals : number;
  signatureChainId : string
}.

(** [map.get(key)] for a [Map] with string keys, as a list of its
    entries. *)
Fixpoint Map_get {A : Type} (key : string) (entries : list (string * A)) : option A :=
  match entries with
  | [] => None
  | (k, v) :: rest => if String.eqb key k then Some v else Map_get key rest
  end.

(** [HlNetworkToChainName] of [types/shared/network.ts]. *)
Definition HlNetworkToChainName : list (string * string) :=
  [("hyperliquid-testnet", "Testnet"); ("hyperliquid", "Mainnet")].

Section WithChain.
(** [toHex(arbitrum.id)]: the chain and [toHex] are viem's. *)
Variable arbitrumChainIdHex : string.

Definition HyperliquidNetworkConfigs : list (string * HyperliquidNetworkConfig) :=
  [("hyperliquid-testnet",
    {| token := "USDC:0xeb62eee3685fc4c43992febcd9e75443";
       decimals := JsNumber.of_Z 6;
       signatureChainId := arbitrumChainIdHex |});
   ("hyperliquid",
    {| token := "USDC:0xeb62eee3685fc4c43992febcd9e75443";
       decimals := JsNumber.of_Z 6;
       signatureChainId := arbitrumChainIdHex |})].

Definition getHyperliquidNetworkConfig (network : string)
  : outcome HyperliquidNetworkConfig :=
  match Shared.assertHyperliquidNetwork network with
  | Thrown e => Thrown e
  | Returned _ =>
      match Map_get network HyperliquidNetworkConfigs with
      | Some config => Returned config
      | None => Thrown ("Error: Missing Hyperliquid config for " ++ network)
      end
  end.

(** The object [{ address, decimals }]. *)
Definition getDefaultHyperliquidAsset (network : string) : outcome (string * number) :=
  match getHyperliquidNetworkConfig network with
  | Thrown e => Thrown e
  | Returned config => Returned (token config, decimals config)
  end.

Definition getHyperliquidSignatureChainId (network : string) : outcome string :=
  match getHyperliquidNetworkConfig network with
  | Thrown e => Thrown e
  | Returned config => Returned (signatureChainId config)
  end.

End WithChain.

Definition getHyperliquidChain (network : string) : outcome string :=
  match Shared.assertHyperliquidNetwork network with
  | Thrown e => Thrown e
  | Returned _ =>
      match Map_get network HlNetworkToChainName with
      | Some chain =>
          if JsString.is_empty chain
          then Thrown ("Error: Missing Hyperliquid chain mapping for " ++ network)
          else Returned chain
      | None => Thrown ("Error: Missing Hyperliquid chain mapping for " ++ network)
      end
  end.

End SharedConfig.

(* ================================================================== *)
(** ** [schemes/exact/hyperliquid/client.ts] *)
(* ================================================================== *)

(** What the client takes from the Hyperliquid SDK and from viem. *)
Module Sdk.
Record t : Type := {
  (** [parser(SpotSendRequest)] *)
  parseSpotSendRequest : value -> outcome value;
  (** [signUserSignedAction({ wallet, action, types: SpotSendTypes })],
      by the wallet and the action *)
  signUserSignedAction : value -> value -> outcome value;
  (** [toHex(arbitrum.id)] *)
  arbitrumChainIdHex : string
}.
End Sdk.

Module Client.

(** [Math.trunc(n)] on a finite number. *)
Definition trunc (q : Q) : Z := Z.quot (Qnum q) (Zpos (Qden q)).

(** [s.padStart(n, "0")] *)
Definition padStart0 (s : string) (n : nat) : string :=
  JsString.zeros (n - String.length s) ++ s.

(** [s.replace(/0+$/, "")] *)
Definition strip_trailing_zeros (s : string) : string :=
  JsString.rev (JsString.drop_while (Ascii.eqb "0") (JsString.rev s)).

(** BigInt division and remainder round toward zero. *)
Definition formatDecimalAmount (amount : string) (decimals : option number)
  : outcome string :=
  match decimals with
  | Some (Fin q) =>
      if JsNumber.le (Fin q) (JsNumber.of_Z 0) then Returned amount
      else
        let normalizedDecimals := trunc q in
        match Verify.BigInt_of_string amount with
        | Thrown e => Thrown e
        | Returned bigAmount =>
            let divisor := 10 ^ normalizedDecimals in
            let whole := Z.quot bigAmount divisor in
            let remainder := Z.rem bigAmount divisor in
            if remainder =? 0 then Returned (PaymentUtils.bigint_toString whole)
            else
              let remainderStr :=
                strip_trailing_zeros
                  (padStart0 (PaymentUtils.bigint_toString remainder)
                     (Z.to_nat normalizedDecimals)) in
              Returned (PaymentUtils.bigint_toString whole ++ "." ++ remainderStr)
        end
  | _ => Returned amount
  end.

Definition getWalletAddress (wallet : value) : outcome string :=
  match Js.get wallet "address" with
  | Thrown e => Thrown e
  | Returned own_address =>
      match (if Js.nullish own_address
             then match Js.get wallet "account" with
                  | Thrown e => Thrown e
                  | Returned account => Returned (Js.get_opt account "address")
                  end
             else Returned own_address) with
      | Thrown e => Thrown e
      | Returned (VString address) =>
          if JsString.startsWith (JsString.toLowerCase address) "0x"
          then Returned address
          else Thrown "Error: Hyperliquid wallet missing address"
      | Returned _ => Thrown "Error: Hyperliquid wallet missing address"
      end
  end.

Section WithWorld.
Variable sdk : Sdk.t.
Variable w : World.

Definition resolveHyperliquidDecimals (paymentRequirements : PaymentRequirements.t)
  : M (option number) :=
  let existing := Js.get_opt (PaymentRequirements.extra paymentRequirements) "decimals" in
  match existing with
  | VNumber n => ret (Some n)
  | _ =>
      let tokenId :=
        if JsString.startsWith (PaymentRequirements.asset paymentRequirements) "0x"
        then Some (PaymentRequirements.asset paymentRequirements)
        else None in
      match tokenId with
      | None => ret None
      | Some tokenId =>
          if JsString.is_empty tokenId then ret None
          else
            try_catch
              (let! tokenInfo := Shared.fetchHyperliquidTokenInfo w
                                   (PaymentRequirements.network paymentRequirements) tokenId in
               ret (Some (HyperliquidTokenInfo.decimals tokenInfo)))
              (fun _ => ret None)
      end
  end.

Definition resolveTokenString (paymentRequirements : PaymentRequirements.t) : M string :=
  let current := PaymentRequirements.asset paymentRequirements in
  if JsString.includes current ":" then ret current
  else
    let tokenId := current in
    let symbol :=
      Verify.string_or_undefined
        (Js.get_opt (PaymentRequirements.extra paymentRequirements) "tokenSymbol") in
    if negb (Verify.missing symbol)
    then ret (match symbol with Some s => s | None => "" end ++ ":" ++ tokenId)
    else
      let! fetched :=
        try_catch
          (let! info := Shared.fetchHyperliquidTokenInfo w
                          (PaymentRequirements.network paymentRequirements) tokenId in
           ret (if negb (Verify.missing (HyperliquidTokenInfo.symbol info))
                then Some (match HyperliquidTokenInfo.symbol info with
                           | Some s => s
                           | None => ""
                           end ++ ":" ++ tokenId)
                else None))
          (fun _ => ret None) in
      ret (match fetched with
           | Some tokenString => tokenString
           | None => "TOKEN:" ++ tokenId
           end).

(** The request the client has the SDK parse: the action, the nonce and
    a placeholder signature. *)
Definition spotSendRequest
    (hyperliquidChain destination token amount : string) (nonce : number) : value :=
  VObject
    [("action",
      VObject [("type", VString "spotSend");
               ("signatureChainId", VString (Sdk.arbitrumChainIdHex sdk));
               ("hyperliquidChain", VString hyperliquidChain);
               ("destination", VString destination);
               ("token", VString token);
               ("amount", VString amount);
               ("time", VNumber nonce)]);
     ("nonce", VNumber nonce);
     ("signature",
      VObject [("r", VString "0x0000000000000000000000000000000000000000000000000000000000000000");
               ("s", VString "0x0000000000000000000000000000000000000000000000000000000000000000");
               ("v", VNumber (JsNumber.of_Z 27))])].

Definition createPaymentPayload
    (wallet : value) (x402Version : number)
    (paymentRequirements : PaymentRequirements.t) : M PaymentPayload.t :=
  let! signerAddress := lift (getWalletAddress wallet) in
  let! decimals := resolveHyperliquidDecimals paymentRequirements in
  let nonce := JsNumber.of_Z (now w) in
  let! hyperliquidChain :=
    lift (SharedConfig.getHyperliquidChain
            (PaymentRequirements.network paymentRequirements)) in
  let! token := resolveTokenString paymentRequirements in
  let! amount :=
    lift (formatDecimalAmount
            (PaymentRequirements.maxAmountRequired paymentRequirements) decimals) in
  let! request :=
    lift (Sdk.parseSpotSendRequest sdk
            (spotSendRequest hyperliquidChain
               (PaymentRequirements.payTo paymentRequirements) token amount nonce)) in
  let! action := lift (Js.get request "action") in
  let! signature := lift (Sdk.signUserSignedAction sdk wallet action) in
  ret {| PaymentPayload.x402Version := x402Version;
         PaymentPayload.scheme := PaymentRequirements.scheme paymentRequirements;
         PaymentPayload.network := PaymentRequirements.network paymentRequirements;
         PaymentPayload.payload :=
           VObject [("action", action);
                    ("signature", signature);
                    ("nonce", VNumber nonce);
                    ("user", VString signerAddress)] |}.

End WithWorld.
End Client.

(* ================================================================== *)
(** * Vocabulary of the statements *)
(* ================================================================== *)

Module VerifySpec.

Import Verify.

(** The first check of [verify] and of [settle] lets the pair through. *)
Definition guard_passes (pp : PaymentPayload.t) (pr : PaymentRequirements.t) : Prop :=
  PaymentPayload.scheme pp = SCHEME
  /\ PaymentRequirements.scheme pr = SCHEME
  /\ PaymentPayload.network pp = PaymentRequirements.network pr
  /\ In (PaymentRequirements.network pr) SupportedHLNetworks.

(** The payload carries an action whose [destination], [token] and
    [amount] are the given non-empty strings. *)
Definition carries (pp : PaymentPayload.t) (action : value)
    (destination token amount : string) : Prop :=
  Js.get (PaymentPayload.payload pp) "action" = Returned action
  /\ Js.own action "destination" = VString destination
  /\ Js.own action "token" = VString token
  /\ Js.own action "amount" = VString amount
  /\ destination <> "" /\ token <> "" /\ amount <> "".

(** The action is not a structured record, or one of the three fields
    is not a non-empty string. *)
Definition lacks_fields (action : value) : Prop :=
  Js.truthy action = false
  \/ Js.typeof action <> "object"
  \/ missing (string_or_undefined (Js.own action "destination")) = true
  \/ missing (string_or_undefined (Js.own action "token")) = true
  \/ missing (string_or_undefined (Js.own action "amount")) = true.

Definition accept (payer : option string) : VerifyResponse.t :=
  {| VerifyResponse.isValid := true;
     VerifyResponse.invalidReason := None;
     VerifyResponse.payer := payer |}.

(** What [verify] answers once the guard is passed and the three fields
    are there: the checks that remain, in the order of the code. *)
Definition verdict (w : World) (pp : PaymentPayload.t) (pr : PaymentRequirements.t)
    (action : value) (destination token amount : string) (s : State)
  : outcome VerifyResponse.t * State :=
  if negb (String.eqb (JsString.toLowerCase destination)
                      (JsString.toLowerCase (PaymentRequirements.payTo pr)))
  then (Returned (reject invalid_exact_hl_payload_recipient_mismatch), s)
  else if negb (String.eqb token (PaymentRequirements.asset pr))
  then (Returned (reject invalid_exact_hl_payload_asset_mismatch), s)
  else
    match resolveDecimals w pr s with
    | (Thrown e, s') => (Thrown e, s')
    | (Returned decimals, s') =>
        if negb (ensureAmountMeetsRequirement w amount
                   (PaymentRequirements.maxAmountRequired pr) decimals)
        then (Returned (reject invalid_exact_hl_payload_amount_mismatch), s')
        else if negb (withinTtl (now w) (Js.own action "time")
                        (PaymentRequirements.maxTimeoutSeconds pr))
        then (Returned (reject payment_expired), s')
        else
          match extractPayer (PaymentPayload.payload pp) with
          | Returned payer => (Returned (accept payer), s')
          | Thrown e => (Thrown e, s')
          end
    end.

(** The instant a payment expires, as [withinTtl] computes it:
    [actionTime + maxTimeoutSeconds * 1000], the product and the sum
    each rounded to binary64. *)
Definition expiresAt (time maxTimeoutSeconds : Q) : number :=
  JsNumber.add (Fin time) (JsNumber.mul (Fin maxTimeoutSeconds) (JsNumber.of_Z 1000)).

(** A whole number that binary64 holds as it is. *)
Definition safe_integer (z : Z) : Prop := Z.abs z <= 2 ^ 53.

(** A time value of [Date]: within 8.64e15 milliseconds of the epoch. *)
Definition time_value (z : Z) : Prop := Z.abs z <= 8640000000000000.

(** A reading of the clock: a time value not before the epoch. *)
Definition clock_reading (z : Z) : Prop := 0 <= z <= 8640000000000000.

(** The calls of [fetchHyperliquidTokenInfo] a log records. *)
Definition lookups (l : list event) : list (string * string) :=
  flat_map (fun e => match e with
                     | CallFetchTokenInfo n t => [(n, t)]
                     | _ => []
                     end) l.

(** A bare hex token id: no [SYMBOL:] prefix, starts with [0x]. *)
Definition is_bare_hex_token_id (asset : string) : bool :=
  (length (JsString.split ":" asset) =? 1)%nat && JsString.startsWith asset "0x".

(** The token id [verify] looks up for an asset string: the part after
    the colon of a string with exactly one colon, else the part before
    the first colon when it starts with [0x]; never an empty one. *)
Definition token_id (asset : string) : option string :=
  match JsString.split ":" asset with
  | [_; id] => if JsString.is_empty id then None else Some id
  | first :: _ => if JsString.startsWith first "0x" then Some first else None
  | [] => None
  end.

(** What one call of [fetchHyperliquidTokenInfo] yields for the decimals,
    from the cache or else from the network. *)
Definition looked_up_decimals (w : World) (network tokenId : string) (s : State)
  : option number :=
  if includes_network SupportedHLNetworks network then
    match hyperliquidTokenInfoCache s
            !! (network ++ ":" ++ JsString.toLowerCase tokenId) with
    | Some info => Some (HyperliquidTokenInfo.decimals info)
    | None =>
        match tokenDetails w
                {| isTestnet := String.eqb network "hyperliquid-testnet" |} tokenId with
        | Returned r => Some (weiDecimals r)
        | Thrown _ => None
        end
    end
  else None.

(** No character of [s] is [sep]. *)
Definition free_of (sep : ascii) (s : string) : bool :=
  JsString.all_chars (fun c => negb (Ascii.eqb c sep)) s.

(** The rule of the specification for assets without [extra.decimals]:
    an asset string that is not a bare hex token id leaves the decimals
    undefined and causes no lookup. *)
Definition only_bare_hex_ids_are_looked_up : Prop :=
  forall (w : World) (pr : PaymentRequirements.t) (s : State),
    (forall n, Js.get_opt (PaymentRequirements.extra pr) "decimals" <> VNumber n) ->
    is_bare_hex_token_id (PaymentRequirements.asset pr) = false ->
    resolveDecimals w pr s = (Returned None, s).

End VerifySpec.

(** The amount rule in the words of the specification. *)
Module AmountSpec.

(** The fractional part cut or zero-padded to exactly [decimals] digits. *)
Definition exact_fraction (fraction : string) (decimals : nat) : string :=
  JsString.take decimals (fraction ++ JsString.zeros decimals).

(** Split on ".", fit the fraction, read the concatenation as an integer. *)
Definition atomic (amount : string) (decimals : nat) : option Z :=
  let parts := JsString.split "." amount in
  JsString.parse_digits 10
    (nth 0 parts "" ++ exact_fraction (nth 1 parts "") decimals).

(** [atomic >= maxAmountRequired], as integers. *)
Definition meets (amount required : string) (decimals : nat) : bool :=
  match atomic amount decimals, JsString.toBigInt required with
  | Some a, Some r => r <=? a
  | _, _ => false
  end.

End AmountSpec.

(** Inputs the statements are tried on. *)
Module Sample.

Definition TOKEN : string := "USDC:0xeb62eee3685fc4c43992febcd9e75443".
Definition PAY_TO : string := "0xaaaaaaaaaaaaaaaaaaaaaaaaaaaaaaaaaaaaaaaa".
Definition PAYER : string := "0xbbbbbbbbbbbbbbbbbbbbbbbbbbbbbbbbbbbbbbbb".
Definition TX_HASH : string :=
  "0x2222222222222222222222222222222222222222222222222222222222222222".
Definition TIMESTAMP : Z := 1700000000000.

Definition requirements (asset : string) (extra : value) : PaymentRequirements.t :=
  {| PaymentRequirements.scheme := "exact";
     PaymentRequirements.network := "hyperliquid";
     PaymentRequirements.maxAmountRequired := "1000000";
     PaymentRequirements.resource := "https://example.com/protected";
     PaymentRequirements.description := "Test";
     PaymentRequirements.mimeType := "application/json";
     PaymentRequirements.payTo := PAY_TO;
     PaymentRequirements.maxTimeoutSeconds := JsNumber.of_Z 300;
     PaymentRequirements.asset := asset;
     PaymentRequirements.extra := extra |}.

Definition baseRequirements : PaymentRequirements.t :=
  requirements TOKEN (VObject [("decimals", VNumber (JsNumber.of_Z 6))]).

Definition action (destination token amount : string) (time : Z) : value :=
  VObject [("type", VString "spotSend");
           ("signatureChainId", VString "0xa4b1");
           ("hyperliquidChain", VString "Testnet");
           ("destination", VString destination);
           ("token", VString token);
           ("amount", VString amount);
           ("time", VNumber (JsNumber.of_Z time))].

(** The action of the base payment with another [time], and
    requirements with a time-out of 1.7e9 seconds. *)
Definition timed (time : Q) : value :=
  VObject [("type", VString "spotSend");
           ("signatureChainId", VString "0xa4b1");
           ("hyperliquidChain", VString "Testnet");
           ("destination", VString PAY_TO);
           ("token", VString TOKEN);
           ("amount", VString "1");
           ("time", VNumber (Fin time))].

Definition patient : PaymentRequirements.t :=
  {| PaymentRequirements.scheme := "exact";
     PaymentRequirements.network := "hyperliquid";
     PaymentRequirements.maxAmountRequired := "1000000";
     PaymentRequirements.resource := "https://example.com/protected";
     PaymentRequirements.description := "Test";
     PaymentRequirements.mimeType := "application/json";
     PaymentRequirements.payTo := PAY_TO;
     PaymentRequirements.maxTimeoutSeconds := JsNumber.of_Z 1700000000;
     PaymentRequirements.asset := TOKEN;
     PaymentRequirements.extra := VObject [("decimals", VNumber (JsNumber.of_Z 6))] |}.

Definition payment (act : value) : PaymentPayload.t :=
  {| PaymentPayload.x402Version := JsNumber.of_Z 1;
     PaymentPayload.scheme := "exact";
     PaymentPayload.network := "hyperliquid";
     PaymentPayload.payload :=
       VObject [("action", act);
                ("signature", VString "0x1111");
                ("nonce", VNumber (JsNumber.of_Z TIMESTAMP));
                ("user", VString PAYER)] |}.

Definition basePayload : PaymentPayload.t :=
  payment (action PAY_TO TOKEN "1" TIMESTAMP).

(** A payment that names no payer. *)
Definition anonymousPayload : PaymentPayload.t :=
  {| PaymentPayload.x402Version := JsNumber.of_Z 1;
     PaymentPayload.scheme := "exact";
     PaymentPayload.network := "hyperliquid";
     PaymentPayload.payload :=
       VObject [("action", action PAY_TO TOKEN "1" TIMESTAMP);
                ("signature", VString "0x1111");
                ("nonce", VNumber (JsNumber.of_Z TIMESTAMP))] |}.

Definition ack (txHash : option string) : HyperliquidSettleResponse.t :=
  {| HyperliquidSettleResponse.status := Some "ok";
     HyperliquidSettleResponse.response := Some {| HyperliquidSettleResponse.txHash := None |};
     HyperliquidSettleResponse.txHash_top := txHash;
     HyperliquidSettleResponse.hash := None |}.

(** A host in the manner of the mock of [settle.test.ts]: the exchange
    acknowledges with [reply], the account history is [history], and the
    [n]-th detail lookup is answered by [details n]. *)
Definition world (reply : FetchReply) (history : list value)
    (details : nat -> outcome value) : World :=
  {| now := TIMESTAMP;
     StringToNumber := fun s =>
       match JsString.parse_digits 10 s with
       | Some z => JsNumber.of_Z z
       | None => NaN
       end;
     NumberToString := fun _ => "";
     tokenDetails := fun _ _ => Returned {| weiDecimals := JsNumber.of_Z 6; name := "USDC" |};
     fetch := fun _ _ => reply;
     userDetails := fun _ _ =>
       Returned (VObject [("type", VString "userDetails"); ("txs", VArray history)]);
     txDetails := fun _ n _ => details n |}.

Definition userTx (hash : string) (act : value) : value :=
  VObject [("hash", VString hash);
           ("time", VNumber (JsNumber.of_Z TIMESTAMP));
           ("action", act)].

Definition found (hash : string) : outcome value :=
  Returned (VObject [("type", VString "txDetails");
                     ("tx", VObject [("hash", VString hash)])]).

(** A history entry that matches the base payment and whose id is not a
    well-formed hash, and a host whose exchange acknowledges with a
    well-formed id of its own. *)
Definition malformed_entry : value :=
  userTx "0xabc" (action PAY_TO TOKEN "1" TIMESTAMP).

Definition passed_over : World :=
  world (FetchResponse true (Some (ack (Some TX_HASH)))) [malformed_entry]
    (fun _ => found TX_HASH).

(** The action of a payment that names another destination than
    [payTo], and a host whose history holds a transaction with that very
    action. *)
Definition sent_elsewhere : value :=
  action "0xdddddddddddddddddddddddddddddddddddddddd" TOKEN "1" TIMESTAMP.

Definition elsewhere : World :=
  world (FetchResponse true (Some (ack None))) [userTx TX_HASH sent_elsewhere]
    (fun _ => found TX_HASH).

Definition calm : World :=
  world (FetchResponse true (Some (ack (Some TX_HASH))))
        [userTx TX_HASH (action PAY_TO TOKEN "1" TIMESTAMP)]
        (fun _ => found TX_HASH).

End Sample.

Module SettleSpec.

Import Settle.

(** [v && typeof v === "object"] *)
Definition is_structured (v : value) : bool :=
  Js.truthy v && String.eqb (Js.typeof v) "object".

Definition endpoint_of (network : string) : string :=
  if String.eqb network "hyperliquid-testnet"
  then "https://api.hyperliquid-testnet.xyz/exchange"
  else "https://api.hyperliquid.xyz/exchange".

Definition client_of (network : string) : InfoClient :=
  {| isTestnet := String.eqb network "hyperliquid-testnet" |}.

(** The payload is a member of the payload union as far as [settle]
    reads it: an object whose [action], when it has one, is a record. *)
Definition envelope_shape (payload : value) : Prop :=
  exists props,
    payload = VObject props
    /\ (Js.has_key "action" props = true ->
        exists fields, Js.lookup "action" props = VObject fields).

Definition failure (reason : ErrorReason) (pr : PaymentRequirements.t)
    (transaction : string) (payer : option string) : SettleResponse.t :=
  {| SettleResponse.success := false;
     SettleResponse.errorReason := Some reason;
     SettleResponse.transaction := transaction;
     SettleResponse.network := PaymentRequirements.network pr;
     SettleResponse.payer := payer |}.

Definition settled (pr : PaymentRequirements.t)
    (transaction : string) (payer : option string) : SettleResponse.t :=
  {| SettleResponse.success := true;
     SettleResponse.errorReason := None;
     SettleResponse.transaction := transaction;
     SettleResponse.network := PaymentRequirements.network pr;
     SettleResponse.payer := payer |}.

(** [txHash ?? extractFallbackTransaction(paymentRequirements)] *)
Definition shown (txHash : option string) (pr : PaymentRequirements.t) : string :=
  match txHash with Some h => h | None => PaymentRequirements.payTo pr end.

(** The object [submitExchange] posts. *)
Definition request_of (payload : value) : value :=
  VObject [("action", Js.own payload "action");
           ("signature", Js.own payload "signature");
           ("nonce", Js.own payload "nonce")].

(** The submission did not go through: the request was rejected, the
    status was not a success, or the body lacks the "ok" marker. *)
Definition submission_failed (reply : FetchReply) : bool :=
  match reply with
  | FetchRejects _ => true
  | FetchResponse ok json =>
      negb ok
      || match json with
         | None => true
         | Some body =>
             match HyperliquidSettleResponse.status body with
             | Some st => negb (String.eqb st "ok")
             | None => true
             end
         end
  end.

(** A payer identity is known. *)
Definition known (payer : option string) : bool := negb (Verify.missing payer).

(** What [settle] does once the exchange has acknowledged: the rest of
    its [try] block. *)
Definition after_submit (w : World)
    (paymentPayload : PaymentPayload.t) (paymentRequirements : PaymentRequirements.t)
    (payer : option string) (infoClient : InfoClient)
    (exchangeResponse : HyperliquidSettleResponse.t) : M SettleResponse.t :=
  let payload := PaymentPayload.payload paymentPayload in
  let exchangeTxHash := extractExchangeTxHash exchangeResponse in
  let payer_known := negb (Verify.missing payer) in
  let! matchedHash :=
    match payer with
    | Some p =>
        if payer_known
        then findMatchingTransactionHash w infoClient p payload paymentRequirements
        else ret None
    | None => ret None
    end in
  if payer_known && Verify.missing matchedHash
  then lift (failureResponse hl_tx_not_found
               paymentRequirements paymentPayload exchangeTxHash payer)
  else
    let txHash :=
      match matchedHash with
      | Some h => Some h
      | None => exchangeTxHash
      end in
    match txHash with
    | None =>
        lift (failureResponse hl_tx_not_found
                paymentRequirements paymentPayload exchangeTxHash payer)
    | Some txHash =>
        if JsString.is_empty txHash || negb (isHexHash txHash)
        then lift (failureResponse hl_tx_not_found
                     paymentRequirements paymentPayload exchangeTxHash payer)
        else
          let! confirmationResult := confirmTransaction w infoClient txHash in
          match confirmationResult with
          | not_found =>
              lift (failureResponse hl_tx_not_found
                      paymentRequirements paymentPayload (Some txHash) payer)
          | timeout =>
              lift (failureResponse hl_tx_unconfirmed
                      paymentRequirements paymentPayload (Some txHash) payer)
          | confirmed =>
              ret {| SettleResponse.success := true;
                     SettleResponse.errorReason := None;
                     SettleResponse.transaction := txHash;
                     SettleResponse.network :=
                       PaymentRequirements.network paymentRequirements;
                     SettleResponse.payer := payer |}
          end
    end.

(** The [catch] of [settle]. *)
Definition on_exception
    (paymentPayload : PaymentPayload.t) (paymentRequirements : PaymentRequirements.t)
    (e : exn) : M SettleResponse.t :=
  lift (failureResponse hl_exchange_error paymentRequirements paymentPayload None None).

(** An event that is not a detail lookup, or is one for a well-formed
    hash. *)
Definition polls_a_hash (e : event) : Prop :=
  match e with
  | RequestTxDetails _ h => isHexHash h = true
  | _ => True
  end.

(** [s'] comes after [s]: same history, with new events on top that
    poll well-formed hashes only. *)
Definition grows (s s' : State) : Prop :=
  exists fresh, log s' = (fresh ++ log s)%list /\ Forall polls_a_hash fresh.

(** An error text that carries the "not found" signal. *)
Definition says_not_found (error : exn) : bool :=
  JsString.includes (JsString.toLowerCase error) "not found".

(** The [n]-th detail lookup of [hash] fails with [error]. *)
Definition lookup_fails (w : World) (client : InfoClient) (hash : string)
    (n : nat) (error : exn) : Prop :=
  match txDetails w client n hash with
  | Thrown e => e = error
  | Returned response => Js.get response "tx" = Thrown error
  end.

(** The [n]-th detail lookup of [hash] answers. *)
Definition lookup_succeeds (w : World) (client : InfoClient) (hash : string)
    (n : nat) : Prop :=
  exists response tx,
    txDetails w client n hash = Returned response
    /\ Js.get response "tx" = Returned tx.

(** The state after one more event. *)
Definition logged (e : event) (s : State) : State :=
  {| hyperliquidTokenInfoCache := hyperliquidTokenInfoCache s;
     log := e :: log s |}.

(** The events of [k] rounds of the poll that each failed and were
    retried, latest first: a lookup, then the pause. *)
Fixpoint failed_rounds (client : InfoClient) (hash : string) (k : nat) : list event :=
  match k with
  | O => []
  | S k' => Delay CONFIRMATION_DELAY_MS :: RequestTxDetails client hash
            :: failed_rounds client hash k'
  end.

(** The transaction id the account history yields, and the state after
    the history was read; no id when no payer is known. *)
Definition matched (w : World)
    (pp : PaymentPayload.t) (pr : PaymentRequirements.t)
    (payer : option string) (client : InfoClient) (s : State)
  : option string * State :=
  match payer with
  | Some p =>
      if known payer
      then match findMatchingTransactionHash w client p (PaymentPayload.payload pp) pr s with
           | (Returned m, s') => (m, s')
           | (Thrown _, s') => (None, s')
           end
      else (None, s)
  | None => (None, s)
  end.

(** [matchedHash ?? exchangeTxHash] *)
Definition resolved_id (matchedHash : option string)
    (ack : HyperliquidSettleResponse.t) : option string :=
  match matchedHash with
  | Some h => Some h
  | None => extractExchangeTxHash ack
  end.

(** The answer of [settle] for a payment that passed the guard, whose
    action is a record and whose payer was read as [payer]: by the
    result of the submission, of the history match, and of the poll. *)
Definition conclusion (w : World)
    (pp : PaymentPayload.t) (pr : PaymentRequirements.t)
    (payer : option string) (s : State) : outcome SettleResponse.t * State :=
  let client := client_of (PaymentRequirements.network pr) in
  let refused := failure hl_exchange_error pr (PaymentRequirements.payTo pr) payer in
  match submitExchange w (endpoint_of (PaymentRequirements.network pr))
          (PaymentPayload.payload pp) s with
  | (Thrown _, s1) => (Returned refused, s1)
  | (Returned ack, s1) =>
      let (m, s2) := matched w pp pr payer client s1 in
      let lost :=
        failure hl_tx_not_found pr (shown (extractExchangeTxHash ack) pr) payer in
      if known payer && Verify.missing m then (Returned lost, s2)
      else
        match resolved_id m ack with
        | None => (Returned lost, s2)
        | Some h =>
            if JsString.is_empty h || negb (isHexHash h) then (Returned lost, s2)
            else
              match confirmTransaction w client h s2 with
              | (Returned confirmed, s3) => (Returned (settled pr h payer), s3)
              | (Returned not_found, s3) =>
                  (Returned (failure hl_tx_not_found pr h payer), s3)
              | (Returned timeout, s3) =>
                  (Returned (failure hl_tx_unconfirmed pr h payer), s3)
              | (Thrown _, s3) => (Returned refused, s3)
              end
        end
  end.

(** The history a known payer's account shows. *)
Definition history_of (w : World) (client : InfoClient) (payer : string) : list value :=
  match userDetails w client payer with
  | Returned details => extractUserTransactions details
  | Thrown _ => []
  end.

(** *** The transaction [settle] takes for the one of a payment *)

(** The text a field is compared by: a string as it is, a finite number
    as [String] writes it. *)
Definition text (w : World) (v : value) : option string :=
  match v with
  | VString s => Some s
  | VNumber (Fin q) => Some (NumberToString w q)
  | _ => None
  end.

(** Two fields read the same, letter case set aside. *)
Definition same_text (w : World) (a b : value) : Prop :=
  exists x y,
    text w a = Some x /\ text w b = Some y
    /\ JsString.toLowerCase x = JsString.toLowerCase y.

(** The amount a field states: a finite number, or a string that
    [Number] reads as a number. *)
Definition amount_stated (w : World) (v : value) : option number :=
  match v with
  | VNumber (Fin q) => Some (Fin q)
  | VString s =>
      match StringToNumber w s with
      | NaN => None
      | n => Some n
      end
  | _ => None
  end.

(** The record of a history entry that is compared: its [action], or
    the entry itself when it has none. *)
Definition transfer (tx : value) : value :=
  match Js.get_opt tx "action" with
  | VObject fields => VObject fields
  | VArray items => VArray items
  | VUndefined | VNull =>
      match tx with
      | VObject _ | VArray _ => tx
      | _ => VUndefined
      end
  | _ => VUndefined
  end.

Definition finite_number (v : value) : option number :=
  match v with
  | VNumber (Fin q) => Some (Fin q)
  | _ => None
  end.

(** The time of a history entry: that of its record, or else its own. *)
Definition entry_time (tx : value) : option number :=
  match finite_number (Js.get_opt (transfer tx) "time") with
  | Some t => Some t
  | None => finite_number (Js.get_opt tx "time")
  end.

(** The entry agrees with a field of the payload's action, which binds
    only when the payload states it. *)
Definition agrees (w : World) (entry stated : value) (field : string) : Prop :=
  Js.nullish (Js.get_opt stated field) = true
  \/ same_text w (Js.get_opt entry field) (Js.get_opt stated field).

(** The entry is of the time of the payload's action or of the
    payload's nonce, which binds only when the payload states one of
    the two. *)
Definition time_agrees (payload tx : value) : Prop :=
  let stated := finite_number (Js.get_opt (Js.own payload "action") "time") in
  let nonce := match Js.own payload "nonce" with VNumber n => Some n | _ => None end in
  (stated = None /\ nonce = None)
  \/ exists t,
      entry_time tx = Some t
      /\ ((exists t', stated = Some t' /\ JsNumber.strict_eq t t' = true)
          \/ (exists n, nonce = Some n /\ JsNumber.strict_eq t n = true)).

(** [tx] pays for the payment: it sends to the requirements' [payTo],
    in the requirements' [asset], the amount the payload's action
    states, and agrees with that action's chain and type fields and with
    its time or the payload's nonce. *)
Definition pays (w : World) (payload : value) (pr : PaymentRequirements.t)
    (tx : value) : Prop :=
  let entry := transfer tx in
  let stated := Js.own payload "action" in
  same_text w (Js.get_opt entry "destination") (VString (PaymentRequirements.payTo pr))
  /\ same_text w (Js.get_opt entry "token") (VString (PaymentRequirements.asset pr))
  /\ (exists n n',
         amount_stated w (Js.get_opt stated "amount") = Some n
         /\ amount_stated w (Js.get_opt entry "amount") = Some n'
         /\ JsNumber.strict_eq n' n = true)
  /\ agrees w entry stated "signatureChainId"
  /\ agrees w entry stated "hyperliquidChain"
  /\ agrees w entry stated "type"
  /\ time_agrees payload tx.

(** [transactionMatchesPayment] takes [tx] for a match. *)
Definition matching (w : World) (payload : value) (pr : PaymentRequirements.t)
    (tx : value) : Prop :=
  transactionMatchesPayment w tx payload pr = Returned true.

(** [tx] carries the well-formed transaction id [h]. *)
Definition has_id (tx : value) (h : string) : Prop :=
  Js.own tx "hash" = VString h /\ isHexHash h = true.

(** The time stamp [settle] ranks a history entry by. *)
Definition stamp (tx : value) : number :=
  match getTxTimestamp tx with
  | Returned t => t
  | Thrown _ => JsNumber.of_Z 0
  end.

(** [matching], decided. *)
Definition matches_payment (w : World) (payload : value) (pr : PaymentRequirements.t)
    (tx : value) : bool :=
  match transactionMatchesPayment w tx payload pr with
  | Returned b => b
  | Thrown _ => false
  end.

(** [tx] carries a well-formed transaction id. *)
Definition carries_id (tx : value) : bool := is_hash_value (Js.own tx "hash").

(** The id [findMatchingTransactionHash] comes back with. *)
Definition found_id (w : World) (client : InfoClient) (payer : string)
    (payload : value) (pr : PaymentRequirements.t) : option string :=
  match userDetails w client payer with
  | Thrown _ => None
  | Returned details =>
      match filter_matching w (extractUserTransactions details) payload pr with
      | Thrown _ => None
      | Returned kept =>
          match with_timestamps kept with
          | Thrown _ => None
          | Returned keyed =>
              match find is_hash_value
                      (map (fun tx => Js.own tx "hash") (map snd (sort_by_key keyed))) with
              | Some (VString h) => Some h
              | _ => None
              end
          end
      end
  end.

(** The response of [settle] by the result of the poll of [h]. *)
Definition by_poll (pr : PaymentRequirements.t) (h : string) (payer : option string)
    (r : ConfirmationResult) : SettleResponse.t :=
  match r with
  | confirmed => settled pr h payer
  | not_found => failure hl_tx_not_found pr h payer
  | timeout => failure hl_tx_unconfirmed pr h payer
  end.

(** [x] ranks at or before [y] in the sort by falling time stamp. *)
Definition key_ge (x y : number * value) : Prop :=
  JsNumber.ge (fst x) (fst y) = true.

Definition finite_key (x : number * value) : Prop :=
  exists q, fst x = Fin q.

End SettleSpec.


(** The round-trip law of the codec, in the words of the specification. *)
Module CodecSpec.

(** The network belongs to one of the three families. *)
Definition supported (c : Codec.t) (n : string) : Prop :=
  In n (Codec.SupportedEVMNetworks c)
  \/ In n (Codec.SupportedSVMNetworks c)
  \/ In n SupportedHLNetworks.

(** The envelope of a payment: version 1 of the protocol and the scheme
    "exact" around the network and the payload. *)
Definition envelope (network : string) (payload : value) : value :=
  VObject [("x402Version", VNumber (JsNumber.of_Z 1));
           ("scheme", VString "exact");
           ("network", VString network);
           ("payload", payload)].

(** [s] is the decimal writing of [z], an integer not below zero: digits,
    the first of them not zero unless it is the only one, from which
    [BigInt] reads [z]. *)
Definition decimal_text (s : string) (z : Z) : Prop :=
  0 <= z
  /\ JsString.all_chars JsString.is_digit s = true
  /\ (s = "0" \/ exists c r, s = String c r /\ c <> "0"%char)
  /\ JsString.toBigInt s = Some z.

(** A field of the authorization and what it is in text: a big integer
    is written in decimal, any other value is one JSON carries as it
    is. *)
Inductive in_text : value -> value -> Prop :=
| big_integer_in_text z s : decimal_text s z -> in_text (VBigInt z) (VString s)
| plain_in_text v : Json.plain v -> in_text v v.

Definition fields_in_text (fields fields' : list (string * value)) : Prop :=
  Forall2 (fun kv kv' => fst kv = fst kv' /\ in_text (snd kv) (snd kv')) fields fields'.

(** [props] with another value for the property [k]. *)
Fixpoint with_property (k : string) (v : value) (props : list (string * value))
  : list (string * value) :=
  match props with
  | [] => []
  | (k', v') :: rest =>
      if String.eqb k' k then (k', v) :: rest else (k', v') :: with_property k v rest
  end.

(** The schema refuses the value. *)
Definition refuses (s : schema) (v : value) : Prop := exists e, s v = Thrown e.

(** A payload of the EVM family and what it is in text: a record with
    an [authorization] record whose fields are big integers or values
    JSON carries; in text, each big integer is written in decimal, and
    that is what the schema of the family accepts. *)
Definition evm_payload (c : Codec.t) (payload payload' : value) : Prop :=
  exists props fields fields',
    payload = VObject props
    /\ List.NoDup (map fst props)
    /\ Js.lookup "authorization" props = VObject fields
    /\ List.NoDup (map fst fields)
    /\ (forall k v, In (k, v) props -> k <> "authorization" -> Json.plain v)
    /\ fields_in_text fields fields'
    /\ payload' = VObject (with_property "authorization" (VObject fields') props)
    /\ Codec.ExactEvmPayloadSchema c payload' = Returned payload'.

(** A payload of the SVM family: a value JSON carries, that the schema
    of the family accepts and the one of the EVM family refuses. *)
Definition svm_payload (c : Codec.t) (payload : value) : Prop :=
  Json.plain payload
  /\ refuses (Codec.ExactEvmPayloadSchema c) payload
  /\ Codec.ExactSvmPayloadSchema c payload = Returned payload.

(** The signature of a Hyperliquid payload: a string that is not empty,
    or the three parts [r], [s] and [v]. *)
Definition hl_signature (v : value) : Prop :=
  (exists s, v = VString s /\ s <> "")
  \/ exists r s q,
      v = VObject [("r", VString r); ("s", VString s); ("v", VNumber (Fin q))].

(** A payload of the Hyperliquid family, with the fields
    [ExactHlPayloadSchema] lists: an action that is a record JSON
    carries, a signature and a nonce that is a whole number above zero;
    the schemas of the two other families refuse it. *)
Definition hl_payload (c : Codec.t) (payload : value) : Prop :=
  exists fields signature q n,
    payload = VObject [("action", VObject fields);
                       ("signature", signature);
                       ("nonce", VNumber (Fin q))]
    /\ Json.plain (VObject fields)
    /\ hl_signature signature
    /\ JsNumber.as_integer q = Some n
    /\ 0 < n
    /\ refuses (Codec.ExactEvmPayloadSchema c) payload
    /\ refuses (Codec.ExactSvmPayloadSchema c) payload.

(** [payload] is a well-formed payload of the family of [network], and
    [payload'] is what it is in text: the payload itself, but for the
    big integers of an EVM authorization. *)
Definition well_formed (c : Codec.t) (network : string) (payload payload' : value)
  : Prop :=
  In network X402Specs.networks
  /\ ((In network (Codec.SupportedEVMNetworks c) /\ evm_payload c payload payload')
      \/ (~ In network (Codec.SupportedEVMNetworks c)
          /\ In network (Codec.SupportedSVMNetworks c)
          /\ svm_payload c payload /\ payload' = payload)
      \/ (~ In network (Codec.SupportedEVMNetworks c)
          /\ ~ In network (Codec.SupportedSVMNetworks c)
          /\ In network SupportedHLNetworks
          /\ hl_payload c payload /\ payload' = payload)).

(** What is assumed of the base64 helpers and of the JSON text. *)
Definition base64_round_trip (c : Codec.t) : Prop :=
  forall s, Codec.safeBase64Decode c (Codec.safeBase64Encode c s) = Returned s.

Definition json_round_trip (c : Codec.t) : Prop :=
  forall v, Json.plain v -> Codec.JSON_parse c (Codec.JSON_text c v) = Returned v.

End CodecSpec.

(** Stand-ins for what the codec takes from outside the sources: they
    serve to try the round-trip law on a concrete payment. *)
Module Stand.

(** *** A text for plain values: each value is written with a tag, sizes
    in binary before what they count. *)

Fixpoint put_pos (p : positive) : string :=
  match p with
  | xH => "."
  | xO q => String "0" (put_pos q)
  | xI q => String "1" (put_pos q)
  end.

Fixpoint get_pos (s : string) : option (positive * string) :=
  match s with
  | EmptyString => None
  | String c r =>
      if Ascii.eqb c "." then Some (xH, r)
      else if Ascii.eqb c "0" then
        match get_pos r with Some (q, r') => Some (xO q, r') | None => None end
      else if Ascii.eqb c "1" then
        match get_pos r with Some (q, r') => Some (xI q, r') | None => None end
      else None
  end.

Definition put_Z (z : Z) : string :=
  match z with
  | Z0 => "z"
  | Zpos p => String "p" (put_pos p)
  | Zneg p => String "m" (put_pos p)
  end.

Definition get_Z (s : string) : option (Z * string) :=
  match s with
  | EmptyString => None
  | String c r =>
      if Ascii.eqb c "z" then Some (Z0, r)
      else if Ascii.eqb c "p" then
        match get_pos r with Some (q, r') => Some (Zpos q, r') | None => None end
      else if Ascii.eqb c "m" then
        match get_pos r with Some (q, r') => Some (Zneg q, r') | None => None end
      else None
  end.

Fixpoint drop (n : nat) (s : string) : string :=
  match n, s with
  | O, _ => s
  | S _, EmptyString => EmptyString
  | S k, String _ r => drop k r
  end.

Definition put_str (s : string) : string :=
  put_Z (Z.of_nat (String.length s)) ++ s.

Definition get_str (s : string) : option (string * string) :=
  match get_Z s with
  | Some (z, r) =>
      let n := Z.to_nat z in
      if (n <=? String.length r)%nat then Some (JsString.take n r, drop n r) else None
  | None => None
  end.

Fixpoint print (v : value) : string :=
  match v with
  | VNull => "n"
  | VBool true => "t"
  | VBool false => "f"
  | VNumber (Fin q) => String "q" (put_Z (Qnum q) ++ put_pos (Qden q))
  | VString s => String "s" (put_str s)
  | VObject props =>
      String "o"
        (put_Z (Z.of_nat (length props))
         ++ (fix go (ps : list (string * value)) : string :=
               match ps with
               | [] => ""
               | (k, x) :: rest => put_str k ++ print x ++ go rest
               end) props)
  | VArray items =>
      String "a"
        (put_Z (Z.of_nat (length items))
         ++ (fix go (xs : list value) : string :=
               match xs with
               | [] => ""
               | x :: rest => print x ++ go rest
               end) items)
  | _ => "u"
  end.

Fixpoint parse (fuel : nat) (s : string) : option (value * string) :=
  match fuel with
  | O => None
  | S fuel' =>
      match s with
      | EmptyString => None
      | String c r =>
          if Ascii.eqb c "n" then Some (VNull, r)
          else if Ascii.eqb c "t" then Some (VBool true, r)
          else if Ascii.eqb c "f" then Some (VBool false, r)
          else if Ascii.eqb c "q" then
            match get_Z r with
            | Some (z, r1) =>
                match get_pos r1 with
                | Some (p, r2) => Some (VNumber (Fin (Qmake z p)), r2)
                | None => None
                end
            | None => None
            end
          else if Ascii.eqb c "s" then
            match get_str r with
            | Some (t, r1) => Some (VString t, r1)
            | None => None
            end
          else if Ascii.eqb c "o" then
            match get_Z r with
            | Some (z, r1) =>
                match (fix props (n : nat) (s : string)
                         : option (list (string * value) * string) :=
                         match n with
                         | O => Some ([], s)
                         | S m =>
                             match get_str s with
                             | Some (k, s1) =>
                                 match parse fuel' s1 with
                                 | Some (x, s2) =>
                                     match props m s2 with
                                     | Some (rest, s3) => Some ((k, x) :: rest, s3)
                                     | None => None
                                     end
                                 | None => None
                                 end
                             | None => None
                             end
                         end) (Z.to_nat z) r1 with
                | Some (ps, r2) => Some (VObject ps, r2)
                | None => None
                end
            | None => None
            end
          else if Ascii.eqb c "a" then
            match get_Z r with
            | Some (z, r1) =>
                match (fix items (n : nat) (s : string) : option (list value * string) :=
                         match n with
                         | O => Some ([], s)
                         | S m =>
                             match parse fuel' s with
                             | Some (x, s1) =>
                                 match items m s1 with
                                 | Some (rest, s2) => Some (x :: rest, s2)
                                 | None => None
                                 end
                             | None => None
                             end
                         end) (Z.to_nat z) r1 with
                | Some (xs, r2) => Some (VArray xs, r2)
                | None => None
                end
            | None => None
            end
          else None
      end
  end.

Definition read (s : string) : outcome value :=
  match parse (S (String.length s)) s with
  | Some (v, EmptyString) => Returned v
  | _ => Thrown "SyntaxError: Unexpected token"
  end.

(** *** A payload schema for each of the two other families

    The schemas of the EVM and the SVM payload are not among the
    sources.  The stand-ins are strict: an address is [0x] and 40 hex
    digits, the nonce [0x] and 64, the signature [0x] and hex digits,
    an amount or a time a string of at most 18 digits, a transaction a
    string, not empty, of letters, digits, [+] and [/]. *)

Definition hex (digits : nat) (s : string) : bool :=
  JsString.startsWith s "0x"
  && (String.length s =? digits + 2)%nat
  && JsString.all_chars JsString.is_hex_digit (drop 2 s).

Definition hex_digits (s : string) : bool :=
  JsString.startsWith s "0x"
  && (2 <? String.length s)%nat
  && JsString.all_chars JsString.is_hex_digit (drop 2 s).

Definition digits_up_to (n : nat) (s : string) : bool :=
  negb (JsString.is_empty s)
  && JsString.all_chars JsString.is_digit s
  && (String.length s <=? n)%nat.

Definition is_base64_char (c : ascii) : bool :=
  let n := JsString.code c in
  (JsString.is_digit c
   || ((65 <=? n) && (n <=? 90))
   || ((97 <=? n) && (n <=? 122))
   || (n =? 43) || (n =? 47))%N.

Definition base64_text (s : string) : bool :=
  negb (JsString.is_empty s) && JsString.all_chars is_base64_char s.

Definition string_that (check : string -> bool) : schema :=
  Zod.refine Zod.string_
    (fun v => match v with VString s => check s | _ => false end).

Definition ExactEvmPayloadSchema : schema :=
  Zod.object
    [("signature", string_that hex_digits);
     ("authorization",
      Zod.object [("from", string_that (hex 40)); ("to", string_that (hex 40));
                  ("value", string_that (digits_up_to 18));
                  ("validAfter", string_that (digits_up_to 18));
                  ("validBefore", string_that (digits_up_to 18));
                  ("nonce", string_that (hex 64))])].

Definition ExactSvmPayloadSchema : schema :=
  Zod.object [("transaction", string_that base64_text)].

Definition codec : Codec.t :=
  {| Codec.SupportedEVMNetworks :=
       ["abstract"; "abstract-testnet"; "base-sepolia"; "base"; "avalanche-fuji";
        "avalanche"; "iotex"; "sei"; "sei-testnet"; "polygon"; "polygon-amoy";
        "peaq"; "story"; "educhain"; "skale-base-sepolia"];
     Codec.SupportedSVMNetworks := ["solana-devnet"; "solana"];
     Codec.safeBase64Encode := fun s => s;
     Codec.safeBase64Decode := fun s => Returned s;
     Codec.JSON_text := print;
     Codec.JSON_parse := read;
     Codec.ExactEvmPayloadSchema := ExactEvmPayloadSchema;
     Codec.ExactSvmPayloadSchema := ExactSvmPayloadSchema |}.

Definition envelope (network : string) (payload : value) : value :=
  CodecSpec.envelope network payload.

(** An EVM payload with the given amount, and a payment whose amount is
    the big integer 2^53 + 1. *)
Definition evmPayload (amount : value) : value :=
  VObject
    [("signature", VString "0x2d6a7588d6acca505cbf0d9a4a227e0c52c6c34008c8e8986a1283259764173608a2ce6496642e377d6da8dbbf5836e9bd15092f9ecab05ded3d6293af148b571c");
     ("authorization",
      VObject
        [("from", VString "0x857b06519E91e3A54538791bDbb0E22373e36b66");
         ("to", VString "0x209693Bc6afc0C5328bA36FaF03C514EF312287C");
         ("value", amount);
         ("validAfter", VString "1740672089");
         ("validBefore", VString "1740672154");
         ("nonce",
          VString "0xf3746613c2d920b5fdabc0856f2aeb2d4f88ee6037b8cc5d04a71a4462f13480")])].

Definition evmPayment : value :=
  envelope "base" (evmPayload (VBigInt (2 ^ 53 + 1))).

Definition svmPayload : value :=
  VObject [("transaction", VString "AQAAAAAAAAAAAAAAAAAAAAAAAAAAAAAA")].

Definition svmPayment : value := envelope "solana" svmPayload.

(** A Hyperliquid payload with the fields of the schema, payments with
    it and with the [user] that the client adds. *)
Definition hlPayload : value :=
  VObject [("action", Sample.action Sample.PAY_TO Sample.TOKEN "1.5" Sample.TIMESTAMP);
           ("signature", VString "0x1111");
           ("nonce", VNumber (JsNumber.of_Z Sample.TIMESTAMP))].

Definition hlPayment : value := envelope "hyperliquid" hlPayload.

Definition hlPaymentOfClient : value :=
  envelope "hyperliquid"
    (VObject [("action", Sample.action Sample.PAY_TO Sample.TOKEN "1.5" Sample.TIMESTAMP);
              ("signature", VString "0x1111");
              ("nonce", VNumber (JsNumber.of_Z Sample.TIMESTAMP));
              ("user", VString Sample.PAYER)]).

End Stand.

(* ================================================================== *)
(** * Vocabulary of the further properties *)
(* ================================================================== *)

(** A decimal literal as the number it denotes. *)
Module AmountValue.

(** The digits of a decimal literal, the point left out, read as one
    integer; and the number of digits after the point.  The literal
    denotes [digits / 10 ^ scale]. *)
Definition digits (amount : string) : option Z :=
  let parts := JsString.split "." amount in
  JsString.parse_digits 10 (nth 0 parts "" ++ nth 1 parts "").

Definition scale (amount : string) : Z :=
  Z.of_nat (String.length (nth 1 (JsString.split "." amount) "")).

(** The literal times [10 ^ decimals], rounded down to an integer. *)
Definition floor_atomic (amount : string) (decimals : Z) : option Z :=
  match digits amount with
  | Some n => Some (n * 10 ^ decimals / 10 ^ scale amount)
  | None => None
  end.

End AmountValue.

(** What a call sent out, read off the log. *)
Module Traffic.

(** The events a run added to the log, latest first. *)
Definition added (s s' : State) (fresh : list event) : Prop :=
  log s' = (fresh ++ log s)%list.

Definition is_post (e : event) : bool :=
  match e with PostExchange _ _ => true | _ => false end.

Definition is_history_request (e : event) : bool :=
  match e with RequestUserDetails _ _ => true | _ => false end.

Definition is_detail_request (e : event) : bool :=
  match e with RequestTxDetails _ _ => true | _ => false end.

Definition is_delay (e : event) : bool :=
  match e with Delay _ => true | _ => false end.

Definition is_token_event (e : event) : bool :=
  match e with
  | CallFetchTokenInfo _ _ | RequestTokenDetails _ _ => true
  | _ => false
  end.

Definition count (p : event -> bool) (l : list event) : nat :=
  length (List.filter p l).

(** The pauses of a log, added up. *)
Definition paused (l : list event) : Z :=
  fold_right (fun e total => match e with Delay ms => ms + total | _ => total end) 0 l.

(** The events stay within so many posts to the exchange, requests for
    an account history and detail lookups, each lookup followed by at
    most one pause of [CONFIRMATION_DELAY_MS]; no token is looked up. *)
Definition within (posts histories lookups : nat) (fresh : list event) : Prop :=
  (count is_post fresh <= posts)%nat
  /\ (count is_history_request fresh <= histories)%nat
  /\ (count is_detail_request fresh <= lookups)%nat
  /\ (count is_delay fresh <= lookups)%nat
  /\ paused fresh <= Z.of_nat lookups * Settle.CONFIRMATION_DELAY_MS
  /\ count is_token_event fresh = 0%nat.

End Traffic.

(** The token-info cache. *)
Module CacheSpec.

(** The key [fetchHyperliquidTokenInfo] files a token under. *)
Definition cacheKey (network tokenId : string) : string :=
  network ++ ":" ++ JsString.toLowerCase tokenId.

(** The entry [fetchHyperliquidTokenInfo] builds from an answer. *)
Definition info_of (response : TokenDetailsResponse) (tokenId : string)
  : HyperliquidTokenInfo.t :=
  {| HyperliquidTokenInfo.decimals := weiDecimals response;
     HyperliquidTokenInfo.symbol := Some (name response);
     HyperliquidTokenInfo.name := Some (name response);
     HyperliquidTokenInfo.tokenId := Some tokenId |}.

End CacheSpec.

(** The client and the facilitator side by side. *)
Module ClientSpec.

(** [request'] carries the transfer of [request]: token, amount and
    time as they are, the destination up to letter case. *)
Definition keeps_transfer (request request' : value) : Prop :=
  let action := Js.own request "action" in
  let action' := Js.own request' "action" in
  Js.own action' "token" = Js.own action "token"
  /\ Js.own action' "amount" = Js.own action "amount"
  /\ Js.own action' "time" = Js.own action "time"
  /\ forall destination,
      Js.own action "destination" = VString destination ->
      exists destination',
        Js.own action' "destination" = VString destination'
        /\ JsString.toLowerCase destination' = JsString.toLowerCase destination.

(** The parser of the SDK hands on the transfer it is given. *)
Definition faithful (sdk : Sdk.t) : Prop :=
  forall request request',
    Sdk.parseSpotSendRequest sdk request = Returned request' ->
    keeps_transfer request request'.

(** An SDK in the manner of the mocks of [client.test.ts]: the parser
    gives back its argument, the signer a fixed signature. *)
Definition mock : Sdk.t :=
  {| Sdk.parseSpotSendRequest := fun request => Returned request;
     Sdk.signUserSignedAction := fun _ _ =>
       Returned (VObject [("r", VString "0x1"); ("s", VString "0x2");
                          ("v", VNumber (JsNumber.of_Z 27))]);
     Sdk.arbitrumChainIdHex := "0xa4b1" |}.

Definition wallet (address : string) : value :=
  VObject [("address", VString address)].

End ClientSpec.

(* ================================================================== *)
(** * Strings *)
(* ================================================================== *)

Module StringFacts.

Lemma append_empty_r s : s ++ "" = s.
Proof.
  induction s as [|c r IH]; [reflexivity|].
  cbn [String.append]. rewrite IH. reflexivity.
Qed.

Lemma append_assoc s t u : (s ++ t) ++ u = s ++ (t ++ u).
Proof.
  induction s as [|c r IH]; [reflexivity|].
  cbn [String.append]. now rewrite IH.
Qed.

Lemma length_app s t : String.length (s ++ t) = (String.length s + String.length t)%nat.
Proof. induction s as [|c r IH]; [reflexivity|]. cbn. now rewrite IH. Qed.

End StringFacts.

(* ================================================================== *)
(** * Properties of [verify] *)
(* ================================================================== *)

Module VerifyFacts.

Import Verify VerifySpec.

Lemma includes_network_In l n : includes_network l n = true <-> In n l.
Proof.
  unfold includes_network. rewrite existsb_exists. split.
  - intros (x & Hx & E). apply String.eqb_eq in E. now subst.
  - intros H. exists n. split; [assumption | apply String.eqb_refl].
Qed.

Lemma guard_passes_false pp pr :
  guard_passes pp pr ->
  negb (String.eqb (PaymentPayload.scheme pp) SCHEME)
  || negb (String.eqb (PaymentRequirements.scheme pr) SCHEME)
  || negb (String.eqb (PaymentPayload.network pp) (PaymentRequirements.network pr))
  || negb (includes_network SupportedHLNetworks (PaymentRequirements.network pr))
  = false.
Proof.
  intros (H1 & H2 & H3 & H4).
  rewrite H1, H2, H3, !String.eqb_refl.
  apply includes_network_In in H4. now rewrite H4.
Qed.

Lemma guard_fails_true pp pr :
  ~ guard_passes pp pr ->
  negb (String.eqb (PaymentPayload.scheme pp) SCHEME)
  || negb (String.eqb (PaymentRequirements.scheme pr) SCHEME)
  || negb (String.eqb (PaymentPayload.network pp) (PaymentRequirements.network pr))
  || negb (includes_network SupportedHLNetworks (PaymentRequirements.network pr))
  = true.
Proof.
  intros H.
  destruct (String.eqb_spec (PaymentPayload.scheme pp) SCHEME) as [E1|]; [|reflexivity].
  destruct (String.eqb_spec (PaymentRequirements.scheme pr) SCHEME) as [E2|]; [|reflexivity].
  destruct (String.eqb_spec (PaymentPayload.network pp) (PaymentRequirements.network pr))
    as [E3|]; [|reflexivity].
  destruct (includes_network SupportedHLNetworks (PaymentRequirements.network pr)) eqn:E4;
    [|reflexivity].
  exfalso. apply H. repeat split; try assumption. now apply includes_network_In.
Qed.

Lemma guard_passes_dec pp pr : guard_passes pp pr \/ ~ guard_passes pp pr.
Proof.
  unfold guard_passes.
  destruct (string_dec (PaymentPayload.scheme pp) SCHEME); [|tauto].
  destruct (string_dec (PaymentRequirements.scheme pr) SCHEME); [|tauto].
  destruct (string_dec (PaymentPayload.network pp) (PaymentRequirements.network pr));
    [|tauto].
  destruct (in_dec string_dec (PaymentRequirements.network pr) SupportedHLNetworks);
    tauto.
Qed.

Lemma is_empty_false s : s <> "" -> JsString.is_empty s = false.
Proof. destruct s; [congruence | reflexivity]. Qed.

Lemma is_empty_true s : JsString.is_empty s = true -> s = "".
Proof. destruct s; [reflexivity | discriminate]. Qed.

Lemma own_string_object v k s : Js.own v k = VString s -> exists props, v = VObject props.
Proof. destruct v; simpl; try discriminate. eauto. Qed.

Section Facts.
Variable w : World.

(** [resolveDecimals] does not throw. *)
Lemma resolveDecimals_returns pr s :
  exists d s', resolveDecimals w pr s = (Returned d, s').
Proof.
  unfold resolveDecimals.
  destruct (Js.get_opt _ _); try (eexists; eexists; reflexivity);
    (destruct (extractHyperliquidTokenId _) as [t|]; [|eexists; eexists; reflexivity];
     destruct (JsString.is_empty t); [eexists; eexists; reflexivity|];
     unfold try_catch;
     match goal with |- context [bind ?m ?k s] => destruct (bind m k s) as [[?|?] ?] end;
     eexists; eexists; reflexivity).
Qed.

Lemma verify_guard pp pr s :
  ~ guard_passes pp pr ->
  verify w pp pr s = (Returned (reject invalid_exact_hl_network), s).
Proof.
  intros G. unfold verify. now rewrite (guard_fails_true _ _ G).
Qed.

Lemma verify_lacks_fields pp pr action s :
  guard_passes pp pr ->
  Js.get (PaymentPayload.payload pp) "action" = Returned action ->
  lacks_fields action ->
  verify w pp pr s = (Returned (reject invalid_exact_hl_payload), s).
Proof.
  intros G Ha L. unfold verify.
  rewrite (guard_passes_false _ _ G).
  unfold bind at 1, lift at 1. rewrite Ha.
  destruct (Js.truthy action) eqn:T; [|reflexivity].
  destruct (String.eqb_spec (Js.typeof action) "object") as [O|O]; [|reflexivity].
  cbn [negb orb].
  destruct L as [L|[L|[L|[L|L]]]]; try congruence;
    destruct (string_or_undefined (Js.own action "destination")) as [d|];
    destruct (string_or_undefined (Js.own action "token")) as [t|];
    destruct (string_or_undefined (Js.own action "amount")) as [a|];
    try reflexivity; cbn [missing] in L; try discriminate;
    rewrite L; rewrite ?orb_true_r; reflexivity.
Qed.

Lemma verify_verdict pp pr action destination token amount s :
  guard_passes pp pr ->
  carries pp action destination token amount ->
  verify w pp pr s = verdict w pp pr action destination token amount s.
Proof.
  intros G (Ha & Hd & Ht & Hm & Nd & Nt & Nm).
  unfold verify, verdict.
  rewrite (guard_passes_false _ _ G).
  unfold bind at 1, lift at 1. rewrite Ha.
  destruct (own_string_object _ _ _ Hd) as [props ->].
  cbn [Js.truthy Js.typeof negb orb].
  rewrite String.eqb_refl. cbn [negb orb].
  rewrite Hd, Ht, Hm. cbn [string_or_undefined].
  rewrite (is_empty_false _ Nd), (is_empty_false _ Nt), (is_empty_false _ Nm).
  cbn [orb].
  destruct (negb (String.eqb (JsString.toLowerCase destination) _)); [reflexivity|].
  destruct (negb (String.eqb token _)); [reflexivity|].
  unfold bind at 1.
  destruct (resolveDecimals w pr s) as [[decimals|e] s']; [|reflexivity].
  destruct (negb (ensureAmountMeetsRequirement _ _ _ _)); [reflexivity|].
  destruct (negb (withinTtl _ _ _)); [reflexivity|].
  unfold bind, lift, ret.
  destruct (extractPayer _); reflexivity.
Qed.

(** With the action in place, reading the payer does not throw. *)
Lemma extractPayer_returns pp action destination token amount :
  carries pp action destination token amount ->
  exists payer, extractPayer (PaymentPayload.payload pp) = Returned payer.
Proof.
  intros (Ha & Hd & _).
  destruct (own_string_object _ _ _ Hd) as [props ->].
  unfold extractPayer. unfold Js.get in Ha |- *.
  destruct (Js.nullish (PaymentPayload.payload pp)); [discriminate|].
  injection Ha as Ha. rewrite Ha. cbn [Js.nullish].
  destruct (Js.own (PaymentPayload.payload pp) "user"); eauto.
Qed.

End Facts.

Lemma sample_guard act asset extra :
  guard_passes (Sample.payment act) (Sample.requirements asset extra).
Proof. repeat split; try reflexivity. right; left; reflexivity. Qed.

Lemma sample_carries d t a time :
  d <> "" -> t <> "" -> a <> "" ->
  carries (Sample.payment (Sample.action d t a time)) (Sample.action d t a time) d t a.
Proof. intros. repeat split; assumption. Qed.

End VerifyFacts.

(* ================================================================== *)
(** * Properties of [settle] *)
(* ================================================================== *)

Module SettleFacts.

Import Settle VerifySpec SettleSpec VerifyFacts.

Lemma failureResponse_returns reason pr pp txHash payer payer0 :
  extractPayer (PaymentPayload.payload pp) = Returned payer0 ->
  failureResponse reason pr pp txHash payer
  = Returned (failure reason pr (shown txHash pr)
                (match payer with Some p => Some p | None => payer0 end)).
Proof.
  intros E. unfold failureResponse, failure, shown, extractFallbackTransaction.
  destruct payer; [|rewrite E]; destruct txHash; reflexivity.
Qed.

(** With the payer read off the payload, a failure response carries it. *)
Lemma failureResponse_payer reason pr pp txHash payer :
  extractPayer (PaymentPayload.payload pp) = Returned payer ->
  failureResponse reason pr pp txHash payer
  = Returned (failure reason pr (shown txHash pr) payer).
Proof.
  intros E. rewrite (failureResponse_returns _ _ _ _ _ _ E). now destruct payer.
Qed.

Lemma lookup_has_key k props :
  Js.lookup k props <> VUndefined -> Js.has_key k props = true.
Proof.
  induction props as [|[k' v] rest IH]; cbn; [congruence|].
  destruct (String.eqb k k'); [reflexivity | exact IH].
Qed.

Lemma structured_cases v :
  is_structured v = true -> (exists props, v = VObject props) \/ (exists items, v = VArray items).
Proof.
  unfold is_structured. destruct v; cbn; try discriminate; eauto.
  - destruct b; discriminate.
  - destruct n; try discriminate. destruct (negb _); discriminate.
  - destruct (negb _); discriminate.
  - destruct (negb _); discriminate.
Qed.

Lemma structured_extractPayer payload :
  is_structured (Js.get_opt payload "action") = true ->
  exists payer, extractPayer payload = Returned payer.
Proof.
  intros H. unfold extractPayer.
  destruct payload as [| | | | | |props|]; try (eexists; reflexivity).
  cbn [Js.get_opt Js.nullish Js.own] in H.
  assert (K : Js.has_key "action" props = true).
  { apply lookup_has_key. intros E. rewrite E in H. discriminate. }
  rewrite K. cbn [negb].
  destruct (Js.lookup "user" props); try (eexists; reflexivity);
    destruct (structured_cases _ H) as [[x ->]|[x ->]]; eexists; reflexivity.
Qed.

Lemma shape_extractPayer payload :
  envelope_shape payload -> exists payer, extractPayer payload = Returned payer.
Proof.
  intros (props & -> & H). unfold extractPayer.
  destruct (Js.has_key "action" props) eqn:K; [|eexists; reflexivity].
  destruct (H eq_refl) as [fields ->]. cbn [negb].
  destruct (Js.lookup "user" props); eexists; reflexivity.
Qed.

Section Facts.
Variable w : World.

Lemma settle_guard pp pr s :
  ~ guard_passes pp pr ->
  settle w pp pr s
  = lift (failureResponse invalid_exact_hl_network pr pp None None) s.
Proof. intros G. unfold settle. now rewrite (guard_fails_true _ _ G). Qed.

Lemma settle_unstructured pp pr s :
  guard_passes pp pr ->
  is_structured (Js.get_opt (PaymentPayload.payload pp) "action") = false ->
  settle w pp pr s
  = lift (failureResponse invalid_exact_hl_payload pr pp None None) s.
Proof.
  intros G H. unfold settle. rewrite (guard_passes_false _ _ G).
  unfold is_structured in H. apply andb_false_iff in H.
  destruct H as [-> | ->]; [reflexivity | now rewrite orb_true_r].
Qed.

Lemma settle_unfold pp pr payer s :
  guard_passes pp pr ->
  is_structured (Js.get_opt (PaymentPayload.payload pp) "action") = true ->
  extractPayer (PaymentPayload.payload pp) = Returned payer ->
  settle w pp pr s
  = try_catch
      (let! exchangeResponse :=
         submitExchange w (endpoint_of (PaymentRequirements.network pr))
           (PaymentPayload.payload pp) in
       after_submit w pp pr payer (client_of (PaymentRequirements.network pr))
         exchangeResponse)
      (on_exception pp pr) s.
Proof.
  intros G H P. unfold settle. rewrite (guard_passes_false _ _ G).
  unfold is_structured in H. apply andb_true_iff in H as [H1 H2].
  rewrite H1, H2. cbn [negb orb].
  unfold bind at 1, lift at 1. rewrite P.
  unfold Shared.getExchangeBaseUrl, Shared.createInfoClient,
    Shared.assertHyperliquidNetwork.
  destruct G as (_ & _ & _ & G). apply includes_network_In in G. rewrite G.
  reflexivity.
Qed.

(** Whatever happens inside the [try], [settle] answers. *)
Lemma settle_try_returns pp pr payer (m : M SettleResponse.t) s :
  extractPayer (PaymentPayload.payload pp) = Returned payer ->
  exists resp s', try_catch m (on_exception pp pr) s = (Returned resp, s').
Proof.
  intros P. unfold try_catch. destruct (m s) as [[resp|e] s'].
  - eauto.
  - unfold on_exception, lift.
    rewrite (failureResponse_returns _ _ _ None None _ P). eauto.
Qed.

Lemma settle_try_thrown pp pr payer (m : M SettleResponse.t) s e s' :
  extractPayer (PaymentPayload.payload pp) = Returned payer ->
  m s = (Thrown e, s') ->
  try_catch m (on_exception pp pr) s
  = (Returned (failure hl_exchange_error pr (PaymentRequirements.payTo pr) payer), s').
Proof.
  intros P E. unfold try_catch. rewrite E.
  unfold on_exception, lift.
  now rewrite (failureResponse_returns _ _ _ None None _ P).
Qed.

Lemma submitExchange_thrown endpoint payload s :
  match Json.serializable (request_of payload) with
  | Thrown e => submitExchange w endpoint payload s = (Thrown e, s)
  | Returned body =>
      let sent := match body with Some b => b | None => VUndefined end in
      submission_failed (fetch w endpoint sent) = true ->
      exists e s', submitExchange w endpoint payload s = (Thrown e, s')
  end.
Proof.
  unfold submitExchange. fold (request_of payload).
  unfold bind at 1, lift at 1.
  destruct (Json.serializable (request_of payload)) as [body|e]; [|reflexivity].
  cbv zeta. intros F. unfold bind, emit, throw.
  destruct (fetch w endpoint _) as [e|ok json]; [eauto|].
  cbn [submission_failed] in F.
  destruct ok; cbn [negb orb] in F |- *; [|eauto].
  destruct json as [body'|]; [|eauto].
  destruct (HyperliquidSettleResponse.status body') as [st|]; [|eauto].
  destruct (String.eqb st "ok"); [discriminate | eauto].
Qed.

End Facts.
End SettleFacts.

Module SettleSteps.

Import Settle VerifySpec SettleSpec VerifyFacts SettleFacts.

Section Facts.
Variable w : World.

Lemma failed_rounds_shift client hash k (l : list event) :
  (failed_rounds client hash k
     ++ Delay CONFIRMATION_DELAY_MS :: RequestTxDetails client hash :: l)%list
  = (failed_rounds client hash (S k) ++ l)%list.
Proof.
  induction k as [|k IH]; [reflexivity|].
  cbn [failed_rounds app] in IH |- *. now rewrite IH.
Qed.

(** One round of the poll. *)
Lemma confirm_from_round client hash remaining attempt s :
  confirm_from w client hash (S remaining) attempt s
  = let s1 := logged (RequestTxDetails client hash) s in
    let retry e :=
      if says_not_found e then (Returned not_found, s1)
      else confirm_from w client hash remaining (S attempt)
             (logged (Delay CONFIRMATION_DELAY_MS) s1) in
    match txDetails w client attempt hash with
    | Thrown e => retry e
    | Returned response =>
        match Js.get response "tx" with
        | Thrown e => retry e
        | Returned _ => (Returned confirmed, s1)
        end
    end.
Proof.
  cbn [confirm_from]. unfold bind at 1, try_catch, bind at 1,
    Shared.fetchTransactionDetails, bind at 1, emit, bind at 1, lift at 1.
  cbv zeta. fold (logged (RequestTxDetails client hash) s).
  unfold says_not_found.
  destruct (txDetails w client attempt hash) as [response|e].
  - unfold lift. destruct (Js.get response "tx") as [tx|e]; [reflexivity|].
    destruct (JsString.includes _ _); reflexivity.
  - destruct (JsString.includes _ _); reflexivity.
Qed.

Lemma confirm_from_returns client hash remaining attempt s :
  exists r s', confirm_from w client hash remaining attempt s = (Returned r, s').
Proof.
  revert attempt s. induction remaining as [|k IH]; intros attempt s.
  - eexists; eexists; reflexivity.
  - rewrite confirm_from_round. cbv zeta.
    destruct (txDetails w client attempt hash) as [response|e].
    + destruct (Js.get response "tx") as [tx|e]; [eauto|].
      destruct (says_not_found e); [eauto | apply IH].
    + destruct (says_not_found e); [eauto | apply IH].
Qed.

(** The poll after [k] failed rounds, when the next lookup says "not
    found". *)
Lemma confirm_from_not_found client hash k :
  forall remaining attempt s error,
    (k < remaining)%nat ->
    (forall i, (i < k)%nat ->
               exists e, lookup_fails w client hash (attempt + i) e
                         /\ says_not_found e = false) ->
    lookup_fails w client hash (attempt + k) error ->
    says_not_found error = true ->
    exists s',
      confirm_from w client hash remaining attempt s = (Returned not_found, s')
      /\ log s' = (RequestTxDetails client hash :: failed_rounds client hash k ++ log s)%list
      /\ hyperliquidTokenInfoCache s' = hyperliquidTokenInfoCache s.
Proof.
  induction k as [|k IH]; intros remaining attempt s error Hk Hfail Hlast Hsays.
  - destruct remaining as [|r]; [lia|]. rewrite confirm_from_round. cbv zeta.
    rewrite Nat.add_0_r in Hlast. unfold lookup_fails in Hlast.
    destruct (txDetails w client attempt hash) as [response|e].
    + rewrite Hlast, Hsays. eexists. repeat split.
    + subst e. rewrite Hsays. eexists. repeat split.
  - destruct remaining as [|r]; [lia|]. rewrite confirm_from_round. cbv zeta.
    destruct (Hfail 0%nat ltac:(lia)) as (e0 & F0 & S0).
    rewrite Nat.add_0_r in F0. unfold lookup_fails in F0.
    assert (Rest : exists s',
               confirm_from w client hash r (S attempt)
                 (logged (Delay CONFIRMATION_DELAY_MS)
                    (logged (RequestTxDetails client hash) s))
               = (Returned not_found, s')
               /\ log s' = (RequestTxDetails client hash
                            :: failed_rounds client hash (S k) ++ log s)%list
               /\ hyperliquidTokenInfoCache s' = hyperliquidTokenInfoCache s).
    { destruct (IH r (S attempt)
                  (logged (Delay CONFIRMATION_DELAY_MS)
                     (logged (RequestTxDetails client hash) s)) error)
        as (s' & E & L & C); try assumption; try lia.
      - intros i Hi. destruct (Hfail (S i) ltac:(lia)) as (e & F & Sy).
        exists e. split; [|exact Sy].
        now replace (S attempt + i)%nat with (attempt + S i)%nat by lia.
      - now replace (S attempt + k)%nat with (attempt + S k)%nat by lia.
      - exists s'. split; [exact E|]. split; [|exact C].
        rewrite L. cbn [logged log]. now rewrite failed_rounds_shift. }
    destruct (txDetails w client attempt hash) as [response|e].
    + rewrite F0, S0. exact Rest.
    + subst e. rewrite S0. exact Rest.
Qed.

(** The poll when every round fails without the "not found" signal. *)
Lemma confirm_from_timeout client hash :
  forall remaining attempt s,
    (forall i, (i < remaining)%nat ->
               exists e, lookup_fails w client hash (attempt + i) e
                         /\ says_not_found e = false) ->
    exists s',
      confirm_from w client hash remaining attempt s = (Returned timeout, s')
      /\ log s' = (failed_rounds client hash remaining ++ log s)%list
      /\ hyperliquidTokenInfoCache s' = hyperliquidTokenInfoCache s.
Proof.
  induction remaining as [|r IH]; intros attempt s Hfail.
  - eexists. repeat split.
  - rewrite confirm_from_round. cbv zeta.
    destruct (Hfail 0%nat ltac:(lia)) as (e0 & F0 & S0).
    rewrite Nat.add_0_r in F0. unfold lookup_fails in F0.
    assert (Rest : exists s',
               confirm_from w client hash r (S attempt)
                 (logged (Delay CONFIRMATION_DELAY_MS)
                    (logged (RequestTxDetails client hash) s))
               = (Returned timeout, s')
               /\ log s' = (failed_rounds client hash (S r) ++ log s)%list
               /\ hyperliquidTokenInfoCache s' = hyperliquidTokenInfoCache s).
    { destruct (IH (S attempt)
                  (logged (Delay CONFIRMATION_DELAY_MS)
                     (logged (RequestTxDetails client hash) s)))
        as (s' & E & L & C).
      - intros i Hi. destruct (Hfail (S i) ltac:(lia)) as (e & F & Sy).
        exists e. split; [|exact Sy].
        now replace (S attempt + i)%nat with (attempt + S i)%nat by lia.
      - exists s'. split; [exact E|]. split; [|exact C].
        rewrite L. cbn [logged log]. now rewrite failed_rounds_shift. }
    destruct (txDetails w client attempt hash) as [response|e].
    + rewrite F0, S0. exact Rest.
    + subst e. rewrite S0. exact Rest.
Qed.

(** The poll when the first lookup answers. *)
Lemma confirm_first_answer client hash s :
  lookup_succeeds w client hash 0 ->
  confirmTransaction w client hash s
  = (Returned confirmed, logged (RequestTxDetails client hash) s).
Proof.
  intros (response & tx & E1 & E2). unfold confirmTransaction, CONFIRMATION_RETRIES.
  rewrite confirm_from_round. cbv zeta. now rewrite E1, E2.
Qed.

Lemma findMatchingTransactionHash_returns client payer payload pr s :
  exists m s',
    findMatchingTransactionHash w client payer payload pr s = (Returned m, s')
    /\ s' = logged (RequestUserDetails client payer) s
    /\ (forall h, m = Some h -> isHexHash h = true).
Proof.
  unfold findMatchingTransactionHash, try_catch, findMatchingTransactionHash_body.
  unfold bind at 1, emit. fold (logged (RequestUserDetails client payer) s).
  unfold bind at 1, lift at 1.
  destruct (userDetails w client payer) as [details|e];
    [|eexists; eexists; repeat split; discriminate].
  unfold bind at 1, lift at 1.
  destruct (filter_matching w _ payload pr) as [kept|e];
    [|eexists; eexists; repeat split; discriminate].
  unfold bind at 1, lift at 1.
  destruct (with_timestamps kept) as [keyed|e];
    [|eexists; eexists; repeat split; discriminate].
  unfold ret. eexists; eexists. split; [reflexivity|]. split; [reflexivity|].
  intros h. destruct (find is_hash_value _) as [v|] eqn:F; [|discriminate].
  apply find_some in F as [_ F]. destruct v; try discriminate.
  intros [= <-]. exact F.
Qed.

Lemma matched_hex pp pr payer client s m s' :
  matched w pp pr payer client s = (m, s') ->
  (forall h, m = Some h -> isHexHash h = true)
  /\ (s' = s \/ exists p, s' = logged (RequestUserDetails client p) s).
Proof.
  unfold matched. destruct payer as [p|]; [|intros [= <- <-]; split; [discriminate|auto]].
  destruct (known (Some p)); [|intros [= <- <-]; split; [discriminate|auto]].
  destruct (findMatchingTransactionHash_returns client p (PaymentPayload.payload pp) pr s)
    as (m0 & s0 & E & Es & Hx).
  rewrite E. intros [= <- <-]. split; [exact Hx|]. right. eauto.
Qed.

(** [settle], case by case. *)
Lemma settle_conclusion pp pr payer s :
  guard_passes pp pr ->
  is_structured (Js.get_opt (PaymentPayload.payload pp) "action") = true ->
  extractPayer (PaymentPayload.payload pp) = Returned payer ->
  settle w pp pr s = conclusion w pp pr payer s.
Proof.
  intros G A P. rewrite (settle_unfold w _ _ _ s G A P).
  unfold conclusion, try_catch. unfold bind at 1.
  destruct (submitExchange w _ _ s) as [[ack|e] s1].
  2: { unfold on_exception, lift.
       now rewrite (failureResponse_returns _ _ _ None None _ P). }
  unfold after_submit. unfold bind at 1. unfold matched. fold (known payer).
  assert (F : forall reason h s0,
             lift (failureResponse reason pr pp h payer) s0
             = (Returned (failure reason pr (shown h pr) payer), s0)).
  { intros. unfold lift. now rewrite (failureResponse_payer _ _ _ _ _ P). }
  assert (K : forall m s2,
             (if known payer && Verify.missing m
              then lift (failureResponse hl_tx_not_found pr pp
                           (extractExchangeTxHash ack) payer)
              else
                match match m with Some h => Some h | None => extractExchangeTxHash ack end with
                | None => lift (failureResponse hl_tx_not_found pr pp
                                  (extractExchangeTxHash ack) payer)
                | Some txHash =>
                    if JsString.is_empty txHash || negb (isHexHash txHash)
                    then lift (failureResponse hl_tx_not_found pr pp
                                 (extractExchangeTxHash ack) payer)
                    else
                      let! confirmationResult :=
                        confirmTransaction w
                          (client_of (PaymentRequirements.network pr)) txHash in
                      match confirmationResult with
                      | confirmed =>
                          ret {| SettleResponse.success := true;
                                 SettleResponse.errorReason := None;
                                 SettleResponse.transaction := txHash;
                                 SettleResponse.network := PaymentRequirements.network pr;
                                 SettleResponse.payer := payer |}
                      | not_found =>
                          lift (failureResponse hl_tx_not_found pr pp (Some txHash) payer)
                      | timeout =>
                          lift (failureResponse hl_tx_unconfirmed pr pp (Some txHash) payer)
                      end
                end) s2
             = (if known payer && Verify.missing m
                then (Returned (failure hl_tx_not_found pr
                                  (shown (extractExchangeTxHash ack) pr) payer), s2)
                else
                  match resolved_id m ack with
                  | None => (Returned (failure hl_tx_not_found pr
                                         (shown (extractExchangeTxHash ack) pr) payer), s2)
                  | Some h =>
                      if JsString.is_empty h || negb (isHexHash h)
                      then (Returned (failure hl_tx_not_found pr
                                        (shown (extractExchangeTxHash ack) pr) payer), s2)
                      else
                        match confirmTransaction w
                                (client_of (PaymentRequirements.network pr)) h s2 with
                        | (Returned confirmed, s3) => (Returned (settled pr h payer), s3)
                        | (Returned not_found, s3) =>
                            (Returned (failure hl_tx_not_found pr h payer), s3)
                        | (Returned timeout, s3) =>
                            (Returned (failure hl_tx_unconfirmed pr h payer), s3)
                        | (Thrown _, s3) =>
                            (Returned (failure hl_exchange_error pr
                                         (PaymentRequirements.payTo pr) payer), s3)
                        end
                  end)).
  { intros m s2. destruct (known payer && Verify.missing m); [apply F|].
    unfold resolved_id.
    destruct (match m with Some h => Some h | None => extractExchangeTxHash ack end)
      as [h|]; [|apply F].
    destruct (JsString.is_empty h || negb (isHexHash h)); [apply F|].
    unfold bind.
    destruct (confirm_from_returns (client_of (PaymentRequirements.network pr)) h
                CONFIRMATION_RETRIES 0 s2) as (r & s3 & E).
    unfold confirmTransaction. rewrite E.
    destruct r; [reflexivity | apply F | apply F]. }
  assert (K' : forall m s2,
             (let (o, s') :=
                (if known payer && Verify.missing m
                 then (Returned (failure hl_tx_not_found pr
                                   (shown (extractExchangeTxHash ack) pr) payer), s2)
                 else
                   match resolved_id m ack with
                   | None => (Returned (failure hl_tx_not_found pr
                                          (shown (extractExchangeTxHash ack) pr) payer), s2)
                   | Some h =>
                       if JsString.is_empty h || negb (isHexHash h)
                       then (Returned (failure hl_tx_not_found pr
                                         (shown (extractExchangeTxHash ack) pr) payer), s2)
                       else
                         match confirmTransaction w
                                 (client_of (PaymentRequirements.network pr)) h s2 with
                         | (Returned confirmed, s3) => (Returned (settled pr h payer), s3)
                         | (Returned not_found, s3) =>
                             (Returned (failure hl_tx_not_found pr h payer), s3)
                         | (Returned timeout, s3) =>
                             (Returned (failure hl_tx_unconfirmed pr h payer), s3)
                         | (Thrown _, s3) =>
                             (Returned (failure hl_exchange_error pr
                                          (PaymentRequirements.payTo pr) payer), s3)
                         end
                   end) in
              match o with
              | Returned a => (Returned a, s')
              | Thrown e => on_exception pp pr e s'
              end)
             = (if known payer && Verify.missing m
                then (Returned (failure hl_tx_not_found pr
                                  (shown (extractExchangeTxHash ack) pr) payer), s2)
                else
                  match resolved_id m ack with
                  | None => (Returned (failure hl_tx_not_found pr
                                         (shown (extractExchangeTxHash ack) pr) payer), s2)
                  | Some h =>
                      if JsString.is_empty h || negb (isHexHash h)
                      then (Returned (failure hl_tx_not_found pr
                                        (shown (extractExchangeTxHash ack) pr) payer), s2)
                      else
                        match confirmTransaction w
                                (client_of (PaymentRequirements.network pr)) h s2 with
                        | (Returned confirmed, s3) => (Returned (settled pr h payer), s3)
                        | (Returned not_found, s3) =>
                            (Returned (failure hl_tx_not_found pr h payer), s3)
                        | (Returned timeout, s3) =>
                            (Returned (failure hl_tx_unconfirmed pr h payer), s3)
                        | (Thrown _, s3) =>
                            (Returned (failure hl_exchange_error pr
                                         (PaymentRequirements.payTo pr) payer), s3)
                        end
                  end)).
  { intros m s2. destruct (known payer && Verify.missing m); [reflexivity|].
    destruct (resolved_id m ack) as [h|]; [|reflexivity].
    destruct (JsString.is_empty h || negb (isHexHash h)); [reflexivity|].
    destruct (confirmTransaction w _ h s2) as [[[]|e] s3]; reflexivity. }
  destruct payer as [p|].
  - destruct (known (Some p)) eqn:Kn.
    + destruct (findMatchingTransactionHash_returns
                  (client_of (PaymentRequirements.network pr)) p
                  (PaymentPayload.payload pp) pr s1) as (m & s2 & E & _ & _).
      rewrite E. rewrite K. apply K'.
    + unfold ret. rewrite K. apply K'.
  - unfold ret. rewrite K. apply K'.
Qed.

Lemma hex_hash_not_empty h : isHexHash h = true -> JsString.is_empty h = false.
Proof. destruct h; [discriminate | reflexivity]. Qed.

(** [settle] from the poll on, for a payment that reached it. *)
Lemma settle_reaches_poll pp pr payer s0 ack s1 m s hash :
  guard_passes pp pr ->
  is_structured (Js.get_opt (PaymentPayload.payload pp) "action") = true ->
  extractPayer (PaymentPayload.payload pp) = Returned payer ->
  submitExchange w (endpoint_of (PaymentRequirements.network pr))
    (PaymentPayload.payload pp) s0 = (Returned ack, s1) ->
  matched w pp pr payer (client_of (PaymentRequirements.network pr)) s1 = (m, s) ->
  (known payer = true -> m <> None) ->
  resolved_id m ack = Some hash ->
  isHexHash hash = true ->
  settle w pp pr s0
  = match confirmTransaction w (client_of (PaymentRequirements.network pr)) hash s with
    | (Returned confirmed, s3) => (Returned (settled pr hash payer), s3)
    | (Returned not_found, s3) => (Returned (failure hl_tx_not_found pr hash payer), s3)
    | (Returned timeout, s3) => (Returned (failure hl_tx_unconfirmed pr hash payer), s3)
    | (Thrown _, s3) =>
        (Returned (failure hl_exchange_error pr (PaymentRequirements.payTo pr) payer), s3)
    end.
Proof.
  intros G A P Sub Mt Kn Rs Hx.
  rewrite (settle_conclusion _ _ _ s0 G A P). unfold conclusion.
  rewrite Sub, Mt, Rs, Hx, (hex_hash_not_empty _ Hx). cbn [negb orb].
  replace (known payer && Verify.missing m) with false; [reflexivity|].
  destruct (known payer); [|reflexivity].
  destruct m as [h|]; [|now destruct (Kn eq_refl)].
  destruct (matched_hex _ _ _ _ _ _ _ Mt) as [Hm _].
  cbn. now rewrite (hex_hash_not_empty _ (Hm h eq_refl)).
Qed.

End Facts.
End SettleSteps.

(* ================================================================== *)
(** * Binary64 rounding *)
(* ================================================================== *)

(** The rounding of [JsNumber] keeps the order and leaves whole numbers
    up to 2^53 as they are. *)
Module Binary64.
Import JsNumber.
Local Open Scope Q_scope.

Lemma two_not_zero : ~ 2 == 0.
Proof. discriminate. Qed.

Lemma pow2_positive k : 0 < 2 ^ k.
Proof. apply Qpower_0_lt. reflexivity. Qed.

Lemma pow2_succ k : 2 ^ (k + 1) == 2 ^ k * 2.
Proof. rewrite Qpower_plus by exact two_not_zero. reflexivity. Qed.

Lemma pow2_Z k : (0 <= k)%Z -> 2 ^ k == inject_Z (2 ^ k).
Proof. intros H. now rewrite Zpower_Qpower. Qed.

Lemma pow2_le a b : (a <= b)%Z -> 2 ^ a <= 2 ^ b.
Proof. intros H. apply Qpower_le_compat_l; [exact H | discriminate]. Qed.

Lemma pow2_lt_inv a b : 2 ^ a < 2 ^ b -> (a < b)%Z.
Proof. intros H. apply (Qpower_lt_compat_l_inv 2); [exact H | reflexivity]. Qed.

(** *** The nearest integer *)

Lemma nearest_even_cases q :
  nearest_even q = Qfloor q \/ nearest_even q = (Qfloor q + 1)%Z.
Proof.
  unfold nearest_even. destruct (Qcompare _ _); [destruct (Z.even _)| |]; auto.
Qed.

Lemma nearest_even_Z z : nearest_even (inject_Z z) = z.
Proof.
  unfold nearest_even. rewrite Qfloor_Z.
  assert (E : inject_Z z - inject_Z z == 0) by ring.
  rewrite E. reflexivity.
Qed.

Lemma nearest_even_mono x y : x <= y -> (nearest_even x <= nearest_even y)%Z.
Proof.
  intros H. pose proof (Qfloor_resp_le _ _ H) as F.
  destruct (Z.eq_dec (Qfloor x) (Qfloor y)) as [E|N].
  - unfold nearest_even. rewrite <- E.
    assert (D : x - inject_Z (Qfloor x) <= y - inject_Z (Qfloor x))
      by (apply Qplus_le_l; exact H).
    destruct (Qcompare_spec (x - inject_Z (Qfloor x)) (1 # 2)) as [Ex|Lx|Gx];
      destruct (Qcompare_spec (y - inject_Z (Qfloor x)) (1 # 2)) as [Ey|Ly|Gy];
      try (destruct (Z.even (Qfloor x)); lia); try lia; exfalso.
    + rewrite Ex in D. exact (Qlt_not_le _ _ Ly D).
    + rewrite Ey in D. exact (Qlt_not_le _ _ Gx D).
    + apply (Qlt_not_le _ _ Gx). eapply Qle_trans; [exact D|]. now apply Qlt_le_weak.
  - destruct (nearest_even_cases x) as [-> | ->], (nearest_even_cases y) as [-> | ->]; lia.
Qed.

Lemma nearest_even_ge z q : inject_Z z <= q -> (z <= nearest_even q)%Z.
Proof. intros H. rewrite <- (nearest_even_Z z). now apply nearest_even_mono. Qed.

Lemma nearest_even_le z q : q <= inject_Z z -> (nearest_even q <= z)%Z.
Proof. intros H. rewrite <- (nearest_even_Z z). now apply nearest_even_mono. Qed.

Lemma nearest_even_eq z q : q == inject_Z z -> nearest_even q = z.
Proof.
  intros H. apply Z.le_antisymm.
  - apply nearest_even_le. rewrite H. apply Qle_refl.
  - apply nearest_even_ge. rewrite H. apply Qle_refl.
Qed.

Lemma nearest_even_close q : Qabs (inject_Z (nearest_even q) - q) <= 1 # 2.
Proof.
  pose proof (Qfloor_le q) as L. pose proof (Qlt_floor q) as U.
  rewrite inject_Z_plus in U. change (inject_Z 1) with 1 in U.
  apply Qabs_Qle_condition. unfold nearest_even.
  set (f := inject_Z (Qfloor q)) in *.
  destruct (Qcompare_spec (q - f) (1 # 2)) as [E|E|E];
    [destruct (Z.even (Qfloor q))| |];
    rewrite ?inject_Z_plus; fold f; change (inject_Z 1) with 1; lra.
Qed.

(** *** The exponent *)

Lemma inject_Z_positive z : (0 < z)%Z -> 0 < inject_Z z.
Proof. intros H. unfold Qlt. simpl. lia. Qed.

Lemma fraction_lt a b c d :
  (0 < b)%Z -> (0 < d)%Z -> (a * d < c * b)%Z ->
  inject_Z a / inject_Z b < inject_Z c / inject_Z d.
Proof.
  intros Hb Hd H.
  apply Qlt_shift_div_l; [now apply inject_Z_positive|].
  unfold Qdiv. rewrite <- Qmult_assoc, (Qmult_comm (/ _)), Qmult_assoc.
  apply Qlt_shift_div_r; [now apply inject_Z_positive|].
  rewrite <- !inject_Z_mult, <- Zlt_Qlt. exact H.
Qed.

Lemma fraction_le a b c d :
  (0 < b)%Z -> (0 < d)%Z -> (a * d <= c * b)%Z ->
  inject_Z a / inject_Z b <= inject_Z c / inject_Z d.
Proof.
  intros Hb Hd H.
  apply Qle_shift_div_l; [now apply inject_Z_positive|].
  unfold Qdiv. rewrite <- Qmult_assoc, (Qmult_comm (/ _)), Qmult_assoc.
  apply Qle_shift_div_r; [now apply inject_Z_positive|].
  rewrite <- !inject_Z_mult, <- Zle_Qle. exact H.
Qed.

Lemma pow2_fraction a b :
  (0 <= a)%Z -> (0 <= b)%Z -> 2 ^ (a - b) == inject_Z (2 ^ a) / inject_Z (2 ^ b).
Proof.
  intros Ha Hb. rewrite Qpower_minus by exact two_not_zero.
  now rewrite !pow2_Z.
Qed.

Lemma exponent_spec q :
  ~ q == 0 -> 2 ^ exponent q <= Qabs q /\ Qabs q < 2 ^ (exponent q + 1).
Proof.
  intros N. unfold exponent.
  set (a := Z.abs (Qnum q)). set (b := Zpos (Qden q)).
  assert (Ha : (0 < a)%Z).
  { unfold a. destruct q as [n d]. unfold Qeq in N. simpl in N |- *. lia. }
  assert (Hb : (0 < b)%Z) by reflexivity.
  assert (Eq : Qabs q == inject_Z a / inject_Z b).
  { destruct q as [n d]. unfold a, b. simpl. apply Qmake_Qdiv. }
  destruct (Z.log2_spec a Ha) as [La Ua]. destruct (Z.log2_spec b Hb) as [Lb Ub].
  pose proof (Z.log2_nonneg a) as Na. pose proof (Z.log2_nonneg b) as Nb.
  set (la := Z.log2 a) in *. set (lb := Z.log2 b) in *.
  assert (Pa : (0 < 2 ^ la)%Z) by (apply Z.pow_pos_nonneg; lia).
  assert (Pb : (0 < 2 ^ lb)%Z) by (apply Z.pow_pos_nonneg; lia).
  assert (Up : Qabs q < 2 ^ (la - lb + 1)).
  { replace (la - lb + 1)%Z with (Z.succ la - lb)%Z by lia.
    rewrite Eq, pow2_fraction by lia. apply fraction_lt; [exact Hb | exact Pb | nia]. }
  assert (Low : 2 ^ (la - lb - 1) <= Qabs q).
  { replace (la - lb - 1)%Z with (la - Z.succ lb)%Z by lia.
    rewrite Eq, pow2_fraction by lia.
    apply fraction_le; [apply Z.pow_pos_nonneg; lia | exact Hb | nia]. }
  destruct (Qle_bool (2 ^ (la - lb)) (Qabs q)) eqn:T.
  - apply Qle_bool_iff in T. split; assumption.
  - split; [exact Low|].
    replace (la - lb - 1 + 1)%Z with (la - lb)%Z by lia.
    apply Qnot_le_lt. intros L. apply Qle_bool_iff in L. congruence.
Qed.

Lemma exponent_mono x y :
  ~ x == 0 -> Qabs x <= Qabs y -> (exponent x <= exponent y)%Z.
Proof.
  intros Nx H.
  assert (Ny : ~ y == 0).
  { intros E. rewrite E in H. apply Nx.
    apply Qabs_Qle_condition in H. destruct H as [L U].
    apply Qle_antisym; [exact U | exact L]. }
  destruct (exponent_spec x Nx) as [Lx _]. destruct (exponent_spec y Ny) as [_ Uy].
  assert (L : 2 ^ exponent x < 2 ^ (exponent y + 1)).
  { eapply Qle_lt_trans; [exact Lx|]. eapply Qle_lt_trans; [exact H | exact Uy]. }
  apply pow2_lt_inv in L. lia.
Qed.


(** *** The nearest number of the format *)

Lemma quantum_positive q : 0 < quantum q.
Proof. apply pow2_positive. Qed.

Lemma nearest_ge z q : inject_Z z * quantum q <= q -> inject_Z z * quantum q <= nearest q.
Proof.
  intros H. unfold nearest. apply Qmult_le_compat_r; [|apply Qlt_le_weak, quantum_positive].
  rewrite <- Zle_Qle. apply nearest_even_ge.
  apply Qle_shift_div_l; [apply quantum_positive | exact H].
Qed.

Lemma nearest_le z q : q <= inject_Z z * quantum q -> nearest q <= inject_Z z * quantum q.
Proof.
  intros H. unfold nearest. apply Qmult_le_compat_r; [|apply Qlt_le_weak, quantum_positive].
  rewrite <- Zle_Qle. apply nearest_even_le.
  apply Qle_shift_div_r; [apply quantum_positive | exact H].
Qed.

Lemma nearest_nonneg q : 0 <= q -> 0 <= nearest q.
Proof.
  intros H. assert (E : inject_Z 0 * quantum q == 0) by ring.
  rewrite <- E. apply nearest_ge. now rewrite E.
Qed.

Lemma nearest_nonpos q : q <= 0 -> nearest q <= 0.
Proof.
  intros H. assert (E : inject_Z 0 * quantum q == 0) by ring.
  rewrite <- E. apply nearest_le. now rewrite E.
Qed.

(** A number on the grid of its binade is left as it is. *)
Lemma nearest_grid z q : q == inject_Z z * quantum q -> nearest q == q.
Proof.
  intros H. unfold nearest. rewrite (nearest_even_eq z); [symmetry; exact H|].
  rewrite H at 1. field. apply Qnot_eq_sym, Qlt_not_eq, quantum_positive.
Qed.

(** The rounded number is a whole multiple of the spacing, and within
    half the spacing of the exact one. *)
Lemma nearest_close q : Qabs (nearest q - q) <= quantum q / 2.
Proof.
  pose proof (quantum_positive q) as P.
  assert (N : ~ quantum q == 0) by (apply Qnot_eq_sym, Qlt_not_eq, P).
  assert (E : nearest q - q
              == (inject_Z (nearest_even (q / quantum q)) - q / quantum q) * quantum q).
  { unfold nearest. field. exact N. }
  rewrite E, Qabs_Qmult, (Qabs_pos (quantum q)) by now apply Qlt_le_weak.
  unfold Qdiv. rewrite (Qmult_comm (quantum q)).
  apply Qmult_le_compat_r; [apply nearest_even_close | now apply Qlt_le_weak].
Qed.
Lemma quantum_binade q : quantum q = 2 ^ (binade q - 52).
Proof. reflexivity. Qed.

Lemma pow2_scale n e : (0 <= n)%Z -> inject_Z (2 ^ n) * 2 ^ (e - 52) == 2 ^ (e - 52 + n).
Proof.
  intros H. rewrite <- pow2_Z by exact H.
  rewrite (Qpower_plus 2 (e - 52) n) by exact two_not_zero. ring.
Qed.

Lemma pow2_scale_opp n e :
  (0 <= n)%Z -> inject_Z (- 2 ^ n) * 2 ^ (e - 52) == - 2 ^ (e - 52 + n).
Proof.
  intros H. rewrite inject_Z_opp. rewrite <- (pow2_scale n e H). ring.
Qed.

(** Within its binade: a positive number is rounded to a number between
    the ends of the binade. *)
Lemma nearest_upper q : 0 < q -> nearest q <= 2 ^ (binade q + 1).
Proof.
  intros P. assert (N : ~ q == 0) by (apply Qnot_eq_sym, Qlt_not_eq, P).
  destruct (exponent_spec q N) as [_ U]. rewrite Qabs_pos in U by now apply Qlt_le_weak.
  replace (binade q + 1)%Z with (binade q - 52 + 53)%Z by lia.
  rewrite <- pow2_scale by lia. rewrite <- quantum_binade.
  apply nearest_le. rewrite quantum_binade, pow2_scale by lia.
  apply Qlt_le_weak. eapply Qlt_le_trans; [exact U|].
  apply pow2_le. unfold binade. lia.
Qed.

Lemma nearest_lower q : 0 < q -> (-1022 <= exponent q)%Z -> 2 ^ binade q <= nearest q.
Proof.
  intros P B. assert (N : ~ q == 0) by (apply Qnot_eq_sym, Qlt_not_eq, P).
  destruct (exponent_spec q N) as [L _]. rewrite Qabs_pos in L by now apply Qlt_le_weak.
  replace (binade q) with (binade q - 52 + 52)%Z at 1 by lia.
  rewrite <- pow2_scale by lia. rewrite <- quantum_binade.
  apply nearest_ge. rewrite quantum_binade, pow2_scale by lia.
  replace (binade q - 52 + 52)%Z with (exponent q) by (unfold binade; lia). exact L.
Qed.

Lemma nearest_upper_neg q : q < 0 -> - 2 ^ (binade q + 1) <= nearest q.
Proof.
  intros P. assert (N : ~ q == 0) by (apply Qlt_not_eq, P).
  destruct (exponent_spec q N) as [_ U]. rewrite Qabs_neg in U by now apply Qlt_le_weak.
  replace (binade q + 1)%Z with (binade q - 52 + 53)%Z by lia.
  rewrite <- pow2_scale_opp by lia. rewrite <- quantum_binade.
  apply nearest_ge. rewrite quantum_binade, pow2_scale_opp by lia.
  apply Qlt_le_weak. apply Qopp_lt_compat in U. rewrite Qopp_involutive in U.
  eapply Qle_lt_trans; [|exact U].
  apply Qopp_le_compat. apply pow2_le. unfold binade. lia.
Qed.

Lemma nearest_lower_neg q : q < 0 -> (-1022 <= exponent q)%Z -> nearest q <= - 2 ^ binade q.
Proof.
  intros P B. assert (N : ~ q == 0) by (apply Qlt_not_eq, P).
  destruct (exponent_spec q N) as [L _]. rewrite Qabs_neg in L by now apply Qlt_le_weak.
  replace (binade q) with (binade q - 52 + 52)%Z at 1 by lia.
  rewrite <- pow2_scale_opp by lia. rewrite <- quantum_binade.
  apply nearest_le. rewrite quantum_binade, pow2_scale_opp by lia.
  replace (binade q - 52 + 52)%Z with (exponent q) by (unfold binade; lia).
  apply Qopp_le_compat in L. rewrite Qopp_involutive in L. exact L.
Qed.

Lemma nearest_same_binade x y :
  binade x = binade y -> x <= y -> nearest x <= nearest y.
Proof.
  intros E H. unfold nearest. rewrite !quantum_binade, E.
  apply Qmult_le_compat_r; [|apply Qlt_le_weak, pow2_positive].
  rewrite <- Zle_Qle. apply nearest_even_mono.
  apply Qmult_le_compat_r; [exact H|]. apply Qinv_le_0_compat, Qlt_le_weak, pow2_positive.
Qed.

(** Rounding keeps the order. *)
Lemma nearest_mono x y : x <= y -> nearest x <= nearest y.
Proof.
  intros H.
  destruct (Qlt_le_dec 0 x) as [Px|Nx].
  - assert (Py : 0 < y) by (eapply Qlt_le_trans; eassumption).
    assert (E : (exponent x <= exponent y)%Z).
    { apply exponent_mono; [apply Qnot_eq_sym, Qlt_not_eq, Px|].
      rewrite !Qabs_pos by now apply Qlt_le_weak. exact H. }
    destruct (Z.eq_dec (binade x) (binade y)) as [B|B];
      [now apply nearest_same_binade|].
    apply Qle_trans with (2 ^ (binade x + 1)); [now apply nearest_upper|].
    apply Qle_trans with (2 ^ binade y);
      [apply pow2_le; unfold binade in *; lia|].
    apply nearest_lower; [exact Py | unfold binade in *; lia].
  - destruct (Qlt_le_dec y 0) as [Ny|Py].
    + assert (Nx' : x < 0) by exact (Qle_lt_trans _ _ _ H Ny).
      assert (E : (exponent y <= exponent x)%Z).
      { apply exponent_mono; [apply Qlt_not_eq, Ny|].
        rewrite !Qabs_neg by now apply Qlt_le_weak. now apply Qopp_le_compat. }
      destruct (Z.eq_dec (binade x) (binade y)) as [B|B];
        [now apply nearest_same_binade|].
      apply Qle_trans with (- 2 ^ binade x);
        [apply nearest_lower_neg; [exact Nx' | unfold binade in *; lia]|].
      apply Qle_trans with (- 2 ^ (binade y + 1)); [|now apply nearest_upper_neg].
      apply Qopp_le_compat, pow2_le. unfold binade in *. lia.
    + apply Qle_trans with 0; [now apply nearest_nonpos | now apply nearest_nonneg].
Qed.

Lemma round64_mono x y : x <= y -> le (round64 x) (round64 y) = true.
Proof.
  intros H. apply nearest_mono in H. unfold round64.
  destruct (Qle_bool (2 ^ 1024) (nearest y)) eqn:Ty.
  { destruct (Qle_bool (2 ^ 1024) (nearest x));
      [|destruct (Qle_bool (nearest x) (- 2 ^ 1024))]; reflexivity. }
  destruct (Qle_bool (2 ^ 1024) (nearest x)) eqn:Tx.
  { apply Qle_bool_iff in Tx. exfalso.
    assert (L : Qle_bool (2 ^ 1024) (nearest y) = true)
      by (apply Qle_bool_iff; eapply Qle_trans; eassumption).
    congruence. }
  destruct (Qle_bool (nearest x) (- 2 ^ 1024)) eqn:Lx;
    [destruct (Qle_bool (nearest y) (- 2 ^ 1024)); reflexivity|].
  destruct (Qle_bool (nearest y) (- 2 ^ 1024)) eqn:Ly.
  { apply Qle_bool_iff in Ly. exfalso.
    assert (L : Qle_bool (nearest x) (- 2 ^ 1024) = true)
      by (apply Qle_bool_iff; eapply Qle_trans; eassumption).
    congruence. }
  cbn [le]. now apply Qle_bool_iff.
Qed.


(** *** Integers up to 2^53 are numbers of the format *)

Lemma pow2_le_inv a b : 2 ^ a <= 2 ^ b -> (a <= b)%Z.
Proof. intros H. apply (Qpower_le_compat_l_inv 2); [exact H | reflexivity]. Qed.

Lemma integer_exponent q z :
  q == inject_Z z -> z <> 0%Z -> (Z.abs z <= 2 ^ 53)%Z ->
  (0 <= exponent q <= 53)%Z /\ (exponent q = 53%Z -> Z.abs z = (2 ^ 53)%Z).
Proof.
  intros E N B.
  assert (Nq : ~ q == 0).
  { rewrite E. intros H. apply N. unfold Qeq in H. simpl in H. lia. }
  destruct (exponent_spec q Nq) as [L U].
  assert (A : Qabs q == inject_Z (Z.abs z)) by (rewrite E; reflexivity).
  rewrite A in L, U.
  assert (L0 : (0 <= exponent q)%Z).
  { assert (H : 2 ^ 0 < 2 ^ (exponent q + 1)).
    { eapply Qle_lt_trans; [|exact U]. change (2 ^ 0) with (inject_Z 1).
      rewrite <- Zle_Qle. lia. }
    apply pow2_lt_inv in H. lia. }
  assert (U53 : (exponent q <= 53)%Z).
  { apply pow2_le_inv. eapply Qle_trans; [exact L|].
    rewrite (pow2_Z 53) by lia. rewrite <- Zle_Qle. exact B. }
  split; [lia|]. intros E53. rewrite E53, (pow2_Z 53) in L by lia.
  rewrite <- Zle_Qle in L. lia.
Qed.

Lemma nearest_integer q z :
  q == inject_Z z -> (Z.abs z <= 2 ^ 53)%Z -> nearest q == inject_Z z.
Proof.
  intros E B. rewrite <- E.
  destruct (Z.eq_dec z 0%Z) as [->|N].
  { apply (nearest_grid 0). eapply Qeq_trans; [exact E|].
    change (inject_Z 0) with 0. ring. }
  destruct (integer_exponent q z E N B) as [[L U] T].
  assert (Q : quantum q = 2 ^ (exponent q - 52)).
  { unfold quantum, binade. f_equal. lia. }
  destruct (Z.eq_dec (exponent q) 53%Z) as [E53|N53].
  - apply (nearest_grid (z / 2)). rewrite Q, E53.
    eapply Qeq_trans; [exact E|].
    change (2 ^ (53 - 52)) with (inject_Z 2). rewrite <- inject_Z_mult.
    apply inject_Z_injective. specialize (T E53).
    assert (C : z = (2 ^ 53)%Z \/ z = (- 2 ^ 53)%Z) by lia.
    destruct C as [-> | ->]; reflexivity.
  - apply (nearest_grid (z * 2 ^ (52 - exponent q))). rewrite Q.
    eapply Qeq_trans; [exact E|].
    rewrite inject_Z_mult, <- Qmult_assoc, pow2_scale by lia.
    replace (exponent q - 52 + (52 - exponent q))%Z with 0%Z by lia.
    change (2 ^ 0) with 1. ring.
Qed.

Lemma round64_integer q z :
  q == inject_Z z -> (Z.abs z <= 2 ^ 53)%Z ->
  exists r, round64 q = Fin r /\ r == inject_Z z.
Proof.
  intros E B. pose proof (nearest_integer q z E B) as N.
  exists (nearest q). split; [|exact N]. unfold round64.
  assert (Bq : - 2 ^ 53 <= nearest q /\ nearest q <= 2 ^ 53).
  { rewrite N, (pow2_Z 53) by lia. rewrite <- inject_Z_opp, <- !Zle_Qle. lia. }
  destruct Bq as [Lo Hi].
  destruct (Qle_bool (2 ^ 1024) (nearest q)) eqn:T1.
  { apply Qle_bool_iff in T1. exfalso.
    assert (H : 2 ^ 1024 <= 2 ^ 53) by (eapply Qle_trans; eassumption).
    apply pow2_le_inv in H. lia. }
  destruct (Qle_bool (nearest q) (- 2 ^ 1024)) eqn:T2; [|reflexivity].
  apply Qle_bool_iff in T2. exfalso.
  assert (H : - 2 ^ 53 <= - 2 ^ 1024) by (eapply Qle_trans; eassumption).
  apply Qopp_le_compat in H. rewrite !Qopp_involutive in H.
  apply pow2_le_inv in H. lia.
Qed.

(** *** The order of numbers *)

Lemma le_trans a b c : le a b = true -> le b c = true -> le a c = true.
Proof.
  destruct a as [| | |x], b as [| | |y], c as [| | |z]; cbn [le]; try congruence.
  intros H1 H2. apply Qle_bool_iff in H1, H2. apply Qle_bool_iff.
  eapply Qle_trans; eassumption.
Qed.

Lemma round64_not_NaN q : round64 q <> NaN.
Proof.
  unfold round64. destruct (Qle_bool _ _); [discriminate|].
  destruct (Qle_bool _ _); discriminate.
Qed.

Lemma mul_mono a b z :
  (0 < z)%Z -> le a b = true -> le (mul a (of_Z z)) (mul b (of_Z z)) = true.
Proof.
  intros P. unfold of_Z.
  assert (S : sign (inject_Z z) = Gt) by (unfold sign; simpl; now apply Z.compare_gt_iff).
  destruct a as [| | |x], b as [| | |y]; cbn [le mul]; unfold inf_times; rewrite ?S;
    try congruence; try reflexivity.
  - intros _. match goal with |- context [round64 ?q] =>
      pose proof (round64_not_NaN q); destruct (round64 q); first [congruence | reflexivity] end.
  - intros _. match goal with |- context [round64 ?q] =>
      pose proof (round64_not_NaN q); destruct (round64 q); first [congruence | reflexivity] end.
  - intros H. apply Qle_bool_iff in H. apply round64_mono.
    apply Qmult_le_compat_r; [exact H|]. unfold Qle. simpl. lia.
Qed.

Lemma add_mono t a b : le a b = true -> le (add (Fin t) a) (add (Fin t) b) = true.
Proof.
  destruct a as [| | |x], b as [| | |y]; cbn [le add]; try congruence; try reflexivity.
  - intros _. match goal with |- context [round64 ?q] =>
      pose proof (round64_not_NaN q); destruct (round64 q); first [congruence | reflexivity] end.
  - intros _. match goal with |- context [round64 ?q] =>
      pose proof (round64_not_NaN q); destruct (round64 q); first [congruence | reflexivity] end.
  - intros H. apply Qle_bool_iff in H. apply round64_mono. now apply Qplus_le_r.
Qed.

End Binary64.

(** What the rounding means for [withinTtl]. *)
Module TtlFacts.

Import Verify VerifySpec.

Lemma expiresAt_not_NaN time m : expiresAt time m <> NaN.
Proof.
  unfold expiresAt. cbn [JsNumber.mul JsNumber.of_Z].
  pose proof (Binary64.round64_not_NaN (m * inject_Z 1000)) as H.
  destruct (JsNumber.round64 (m * inject_Z 1000)); cbn [JsNumber.add];
    try discriminate; [congruence|].
  apply Binary64.round64_not_NaN.
Qed.

(** [withinTtl] refuses exactly when the instant of expiry lies before
    the clock. *)
Lemma withinTtl_finite dateNow time m :
  withinTtl dateNow (VNumber (Fin time)) (Fin m) = false
  <-> JsNumber.lt (expiresAt time m) (JsNumber.of_Z dateNow) = true.
Proof.
  cbn [withinTtl]. fold (expiresAt time m).
  pose proof (expiresAt_not_NaN time m) as N. unfold JsNumber.of_Z.
  destruct (expiresAt time m) as [| | |x]; cbn [JsNumber.le JsNumber.lt];
    try congruence; try tauto.
  - split; discriminate.
  - destruct (Qle_bool (inject_Z dateNow) x); cbn [negb]; split; congruence.
Qed.

Lemma withinTtl_not_finite dateNow v m :
  (forall time, v <> VNumber (Fin time)) -> withinTtl dateNow v m = false.
Proof.
  intros H. destruct v as [| | |n| | | |]; try reflexivity.
  destruct n; try reflexivity. now destruct (H q).
Qed.

(** For whole numbers that binary64 holds as they are, the instant of
    expiry is the exact sum. *)
Lemma expiresAt_whole time m T S :
  (time == inject_Z T)%Q -> (m == inject_Z S)%Q ->
  safe_integer (S * 1000) -> safe_integer (T + S * 1000) ->
  exists r, expiresAt time m = Fin r /\ (r == inject_Z (T + S * 1000))%Q.
Proof.
  intros Et Em B1 B2. unfold expiresAt. cbn [JsNumber.mul JsNumber.of_Z].
  destruct (Binary64.round64_integer (m * inject_Z 1000) (S * 1000)) as (r1 & -> & E1);
    [rewrite Em, inject_Z_mult; reflexivity | exact B1 |].
  cbn [JsNumber.add].
  apply Binary64.round64_integer; [|exact B2].
  rewrite Et, E1, inject_Z_plus. reflexivity.
Qed.

Lemma withinTtl_whole dateNow time m T S :
  (time == inject_Z T)%Q -> (m == inject_Z S)%Q ->
  safe_integer (S * 1000) -> safe_integer (T + S * 1000) ->
  withinTtl dateNow (VNumber (Fin time)) (Fin m) = false <-> T + S * 1000 < dateNow.
Proof.
  intros Et Em B1 B2. rewrite withinTtl_finite.
  destruct (expiresAt_whole time m T S Et Em B1 B2) as (r & -> & E).
  unfold JsNumber.of_Z. cbn [JsNumber.lt]. rewrite negb_true_iff.
  rewrite Zlt_Qlt, <- E. split.
  - intros H. apply Qnot_le_lt. intros L. apply Qle_bool_iff in L. congruence.
  - intros H. destruct (Qle_bool _ _) eqn:L; [|reflexivity].
    apply Qle_bool_iff in L. exfalso. exact (Qlt_not_le _ _ H L).
Qed.

(** A payment stamped with one reading of the clock is fresh at another
    reading that the exact sum of the stamp and the time-out has not
    passed: rounding does not step back over a whole number. *)
Lemma withinTtl_between_readings stamp dateNow timeout :
  clock_reading stamp -> clock_reading dateNow ->
  (inject_Z dateNow <= inject_Z stamp + timeout * inject_Z 1000)%Q ->
  withinTtl dateNow (VNumber (JsNumber.of_Z stamp)) (Fin timeout) = true.
Proof.
  intros [S0 S1] [D0 D1] H. unfold JsNumber.of_Z. cbn [withinTtl JsNumber.mul JsNumber.of_Z].
  assert (Hd : (inject_Z (dateNow - stamp) <= timeout * inject_Z 1000)%Q).
  { unfold Z.sub. rewrite inject_Z_plus, inject_Z_opp.
    apply Qplus_le_l with (z := inject_Z stamp).
    eapply Qle_trans; [|rewrite Qplus_comm; exact H].
    apply Qle_lteq. right. ring. }
  pose proof (Binary64.round64_mono _ _ Hd) as M.
  destruct (Binary64.round64_integer (inject_Z (dateNow - stamp)) (dateNow - stamp))
    as (rd & Erd & Ed); [reflexivity | change (2 ^ 53) with 9007199254740992; lia |].
  rewrite Erd in M.
  pose proof (Binary64.add_mono (inject_Z stamp) _ _ M) as A. cbn [JsNumber.add] in A.
  destruct (Binary64.round64_integer (inject_Z stamp + rd) dateNow) as (r & Er & E);
    [rewrite Ed, <- inject_Z_plus; f_equiv; lia
    | change (2 ^ 53) with 9007199254740992; lia |].
  rewrite Er in A.
  eapply Binary64.le_trans; [|exact A].
  cbn [JsNumber.le]. apply Qle_bool_iff. rewrite E. apply Qle_refl.
Qed.

End TtlFacts.

(* ================================================================== *)
(** * The order of the checks of [verify] *)
(* ================================================================== *)

Module VerifyOrder.

Import Verify VerifySpec VerifyFacts.

(** C2.  [verify] runs its checks in the order shape/network, payload
    fields, recipient, asset, amount, TTL, and the first check that
    fails gives the reason: each reason is reported as soon as its check
    fails and the earlier ones pass, whatever the later ones would say.
    In particular a payload that violates recipient, asset and amount
    at once is answered with the recipient mismatch. *)
Theorem verify_first_failing_check_wins (w : World)
    (pp : PaymentPayload.t) (pr : PaymentRequirements.t) (s : State) :
  (~ guard_passes pp pr ->
   verify w pp pr s = (Returned (reject invalid_exact_hl_network), s))
  /\ (guard_passes pp pr ->
      (forall action,
          Js.get (PaymentPayload.payload pp) "action" = Returned action ->
          lacks_fields action ->
          verify w pp pr s = (Returned (reject invalid_exact_hl_payload), s))
      /\ (forall action destination token amount,
             carries pp action destination token amount ->
             let recipient_ok :=
               JsString.toLowerCase destination
               = JsString.toLowerCase (PaymentRequirements.payTo pr) in
             let asset_ok := token = PaymentRequirements.asset pr in
             (~ recipient_ok ->
              verify w pp pr s
              = (Returned (reject invalid_exact_hl_payload_recipient_mismatch), s))
             /\ (recipient_ok -> ~ asset_ok ->
                 verify w pp pr s
                 = (Returned (reject invalid_exact_hl_payload_asset_mismatch), s))
             /\ (recipient_ok -> asset_ok ->
                 exists decimals s',
                   resolveDecimals w pr s = (Returned decimals, s')
                   /\ let amount_ok :=
                        ensureAmountMeetsRequirement w amount
                          (PaymentRequirements.maxAmountRequired pr) decimals in
                      let fresh :=
                        withinTtl (now w) (Js.own action "time")
                          (PaymentRequirements.maxTimeoutSeconds pr) in
                      (amount_ok = false ->
                       verify w pp pr s
                       = (Returned (reject invalid_exact_hl_payload_amount_mismatch), s'))
                      /\ (amount_ok = true -> fresh = false ->
                          verify w pp pr s = (Returned (reject payment_expired), s'))
                      /\ (amount_ok = true -> fresh = true ->
                          exists payer,
                            verify w pp pr s = (Returned (accept payer), s')))
             /\ (forall decimals,
                    ~ recipient_ok -> ~ asset_ok ->
                    ensureAmountMeetsRequirement w amount
                      (PaymentRequirements.maxAmountRequired pr) decimals = false ->
                    fst (verify w pp pr s)
                    = Returned (reject invalid_exact_hl_payload_recipient_mismatch)))).
Proof.
  split; [apply verify_guard|].
  intros G. split; [intros action; now apply verify_lacks_fields|].
  intros action destination token amount C recipient_ok asset_ok.
  subst recipient_ok asset_ok. cbv zeta.
  rewrite (verify_verdict w _ _ _ _ _ _ s G C). unfold verdict.
  destruct (String.eqb_spec (JsString.toLowerCase destination)
              (JsString.toLowerCase (PaymentRequirements.payTo pr))) as [R|R];
    cbn [negb].
  - destruct (String.eqb_spec token (PaymentRequirements.asset pr)) as [A|A]; cbn [negb].
    + repeat split; try congruence. intros _ _.
      destruct (resolveDecimals_returns w pr s) as (decimals & s' & E).
      exists decimals, s'. split; [exact E|]. rewrite E.
      destruct (ensureAmountMeetsRequirement _ _ _ _); cbn [negb].
      * destruct (withinTtl _ _ _); cbn [negb]; repeat split; try congruence.
        intros _ _. destruct (extractPayer_returns _ _ _ _ _ C) as [payer ->]. eauto.
      * repeat split; congruence.
    + repeat split; try congruence; intros; contradiction.
  - repeat split; try congruence; intros; contradiction.
Qed.

Lemma verify_first_failing_check_wins_witness :
  fst (verify Sample.calm
         (Sample.payment (Sample.action "0xcccc" "USDT:0x00" "0.5" Sample.TIMESTAMP))
         Sample.baseRequirements initial_state)
  = Returned (reject invalid_exact_hl_payload_recipient_mismatch).
Proof.
  pose proof (verify_first_failing_check_wins Sample.calm
    (Sample.payment (Sample.action "0xcccc" "USDT:0x00" "0.5" Sample.TIMESTAMP))
    Sample.baseRequirements initial_state) as [_ H].
  destruct (H (sample_guard _ _ _)) as [_ H'].
  assert (C : carries
                (Sample.payment (Sample.action "0xcccc" "USDT:0x00" "0.5" Sample.TIMESTAMP))
                (Sample.action "0xcccc" "USDT:0x00" "0.5" Sample.TIMESTAMP)
                "0xcccc" "USDT:0x00" "0.5")
    by (apply sample_carries; discriminate).
  destruct (H' _ _ _ _ C) as (_ & _ & _ & H4).
  apply (H4 (Some (JsNumber.of_Z 6))); [discriminate | discriminate | reflexivity].
Defined.

End VerifyOrder.

(* ================================================================== *)
(** * The amount check *)
(* ================================================================== *)

Module AmountFacts.

Import Verify StringFacts.

Lemma digit_not_space c : JsString.is_digit c = true -> JsString.is_space c = false.
Proof.
  destruct c as [[] [] [] [] [] [] [] []]; try discriminate; reflexivity.
Qed.

Lemma digit_value_digit c :
  JsString.is_digit c = true ->
  exists d, JsString.digit_value 10 c = Some d /\ 0 <= d <= 9.
Proof.
  destruct c as [[] [] [] [] [] [] [] []]; try discriminate; intros _;
    cbv; eexists; (split; [reflexivity | split; discriminate]).
Qed.

Lemma rev_onto_twice s a b :
  JsString.rev_onto (JsString.rev_onto s a) b = JsString.rev_onto a (s ++ b).
Proof.
  revert a b. induction s as [|c r IH]; intros a b; [reflexivity|].
  cbn [JsString.rev_onto]. now rewrite IH.
Qed.

Lemma rev_involutive s : JsString.rev (JsString.rev s) = s.
Proof.
  unfold JsString.rev. rewrite rev_onto_twice. cbn [JsString.rev_onto].
  apply append_empty_r.
Qed.

Lemma all_chars_rev_onto p s acc :
  JsString.all_chars p s = true -> JsString.all_chars p acc = true ->
  JsString.all_chars p (JsString.rev_onto s acc) = true.
Proof.
  revert acc. induction s as [|c r IH]; intros acc Hs Ha; [exact Ha|].
  cbn [JsString.all_chars] in Hs. apply andb_true_iff in Hs as [Hc Hr].
  cbn [JsString.rev_onto]. apply IH; [exact Hr|].
  cbn [JsString.all_chars]. now rewrite Hc, Ha.
Qed.

Lemma drop_while_digits s :
  JsString.all_chars JsString.is_digit s = true ->
  JsString.drop_while JsString.is_space s = s.
Proof.
  destruct s as [|c r]; [reflexivity|]. cbn [JsString.all_chars JsString.drop_while].
  intros H. apply andb_true_iff in H as [Hc _]. now rewrite (digit_not_space _ Hc).
Qed.

Lemma trim_digits s :
  JsString.all_chars JsString.is_digit s = true -> JsString.trim s = s.
Proof.
  intros H. unfold JsString.trim.
  rewrite (drop_while_digits s H).
  rewrite drop_while_digits; [apply rev_involutive|].
  unfold JsString.rev. now apply all_chars_rev_onto.
Qed.

Lemma toBigInt_digits s :
  s <> "" -> JsString.all_chars JsString.is_digit s = true ->
  JsString.toBigInt s = JsString.parse_digits 10 s.
Proof.
  intros N H. unfold JsString.toBigInt. rewrite (trim_digits s H).
  destruct s as [|c r]; [congruence|].
  cbn [JsString.all_chars] in H. apply andb_true_iff in H as [Hc Hr].
  destruct c as [[] [] [] [] [] [] [] []]; try discriminate; try reflexivity.
  destruct r as [|x r']; [reflexivity|].
  cbn [JsString.all_chars] in Hr. apply andb_true_iff in Hr as [Hx _].
  destruct x as [[] [] [] [] [] [] [] []]; try discriminate; reflexivity.
Qed.

Lemma digits_from_app radix acc s1 s2 :
  JsString.digits_from radix acc (s1 ++ s2)
  = match JsString.digits_from radix acc s1 with
    | Some a => JsString.digits_from radix a s2
    | None => None
    end.
Proof.
  revert acc. induction s1 as [|c r IH]; intros acc; [reflexivity|].
  cbn [String.append JsString.digits_from].
  destruct (JsString.digit_value radix c); [apply IH | reflexivity].
Qed.

Lemma digits_from_shift s :
  JsString.all_chars JsString.is_digit s = true ->
  exists v, 0 <= v
            /\ forall acc, JsString.digits_from 10 acc s
                           = Some (acc * 10 ^ Z.of_nat (String.length s) + v).
Proof.
  induction s as [|c r IH]; intros H.
  - exists 0. split; [lia|]. intros acc. cbn. f_equal. lia.
  - cbn [JsString.all_chars] in H. apply andb_true_iff in H as [Hc Hr].
    destruct (IH Hr) as (v & Hv & E).
    destruct (digit_value_digit c Hc) as (d & Hd & Rd).
    exists (d * 10 ^ Z.of_nat (String.length r) + v). split; [nia|].
    intros acc. cbn [JsString.digits_from]. rewrite Hd, E.
    f_equal. cbn [String.length]. rewrite Nat2Z.inj_succ, Z.pow_succ_r by lia.
    change (Z.of_N 10) with 10. ring.
Qed.

Lemma take_length n s :
  (n <= String.length s)%nat -> String.length (JsString.take n s) = n.
Proof.
  revert s. induction n as [|n IH]; intros s H; [reflexivity|].
  destruct s as [|c r]; cbn in H; [lia|]. cbn. f_equal. apply IH. lia.
Qed.

Lemma take_app_le n s t :
  (n <= String.length s)%nat -> JsString.take n (s ++ t) = JsString.take n s.
Proof.
  revert s. induction n as [|n IH]; intros s H; [reflexivity|].
  destruct s as [|c r]; cbn in H; [lia|]. cbn. f_equal. apply IH. lia.
Qed.

Lemma take_app_ge n s t :
  (String.length s <= n)%nat ->
  JsString.take n (s ++ t) = s ++ JsString.take (n - String.length s) t.
Proof.
  revert n. induction s as [|c r IH]; intros n H.
  - cbn. now rewrite Nat.sub_0_r.
  - destruct n as [|n]; cbn in H; [lia|]. cbn. f_equal. apply IH. lia.
Qed.

Lemma take_zeros k n : (k <= n)%nat -> JsString.take k (JsString.zeros n) = JsString.zeros k.
Proof.
  revert n. induction k as [|k IH]; intros n H; [reflexivity|].
  destruct n as [|n]; [lia|]. cbn. f_equal. apply IH. lia.
Qed.

Lemma length_zeros n : String.length (JsString.zeros n) = n.
Proof. induction n as [|n IH]; [reflexivity|]. cbn. now rewrite IH. Qed.

Lemma all_chars_app p s t :
  JsString.all_chars p (s ++ t) = JsString.all_chars p s && JsString.all_chars p t.
Proof.
  induction s as [|c r IH]; [reflexivity|]. cbn. rewrite IH. apply andb_assoc.
Qed.

Lemma all_chars_take p n s :
  JsString.all_chars p s = true -> JsString.all_chars p (JsString.take n s) = true.
Proof.
  revert s. induction n as [|n IH]; intros s H; [reflexivity|].
  destruct s as [|c r]; [reflexivity|]. cbn in H |- *.
  apply andb_true_iff in H as [Hc Hr]. now rewrite Hc, IH.
Qed.

Lemma zeros_digits n : JsString.all_chars JsString.is_digit (JsString.zeros n) = true.
Proof. induction n as [|n IH]; [reflexivity|]. cbn [JsString.zeros JsString.all_chars]. now rewrite IH. Qed.

(** The fraction as the code normalizes it is the fraction of the
    specification. *)
Lemma normalizedFraction_exact fraction d :
  0 <= d ->
  (if d <? Z.of_nat (String.length fraction)
   then JsString.slice0 fraction (Z.to_nat d)
   else JsString.padEnd0 fraction (Z.to_nat d))
  = AmountSpec.exact_fraction fraction (Z.to_nat d).
Proof.
  intros Hd. unfold AmountSpec.exact_fraction, JsString.slice0, JsString.padEnd0.
  destruct (Z.ltb_spec d (Z.of_nat (String.length fraction))) as [L|L].
  - now rewrite take_app_le by lia.
  - rewrite take_app_ge by lia. now rewrite take_zeros by lia.
Qed.

Lemma exact_fraction_length fraction n :
  String.length (AmountSpec.exact_fraction fraction n) = n.
Proof.
  unfold AmountSpec.exact_fraction. apply take_length.
  rewrite length_app, length_zeros. lia.
Qed.

Lemma exact_fraction_digits fraction n :
  JsString.all_chars JsString.is_digit fraction = true ->
  JsString.all_chars JsString.is_digit (AmountSpec.exact_fraction fraction n) = true.
Proof.
  intros H. unfold AmountSpec.exact_fraction. apply all_chars_take.
  now rewrite all_chars_app, H, zeros_digits.
Qed.

Lemma BigInt_of_number_integer d : BigInt_of_number (JsNumber.of_Z d) = Returned d.
Proof.
  unfold BigInt_of_number, JsNumber.of_Z, JsNumber.as_integer, inject_Z.
  cbn [Qnum Qden]. now rewrite Z.mod_1_r, Z.div_1_r.
Qed.

(** A decimal literal splits into a whole part and a fraction, both of
    digits, the whole part not empty. *)
Lemma decimal_literal_parts s :
  is_decimal_literal s = true ->
  let parts := JsString.split "." s in
  nth 0 parts "" <> ""
  /\ JsString.all_chars JsString.is_digit (nth 0 parts "") = true
  /\ JsString.all_chars JsString.is_digit (nth 1 parts "") = true.
Proof.
  unfold is_decimal_literal. cbv zeta.
  destruct (JsString.split "." s) as [|whole [|fraction [|x rest]]]; try discriminate.
  - intros H. apply andb_true_iff in H as [N D]. cbn [nth].
    split; [|split; [exact D | reflexivity]].
    destruct whole; [discriminate | discriminate].
  - intros H. apply andb_true_iff in H as [H1 H2].
    apply andb_true_iff in H1 as [N1 D1]. apply andb_true_iff in H2 as [_ D2].
    cbn [nth]. split; [|split; assumption].
    destruct whole; [discriminate | discriminate].
Qed.

(** [decimalToAtomic] computes the integer of the specification. *)
Lemma decimalToAtomic_spec amount d :
  0 <= d ->
  is_decimal_literal (JsString.trim amount) = true ->
  exists a, decimalToAtomic amount (JsNumber.of_Z d) = Returned a
            /\ AmountSpec.atomic (JsString.trim amount) (Z.to_nat d) = Some a.
Proof.
  intros Hd L. unfold decimalToAtomic, AmountSpec.atomic.
  rewrite L. cbn [negb]. rewrite BigInt_of_number_integer.
  destruct (decimal_literal_parts _ L) as (Nw & Dw & Df).
  set (parts := JsString.split "." (JsString.trim amount)) in *.
  set (whole := nth 0 parts "") in *. set (fraction := nth 1 parts "") in *.
  rewrite (normalizedFraction_exact fraction d Hd).
  set (nf := AmountSpec.exact_fraction fraction (Z.to_nat d)).
  assert (Dn : JsString.all_chars JsString.is_digit nf = true)
    by now apply exact_fraction_digits.
  assert (Ln : Z.of_nat (String.length nf) = d)
    by (unfold nf; rewrite exact_fraction_length; lia).
  destruct (digits_from_shift whole Dw) as (wv & Hwv & Ew).
  destruct (digits_from_shift nf Dn) as (fv & Hfv & Ef).
  assert (Bw : BigInt_of_string (if JsString.is_empty whole then "0" else whole)
               = Returned wv).
  { destruct whole as [|c r] eqn:W; [congruence|]. cbn [JsString.is_empty].
    unfold BigInt_of_string. rewrite toBigInt_digits by (congruence || assumption).
    unfold JsString.parse_digits. cbn [JsString.is_empty]. rewrite Ew.
    f_equal; lia. }
  assert (Bf : BigInt_of_string (if JsString.is_empty nf then "0" else nf)
               = Returned fv).
  { destruct nf as [|c r] eqn:F.
    - cbn [JsString.is_empty].
      assert (Z : fv = 0) by (specialize (Ef 0); cbn in Ef; injection Ef; lia).
      rewrite Z. reflexivity.
    - cbn [JsString.is_empty].
      unfold BigInt_of_string. rewrite toBigInt_digits by (congruence || assumption).
      unfold JsString.parse_digits. cbn [JsString.is_empty]. rewrite Ef.
      f_equal; lia. }
  rewrite Bw, Bf. eexists. split; [reflexivity|].
  unfold JsString.parse_digits.
  replace (JsString.is_empty (whole ++ nf)) with false
    by (destruct whole; [congruence | reflexivity]).
  rewrite digits_from_app, Ew, Ef, Ln. f_equal; lia.
Qed.

(** C3.  With [maxAmountRequired = "1000000"] and six decimals the
    amount check lets "1" and "1.000001" through and stops "0.999999".
    In general, for a decimal-string amount and known decimals, the check
    is the one of the specification: split on ".", cut or zero-pad the
    fraction to exactly [decimals] digits, read whole part and fraction
    together as one integer, and compare it [>=] the required integer. *)
Theorem amount_check_rule (w : World) :
  (ensureAmountMeetsRequirement w "1" "1000000" (Some (JsNumber.of_Z 6)) = true
   /\ ensureAmountMeetsRequirement w "1.000001" "1000000" (Some (JsNumber.of_Z 6)) = true
   /\ ensureAmountMeetsRequirement w "0.999999" "1000000" (Some (JsNumber.of_Z 6)) = false)
  /\ forall (amount required : string) (decimals : Z),
      0 <= decimals ->
      is_decimal_literal (JsString.trim amount) = true ->
      ensureAmountMeetsRequirement w amount required (Some (JsNumber.of_Z decimals))
      = AmountSpec.meets (JsString.trim amount) required (Z.to_nat decimals)
      /\ String.length
           (AmountSpec.exact_fraction
              (nth 1 (JsString.split "." (JsString.trim amount)) "")
              (Z.to_nat decimals))
         = Z.to_nat decimals.
Proof.
  split; [repeat split|].
  intros amount required d Hd L. split; [|apply exact_fraction_length].
  unfold ensureAmountMeetsRequirement, AmountSpec.meets.
  replace (JsNumber.lt (JsNumber.of_Z d) (JsNumber.of_Z 0)) with false.
  2: { unfold JsNumber.lt, JsNumber.of_Z, Qle_bool, inject_Z. cbn [Qnum Qden].
       symmetry. apply negb_false_iff. apply Z.leb_le. lia. }
  destruct (decimalToAtomic_spec amount d Hd L) as (a & -> & ->).
  unfold BigInt_of_string. destruct (JsString.toBigInt required); reflexivity.
Qed.

Lemma amount_check_rule_witness :
  ensureAmountMeetsRequirement Sample.calm "1.5" "1000000" (Some (JsNumber.of_Z 6))
  = AmountSpec.meets "1.5" "1000000" 6
  /\ AmountSpec.atomic "1.5" 6 = Some 1500000.
Proof.
  split; [|reflexivity].
  exact (proj1 (proj2 (amount_check_rule Sample.calm) "1.5" "1000000" 6
                  ltac:(lia) eq_refl)).
Defined.

End AmountFacts.

(* ================================================================== *)
(** * Resolving the decimals *)
(* ================================================================== *)

Module DecimalsFacts.

Import Verify VerifySpec VerifyFacts.

Lemma split_not_nil sep s : JsString.split sep s <> [].
Proof.
  destruct s as [|c r]; cbn [JsString.split]; [discriminate|].
  destruct (Ascii.eqb c sep); [discriminate|].
  destruct (JsString.split sep r); discriminate.
Qed.

Lemma split_single sep s p : JsString.split sep s = [p] -> p = s.
Proof.
  revert p. induction s as [|c r IH]; intros p; cbn [JsString.split].
  - now intros [= <-].
  - destruct (Ascii.eqb c sep).
    + intros [= _ E]. now destruct (split_not_nil sep r).
    + destruct (JsString.split sep r) as [|h t] eqn:E.
      * now destruct (split_not_nil sep r).
      * intros [= <- ->]. now rewrite (IH h eq_refl).
Qed.

Lemma split_free sep s : free_of sep s = true -> JsString.split sep s = [s].
Proof.
  unfold free_of. induction s as [|c r IH]; [reflexivity|].
  cbn [JsString.all_chars JsString.split]. intros H.
  apply andb_true_iff in H as [Hc Hr]. apply negb_true_iff in Hc.
  now rewrite Hc, (IH Hr).
Qed.

Lemma split_compound sep s1 s2 :
  free_of sep s1 = true ->
  JsString.split sep (s1 ++ String sep s2) = s1 :: JsString.split sep s2.
Proof.
  unfold free_of. induction s1 as [|c r IH].
  - intros _. cbn [String.append JsString.split]. now rewrite Ascii.eqb_refl.
  - cbn [JsString.all_chars String.append JsString.split]. intros H.
    apply andb_true_iff in H as [Hc Hr]. apply negb_true_iff in Hc.
    now rewrite Hc, (IH Hr).
Qed.

Lemma startsWith_not_empty s p :
  p <> "" -> JsString.startsWith s p = true -> JsString.is_empty s = false.
Proof.
  destruct s; [|reflexivity]. destruct p; [congruence | discriminate].
Qed.

(** The token id of the code, once the empty one is set aside, is
    [token_id]. *)
Lemma extractHyperliquidTokenId_token_id asset :
  match extractHyperliquidTokenId asset with
  | Some t => if JsString.is_empty t then None else Some t
  | None => None
  end = token_id asset.
Proof.
  unfold extractHyperliquidTokenId, token_id.
  destruct asset as [|c r]; [reflexivity|]. cbn [JsString.is_empty].
  destruct (JsString.split ":" (String c r)) as [|p0 [|p1 [|p2 rest]]];
    cbn [length Nat.eqb nth_error]; try reflexivity;
    destruct (JsString.startsWith p0 "0x") eqn:E; try reflexivity;
    now rewrite (startsWith_not_empty p0 "0x" ltac:(discriminate) E).
Qed.

Section Facts.
Variable w : World.

(** One call of [fetchHyperliquidTokenInfo] under the [try] of
    [resolveDecimals]. *)
Lemma lookup_once network tokenId s :
  exists s',
    try_catch
      (let! info := Shared.fetchHyperliquidTokenInfo w network tokenId in
       ret (Some (HyperliquidTokenInfo.decimals info)))
      (fun _ => ret None) s
    = (Returned (looked_up_decimals w network tokenId s), s')
    /\ lookups (log s') = (network, tokenId) :: lookups (log s).
Proof.
  unfold try_catch, bind, Shared.fetchHyperliquidTokenInfo, bind, emit, lift,
    get_cache, set_cache, ret, looked_up_decimals,
    Shared.createInfoClient, Shared.assertHyperliquidNetwork.
  cbn [hyperliquidTokenInfoCache log].
  destruct (includes_network SupportedHLNetworks network);
    [|eexists; split; reflexivity].
  destruct (hyperliquidTokenInfoCache s !! _) as [info|];
    [eexists; split; reflexivity|].
  destruct (tokenDetails w _ tokenId); eexists; split; reflexivity.
Qed.

Lemma resolveDecimals_provided pr s n :
  Js.get_opt (PaymentRequirements.extra pr) "decimals" = VNumber n ->
  resolveDecimals w pr s = (Returned (Some n), s).
Proof. intros H. unfold resolveDecimals. now rewrite H. Qed.

Lemma resolveDecimals_looked_up pr s :
  (forall n, Js.get_opt (PaymentRequirements.extra pr) "decimals" <> VNumber n) ->
  match token_id (PaymentRequirements.asset pr) with
  | Some t =>
      exists s',
        resolveDecimals w pr s
        = (Returned (looked_up_decimals w (PaymentRequirements.network pr) t s), s')
        /\ lookups (log s') = (PaymentRequirements.network pr, t) :: lookups (log s)
  | None => resolveDecimals w pr s = (Returned None, s)
  end.
Proof.
  intros N. rewrite <- extractHyperliquidTokenId_token_id.
  unfold resolveDecimals.
  destruct (Js.get_opt (PaymentRequirements.extra pr) "decimals") as [| | |n| | | |];
    try (now destruct (N n));
    (destruct (extractHyperliquidTokenId _) as [t|]; [|reflexivity];
     destruct (JsString.is_empty t); [reflexivity|]; apply lookup_once).
Qed.

End Facts.

(** C4 fails on a compound id: for [USDC:0xeb62...] without
    [extra.decimals] the code looks up the part after the colon and
    takes the decimals from the answer. *)
Lemma compound_id_is_looked_up : ~ only_bare_hex_ids_are_looked_up.
Proof.
  intros H.
  specialize (H Sample.calm (Sample.requirements Sample.TOKEN VUndefined) initial_state
                ltac:(discriminate) eq_refl).
  discriminate H.
Qed.

(** C4, amended.  [extra.decimals], when a number, is used and nothing
    is looked up.  Otherwise the token id is the part after the colon of
    an asset string with exactly one colon (a compound [SYMBOL:0xHEX]
    id), else the part before the first colon when it starts with [0x]
    (a bare hex id is its own token id); for a token id that is not
    empty exactly one token-info lookup is made and its decimals are
    the result, undefined when the lookup fails; for every other asset
    string the decimals stay undefined and nothing is looked up. *)
Theorem resolveDecimals_rule (w : World) (pr : PaymentRequirements.t) (s : State) :
  let asset := PaymentRequirements.asset pr in
  let network := PaymentRequirements.network pr in
  let provided := Js.get_opt (PaymentRequirements.extra pr) "decimals" in
  (forall n, provided = VNumber n -> resolveDecimals w pr s = (Returned (Some n), s))
  /\ ((forall n, provided <> VNumber n) ->
      (forall t, token_id asset = Some t ->
                 exists s',
                   resolveDecimals w pr s
                   = (Returned (looked_up_decimals w network t s), s')
                   /\ lookups (log s') = (network, t) :: lookups (log s))
      /\ (token_id asset = None -> resolveDecimals w pr s = (Returned None, s)))
  /\ (is_bare_hex_token_id asset = true -> token_id asset = Some asset)
  /\ (forall symbol id,
         asset = symbol ++ ":" ++ id ->
         free_of ":" symbol = true -> free_of ":" id = true -> id <> "" ->
         token_id asset = Some id).
Proof.
  cbv zeta. split; [intros n; apply resolveDecimals_provided|]. split; [|split].
  - intros N. pose proof (resolveDecimals_looked_up w pr s N) as H.
    split.
    + intros t E. now rewrite E in H.
    + intros E. now rewrite E in H.
  - unfold is_bare_hex_token_id, token_id. intros H.
    apply andb_true_iff in H as [L P].
    destruct (JsString.split ":" (PaymentRequirements.asset pr))
      as [|p0 [|p1 rest]] eqn:E; try discriminate.
    apply split_single in E. subst p0. now rewrite P.
  - intros symbol id E Fs Fi Ni. unfold token_id. rewrite E.
    change (symbol ++ ":" ++ id) with (symbol ++ String ":" id).
    rewrite (split_compound _ _ _ Fs), (split_free _ _ Fi).
    now rewrite (is_empty_false _ Ni).
Qed.

Lemma resolveDecimals_rule_witness :
  exists s',
    resolveDecimals Sample.calm (Sample.requirements Sample.TOKEN VUndefined) initial_state
    = (Returned (Some (JsNumber.of_Z 6)), s')
    /\ lookups (log s') = [("hyperliquid", "0xeb62eee3685fc4c43992febcd9e75443")].
Proof.
  pose proof (resolveDecimals_rule Sample.calm
                (Sample.requirements Sample.TOKEN VUndefined) initial_state)
    as (_ & H & _ & I).
  destruct (H ltac:(discriminate)) as [L _].
  exact (L "0xeb62eee3685fc4c43992febcd9e75443"
           (I "USDC" "0xeb62eee3685fc4c43992febcd9e75443" eq_refl eq_refl eq_refl
              ltac:(discriminate))).
Defined.

End DecimalsFacts.

(* ================================================================== *)
(** * Expiry *)
(* ================================================================== *)

Module VerifyTtl.

Import Verify VerifySpec VerifyFacts TtlFacts.

(** C5 fails where the sum of [time] and the time-out is no number of
    binary64.  With the clock at 1 700 000 000 000, a time-out of
    1.7e9 seconds and [time = -2^-14], the sum lies 2^-14 before the
    clock; the numbers next to it are 2^-12 apart, [withinTtl] computes
    the sum as the clock's reading itself, and [verify] accepts. *)
Lemma sum_before_the_clock_is_accepted :
  (- (1 # 16384) + inject_Z 1700000000 * inject_Z 1000 < inject_Z (now Sample.calm))%Q
  /\ PaymentRequirements.maxTimeoutSeconds Sample.patient = JsNumber.of_Z 1700000000
  /\ exists payer,
      fst (verify Sample.calm (Sample.payment (Sample.timed (- (1 # 16384))))
             Sample.patient initial_state)
      = Returned (accept payer).
Proof.
  split; [reflexivity|]. split; [reflexivity|].
  eexists. vm_compute. reflexivity.
Qed.

(** C5, amended.  When every earlier check passes, [verify] answers
    [payment_expired] exactly when the instant of expiry, the action's
    [time] plus [maxTimeoutSeconds] times 1000 as binary64 arithmetic
    gives it, lies strictly before the clock, and it accepts otherwise.
    Where [time] and [maxTimeoutSeconds] are whole numbers and the
    product and the sum stay within 2^53, that instant is the exact sum.
    A [time] that is missing or not a finite number is answered
    [payment_expired] too.  With 300 seconds and the clock at a time
    value of [Date], [time = now - 300001] is rejected and
    [time = now - 299000] accepted. *)
Theorem verify_expiry (w : World)
    (pp : PaymentPayload.t) (pr : PaymentRequirements.t) (s s' : State)
    (action : value) (destination token amount : string)
    (decimals : option number) (m : Q) :
  guard_passes pp pr ->
  carries pp action destination token amount ->
  JsString.toLowerCase destination = JsString.toLowerCase (PaymentRequirements.payTo pr) ->
  token = PaymentRequirements.asset pr ->
  resolveDecimals w pr s = (Returned decimals, s') ->
  ensureAmountMeetsRequirement w amount
    (PaymentRequirements.maxAmountRequired pr) decimals = true ->
  PaymentRequirements.maxTimeoutSeconds pr = Fin m ->
  let expired := fst (verify w pp pr s) = Returned (reject payment_expired) in
  let accepted := exists payer, fst (verify w pp pr s) = Returned (accept payer) in
  (forall time,
      Js.own action "time" = VNumber (Fin time) ->
      (expired <-> JsNumber.lt (expiresAt time m) (JsNumber.of_Z (now w)) = true)
      /\ (~ expired -> accepted)
      /\ (forall T S,
             (time == inject_Z T)%Q -> (m == inject_Z S)%Q ->
             safe_integer (S * 1000) -> safe_integer (T + S * 1000) ->
             (expired <-> T + S * 1000 < now w)))
  /\ ((forall time, Js.own action "time" <> VNumber (Fin time)) -> expired)
  /\ (m = inject_Z 300 -> time_value (now w) ->
      (Js.own action "time" = VNumber (JsNumber.of_Z (now w - 300001)) -> expired)
      /\ (Js.own action "time" = VNumber (JsNumber.of_Z (now w - 299000)) -> accepted)).
Proof.
  intros G C R A D E T expired accepted. subst expired accepted.
  rewrite (verify_verdict w _ _ _ _ _ _ s G C). unfold verdict.
  rewrite R, A, !String.eqb_refl, D, E, T. cbn [negb].
  destruct (extractPayer_returns _ _ _ _ _ C) as [payer P]. rewrite P.
  set (answer := fun fresh : bool =>
                   fst (if negb fresh
                        then (Returned (reject payment_expired), s')
                        else (Returned (accept payer), s'))).
  assert (K : forall fresh,
             (answer fresh = Returned (reject payment_expired) <-> fresh = false)
             /\ (answer fresh <> Returned (reject payment_expired) ->
                 exists payer0, answer fresh = Returned (accept payer0))).
  { intros [|]; unfold answer; cbn [negb fst]; split.
    - split; discriminate.
    - eauto.
    - tauto.
    - congruence. }
  fold (answer (withinTtl (now w) (Js.own action "time") (Fin m))).
  split; [|split].
  - intros time Ht. rewrite Ht. split; [|split].
    + rewrite <- withinTtl_finite. apply K.
    + apply K.
    + intros T0 S0 Et Em B1 B2.
      rewrite <- (withinTtl_whole (now w) time m T0 S0 Et Em B1 B2). apply K.
  - intros N. rewrite (withinTtl_not_finite _ _ _ N). now apply K.
  - intros -> Now. unfold time_value in Now. split; intros Ht; rewrite Ht.
    + apply K. unfold JsNumber.of_Z.
      apply (withinTtl_whole (now w) _ _ (now w - 300001) 300);
        try reflexivity; unfold safe_integer;
        change (2 ^ 53) with 9007199254740992; lia.
    + apply K. intros X. apply K in X. revert X. unfold JsNumber.of_Z.
      rewrite (withinTtl_whole (now w) _ _ (now w - 299000) 300);
        try reflexivity; unfold safe_integer;
        change (2 ^ 53) with 9007199254740992; lia.
Qed.

Lemma verify_expiry_witness :
  fst (verify Sample.calm
         (Sample.payment
            (Sample.action Sample.PAY_TO Sample.TOKEN "1" (Sample.TIMESTAMP - 300001)))
         Sample.baseRequirements initial_state)
  = Returned (reject payment_expired)
  /\ exists payer,
      fst (verify Sample.calm
             (Sample.payment
                (Sample.action Sample.PAY_TO Sample.TOKEN "1" (Sample.TIMESTAMP - 299000)))
             Sample.baseRequirements initial_state)
      = Returned (accept payer).
Proof.
  assert (Now : time_value (now Sample.calm)) by (vm_compute; discriminate).
  split.
  - refine (proj1 (proj2 (proj2
      (verify_expiry Sample.calm _ Sample.baseRequirements initial_state initial_state
         (Sample.action Sample.PAY_TO Sample.TOKEN "1" (Sample.TIMESTAMP - 300001))
         Sample.PAY_TO Sample.TOKEN "1" (Some (JsNumber.of_Z 6)) (inject_Z 300)
         (sample_guard _ _ _) _ _ _ _ _ _)) eq_refl Now) eq_refl);
      try reflexivity.
    apply sample_carries; discriminate.
  - refine (proj2 (proj2 (proj2
      (verify_expiry Sample.calm _ Sample.baseRequirements initial_state initial_state
         (Sample.action Sample.PAY_TO Sample.TOKEN "1" (Sample.TIMESTAMP - 299000))
         Sample.PAY_TO Sample.TOKEN "1" (Some (JsNumber.of_Z 6)) (inject_Z 300)
         (sample_guard _ _ _) _ _ _ _ _ _)) eq_refl Now) eq_refl);
      try reflexivity.
    apply sample_carries; discriminate.
Defined.

End VerifyTtl.

(* ================================================================== *)
(** * Recipient and asset comparison *)
(* ================================================================== *)

Module VerifyCompare.

Import Verify VerifySpec VerifyFacts.

(** C6.  Past the shape checks, [verify] answers with the recipient
    mismatch exactly when [destination] and [payTo] differ after lower
    casing; and when they agree, it answers with the asset mismatch
    exactly when [token] and [asset] are different strings, so also when
    they differ in letter case only. *)
Theorem recipient_ignores_case_asset_is_exact (w : World)
    (pp : PaymentPayload.t) (pr : PaymentRequirements.t) (s : State)
    (action : value) (destination token amount : string) :
  guard_passes pp pr ->
  carries pp action destination token amount ->
  (fst (verify w pp pr s)
     = Returned (reject invalid_exact_hl_payload_recipient_mismatch)
   <-> JsString.toLowerCase destination
       <> JsString.toLowerCase (PaymentRequirements.payTo pr))
  /\ (JsString.toLowerCase destination
        = JsString.toLowerCase (PaymentRequirements.payTo pr) ->
      (fst (verify w pp pr s)
         = Returned (reject invalid_exact_hl_payload_asset_mismatch)
       <-> token <> PaymentRequirements.asset pr)
      /\ (token <> PaymentRequirements.asset pr ->
          JsString.toLowerCase token
            = JsString.toLowerCase (PaymentRequirements.asset pr) ->
          fst (verify w pp pr s)
            = Returned (reject invalid_exact_hl_payload_asset_mismatch))).
Proof.
  intros G C.
  rewrite (verify_verdict w _ _ _ _ _ _ s G C). unfold verdict.
  destruct (String.eqb_spec (JsString.toLowerCase destination)
              (JsString.toLowerCase (PaymentRequirements.payTo pr))) as [R|R];
    cbn [negb].
  2: { split; [split; [intros _; exact R | reflexivity] | intros E; contradiction]. }
  destruct (String.eqb_spec token (PaymentRequirements.asset pr)) as [A|A]; cbn [negb].
  2: { split; [split; [discriminate | intros N; contradiction]|].
       intros _. split; [split; [intros _; exact A | reflexivity] | reflexivity]. }
  assert (N : forall r, r <> payment_expired ->
              r <> invalid_exact_hl_payload_amount_mismatch ->
              fst (match resolveDecimals w pr s with
                   | (Returned decimals, s') =>
                       if negb (ensureAmountMeetsRequirement w amount
                                  (PaymentRequirements.maxAmountRequired pr) decimals)
                       then (Returned (reject invalid_exact_hl_payload_amount_mismatch), s')
                       else if negb (withinTtl (now w) (Js.own action "time")
                                       (PaymentRequirements.maxTimeoutSeconds pr))
                       then (Returned (reject payment_expired), s')
                       else match extractPayer (PaymentPayload.payload pp) with
                            | Returned payer => (Returned (accept payer), s')
                            | Thrown e => (Thrown e, s')
                            end
                   | (Thrown e, s') => (Thrown e, s')
                   end) <> Returned (reject r)).
  { intros r N1 N2.
    destruct (resolveDecimals w pr s) as [[decimals|e] s']; [|discriminate].
    destruct (negb (ensureAmountMeetsRequirement _ _ _ _)); [unfold reject; cbn; congruence|].
    destruct (negb (withinTtl _ _ _)); [unfold reject; cbn; congruence|].
    destruct (extractPayer _); discriminate. }
  split; [split; [intros E; exfalso; revert E; apply N; discriminate
                 | intros E; contradiction]|].
  intros _. split; [split; [intros E; exfalso; revert E; apply N; discriminate
                           | intros E; contradiction]
                   | intros E; contradiction].
Qed.

Lemma recipient_ignores_case_asset_is_exact_witness :
  fst (verify Sample.calm
         (Sample.payment
            (Sample.action "0xAAAAAAAAAAAAAAAAAAAAAAAAAAAAAAAAAAAAAAAA"
               "usdc:0xEB62EEE3685FC4C43992FEBCD9E75443" "1" Sample.TIMESTAMP))
         Sample.baseRequirements initial_state)
  = Returned (reject invalid_exact_hl_payload_asset_mismatch).
Proof.
  refine (proj2 (proj2 (recipient_ignores_case_asset_is_exact Sample.calm _ _ initial_state
                  _ _ _ _ (sample_guard _ _ _) _) _) _ _).
  - apply sample_carries; discriminate.
  - reflexivity.
  - discriminate.
  - reflexivity.
Defined.

End VerifyCompare.

(* ================================================================== *)
(** * Matching the payment in the account history *)
(* ================================================================== *)

Module SettleMatch.

Import Settle VerifySpec SettleSpec VerifyFacts SettleFacts SettleSteps.

(** *** The stable sort by falling time stamp *)

Lemma key_ge_refl x : finite_key x -> key_ge x x.
Proof.
  intros [q E]. unfold key_ge, JsNumber.ge. rewrite E. cbn.
  apply Qle_bool_iff. apply Qle_refl.
Qed.

Lemma key_ge_trans x y z :
  finite_key x -> finite_key y -> finite_key z ->
  key_ge x y -> key_ge y z -> key_ge x z.
Proof.
  intros [a Ea] [b Eb] [c Ec]. unfold key_ge, JsNumber.ge. rewrite Ea, Eb, Ec. cbn.
  rewrite !Qle_bool_iff. intros H1 H2. eapply Qle_trans; eassumption.
Qed.

Lemma key_ge_total x y : finite_key x -> finite_key y -> key_ge x y \/ key_ge y x.
Proof.
  intros [a Ea] [b Eb]. unfold key_ge, JsNumber.ge. rewrite Ea, Eb. cbn.
  rewrite !Qle_bool_iff. destruct (Qlt_le_dec a b) as [L|L]; [right | left].
  - now apply Qlt_le_weak.
  - exact L.
Qed.

Lemma insert_by_key_In x l y : In y (insert_by_key x l) <-> y = x \/ In y l.
Proof.
  induction l as [|a l IH]; cbn [insert_by_key].
  - cbn. intuition congruence.
  - destruct (JsNumber.ge (fst x) (fst a)); cbn [In].
    + intuition congruence.
    + rewrite IH. intuition congruence.
Qed.

Lemma sort_by_key_In l y : In y (sort_by_key l) <-> In y l.
Proof.
  induction l as [|a l IH]; [reflexivity|].
  cbn [sort_by_key fold_right]. fold (sort_by_key l).
  rewrite insert_by_key_In, IH. cbn. intuition congruence.
Qed.

Lemma insert_by_key_sorted x l :
  finite_key x -> Forall finite_key l ->
  StronglySorted key_ge l -> StronglySorted key_ge (insert_by_key x l).
Proof.
  intros Fx Fl S. induction S as [|a l S IH Ha]; cbn [insert_by_key].
  - constructor; constructor.
  - apply List.Forall_cons_iff in Fl as [Fa Fl].
    destruct (JsNumber.ge (fst x) (fst a)) eqn:E.
    + constructor; [now constructor|]. constructor; [exact E|].
      rewrite List.Forall_forall in Ha, Fl |- *. intros y Hy.
      apply (key_ge_trans x a y); auto.
    + constructor; [now apply IH|].
      apply List.Forall_forall. intros y Hy. apply insert_by_key_In in Hy as [->|Hy].
      * destruct (key_ge_total a x Fa Fx) as [K|K]; [exact K|].
        unfold key_ge in K. congruence.
      * rewrite List.Forall_forall in Ha. now apply Ha.
Qed.

Lemma sort_by_key_finite l : Forall finite_key l -> Forall finite_key (sort_by_key l).
Proof.
  rewrite !List.Forall_forall. intros H y Hy. apply H. now apply sort_by_key_In.
Qed.

Lemma sort_by_key_sorted l :
  Forall finite_key l -> StronglySorted key_ge (sort_by_key l).
Proof.
  induction l as [|a l IH]; intros F; [constructor|].
  apply List.Forall_cons_iff in F as [Fa Fl].
  cbn [sort_by_key fold_right]. fold (sort_by_key l).
  apply insert_by_key_sorted; [exact Fa | now apply sort_by_key_finite | now apply IH].
Qed.

(** The first entry of a sorted list that satisfies [p] ranks at or
    before every entry that does. *)
Lemma find_first_of_sorted (p : number * value -> bool) l :
  Forall finite_key l -> StronglySorted key_ge l ->
  (exists y, In y l /\ p y = true) ->
  exists x, find p l = Some x /\ In x l /\ p x = true
            /\ forall y, In y l -> p y = true -> key_ge x y.
Proof.
  intros F S. induction S as [|a l S IH Ha]; intros (y & Hy & Py); [destruct Hy|].
  apply List.Forall_cons_iff in F as [Fa Fl]. cbn [find].
  destruct (p a) eqn:Pa.
  - exists a. repeat split; [now left | exact Pa|].
    intros z [<-|Hz] _; [now apply key_ge_refl|].
    rewrite List.Forall_forall in Ha. now apply Ha.
  - destruct Hy as [<-|Hy]; [congruence|].
    destruct (IH Fl (ex_intro _ y (conj Hy Py))) as (x & E & Hx & Px & Top).
    exists x. repeat split; [exact E | now right | exact Px|].
    intros z [<-|Hz] Pz; [congruence | now apply Top].
Qed.

Lemma filter_none {A} (f : A -> bool) l :
  (forall x, In x l -> f x = false) -> List.filter f l = [].
Proof.
  induction l as [|a l IH]; intros H; [reflexivity|].
  cbn [List.filter]. rewrite (H a (or_introl eq_refl)).
  apply IH. intros x Hx. apply H. now right.
Qed.

Lemma find_map {A B} (p : B -> bool) (f : A -> B) l :
  find p (map f l) = option_map f (find (fun x => p (f x)) l).
Proof.
  induction l as [|a l IH]; [reflexivity|]. cbn. now destruct (p (f a)).
Qed.

(** *** Reading the history *)

Lemma toNumber_finite v n : toNumber v = Some n -> exists q, n = Fin q.
Proof.
  unfold toNumber. destruct v as [| | |[]| | | |]; try discriminate.
  intros [= <-]. eauto.
Qed.

Lemma getTxTimestamp_object fields :
  exists q, getTxTimestamp (VObject fields) = Returned (Fin q).
Proof.
  unfold getTxTimestamp.
  destruct (toNumber (Js.get_opt (Js.get_opt (VObject fields) "action") "time"))
    as [n|] eqn:E.
  - destruct (toNumber_finite _ _ E) as [q ->]. eauto.
  - cbn [Js.get Js.nullish].
    destruct (toNumber (Js.own (VObject fields) "time")) as [n|] eqn:E'.
    + destruct (toNumber_finite _ _ E') as [q ->]. eauto.
    + unfold JsNumber.of_Z. eauto.
Qed.

Lemma with_timestamps_objects txs :
  Forall (fun tx => exists fields, tx = VObject fields) txs ->
  with_timestamps txs = Returned (map (fun tx => (stamp tx, tx)) txs)
  /\ Forall finite_key (map (fun tx => (stamp tx, tx)) txs).
Proof.
  induction 1 as [|tx txs [fields ->] _ [IH1 IH2]]; [split; [reflexivity | constructor]|].
  cbn [with_timestamps map]. unfold stamp at 1 3.
  destruct (getTxTimestamp_object fields) as [q E]. rewrite E, IH1.
  split; [reflexivity|]. constructor; [|exact IH2]. now exists q.
Qed.

Lemma with_timestamps_snd txs keyed :
  with_timestamps txs = Returned keyed -> map snd keyed = txs.
Proof.
  revert keyed. induction txs as [|tx txs IH]; intros keyed; cbn [with_timestamps].
  - now intros [= <-].
  - destruct (getTxTimestamp tx) as [t|]; [|discriminate].
    destruct (with_timestamps txs) as [rest|]; [|discriminate].
    intros [= <-]. cbn [map snd]. now rewrite (IH rest eq_refl).
Qed.

Section Facts.
Variable w : World.

(** *** What the code takes for a match *)

Lemma getTxAction_transfer tx : getTxAction tx = transfer tx.
Proof.
  unfold getTxAction, transfer, Js.coalesce.
  destruct (Js.get_opt tx "action") as [| |b|n|s|z|fields|items] eqn:E; cbn [Js.nullish];
    try destruct tx as [| |b'|n'|s'|z'|fields'|items'];
    cbn [Js.typeof];
    repeat match goal with
           | |- context [String.eqb ?a ?b] =>
               let r := eval vm_compute in (String.eqb a b) in
               change (String.eqb a b) with r
           end;
    rewrite ?andb_false_r; reflexivity.
Qed.

Lemma equalsIgnoreCase_same_text a b :
  equalsIgnoreCase w a b = true <-> same_text w a b.
Proof.
  unfold equalsIgnoreCase, toLower, same_text.
  assert (T : forall v, stringify w v = text w v) by (now intros [| | |[]| | | |]).
  rewrite (T a), (T b). destruct (text w a) as [x|], (text w b) as [y|]; cbn.
  - rewrite String.eqb_eq. split.
    + intros H. now exists x, y.
    + intros (x' & y' & [= <-] & [= <-] & H). exact H.
  - split; [discriminate | intros (? & ? & _ & [=] & _)].
  - split; [discriminate | intros (? & ? & [=] & _)].
  - split; [discriminate | intros (? & ? & [=] & _)].
Qed.

Lemma valuesMatch_agrees entry stated field :
  valuesMatch w (Js.get_opt entry field) (Js.get_opt stated field) = true
  <-> agrees w entry stated field.
Proof.
  unfold valuesMatch, agrees.
  destruct (Js.nullish (Js.get_opt stated field)).
  - split; [now left | reflexivity].
  - rewrite equalsIgnoreCase_same_text. split; [now right | intros [H|H]; [discriminate | exact H]].
Qed.

Lemma coerceAmountToNumber_stated v : coerceAmountToNumber w v = amount_stated w v.
Proof.
  destruct v as [| | |[]|s| | |]; try reflexivity.
  cbn. now destruct (StringToNumber w s).
Qed.

Lemma toNumber_finite_number v : toNumber v = finite_number v.
Proof. reflexivity. Qed.

(** What the code takes for a match is what [pays] says. *)
Lemma transactionMatchesPayment_pays tx payload pr :
  transactionMatchesPayment w tx payload pr = Returned true <-> pays w payload pr tx.
Proof.
  destruct (Js.nullish tx) eqn:Nn.
  { destruct tx; try discriminate;
      (split; [cbn; discriminate | intros ((x & y & [=] & _) & _)]). }
  unfold transactionMatchesPayment, pays. cbv zeta.
  rewrite getTxAction_transfer, !coerceAmountToNumber_stated.
  set (entry := transfer tx). set (stated := Js.own payload "action").
  rewrite <- !equalsIgnoreCase_same_text, <- !valuesMatch_agrees.
  set (d := equalsIgnoreCase w _ (VString (PaymentRequirements.payTo pr))).
  set (t := equalsIgnoreCase w _ (VString (PaymentRequirements.asset pr))).
  set (c1 := valuesMatch w _ _). set (c2 := valuesMatch w _ _). set (c3 := valuesMatch w _ _).
  assert (A : match amount_stated w (Js.get_opt stated "amount"),
                    amount_stated w (Js.get_opt entry "amount") with
              | Some p, Some t0 => JsNumber.strict_eq t0 p
              | _, _ => false
              end = true
              <-> exists n n',
                  amount_stated w (Js.get_opt stated "amount") = Some n
                  /\ amount_stated w (Js.get_opt entry "amount") = Some n'
                  /\ JsNumber.strict_eq n' n = true).
  { destruct (amount_stated w (Js.get_opt stated "amount")) as [p|],
             (amount_stated w (Js.get_opt entry "amount")) as [t0|].
    - split; [intros H; now exists p, t0 | intros (? & ? & [= <-] & [= <-] & H); exact H].
    - split; [discriminate | intros (? & ? & _ & [=] & _)].
    - split; [discriminate | intros (? & ? & [=] & _)].
    - split; [discriminate | intros (? & ? & [=] & _)]. }
  set (a := match amount_stated w (Js.get_opt stated "amount") with _ => _ end) in *.
  unfold Js.get. rewrite Nn.
  assert (G : Js.own tx "time" = Js.get_opt tx "time")
    by (unfold Js.get_opt; now rewrite Nn).
  rewrite G.
  assert (Tm : match toNumber (Js.get_opt entry "time") with
               | Some t0 => Returned (Some t0)
               | None => Returned (toNumber (Js.get_opt tx "time"))
               end = @Returned (option number) (entry_time tx)).
  { unfold entry_time. fold entry. rewrite !toNumber_finite_number.
    now destruct (finite_number (Js.get_opt entry "time")). }
  rewrite Tm. rewrite toNumber_finite_number.
  unfold time_agrees. cbv zeta. fold stated.
  set (st := finite_number (Js.get_opt stated "time")).
  set (nonce := match Js.own payload "nonce" with VNumber n => Some n | _ => None end).
  assert (Tq : match st, nonce with
               | None, None => true
               | _, _ =>
                   match entry_time tx with
                   | Some t0 => same_number t0 st || same_number t0 nonce
                   | None => false
                   end
               end = true
               <-> (st = None /\ nonce = None)
                   \/ exists t0,
                       entry_time tx = Some t0
                       /\ ((exists t', st = Some t' /\ JsNumber.strict_eq t0 t' = true)
                           \/ (exists n, nonce = Some n /\ JsNumber.strict_eq t0 n = true))).
  { assert (S : forall t0 o,
               same_number t0 o = true
               <-> exists n, o = Some n /\ JsNumber.strict_eq t0 n = true).
    { intros t0 [n|]; cbn [same_number].
      - split; [intros H; now exists n | intros (? & [= <-] & H); exact H].
      - split; [discriminate | intros (? & [=] & _)]. }
    assert (R : match entry_time tx with
                | Some t0 => same_number t0 st || same_number t0 nonce
                | None => false
                end = true
                <-> exists t0,
                    entry_time tx = Some t0
                    /\ ((exists t', st = Some t' /\ JsNumber.strict_eq t0 t' = true)
                        \/ (exists n, nonce = Some n /\ JsNumber.strict_eq t0 n = true))).
    { destruct (entry_time tx) as [t0|].
      - rewrite orb_true_iff, !S. split.
        + intros H. now exists t0.
        + intros (? & [= <-] & H). exact H.
      - split; [discriminate | intros (? & [=] & _)]. }
    destruct st as [t'|], nonce as [n|]; rewrite ?R.
    - split; [now right | intros [[H _]|H]; [discriminate | exact H]].
    - split; [now right | intros [[H _]|H]; [discriminate | exact H]].
    - split; [now right | intros [[_ H]|H]; [discriminate | exact H]].
    - split; [now left | reflexivity]. }
  set (tm := match st with _ => _ end) in *.
  rewrite <- A, <- Tq.
  split.
  - intros [= H]. rewrite !andb_true_iff in H. tauto.
  - intros (Hd & Ht & Ha & H1 & H2 & H3 & H7).
    rewrite Hd, Ht, Ha, H1, H2, H3, H7. reflexivity.
Qed.

Lemma matching_pays payload pr tx :
  matching w payload pr tx <-> pays w payload pr tx.
Proof. apply transactionMatchesPayment_pays. Qed.

Lemma transactionMatchesPayment_object fields payload pr :
  exists b, transactionMatchesPayment w (VObject fields) payload pr = Returned b.
Proof.
  unfold transactionMatchesPayment. cbv zeta.
  destruct (toNumber (Js.get_opt (getTxAction (VObject fields)) "time"));
    cbn [Js.get Js.nullish]; eauto.
Qed.

Lemma matching_matches_payment payload pr tx :
  matching w payload pr tx <-> matches_payment w payload pr tx = true.
Proof.
  unfold matching, matches_payment.
  destruct (transactionMatchesPayment w tx payload pr) as [[]|];
    split; congruence.
Qed.

Lemma filter_matching_kept txs payload pr kept :
  filter_matching w txs payload pr = Returned kept ->
  kept = List.filter (matches_payment w payload pr) txs.
Proof.
  revert kept. induction txs as [|tx txs IH]; intros kept; cbn [filter_matching List.filter].
  - now intros [= <-].
  - unfold matches_payment at 1.
    destruct (transactionMatchesPayment w tx payload pr) as [b|]; [|discriminate].
    destruct (filter_matching w txs payload pr) as [rest|]; [|discriminate].
    intros [= <-]. now rewrite (IH rest eq_refl).
Qed.

Lemma filter_matching_objects txs payload pr :
  Forall (fun tx => exists fields, tx = VObject fields) txs ->
  filter_matching w txs payload pr
  = Returned (List.filter (matches_payment w payload pr) txs).
Proof.
  induction 1 as [|tx txs [fields ->] _ IH]; [reflexivity|].
  cbn [filter_matching List.filter]. unfold matches_payment at 1.
  destruct (transactionMatchesPayment_object fields payload pr) as [b ->].
  now rewrite IH.
Qed.

Lemma findMatchingTransactionHash_found client payer payload pr s :
  findMatchingTransactionHash w client payer payload pr s
  = (Returned (found_id w client payer payload pr),
     logged (RequestUserDetails client payer) s).
Proof.
  unfold findMatchingTransactionHash, try_catch, findMatchingTransactionHash_body,
    found_id.
  unfold bind at 1, emit. fold (logged (RequestUserDetails client payer) s).
  unfold bind at 1, lift at 1.
  destruct (userDetails w client payer) as [details|e]; [|reflexivity].
  unfold bind at 1, lift at 1.
  destruct (filter_matching w _ payload pr) as [kept|e]; [|reflexivity].
  unfold bind at 1, lift at 1.
  destruct (with_timestamps kept) as [keyed|e]; reflexivity.
Qed.

(** Nothing in the history matches: nothing is found. *)
Lemma found_id_none client payer payload pr :
  (forall tx, In tx (history_of w client payer) -> ~ matching w payload pr tx) ->
  found_id w client payer payload pr = None.
Proof.
  unfold history_of, found_id. intros H.
  destruct (userDetails w client payer) as [details|e]; [|reflexivity].
  destruct (filter_matching w _ payload pr) as [kept|e] eqn:E; [|reflexivity].
  apply filter_matching_kept in E.
  assert (K : kept = []).
  { subst kept. apply filter_none. intros tx Hx.
    destruct (matches_payment w payload pr tx) eqn:M; [|reflexivity].
    now destruct (H tx Hx (proj2 (matching_matches_payment _ _ _) M)). }
  rewrite K. reflexivity.
Qed.

(** Something in a history of objects matches and carries an id: the
    id of the latest such entry is found. *)
Lemma found_id_some client payer payload pr :
  let history := history_of w client payer in
  (forall tx, In tx history -> exists fields, tx = VObject fields) ->
  (exists tx h, In tx history /\ matching w payload pr tx /\ has_id tx h) ->
  exists tx h,
    In tx history /\ matching w payload pr tx /\ has_id tx h
    /\ (forall tx' h', In tx' history -> matching w payload pr tx' -> has_id tx' h' ->
                       JsNumber.ge (stamp tx) (stamp tx') = true)
    /\ found_id w client payer payload pr = Some h.
Proof.
  unfold history_of, found_id. cbv zeta.
  destruct (userDetails w client payer) as [details|e];
    [|intros _ (tx & h & [] & _)].
  set (history := extractUserTransactions details).
  intros Obj (tx0 & h0 & In0 & M0 & Id0 & Hx0).
  assert (ObjF : Forall (fun tx => exists fields, tx = VObject fields) history)
    by now apply List.Forall_forall.
  rewrite (filter_matching_objects history payload pr ObjF).
  set (kept := List.filter (matches_payment w payload pr) history).
  assert (ObjK : Forall (fun tx => exists fields, tx = VObject fields) kept).
  { apply List.Forall_forall. intros tx Hx. apply List.filter_In in Hx as [Hx _]. now apply Obj. }
  destruct (with_timestamps_objects kept ObjK) as [-> Fin].
  set (keyed := map (fun tx => (stamp tx, tx)) kept) in *.
  rewrite map_map, find_map.
  destruct (find_first_of_sorted
              (fun x => is_hash_value (Js.own (snd x) "hash")) (sort_by_key keyed))
    as (x & E & Hx & Px & Top).
  - now apply sort_by_key_finite.
  - now apply sort_by_key_sorted.
  - exists (stamp tx0, tx0). split.
    + apply sort_by_key_In. unfold keyed. apply List.in_map_iff. exists tx0. split; [reflexivity|].
      apply List.filter_In. split; [exact In0 | now apply matching_matches_payment].
    + cbn [snd]. rewrite Id0. exact Hx0.
  - rewrite E. cbn [option_map].
    apply (proj1 (sort_by_key_In _ _)) in Hx. unfold keyed in Hx.
    apply List.in_map_iff in Hx as (tx & <- & Hk). cbn [snd] in Px |- *.
    apply List.filter_In in Hk as [Hin Hm].
    destruct (Js.own tx "hash") as [| | | |h| | |] eqn:Eh; try discriminate.
    exists tx, h. repeat split; try assumption.
    + now apply matching_matches_payment.
    + intros tx' h' In' M' (Id' & Hx').
      apply (Top (stamp tx', tx')).
      * apply sort_by_key_In. unfold keyed. apply List.in_map_iff. exists tx'.
        split; [reflexivity|]. apply List.filter_In.
        split; [exact In' | now apply matching_matches_payment].
      * cbn [snd]. now rewrite Id'.
Qed.

(** An id that is found is the id of a matching transaction of the
    history. *)
Lemma found_id_sound client payer payload pr h :
  found_id w client payer payload pr = Some h ->
  exists tx, In tx (history_of w client payer)
             /\ matching w payload pr tx /\ has_id tx h.
Proof.
  unfold history_of, found_id.
  destruct (userDetails w client payer) as [details|e]; [|discriminate].
  destruct (filter_matching w _ payload pr) as [kept|e] eqn:E; [|discriminate].
  apply filter_matching_kept in E.
  destruct (with_timestamps kept) as [keyed|e] eqn:T; [|discriminate].
  apply with_timestamps_snd in T.
  rewrite map_map, find_map.
  destruct (find _ (sort_by_key keyed)) as [x|] eqn:F; [|discriminate].
  cbn [option_map]. apply find_some in F as [Hx Px].
  apply (proj1 (sort_by_key_In _ _)) in Hx.
  destruct (Js.own (snd x) "hash") as [| | | |h0| | |] eqn:Eh; try discriminate.
  intros [= <-]. exists (snd x). split; [|split; [|split; [exact Eh | exact Px]]].
  - assert (K : In (snd x) kept) by (rewrite <- T; now apply in_map).
    rewrite E in K. now apply List.filter_In in K.
  - assert (K : In (snd x) kept) by (rewrite <- T; now apply in_map).
    rewrite E in K. apply List.filter_In in K as [_ K].
    now apply matching_matches_payment.
Qed.

End Facts.

(** With a payer known and the submission acknowledged, in terms of
    what the code takes for a match. *)
Lemma settle_by_match (w : World)
    (pp : PaymentPayload.t) (pr : PaymentRequirements.t)
    (p : string) (s0 s1 : State) (ack : HyperliquidSettleResponse.t) :
  let payload := PaymentPayload.payload pp in
  let client := client_of (PaymentRequirements.network pr) in
  let history := history_of w client p in
  let s2 := logged (RequestUserDetails client p) s1 in
  guard_passes pp pr ->
  is_structured (Js.get_opt payload "action") = true ->
  extractPayer payload = Returned (Some p) ->
  p <> "" ->
  submitExchange w (endpoint_of (PaymentRequirements.network pr)) payload s0
  = (Returned ack, s1) ->
  ((forall tx, In tx history -> exists fields, tx = VObject fields) ->
   (exists tx h, In tx history /\ matching w payload pr tx /\ has_id tx h) ->
   exists tx h,
     In tx history /\ matching w payload pr tx /\ has_id tx h
     /\ (forall tx' h', In tx' history -> matching w payload pr tx' -> has_id tx' h' ->
                        JsNumber.ge (stamp tx) (stamp tx') = true)
     /\ (exists r s3,
            confirmTransaction w client h s2 = (Returned r, s3)
            /\ settle w pp pr s0 = (Returned (by_poll pr h (Some p) r), s3))
     /\ (lookup_succeeds w client h 0 ->
         settle w pp pr s0
         = (Returned (settled pr h (Some p)), logged (RequestTxDetails client h) s2)))
  /\ (forall resp s3,
         settle w pp pr s0 = (Returned resp, s3) ->
         SettleResponse.success resp = true ->
         exists tx, In tx history /\ matching w payload pr tx
                    /\ has_id tx (SettleResponse.transaction resp))
  /\ ((forall tx, In tx history -> ~ matching w payload pr tx) ->
      settle w pp pr s0
      = (Returned (failure hl_tx_not_found pr
                     (shown (extractExchangeTxHash ack) pr) (Some p)), s2)).
Proof.
  intros payload client history s2 G A P Np Sub.
  assert (Kn : known (Some p) = true)
    by (unfold known; cbn [Verify.missing]; now rewrite (is_empty_false _ Np)).
  assert (Mt : matched w pp pr (Some p) client s1
               = (found_id w client p payload pr, s2)).
  { unfold matched. rewrite Kn. now rewrite findMatchingTransactionHash_found. }
  split; [|split].
  - intros Obj Ex.
    destruct (found_id_some w client p payload pr Obj Ex)
      as (tx & h & Hin & Hm & Hid & Top & F).
    exists tx, h. repeat split; try assumption; try apply Hid.
    + rewrite F in Mt.
      rewrite (settle_reaches_poll w _ _ _ _ _ _ _ _ h G A P Sub Mt
                 ltac:(discriminate) eq_refl (proj2 Hid)).
      fold client.
      destruct (confirm_from_returns w client h CONFIRMATION_RETRIES 0 s2)
        as (r & s3 & E).
      fold (confirmTransaction w client h s2) in E. rewrite E.
      exists r, s3. split; [reflexivity|]. now destruct r.
    + intros L. rewrite F in Mt.
      rewrite (settle_reaches_poll w _ _ _ _ _ _ _ _ h G A P Sub Mt
                 ltac:(discriminate) eq_refl (proj2 Hid)).
      fold client. now rewrite (confirm_first_answer w client h s2 L).
  - intros resp s3. rewrite (settle_conclusion w _ _ _ s0 G A P). unfold conclusion.
    fold payload client. rewrite Sub, Mt, Kn. cbn [andb].
    destruct (found_id w client p payload pr) as [h|] eqn:F;
      [|intros [= <- _]; discriminate].
    cbn [Verify.missing resolved_id].
    destruct (JsString.is_empty h); [intros [= <- _]; discriminate|]. cbn [orb].
    destruct (isHexHash h); cbn [negb]; [|intros [= <- _]; discriminate].
    destruct (confirmTransaction w client h s2) as [[[]|e] s4];
      intros [= <- _]; try discriminate.
    intros _. now apply (found_id_sound w client p payload pr h).
  - intros None_.
    rewrite (found_id_none w client p payload pr None_) in Mt.
    rewrite (settle_conclusion w _ _ _ s0 G A P). unfold conclusion.
    fold payload client. rewrite Sub, Mt, Kn. reflexivity.
Qed.

(** C7 fails twice.  A transaction of the history that pays for the
    payment and whose id is not a well-formed hash is passed over: the
    acknowledgment carries a well-formed id that every detail lookup
    would confirm, and [settle] answers [hl_tx_not_found] all the same.
    And the destination and the asset are not compared with those of the
    payload: where the payload names another destination than [payTo],
    a transaction of the history with the very action of the payload and
    a well-formed id is not taken, and [settle] answers
    [hl_tx_not_found]. *)
Lemma matching_entry_with_malformed_id_is_passed_over :
  (history_of Sample.passed_over (client_of "hyperliquid") Sample.PAYER
   = [Sample.malformed_entry]
   /\ pays Sample.passed_over (PaymentPayload.payload Sample.basePayload)
        Sample.baseRequirements Sample.malformed_entry
   /\ Js.own Sample.malformed_entry "hash" = VString "0xabc"
   /\ fst (settle Sample.passed_over Sample.basePayload Sample.baseRequirements
             initial_state)
      = Returned (failure hl_tx_not_found Sample.baseRequirements Sample.TX_HASH
                    (Some Sample.PAYER)))
  /\ (history_of Sample.elsewhere (client_of "hyperliquid") Sample.PAYER
      = [Sample.userTx Sample.TX_HASH Sample.sent_elsewhere]
      /\ Js.own (PaymentPayload.payload (Sample.payment Sample.sent_elsewhere)) "action"
         = Js.own (Sample.userTx Sample.TX_HASH Sample.sent_elsewhere) "action"
      /\ has_id (Sample.userTx Sample.TX_HASH Sample.sent_elsewhere) Sample.TX_HASH
      /\ fst (settle Sample.elsewhere (Sample.payment Sample.sent_elsewhere)
                Sample.baseRequirements initial_state)
         = Returned (failure hl_tx_not_found Sample.baseRequirements Sample.PAY_TO
                       (Some Sample.PAYER))).
Proof.
  split.
  - split; [reflexivity|]. split; [|split; [reflexivity | vm_compute; reflexivity]].
    apply transactionMatchesPayment_pays. vm_compute. reflexivity.
  - split; [reflexivity|]. split; [reflexivity|].
    split; [split; reflexivity | vm_compute; reflexivity].
Qed.

(** C7, amended.  With a payer identity known and the submission
    acknowledged: when the account history (of transaction objects) holds
    a transaction that pays for the payment (it sends to the
    requirements' [payTo], in the requirements' [asset], letter case set
    aside, the amount the payload states, and agrees with the payload's
    chain and type fields and with its time or nonce where the payload
    states them) and that carries a well-formed transaction id, [settle]
    takes the id of the latest such transaction, polls it, and answers by
    the poll, with success when the id is confirmed; any success of
    [settle] carries the id of such a transaction of the history; and
    when no transaction of the history pays for the payment, [settle]
    answers [hl_tx_not_found], whatever id the acknowledgment carried. *)
Theorem settle_matches_history (w : World)
    (pp : PaymentPayload.t) (pr : PaymentRequirements.t)
    (p : string) (s0 s1 : State) (ack : HyperliquidSettleResponse.t) :
  let payload := PaymentPayload.payload pp in
  let client := client_of (PaymentRequirements.network pr) in
  let history := history_of w client p in
  let s2 := logged (RequestUserDetails client p) s1 in
  guard_passes pp pr ->
  is_structured (Js.get_opt payload "action") = true ->
  extractPayer payload = Returned (Some p) ->
  p <> "" ->
  submitExchange w (endpoint_of (PaymentRequirements.network pr)) payload s0
  = (Returned ack, s1) ->
  ((forall tx, In tx history -> exists fields, tx = VObject fields) ->
   (exists tx h, In tx history /\ pays w payload pr tx /\ has_id tx h) ->
   exists tx h,
     In tx history /\ pays w payload pr tx /\ has_id tx h
     /\ (forall tx' h', In tx' history -> pays w payload pr tx' -> has_id tx' h' ->
                        JsNumber.ge (stamp tx) (stamp tx') = true)
     /\ (exists r s3,
            confirmTransaction w client h s2 = (Returned r, s3)
            /\ settle w pp pr s0 = (Returned (by_poll pr h (Some p) r), s3))
     /\ (lookup_succeeds w client h 0 ->
         settle w pp pr s0
         = (Returned (settled pr h (Some p)), logged (RequestTxDetails client h) s2)))
  /\ (forall resp s3,
         settle w pp pr s0 = (Returned resp, s3) ->
         SettleResponse.success resp = true ->
         exists tx, In tx history /\ pays w payload pr tx
                    /\ has_id tx (SettleResponse.transaction resp))
  /\ ((forall tx, In tx history -> ~ pays w payload pr tx) ->
      settle w pp pr s0
      = (Returned (failure hl_tx_not_found pr
                     (shown (extractExchangeTxHash ack) pr) (Some p)), s2)).
Proof.
  intros payload client history s2 G A P Np Sub.
  destruct (settle_by_match w pp pr p s0 s1 ack G A P Np Sub) as (Found & Sound & Nothing).
  fold payload client history s2 in Found, Sound, Nothing.
  split; [|split].
  - intros Obj (tx0 & h0 & In0 & Pay0 & Id0).
    destruct (Found Obj) as (tx & h & Hin & Hm & Hid & Top & Poll & Ok).
    { exists tx0, h0. split; [exact In0|]. split; [now apply matching_pays | exact Id0]. }
    exists tx, h. split; [exact Hin|]. split; [now apply matching_pays|].
    split; [exact Hid|]. split; [|split; assumption].
    intros tx' h' In' Pay' Id'. apply (Top tx' h' In'); [now apply matching_pays | exact Id'].
  - intros resp s3 E S. destruct (Sound resp s3 E S) as (tx & Hin & Hm & Hid).
    exists tx. split; [exact Hin|]. split; [now apply matching_pays | exact Hid].
  - intros None_. apply Nothing. intros tx Hin Hm. apply (None_ tx Hin).
    now apply matching_pays.
Qed.

Lemma settle_matches_history_witness :
  fst (settle (Sample.world (FetchResponse true (Some (Sample.ack None)))
                 [Sample.userTx Sample.TX_HASH
                    (Sample.action Sample.PAY_TO Sample.TOKEN "1" Sample.TIMESTAMP)]
                 (fun _ => Sample.found Sample.TX_HASH))
         Sample.basePayload Sample.baseRequirements initial_state)
  = Returned (settled Sample.baseRequirements Sample.TX_HASH (Some Sample.PAYER))
  /\ fst (settle (Sample.world (FetchResponse true (Some (Sample.ack (Some Sample.TX_HASH))))
                    [Sample.userTx Sample.TX_HASH
                       (Sample.action "0xcccccccccccccccccccccccccccccccccccccccc"
                          Sample.TOKEN "1" Sample.TIMESTAMP)]
                    (fun _ => Sample.found Sample.TX_HASH))
            Sample.basePayload Sample.baseRequirements initial_state)
     = Returned (failure hl_tx_not_found Sample.baseRequirements Sample.TX_HASH
                   (Some Sample.PAYER)).
Proof.
  split.
  - edestruct (settle_matches_history
                 (Sample.world (FetchResponse true (Some (Sample.ack None)))
                    [Sample.userTx Sample.TX_HASH
                       (Sample.action Sample.PAY_TO Sample.TOKEN "1" Sample.TIMESTAMP)]
                    (fun _ => Sample.found Sample.TX_HASH))
                 Sample.basePayload Sample.baseRequirements Sample.PAYER initial_state)
      as (H & _ & _).
    + apply sample_guard.
    + reflexivity.
    + reflexivity.
    + discriminate.
    + vm_compute; reflexivity.
    + destruct H as (tx & h & Hin & _ & Hid & _ & _ & Ok).
      * intros tx [<-|[]]. eexists. reflexivity.
      * exists (Sample.userTx Sample.TX_HASH
                  (Sample.action Sample.PAY_TO Sample.TOKEN "1" Sample.TIMESTAMP)),
          Sample.TX_HASH.
        split; [left; reflexivity|].
        split; [apply transactionMatchesPayment_pays; vm_compute; reflexivity|].
        split; reflexivity.
      * destruct Hin as [<-|[]]. destruct Hid as [Hh _].
        injection Hh as <-.
        rewrite Ok; [reflexivity|].
        eexists. eexists. split; reflexivity.
  - edestruct (settle_matches_history
                 (Sample.world (FetchResponse true (Some (Sample.ack (Some Sample.TX_HASH))))
                    [Sample.userTx Sample.TX_HASH
                       (Sample.action "0xcccccccccccccccccccccccccccccccccccccccc"
                          Sample.TOKEN "1" Sample.TIMESTAMP)]
                    (fun _ => Sample.found Sample.TX_HASH))
                 Sample.basePayload Sample.baseRequirements Sample.PAYER initial_state)
      as (_ & _ & H).
    + apply sample_guard.
    + reflexivity.
    + reflexivity.
    + discriminate.
    + vm_compute; reflexivity.
    + rewrite H; [reflexivity|].
      intros tx [<-|[]] Hp. apply transactionMatchesPayment_pays in Hp.
      vm_compute in Hp. discriminate.
Defined.

End SettleMatch.

(* ================================================================== *)
(** * The confirmation poll *)
(* ================================================================== *)

Module SettlePoll.

Import Settle VerifySpec SettleSpec VerifyFacts SettleFacts SettleSteps.

(** C8.  For a payment whose transaction id has been resolved to
    [hash], the poll asks for its details at most [CONFIRMATION_RETRIES]
    (three) times.  A lookup error that says "not found" ends the poll
    at once with [hl_tx_not_found], no further lookup being made; any
    other lookup error uses up one attempt and is followed by the fixed
    pause of [CONFIRMATION_DELAY_MS]; and when all attempts are used up
    the answer is [hl_tx_unconfirmed]. *)
Theorem settle_confirmation_poll (w : World)
    (pp : PaymentPayload.t) (pr : PaymentRequirements.t)
    (payer : option string) (s0 s1 s : State)
    (ack : HyperliquidSettleResponse.t) (m : option string) (hash : string) :
  let client := client_of (PaymentRequirements.network pr) in
  guard_passes pp pr ->
  is_structured (Js.get_opt (PaymentPayload.payload pp) "action") = true ->
  extractPayer (PaymentPayload.payload pp) = Returned payer ->
  submitExchange w (endpoint_of (PaymentRequirements.network pr))
    (PaymentPayload.payload pp) s0 = (Returned ack, s1) ->
  matched w pp pr payer client s1 = (m, s) ->
  (known payer = true -> m <> None) ->
  resolved_id m ack = Some hash ->
  isHexHash hash = true ->
  (forall k error,
      (k < CONFIRMATION_RETRIES)%nat ->
      (forall i, (i < k)%nat ->
                 exists e, lookup_fails w client hash i e /\ says_not_found e = false) ->
      lookup_fails w client hash k error ->
      says_not_found error = true ->
      exists s',
        settle w pp pr s0 = (Returned (failure hl_tx_not_found pr hash payer), s')
        /\ log s' = (RequestTxDetails client hash
                     :: failed_rounds client hash k ++ log s)%list)
  /\ ((forall i, (i < CONFIRMATION_RETRIES)%nat ->
                 exists e, lookup_fails w client hash i e /\ says_not_found e = false) ->
      exists s',
        settle w pp pr s0 = (Returned (failure hl_tx_unconfirmed pr hash payer), s')
        /\ log s' = (failed_rounds client hash CONFIRMATION_RETRIES ++ log s)%list)
  /\ CONFIRMATION_RETRIES = 3%nat
  /\ CONFIRMATION_DELAY_MS = 250.
Proof.
  intros client G A P Sub Mt Kn Rs Hx.
  rewrite (settle_reaches_poll w _ _ _ _ _ _ _ _ _ G A P Sub Mt Kn Rs Hx).
  fold client. unfold confirmTransaction.
  split; [|split; [|split; reflexivity]].
  - intros k error Hk Hfail Hlast Hsays.
    destruct (confirm_from_not_found w client hash k CONFIRMATION_RETRIES 0 s error)
      as (s' & E & L & _); try assumption.
    exists s'. now rewrite E.
  - intros Hfail.
    destruct (confirm_from_timeout w client hash CONFIRMATION_RETRIES 0 s)
      as (s' & E & L & _); try assumption.
    exists s'. now rewrite E.
Qed.

Lemma settle_confirmation_poll_witness :
  fst (settle (Sample.world (FetchResponse true (Some (Sample.ack None)))
                 [Sample.userTx Sample.TX_HASH
                    (Sample.action Sample.PAY_TO Sample.TOKEN "1" Sample.TIMESTAMP)]
                 (fun _ => Thrown "Error: temporary confirmation error"))
         Sample.basePayload Sample.baseRequirements initial_state)
  = Returned (failure hl_tx_unconfirmed Sample.baseRequirements Sample.TX_HASH
                (Some Sample.PAYER))
  /\ fst (settle (Sample.world (FetchResponse true (Some (Sample.ack None)))
                    [Sample.userTx Sample.TX_HASH
                       (Sample.action Sample.PAY_TO Sample.TOKEN "1" Sample.TIMESTAMP)]
                    (fun n => match n with
                              | O => Thrown "Error: temporary confirmation error"
                              | _ => Thrown "Error: Transaction Not Found"
                              end))
            Sample.basePayload Sample.baseRequirements initial_state)
     = Returned (failure hl_tx_not_found Sample.baseRequirements Sample.TX_HASH
                   (Some Sample.PAYER)).
Proof.
  split.
  - edestruct (settle_confirmation_poll
                 (Sample.world (FetchResponse true (Some (Sample.ack None)))
                    [Sample.userTx Sample.TX_HASH
                       (Sample.action Sample.PAY_TO Sample.TOKEN "1" Sample.TIMESTAMP)]
                    (fun _ => Thrown "Error: temporary confirmation error"))
                 Sample.basePayload Sample.baseRequirements (Some Sample.PAYER)
                 initial_state)
      as (_ & H & _).
    + apply sample_guard.
    + reflexivity.
    + reflexivity.
    + vm_compute; reflexivity.
    + vm_compute; reflexivity.
    + discriminate.
    + reflexivity.
    + reflexivity.
    + destruct H as (s' & E & _).
      * intros i _. eexists. split; reflexivity.
      * now rewrite E.
  - edestruct (settle_confirmation_poll
                 (Sample.world (FetchResponse true (Some (Sample.ack None)))
                    [Sample.userTx Sample.TX_HASH
                       (Sample.action Sample.PAY_TO Sample.TOKEN "1" Sample.TIMESTAMP)]
                    (fun n => match n with
                              | O => Thrown "Error: temporary confirmation error"
                              | _ => Thrown "Error: Transaction Not Found"
                              end))
                 Sample.basePayload Sample.baseRequirements (Some Sample.PAYER)
                 initial_state)
      as (H & _).
    + apply sample_guard.
    + reflexivity.
    + reflexivity.
    + vm_compute; reflexivity.
    + vm_compute; reflexivity.
    + discriminate.
    + reflexivity.
    + reflexivity.
    + destruct (H 1%nat "Error: Transaction Not Found") as (s' & E & _).
      * unfold CONFIRMATION_RETRIES. lia.
      * intros i Hi. assert (i = 0)%nat as -> by lia.
        eexists. split; reflexivity.
      * reflexivity.
      * reflexivity.
      * now rewrite E.
Defined.

End SettlePoll.

(* ================================================================== *)
(** * [settle] answers, it does not throw *)
(* ================================================================== *)

Module SettleTotal.

Import Settle VerifySpec SettleSpec VerifyFacts SettleFacts.

(** C9.  For a payload of the expected shape [settle] returns a
    response and never throws.  When the submission fails (the request
    is rejected, the status is not a success, or the body lacks the
    "ok" marker, a successful status alone not being enough), and when
    anything else throws inside the sequence, the response is the
    failure with reason [hl_exchange_error]. *)
Theorem settle_never_throws (w : World)
    (pp : PaymentPayload.t) (pr : PaymentRequirements.t) (s : State) :
  envelope_shape (PaymentPayload.payload pp) ->
  (exists resp s', settle w pp pr s = (Returned resp, s'))
  /\ (guard_passes pp pr ->
      is_structured (Js.get_opt (PaymentPayload.payload pp) "action") = true ->
      exists payer,
        extractPayer (PaymentPayload.payload pp) = Returned payer
        /\ let endpoint := endpoint_of (PaymentRequirements.network pr) in
           let client := client_of (PaymentRequirements.network pr) in
           let refused :=
             Returned (failure hl_exchange_error pr (PaymentRequirements.payTo pr) payer) in
           (forall body,
               Json.serializable (request_of (PaymentPayload.payload pp)) = Returned body ->
               submission_failed
                 (fetch w endpoint (match body with Some b => b | None => VUndefined end))
               = true ->
               fst (settle w pp pr s) = refused)
           /\ (forall e s1,
                  (let! exchangeResponse :=
                     submitExchange w endpoint (PaymentPayload.payload pp) in
                   after_submit w pp pr payer client exchangeResponse) s
                  = (Thrown e, s1) ->
                  fst (settle w pp pr s) = refused)).
Proof.
  intros Sh. destruct (shape_extractPayer _ Sh) as [payer P]. split.
  - destruct (guard_passes_dec pp pr) as [G|G].
    + destruct (is_structured (Js.get_opt (PaymentPayload.payload pp) "action")) eqn:A.
      * rewrite (settle_unfold w _ _ _ s G A P). now apply settle_try_returns with payer.
      * rewrite (settle_unstructured w _ _ s G A). unfold lift.
        rewrite (failureResponse_returns _ _ _ None None _ P). eauto.
    + rewrite (settle_guard w _ _ s G). unfold lift.
      rewrite (failureResponse_returns _ _ _ None None _ P). eauto.
  - intros G A. exists payer. split; [exact P|]. cbv zeta.
    rewrite (settle_unfold w _ _ _ s G A P). split.
    + intros body B F.
      pose proof (submitExchange_thrown w
                    (endpoint_of (PaymentRequirements.network pr))
                    (PaymentPayload.payload pp) s) as T.
      rewrite B in T. destruct (T F) as (e & s1 & E).
      rewrite (settle_try_thrown pp pr payer _ s e s1 P); [reflexivity|].
      unfold bind. now rewrite E.
    + intros e s1 E. now rewrite (settle_try_thrown pp pr payer _ s e s1 P E).
Qed.

Lemma settle_never_throws_witness :
  fst (settle (Sample.world (FetchResponse true (Some
                 {| HyperliquidSettleResponse.status := None;
                    HyperliquidSettleResponse.response := None;
                    HyperliquidSettleResponse.txHash_top := Some Sample.TX_HASH;
                    HyperliquidSettleResponse.hash := None |}))
                 [] (fun _ => Sample.found Sample.TX_HASH))
         Sample.basePayload Sample.baseRequirements initial_state)
  = Returned (failure hl_exchange_error Sample.baseRequirements Sample.PAY_TO
                (Some Sample.PAYER)).
Proof.
  destruct (settle_never_throws
              (Sample.world (FetchResponse true (Some
                 {| HyperliquidSettleResponse.status := None;
                    HyperliquidSettleResponse.response := None;
                    HyperliquidSettleResponse.txHash_top := Some Sample.TX_HASH;
                    HyperliquidSettleResponse.hash := None |}))
                 [] (fun _ => Sample.found Sample.TX_HASH))
              Sample.basePayload Sample.baseRequirements initial_state)
    as [_ H].
  - eexists. split; [reflexivity|]. intros _. eexists. reflexivity.
  - destruct (H (sample_guard _ _ _) eq_refl) as (payer & P & F & _).
    injection P as <-.
    exact (F _ eq_refl eq_refl).
Defined.

(** Outside that shape the claim has no bearing: an [action] that is
    [null] makes [settle] throw while it builds the failure response. *)
Lemma settle_throws_on_null_action :
  exists e,
    fst (settle Sample.calm
           {| PaymentPayload.x402Version := JsNumber.of_Z 1;
              PaymentPayload.scheme := "exact";
              PaymentPayload.network := "hyperliquid";
              PaymentPayload.payload := VObject [("action", VNull)] |}
           Sample.baseRequirements initial_state)
    = Thrown e.
Proof. eexists. reflexivity. Qed.

End SettleTotal.

(* ================================================================== *)
(** * Decimal digits and the text of an integer *)
(* ================================================================== *)

Module DigitFacts.
Import Verify StringFacts AmountFacts.

Lemma of_uint_acc_value l : forall acc,
  Zpos (Pos.of_uint_acc l acc)
  = Zpos acc * 10 ^ Z.of_nat (Decimal.nb_digits l) + Z.of_N (Pos.of_uint l).
Proof.
  induction l; intros acc; cbn [Pos.of_uint_acc Pos.of_uint Decimal.nb_digits];
    rewrite ?Nat2Z.inj_succ, ?Z.pow_succ_r by lia;
    [cbn; lia | rewrite IHl; rewrite ?Pos2Z.inj_add, ?Pos2Z.inj_mul; ring | ..];
    rewrite IHl; cbn [Z.of_N];
    match goal with |- context [Pos.of_uint_acc l ?k] => rewrite (IHl k) end;
    rewrite ?Pos2Z.inj_add, ?Pos2Z.inj_mul; ring.
Qed.

(** The value of a numeral with one more leading digit. *)
Lemma of_uint_cons (digit : Decimal.uint -> Decimal.uint) (k : Z) l :
  List.In (digit, k)
    [(Decimal.D0, 0); (Decimal.D1, 1); (Decimal.D2, 2); (Decimal.D3, 3); (Decimal.D4, 4);
     (Decimal.D5, 5); (Decimal.D6, 6); (Decimal.D7, 7); (Decimal.D8, 8); (Decimal.D9, 9)] ->
  Z.of_uint (digit l) = k * 10 ^ Z.of_nat (Decimal.nb_digits l) + Z.of_uint l.
Proof.
  unfold Z.of_uint. cbn [List.In].
  intros [E|[E|[E|[E|[E|[E|[E|[E|[E|[E|[]]]]]]]]]]]; injection E as <- <-;
    cbn [Pos.of_uint Z.of_N]; rewrite ?of_uint_acc_value; lia.
Qed.

Lemma uint_digits u : forall acc,
  JsString.digits_from 10 acc (NilEmpty.string_of_uint u)
  = Some (acc * 10 ^ Z.of_nat (Decimal.nb_digits u) + Z.of_uint u).
Proof.
  induction u; intros acc;
    cbn [NilEmpty.string_of_uint JsString.digits_from Decimal.nb_digits];
    [f_equal; cbn; lia | ..];
    match goal with
    | |- context [JsString.digit_value 10 ?c] =>
        let v := eval vm_compute in (JsString.digit_value 10 c) in
        change (JsString.digit_value 10 c) with v
    end;
    cbv beta iota; rewrite IHu;
    match goal with
    | |- context [Z.of_uint (?digit u)] =>
        match goal with
        | |- context [acc * Z.of_N 10 + ?k] =>
            rewrite (of_uint_cons digit k) by (cbn [List.In]; tauto)
        end
    end;
    f_equal; rewrite Nat2Z.inj_succ, Z.pow_succ_r by lia;
    change (Z.of_N 10) with 10; ring.
Qed.

Lemma uint_length u :
  String.length (NilEmpty.string_of_uint u) = Decimal.nb_digits u.
Proof. induction u; cbn; congruence. Qed.

Lemma uint_all_digits u :
  JsString.all_chars JsString.is_digit (NilEmpty.string_of_uint u) = true.
Proof.
  induction u; cbn [NilEmpty.string_of_uint JsString.all_chars];
    try rewrite IHu; reflexivity.
Qed.

Lemma of_uint_nonneg u : 0 <= Z.of_uint u.
Proof. unfold Z.of_uint. lia. Qed.

(** A numeral that starts with a digit other than zero is at least the
    power of ten of its other digits. *)
Lemma leading_digit_bound u :
  u <> Decimal.Nil -> (forall l, u <> Decimal.D0 l) ->
  10 ^ Z.of_nat (Decimal.nb_digits u - 1) <= Z.of_uint u.
Proof.
  intros NN NZ.
  destruct u as [|l|l|l|l|l|l|l|l|l|l]; [congruence | now destruct (NZ l) | ..];
    cbn [Decimal.nb_digits]; rewrite Nat.sub_succ, Nat.sub_0_r;
    match goal with
    | |- _ <= Z.of_uint (?digit l) =>
        first [ rewrite (of_uint_cons digit 1) by (cbn [List.In]; tauto)
              | rewrite (of_uint_cons digit 2) by (cbn [List.In]; tauto)
              | rewrite (of_uint_cons digit 3) by (cbn [List.In]; tauto)
              | rewrite (of_uint_cons digit 4) by (cbn [List.In]; tauto)
              | rewrite (of_uint_cons digit 5) by (cbn [List.In]; tauto)
              | rewrite (of_uint_cons digit 6) by (cbn [List.In]; tauto)
              | rewrite (of_uint_cons digit 7) by (cbn [List.In]; tauto)
              | rewrite (of_uint_cons digit 8) by (cbn [List.In]; tauto)
              | rewrite (of_uint_cons digit 9) by (cbn [List.In]; tauto) ]
    end;
    pose proof (of_uint_nonneg l);
    assert (0 < 10 ^ Z.of_nat (Decimal.nb_digits l)) by (apply Z.pow_pos_nonneg; lia);
    nia.
Qed.

(** [z.toString()] of a BigInt that is not negative. *)
Lemma bigint_toString_uint z :
  0 <= z ->
  exists u, PaymentUtils.bigint_toString z = NilEmpty.string_of_uint u
            /\ u <> Decimal.Nil /\ Z.of_uint u = z
            /\ (0 < z -> forall l, u <> Decimal.D0 l).
Proof.
  intros Hz. unfold PaymentUtils.bigint_toString.
  destruct z as [|p|p]; [| |lia].
  - exists (Decimal.D0 Decimal.Nil). repeat split; discriminate.
  - exists (Pos.to_uint p). cbn [Z.to_int NilZero.string_of_int].
    pose proof (DecimalPos.Unsigned.to_uint_nonnil p) as NN.
    split; [|split; [exact NN|split]].
    + unfold NilZero.string_of_uint. destruct (Pos.to_uint p); congruence.
    + unfold Z.of_uint. now rewrite DecimalPos.Unsigned.of_to.
    + intros _ l E.
      pose proof (DecimalPos.Unsigned.to_of (Pos.to_uint p)) as N.
      rewrite DecimalPos.Unsigned.of_to in N. cbn [N.to_uint] in N.
      rewrite E in N. rewrite DecimalFacts.unorm_D0 in N.
      destruct (Decimal.uint_eq_dec l Decimal.Nil) as [->|NE].
      * apply (DecimalPos.Unsigned.to_uint_nonzero p). exact E.
      * pose proof (DecimalFacts.nb_digits_unorm l NE) as B.
        rewrite <- N in B. cbn [Decimal.nb_digits] in B. lia.
Qed.

Lemma bigint_toString_digits z :
  0 <= z ->
  JsString.all_chars JsString.is_digit (PaymentUtils.bigint_toString z) = true
  /\ PaymentUtils.bigint_toString z <> ""
  /\ forall acc,
      JsString.digits_from 10 acc (PaymentUtils.bigint_toString z)
      = Some (acc * 10 ^ Z.of_nat (String.length (PaymentUtils.bigint_toString z)) + z).
Proof.
  intros Hz. destruct (bigint_toString_uint z Hz) as (u & -> & NN & V & _).
  split; [apply uint_all_digits|]. split.
  - destruct u; try congruence; discriminate.
  - intros acc. rewrite uint_digits, uint_length, V. reflexivity.
Qed.

(** A positive BigInt below [10 ^ d] prints in at most [d] digits. *)
Lemma bigint_toString_length z d :
  0 < z < 10 ^ d ->
  Z.of_nat (String.length (PaymentUtils.bigint_toString z)) <= d.
Proof.
  intros [Hz Hd].
  destruct (bigint_toString_uint z ltac:(lia)) as (u & -> & NN & V & NZ).
  rewrite uint_length.
  pose proof (leading_digit_bound u NN (NZ Hz)) as B. rewrite V in B.
  assert (0 <= d).
  { destruct (Z.le_gt_cases 0 d); [assumption|].
    rewrite Z.pow_neg_r in Hd by lia. lia. }
  assert (Z.of_nat (Decimal.nb_digits u - 1) < d).
  { apply (Z.pow_lt_mono_r_iff 10); lia. }
  assert (Decimal.nb_digits u <> 0%nat) by (destruct u; cbn; congruence).
  lia.
Qed.

End DigitFacts.

(* ================================================================== *)
(** * Only well-formed transaction ids are polled and reported *)
(* ================================================================== *)

Module SettleHash.

Import Settle VerifySpec SettleSpec VerifyFacts SettleFacts SettleSteps.

Lemma grows_refl s : grows s s.
Proof. exists []. split; [reflexivity | constructor]. Qed.

Lemma grows_trans s1 s2 s3 : grows s1 s2 -> grows s2 s3 -> grows s1 s3.
Proof.
  intros (f1 & L1 & F1) (f2 & L2 & F2). exists (f2 ++ f1)%list. split.
  - rewrite L2, L1. apply app_assoc.
  - apply Forall_app. now split.
Qed.

Lemma grows_logged e s : polls_a_hash e -> grows s (logged e s).
Proof. intros H. exists [e]. split; [reflexivity | now constructor]. Qed.

Section Facts.
Variable w : World.

Lemma submitExchange_grows endpoint payload s o s1 :
  submitExchange w endpoint payload s = (o, s1) -> grows s s1.
Proof.
  unfold submitExchange. unfold bind at 1, lift at 1.
  destruct (Json.serializable _) as [body|e]; [|intros [= _ <-]; apply grows_refl].
  cbv zeta. unfold bind at 1, emit.
  set (s0 := {| hyperliquidTokenInfoCache := _; log := _ |}).
  assert (G : grows s s0) by (apply (grows_logged (PostExchange endpoint _) s); exact I).
  unfold throw, ret.
  destruct (fetch w endpoint _) as [e|ok json]; [intros [= _ <-]; exact G|].
  destruct (negb ok); [intros [= _ <-]; exact G|].
  destruct json as [b|]; [|intros [= _ <-]; exact G].
  destruct (HyperliquidSettleResponse.status b) as [st|]; [|intros [= _ <-]; exact G].
  destruct (String.eqb st "ok"); intros [= _ <-]; exact G.
Qed.

Lemma matched_grows pp pr payer client s m s' :
  matched w pp pr payer client s = (m, s') -> grows s s'.
Proof.
  intros H. destruct (matched_hex w _ _ _ _ _ _ _ H) as [_ [->|[p ->]]].
  - apply grows_refl.
  - apply grows_logged. exact I.
Qed.

Lemma confirm_from_grows client hash :
  isHexHash hash = true ->
  forall remaining attempt s,
    grows s (snd (confirm_from w client hash remaining attempt s)).
Proof.
  intros Hx. induction remaining as [|r IH]; intros attempt s.
  - apply grows_refl.
  - rewrite confirm_from_round. cbv zeta.
    assert (G1 : grows s (logged (RequestTxDetails client hash) s))
      by (apply grows_logged; exact Hx).
    assert (G2 : grows s (snd (confirm_from w client hash r (S attempt)
                                 (logged (Delay CONFIRMATION_DELAY_MS)
                                    (logged (RequestTxDetails client hash) s))))).
    { eapply grows_trans; [exact G1|].
      eapply grows_trans; [|apply IH]. apply grows_logged. exact I. }
    destruct (txDetails w client attempt hash) as [response|e].
    + destruct (Js.get response "tx") as [tx|e]; [exact G1|].
      destruct (says_not_found e); [exact G1 | exact G2].
    + destruct (says_not_found e); [exact G1 | exact G2].
Qed.

(** The answer of [settle] past the shape checks succeeds only with a
    well-formed id, and polls only well-formed ids. *)
Lemma conclusion_hash pp pr payer s :
  (forall resp s', conclusion w pp pr payer s = (Returned resp, s') ->
                   SettleResponse.success resp = true ->
                   isHexHash (SettleResponse.transaction resp) = true)
  /\ grows s (snd (conclusion w pp pr payer s)).
Proof.
  unfold conclusion.
  destruct (submitExchange w _ _ s) as [[ack|e] s1] eqn:Sub.
  2: { split; [intros resp s' [= <- _]; discriminate|].
       exact (submitExchange_grows _ _ _ _ _ Sub). }
  pose proof (submitExchange_grows _ _ _ _ _ Sub) as G1.
  destruct (matched w pp pr payer _ s1) as [m s2] eqn:Mt.
  pose proof (grows_trans _ _ _ G1 (matched_grows _ _ _ _ _ _ _ Mt)) as G2.
  destruct (known payer && Verify.missing m);
    [split; [intros resp s' [= <- _]; discriminate | exact G2]|].
  destruct (resolved_id m ack) as [h|];
    [|split; [intros resp s' [= <- _]; discriminate | exact G2]].
  destruct (JsString.is_empty h || negb (isHexHash h)) eqn:Hx;
    [split; [intros resp s' [= <- _]; discriminate | exact G2]|].
  apply orb_false_iff in Hx as [_ Hx]. apply negb_false_iff in Hx.
  pose proof (confirm_from_grows (client_of (PaymentRequirements.network pr)) h Hx
              CONFIRMATION_RETRIES 0 s2) as G3.
  fold (confirmTransaction w (client_of (PaymentRequirements.network pr)) h s2) in G3.
  destruct (confirmTransaction w _ h s2) as [[[]|e] s3]; cbn [snd] in G3 |- *;
    (split; [intros resp s' [= <- _]; (discriminate || (intros _; exact Hx))
            | exact (grows_trans _ _ _ G2 G3)]).
Qed.

End Facts.

(** C10.  A successful response of [settle] carries a transaction id of
    the form [0x] and 64 hex digits, and every detail lookup [settle]
    makes is for an id of that form.  When the resolved id (the one
    matched in the history, else the one of the acknowledgment) is there
    but not of that form, [settle] answers [hl_tx_not_found] and polls
    nothing. *)
Theorem settle_uses_well_formed_ids_only (w : World)
    (pp : PaymentPayload.t) (pr : PaymentRequirements.t) (s : State) :
  (forall resp s',
      settle w pp pr s = (Returned resp, s') ->
      SettleResponse.success resp = true ->
      isHexHash (SettleResponse.transaction resp) = true)
  /\ grows s (snd (settle w pp pr s))
  /\ (forall payer ack s1 m s2 h,
         guard_passes pp pr ->
         is_structured (Js.get_opt (PaymentPayload.payload pp) "action") = true ->
         extractPayer (PaymentPayload.payload pp) = Returned payer ->
         submitExchange w (endpoint_of (PaymentRequirements.network pr))
           (PaymentPayload.payload pp) s = (Returned ack, s1) ->
         matched w pp pr payer (client_of (PaymentRequirements.network pr)) s1 = (m, s2) ->
         resolved_id m ack = Some h ->
         isHexHash h = false ->
         settle w pp pr s
         = (Returned (failure hl_tx_not_found pr
                        (shown (extractExchangeTxHash ack) pr) payer), s2)).
Proof.
  assert (Early : forall reason,
             (forall resp s',
                 lift (failureResponse reason pr pp None None) s = (Returned resp, s') ->
                 SettleResponse.success resp = true ->
                 isHexHash (SettleResponse.transaction resp) = true)
             /\ grows s (snd (lift (failureResponse reason pr pp None None) s))).
  { intros reason. unfold lift, failureResponse. split; [|apply grows_refl].
    intros resp s'. destruct (extractPayer _); [|discriminate].
    intros [= <- _]. discriminate. }
  split; [|split].
  - destruct (guard_passes_dec pp pr) as [G|G];
      [|rewrite (settle_guard w _ _ s G); apply Early].
    destruct (is_structured (Js.get_opt (PaymentPayload.payload pp) "action")) eqn:A;
      [|rewrite (settle_unstructured w _ _ s G A); apply Early].
    destruct (structured_extractPayer _ A) as [payer P].
    rewrite (settle_conclusion w _ _ _ s G A P). apply conclusion_hash.
  - destruct (guard_passes_dec pp pr) as [G|G];
      [|rewrite (settle_guard w _ _ s G); apply Early].
    destruct (is_structured (Js.get_opt (PaymentPayload.payload pp) "action")) eqn:A;
      [|rewrite (settle_unstructured w _ _ s G A); apply Early].
    destruct (structured_extractPayer _ A) as [payer P].
    rewrite (settle_conclusion w _ _ _ s G A P). apply conclusion_hash.
  - intros payer ack s1 m s2 h G A P Sub Mt Rs Hx.
    rewrite (settle_conclusion w _ _ _ s G A P). unfold conclusion.
    rewrite Sub, Mt, Rs, Hx. cbn [negb]. rewrite orb_true_r.
    now destruct (known payer && Verify.missing m).
Qed.

Lemma settle_uses_well_formed_ids_only_witness :
  isHexHash Sample.TX_HASH = true
  /\ fst (settle (Sample.world (FetchResponse true (Some (Sample.ack (Some "0xabc"))))
                    [] (fun _ => Sample.found "0xabc"))
            Sample.anonymousPayload Sample.baseRequirements initial_state)
     = Returned (failure hl_tx_not_found Sample.baseRequirements "0xabc" None).
Proof.
  split.
  - refine (proj1 (settle_uses_well_formed_ids_only Sample.calm
                     Sample.basePayload Sample.baseRequirements initial_state)
              (settled Sample.baseRequirements Sample.TX_HASH (Some Sample.PAYER))
              _ _ eq_refl).
    vm_compute. reflexivity.
  - edestruct (settle_uses_well_formed_ids_only
                 (Sample.world (FetchResponse true (Some (Sample.ack (Some "0xabc"))))
                    [] (fun _ => Sample.found "0xabc"))
                 Sample.anonymousPayload Sample.baseRequirements initial_state)
      as (_ & _ & H).
    erewrite (H None _ _ None _ "0xabc"); cycle 1.
    + repeat split; try reflexivity. right; left; reflexivity.
    + reflexivity.
    + reflexivity.
    + vm_compute; reflexivity.
    + reflexivity.
    + reflexivity.
    + reflexivity.
    + reflexivity.
Defined.

End SettleHash.

(* ================================================================== *)
(** * The payment codec *)
(* ================================================================== *)

Module CodecFacts.

Import PaymentUtils CodecSpec SettleFacts.

(** JSON text carries a plain value as it is. *)
Lemma serializable_plain : forall v, Json.plain v -> Json.serializable v = Returned (Some v).
Proof.
  fix IH 1. intros v H. destruct v as [| | |n| | |props|items]; inversion H; subst;
    try reflexivity.
  - cbn [Json.serializable].
    match goal with H : Forall _ props |- _ => rename H into F end.
    assert (E : (fix go (ps : list (string * value)) : outcome (list (string * value)) :=
                   match ps with
                   | [] => Returned []
                   | (k, x) :: rest =>
                       match Json.serializable x with
                       | Thrown e => Thrown e
                       | Returned ox =>
                           match go rest with
                           | Thrown e => Thrown e
                           | Returned rest' =>
                               Returned (match ox with
                                         | Some x' => (k, x') :: rest'
                                         | None => rest'
                                         end)
                           end
                       end
                   end) props = Returned props).
    { clear - IH F. induction props as [|[k x] rest IHr]; [reflexivity|].
      apply List.Forall_cons_iff in F as [Hx F].
      rewrite (IH x Hx), (IHr F). reflexivity. }
    now rewrite E.
  - cbn [Json.serializable].
    match goal with H : Forall _ items |- _ => rename H into F end.
    assert (E : (fix go (xs : list value) : outcome (list value) :=
                   match xs with
                   | [] => Returned []
                   | x :: rest =>
                       match Json.serializable x with
                       | Thrown e => Thrown e
                       | Returned ox =>
                           match go rest with
                           | Thrown e => Thrown e
                           | Returned rest' =>
                               Returned (match ox with
                                         | Some x' => x'
                                         | None => VNull
                                         end :: rest')
                           end
                       end
                   end) items = Returned items).
    { clear - IH F. induction items as [|x rest IHr]; [reflexivity|].
      apply List.Forall_cons_iff in F as [Hx F].
      rewrite (IH x Hx), (IHr F). reflexivity. }
    now rewrite E.
Qed.

Lemma set_prop_same k props :
  Js.has_key k props = true -> set_prop k (Js.lookup k props) props = props.
Proof.
  induction props as [|[k' v] rest IH]; cbn [Js.has_key Js.lookup set_prop];
    [discriminate|].
  destruct (String.eqb_spec k k') as [->|N]; [reflexivity|].
  cbn [orb]. intros H. now rewrite (IH H).
Qed.

Lemma set_prop_fresh k v props :
  Js.has_key k props = false -> set_prop k v props = (props ++ [(k, v)])%list.
Proof.
  induction props as [|[k' v'] rest IH]; cbn [Js.has_key set_prop app]; [reflexivity|].
  destruct (String.eqb k k'); [discriminate|]. cbn [orb]. intros H. now rewrite (IH H).
Qed.

Lemma has_key_In k props : Js.has_key k props = true <-> In k (map fst props).
Proof.
  induction props as [|[k' v] rest IH]; cbn [Js.has_key map In fst]; [split; [discriminate | tauto]|].
  rewrite orb_true_iff, IH, String.eqb_eq. intuition congruence.
Qed.

(** [Object.fromEntries] of entries with distinct keys is the object of
    these entries. *)
Lemma fromEntries_distinct entries :
  List.NoDup (map fst entries) -> Object_fromEntries entries = VObject entries.
Proof.
  unfold Object_fromEntries. intros D. f_equal.
  change entries with ([] ++ entries)%list at 2.
  assert (G : forall acc,
             List.NoDup (map fst (acc ++ entries)) ->
             fold_left (fun a kv => set_prop (fst kv) (snd kv) a) entries acc
             = (acc ++ entries)%list); [|now apply G].
  clear D. induction entries as [|[k v] rest IH]; intros acc D.
  - cbn. now rewrite app_nil_r.
  - cbn [fold_left fst snd]. rewrite set_prop_fresh.
    + rewrite IH; rewrite <- app_assoc; [reflexivity | exact D].
    + destruct (Js.has_key k acc) eqn:K; [|reflexivity].
      apply has_key_In in K. rewrite map_app in D. cbn [map fst] in D.
      apply List.NoDup_remove_2 in D. exfalso. apply D. apply in_or_app. now left.
Qed.

Lemma plain_not_undefined v : Json.plain v -> v <> VUndefined.
Proof. intros H E. subst. inversion H. Qed.

(** The conversion of BigInt fields leaves the fields of a plain record
    as they are. *)
Lemma stringify_bigints_plain fields :
  Forall (fun kv => Json.plain (snd kv)) fields ->
  map (fun kv : string * value =>
         (fst kv, match snd kv with
                  | VBigInt z => VString (bigint_toString z)
                  | v => v
                  end)) fields = fields.
Proof.
  induction 1 as [|[k v] rest Hv _ IH]; [reflexivity|].
  cbn [map fst snd] in Hv |- *. rewrite IH. destruct v; try reflexivity. inversion Hv.
Qed.

Lemma plain_lookup k props :
  Forall (fun kv => Json.plain (snd kv)) props ->
  Js.lookup k props <> VUndefined -> Json.plain (Js.lookup k props).
Proof.
  induction 1 as [|[k' v] rest Hv _ IH]; cbn [Js.lookup]; [congruence|].
  destruct (String.eqb k k'); [intros _; exact Hv | exact IH].
Qed.

Lemma includes_In l n : includes l (VString n) = true <-> In n l.
Proof. apply VerifyFacts.includes_network_In. Qed.

(** *** Big integers in text *)

Lemma digits_uint s :
  JsString.all_chars JsString.is_digit s = true ->
  exists u, NilEmpty.uint_of_string s = Some u.
Proof.
  induction s as [|ch r IH]; [intros _; now exists Decimal.Nil|].
  cbn [JsString.all_chars]. intros H. apply andb_true_iff in H as [Hc Hr].
  destruct (IH Hr) as [u E]. cbn [NilEmpty.uint_of_string]. rewrite E.
  destruct ch as [[] [] [] [] [] [] [] []]; try discriminate; eexists; reflexivity.
Qed.

(** The decimal writing of an integer is the text [toString] gives. *)
Lemma decimal_text_unique s z : decimal_text s z -> s = bigint_toString z.
Proof.
  intros (Hz & Hd & Hl & Hv).
  assert (Ne : s <> "") by (destruct Hl as [->|(ch & r & -> & _)]; discriminate).
  rewrite (AmountFacts.toBigInt_digits s Ne Hd) in Hv.
  unfold JsString.parse_digits in Hv.
  replace (JsString.is_empty s) with false in Hv by (destruct s; [congruence | reflexivity]).
  destruct (digits_uint s Hd) as [u Eu]. apply NilEmpty.sus in Eu. subst s.
  rewrite DigitFacts.uint_digits in Hv. injection Hv as Hv.
  rewrite Z.mul_0_l, Z.add_0_l in Hv.
  destruct Hl as [E0|(ch & r & Es & Nz)].
  - assert (Eu : u = Decimal.D0 Decimal.Nil).
    { destruct u as [|l|l|l|l|l|l|l|l|l|l]; try discriminate.
      destruct l; try discriminate. reflexivity. }
    subst u. cbn in Hv. subst z. reflexivity.
  - assert (Nn : u <> Decimal.Nil) by (intros ->; discriminate).
    assert (N0 : forall l, u <> Decimal.D0 l).
    { intros l ->. cbn in Es. injection Es as <- _. now apply Nz. }
    assert (Un : Decimal.unorm u = u).
    { destruct u; try reflexivity; [congruence | now destruct (N0 u)]. }
    pose proof (DigitFacts.leading_digit_bound u Nn N0) as B.
    assert (P : 0 < Z.of_uint u).
    { eapply Z.lt_le_trans; [|exact B]. apply Z.pow_pos_nonneg; lia. }
    rewrite Hv in P. unfold bigint_toString.
    destruct z as [|p|p]; try lia. cbn [Z.to_int NilZero.string_of_int].
    assert (Ep : Pos.to_uint p = u).
    { rewrite <- Un, <- DecimalN.Unsigned.to_of.
      unfold Z.of_uint in Hv. unfold N.of_uint.
      destruct (Pos.of_uint u) as [|q]; [discriminate|].
      injection Hv as ->. reflexivity. }
    rewrite Ep. unfold NilZero.string_of_uint.
    destruct u; try reflexivity. congruence.
Qed.

Lemma plain_not_bigint v : Json.plain v -> forall z, v <> VBigInt z.
Proof. intros H z E. subst. inversion H. Qed.

(** What [encodePayment] makes of the fields of an authorization is
    their text. *)
Lemma fields_in_text_converted fields fields' :
  fields_in_text fields fields' ->
  map (fun kv : string * value =>
         (fst kv, match snd kv with
                  | VBigInt z => VString (bigint_toString z)
                  | v => v
                  end)) fields = fields'.
Proof.
  induction 1 as [|[k v] [k' v'] rest rest' [Ek T] _ IH]; [reflexivity|].
  cbn [map fst snd] in *. subst k'. rewrite IH. f_equal. f_equal.
  inversion T as [z s D|x P]; subst.
  - now rewrite <- (decimal_text_unique s z D).
  - destruct v'; try reflexivity. inversion P.
Qed.

Lemma fields_in_text_keys fields fields' :
  fields_in_text fields fields' -> map fst fields' = map fst fields.
Proof.
  induction 1 as [|[k v] [k' v'] rest rest' [Ek _] _ IH]; [reflexivity|].
  cbn [map fst] in *. now rewrite IH, Ek.
Qed.

Lemma fields_in_text_plain fields fields' :
  fields_in_text fields fields' -> Forall (fun kv => Json.plain (snd kv)) fields'.
Proof.
  induction 1 as [|[k v] [k' v'] rest rest' [_ T] _ IH]; constructor; [|exact IH].
  cbn [snd] in *. inversion T; subst; [constructor | assumption].
Qed.

(** Fields that hold no big integer are their own text. *)
Lemma fields_in_text_same fields fields' :
  fields_in_text fields fields' ->
  Forall (fun kv => Json.plain (snd kv)) fields -> fields' = fields.
Proof.
  induction 1 as [|[k v] [k' v'] rest rest' [Ek T] _ IH]; [reflexivity|].
  intros F. apply List.Forall_cons_iff in F as [Pv F]. cbn [fst snd] in *.
  rewrite (IH F). subst k'. inversion T; subst; [inversion Pv | reflexivity].
Qed.

Lemma set_prop_with_property k v props :
  Js.has_key k props = true -> set_prop k v props = with_property k v props.
Proof.
  induction props as [|[k' v'] rest IH]; cbn [Js.has_key set_prop with_property];
    [discriminate|].
  rewrite (String.eqb_sym k' k).
  destruct (String.eqb_spec k k') as [->|N]; [reflexivity|].
  cbn [orb]. intros H. now rewrite IH.
Qed.

Lemma with_property_keys k v props :
  map fst (with_property k v props) = map fst props.
Proof.
  induction props as [|[k' v'] rest IH]; [reflexivity|]. cbn [with_property].
  destruct (String.eqb k' k); cbn [map fst]; [reflexivity | now rewrite IH].
Qed.

Lemma with_property_same k props :
  with_property k (Js.lookup k props) props = props.
Proof.
  induction props as [|[k' v'] rest IH]; [reflexivity|]. cbn [with_property Js.lookup].
  rewrite (String.eqb_sym k' k).
  destruct (String.eqb k k'); [reflexivity | now rewrite IH].
Qed.

Lemma with_property_plain k v props :
  List.NoDup (map fst props) ->
  Json.plain v ->
  (forall k0 v0, In (k0, v0) props -> k0 <> k -> Json.plain v0) ->
  Forall (fun kv => Json.plain (snd kv)) (with_property k v props).
Proof.
  intros D Pv. induction props as [|[k' v'] rest IH]; intros H; [constructor|].
  cbn [with_property]. cbn [map fst] in D. apply List.NoDup_cons_iff in D as [Nin D].
  destruct (String.eqb_spec k' k) as [->|N].
  - constructor; [exact Pv|]. apply List.Forall_forall. intros [k0 v0] Hin. cbn [snd].
    apply (H k0 v0); [now right|]. intros ->. apply Nin.
    apply List.in_map_iff. now exists (k, v0).
  - constructor; [apply (H k' v'); [now left | exact N]|].
    apply IH; [exact D|]. intros k0 v0 Hin. apply H. now right.
Qed.


Section Facts.
Variable c : Codec.t.
Hypothesis base64 : base64_round_trip c.
Hypothesis json : json_round_trip c.

Lemma stringify_and_encode_plain v :
  Json.plain v ->
  stringify_and_encode c v
  = Returned (Codec.safeBase64Encode c (Codec.JSON_text c v)).
Proof.
  intros P. unfold stringify_and_encode, JSON_stringify.
  now rewrite (serializable_plain v P).
Qed.

Lemma envelope_plain n payload : Json.plain payload -> Json.plain (envelope n payload).
Proof.
  intros P. unfold envelope. apply Json.plain_object.
  - repeat (apply List.NoDup_cons; [cbn; intuition discriminate|]). apply List.NoDup_nil.
  - repeat (apply List.Forall_cons; [cbn [snd]; try constructor; try exact P|]).
    apply List.Forall_nil.
Qed.

(** The schema of the envelope gives an envelope back when the schema
    of the payloads gives the payload back. *)
Lemma PaymentPayloadSchema_envelope n payload :
  In n X402Specs.networks ->
  Zod.union [Codec.ExactEvmPayloadSchema c; Codec.ExactSvmPayloadSchema c;
             X402Specs.ExactHlPayloadSchema] payload = Returned payload ->
  PaymentPayloadSchema c (envelope n payload) = Returned (envelope n payload).
Proof.
  intros Hn U. apply VerifyFacts.includes_network_In in Hn.
  unfold PaymentPayloadSchema, X402Specs.PaymentPayloadSchema, envelope, Zod.object.
  cbn [Zod.object_fields].
  change (Js.lookup "x402Version" _) with (VNumber (JsNumber.of_Z 1)).
  change (Js.lookup "scheme" _) with (VString "exact").
  change (Js.lookup "network" _) with (VString n).
  change (Js.lookup "payload" _) with payload.
  change (Zod.refine Zod.number_ _ (VNumber (JsNumber.of_Z 1)))
    with (Returned (VNumber (JsNumber.of_Z 1))).
  change (Zod.enum X402Specs.schemes (VString "exact")) with (Returned (VString "exact")).
  unfold X402Specs.NetworkSchema, Zod.enum. rewrite Hn, U.
  cbn [negb orb Js.has_key String.eqb Ascii.eqb Bool.eqb andb].
  now destruct payload.
Qed.

Lemma decodePayment_envelope n payload :
  supported c n ->
  In n X402Specs.networks ->
  Json.plain payload ->
  Zod.union [Codec.ExactEvmPayloadSchema c; Codec.ExactSvmPayloadSchema c;
             X402Specs.ExactHlPayloadSchema] payload = Returned payload ->
  decodePayment c (Codec.safeBase64Encode c (Codec.JSON_text c (envelope n payload)))
  = Returned (envelope n payload).
Proof.
  intros S Hn P U. unfold decodePayment.
  rewrite base64, (json _ (envelope_plain n payload P)).
  change (Js.get (envelope n payload) "network") with (Returned (VString n)).
  change (VObject (set_prop "payload" (Js.own (envelope n payload) "payload")
                     (spread (envelope n payload))))
    with (envelope n payload).
  rewrite (PaymentPayloadSchema_envelope n payload Hn U).
  destruct (includes (Codec.SupportedEVMNetworks c) (VString n)) eqn:E1; [reflexivity|].
  destruct (includes (Codec.SupportedSVMNetworks c) (VString n)) eqn:E2; [reflexivity|].
  destruct (includes SupportedHLNetworks (VString n)) eqn:E3; [reflexivity|].
  exfalso. destruct S as [X|[X|X]]; apply includes_In in X; congruence.
Qed.

(** A payload of a family other than EVM is serialized as it is. *)
Lemma encodePayment_as_it_is n payload :
  ~ In n (Codec.SupportedEVMNetworks c) ->
  In n (Codec.SupportedSVMNetworks c) \/ In n SupportedHLNetworks ->
  Json.plain payload ->
  encodePayment c (envelope n payload)
  = Returned (Codec.safeBase64Encode c (Codec.JSON_text c (envelope n payload))).
Proof.
  intros Ne S P. unfold encodePayment.
  change (Js.get (envelope n payload) "network") with (Returned (VString n)).
  cbv beta iota.
  change (VObject (set_prop "payload" (Js.own (envelope n payload) "payload")
                     (spread (envelope n payload))))
    with (envelope n payload).
  destruct (includes (Codec.SupportedEVMNetworks c) (VString n)) eqn:E1;
    [apply includes_In in E1; contradiction|].
  rewrite (stringify_and_encode_plain _ (envelope_plain n payload P)).
  destruct (includes (Codec.SupportedSVMNetworks c) (VString n)) eqn:E2; [reflexivity|].
  destruct (includes SupportedHLNetworks (VString n)) eqn:E3; [reflexivity|].
  exfalso. destruct S as [X|X]; apply includes_In in X; congruence.
Qed.

Lemma evm_payload_plain payload payload' :
  evm_payload c payload payload' -> Json.plain payload'.
Proof.
  intros (props & fields & fields' & -> & Dp & La & Df & Po & T & -> & _).
  apply Json.plain_object; [now rewrite with_property_keys|].
  apply with_property_plain; [exact Dp | | exact Po].
  apply Json.plain_object; [|now apply (fields_in_text_plain fields)].
  now rewrite (fields_in_text_keys fields fields' T).
Qed.

(** A payload of the EVM family is serialized in text. *)
Lemma encodePayment_in_text n payload payload' :
  In n (Codec.SupportedEVMNetworks c) ->
  evm_payload c payload payload' ->
  encodePayment c (envelope n payload)
  = Returned (Codec.safeBase64Encode c (Codec.JSON_text c (envelope n payload'))).
Proof.
  intros He W. pose proof (evm_payload_plain _ _ W) as P.
  destruct W as (props & fields & fields' & -> & Dp & La & Df & Po & T & -> & _).
  unfold encodePayment.
  change (Js.get (envelope n (VObject props)) "network") with (Returned (VString n)).
  cbv beta iota. apply includes_In in He. rewrite He. cbv zeta.
  change (Js.own (envelope n (VObject props)) "payload") with (VObject props).
  cbn [Js.get Js.nullish Js.own spread]. rewrite La.
  unfold Object_entries. cbn [Js.nullish spread].
  rewrite (fields_in_text_converted fields fields' T).
  rewrite fromEntries_distinct by now rewrite (fields_in_text_keys fields fields' T).
  rewrite (set_prop_with_property "authorization")
    by (apply lookup_has_key; rewrite La; discriminate).
  match goal with
  | |- stringify_and_encode c ?v = _ =>
      change v with (envelope n (VObject (with_property "authorization" (VObject fields')
                                            props)))
  end.
  apply stringify_and_encode_plain. now apply envelope_plain.
Qed.

End Facts.

(** [ExactHlPayloadSchema] gives back a payload that has its fields. *)
Lemma ExactHlPayloadSchema_fixed fields signature q n :
  hl_signature signature ->
  JsNumber.as_integer q = Some n ->
  0 < n ->
  X402Specs.ExactHlPayloadSchema
    (VObject [("action", VObject fields); ("signature", signature);
              ("nonce", VNumber (Fin q))])
  = Returned (VObject [("action", VObject fields); ("signature", signature);
                       ("nonce", VNumber (Fin q))]).
Proof.
  intros S Eq Hn. unfold X402Specs.ExactHlPayloadSchema, Zod.object.
  cbn [Zod.object_fields].
  change (Js.lookup "action" _) with (VObject fields).
  change (Js.lookup "signature" _) with signature.
  change (Js.lookup "nonce" _) with (VNumber (Fin q)).
  cbn [Zod.record_any Zod.number_int_positive]. rewrite Eq.
  replace (0 <? n) with true by (symmetry; now apply Z.ltb_lt).
  destruct S as [(s & -> & Ns)|(r & s & v & ->)].
  - cbn [Zod.union Zod.string_min1].
    replace (JsString.is_empty s) with false by (destruct s; [congruence | reflexivity]).
    reflexivity.
  - reflexivity.
Qed.

Lemma hl_signature_plain signature : hl_signature signature -> Json.plain signature.
Proof.
  intros [(s & -> & _)|(r & s & v & ->)]; [constructor|].
  apply Json.plain_object.
  - repeat (apply List.NoDup_cons; [cbn; intuition discriminate|]). apply List.NoDup_nil.
  - repeat (apply List.Forall_cons; [cbn [snd]; constructor|]). apply List.Forall_nil.
Qed.

Lemma hl_payload_plain c payload : hl_payload c payload -> Json.plain payload.
Proof.
  intros (fields & signature & q & n & -> & Pa & S & _).
  apply Json.plain_object.
  - repeat (apply List.NoDup_cons; [cbn; intuition discriminate|]). apply List.NoDup_nil.
  - apply List.Forall_cons; [exact Pa|].
    apply List.Forall_cons; [now apply hl_signature_plain|].
    apply List.Forall_cons; [constructor | apply List.Forall_nil].
Qed.

(** What the schema of the payloads makes of a well-formed payload in
    text. *)
Lemma payload_schema_fixed c n payload payload' :
  well_formed c n payload payload' ->
  Zod.union [Codec.ExactEvmPayloadSchema c; Codec.ExactSvmPayloadSchema c;
             X402Specs.ExactHlPayloadSchema] payload' = Returned payload'.
Proof.
  intros (_ & [(_ & W)|[(_ & _ & (_ & [e R] & A) & ->)|(_ & _ & _ & W & ->)]]).
  - destruct W as (props & fields & fields' & _ & _ & _ & _ & _ & _ & _ & A).
    cbn [Zod.union]. now rewrite A.
  - cbn [Zod.union]. now rewrite R, A.
  - destruct W as (fields & signature & q & k & -> & _ & S & Eq & Hk & [e1 R1] & [e2 R2]).
    cbn [Zod.union]. rewrite R1, R2.
    now rewrite (ExactHlPayloadSchema_fixed fields signature q k S Eq Hk).
Qed.


(** *** The stand-in text gives back what it was written from *)

Lemma get_put_pos p r : Stand.get_pos (Stand.put_pos p ++ r) = Some (p, r).
Proof.
  induction p as [q IH|q IH|]; cbn [Stand.put_pos String.append Stand.get_pos];
    try rewrite IH; reflexivity.
Qed.

Lemma get_put_Z z r : Stand.get_Z (Stand.put_Z z ++ r) = Some (z, r).
Proof.
  destruct z as [|q|q]; cbn [Stand.put_Z String.append Stand.get_Z];
    try rewrite get_put_pos; reflexivity.
Qed.

Lemma take_app_exact s r : JsString.take (String.length s) (s ++ r) = s.
Proof. induction s as [|c t IH]; [reflexivity|]. cbn. now rewrite IH. Qed.

Lemma drop_app_exact s r : Stand.drop (String.length s) (s ++ r) = r.
Proof. induction s as [|c t IH]; [reflexivity|]. cbn. exact IH. Qed.

Lemma get_put_str s r : Stand.get_str (Stand.put_str s ++ r) = Some (s, r).
Proof.
  unfold Stand.get_str, Stand.put_str.
  rewrite StringFacts.append_assoc, get_put_Z, Nat2Z.id.
  rewrite StringFacts.length_app.
  replace (String.length s <=? String.length s + String.length r)%nat with true
    by (symmetry; apply Nat.leb_le; lia).
  now rewrite take_app_exact, drop_app_exact.
Qed.

Lemma parse_print :
  forall v, Json.plain v ->
  forall fuel r, (String.length (Stand.print v) <= fuel)%nat ->
                 Stand.parse fuel (Stand.print v ++ r) = Some (v, r).
Proof.
  fix IH 1. intros v P fuel r L.
  destruct fuel as [|f]; [destruct v as [| |[]|[]| | | |]; cbn in L; lia|].
  destruct v as [| |b|n|s| |props|items]; inversion P; subst.
  - reflexivity.
  - destruct b; reflexivity.
  - cbn [Stand.print String.append Stand.parse]. cbn [Ascii.eqb Bool.eqb].
    rewrite StringFacts.append_assoc, get_put_Z, get_put_pos. now destruct q.
  - cbn [Stand.print String.append Stand.parse]. cbn [Ascii.eqb Bool.eqb].
    now rewrite get_put_str.
  - match goal with H : Forall _ props |- _ => rename H into F end.
    cbn [Stand.print String.append Stand.parse]. cbn [Ascii.eqb Bool.eqb].
    rewrite StringFacts.append_assoc, get_put_Z, Nat2Z.id.
    cbn [Stand.print String.length] in L. rewrite StringFacts.length_app in L.
    set (go := fix go (ps : list (string * value)) : string :=
                 match ps with
                 | [] => ""
                 | (k, x) :: rest => Stand.put_str k ++ Stand.print x ++ go rest
                 end) in *.
    assert (Lg : (String.length (go props) <= f)%nat) by lia.
    assert (E : forall r0,
               (fix props (n : nat) (s : string)
                  : option (list (string * value) * string) :=
                  match n with
                  | O => Some ([], s)
                  | S m =>
                      match Stand.get_str s with
                      | Some (k, s1) =>
                          match Stand.parse f s1 with
                          | Some (x, s2) =>
                              match props m s2 with
                              | Some (rest, s3) => Some ((k, x) :: rest, s3)
                              | None => None
                              end
                          | None => None
                          end
                      | None => None
                      end
                  end) (length props) (go props ++ r0) = Some (props, r0)).
    { clear - IH F Lg. induction props as [|[k x] rest IHr]; intros r0; [reflexivity|].
      apply List.Forall_cons_iff in F as [Hx F].
      cbn [go length] in Lg |- *. fold go in Lg |- *.
      rewrite !StringFacts.length_app in Lg.
      rewrite !StringFacts.append_assoc, get_put_str.
      rewrite (IH x Hx f _ ltac:(lia)), (IHr F ltac:(lia)). reflexivity. }
    now rewrite E.
  - match goal with H : Forall _ items |- _ => rename H into F end.
    cbn [Stand.print String.append Stand.parse]. cbn [Ascii.eqb Bool.eqb].
    rewrite StringFacts.append_assoc, get_put_Z, Nat2Z.id.
    cbn [Stand.print String.length] in L. rewrite StringFacts.length_app in L.
    set (go := fix go (xs : list value) : string :=
                 match xs with
                 | [] => ""
                 | x :: rest => Stand.print x ++ go rest
                 end) in *.
    assert (Lg : (String.length (go items) <= f)%nat) by lia.
    assert (E : forall r0,
               (fix items (n : nat) (s : string) : option (list value * string) :=
                  match n with
                  | O => Some ([], s)
                  | S m =>
                      match Stand.parse f s with
                      | Some (x, s1) =>
                          match items m s1 with
                          | Some (rest, s2) => Some (x :: rest, s2)
                          | None => None
                          end
                      | None => None
                      end
                  end) (length items) (go items ++ r0) = Some (items, r0)).
    { clear - IH F Lg. induction items as [|x rest IHr]; intros r0; [reflexivity|].
      apply List.Forall_cons_iff in F as [Hx F].
      cbn [go length] in Lg |- *. fold go in Lg |- *.
      rewrite !StringFacts.length_app in Lg.
      rewrite !StringFacts.append_assoc.
      rewrite (IH x Hx f _ ltac:(lia)), (IHr F ltac:(lia)). reflexivity. }
    now rewrite E.
Qed.

Lemma stand_json : json_round_trip Stand.codec.
Proof.
  intros v P. cbn [Stand.codec Codec.JSON_parse Codec.JSON_text]. unfold Stand.read.
  rewrite <- (StringFacts.append_empty_r (Stand.print v)) at 2.
  rewrite (parse_print v P); [reflexivity | lia].
Qed.

Lemma stand_base64 : base64_round_trip Stand.codec.
Proof. intros s. reflexivity. Qed.


(** The text of a payload that holds no big integer is the payload. *)
Lemma well_formed_plain c n payload payload' :
  well_formed c n payload payload' -> Json.plain payload -> payload' = payload.
Proof.
  intros (_ & [(_ & W)|[(_ & _ & _ & ->)|(_ & _ & _ & _ & ->)]]) P;
    [|reflexivity|reflexivity].
  destruct W as (props & fields & fields' & -> & _ & La & _ & _ & T & -> & _).
  inversion P as [| | | |props' _ F|]; subst props'.
  assert (Pa : Json.plain (Js.lookup "authorization" props)).
  { apply plain_lookup; [exact F|]. rewrite La. discriminate. }
  rewrite La in Pa. inversion Pa as [| | | |fields0 _ Ff|]; subst fields0.
  rewrite (fields_in_text_same fields fields' T Ff), <- La.
  now rewrite with_property_same.
Qed.

Ltac plain_value :=
  repeat first
    [ apply Json.plain_null | apply Json.plain_bool | apply Json.plain_number
    | apply Json.plain_string
    | apply Json.plain_object
    | apply Json.plain_array
    | apply List.NoDup_nil
    | apply List.NoDup_cons; [cbn; intuition discriminate|]
    | apply List.Forall_nil
    | apply List.Forall_cons; cbn [snd] ].

(** The payments of [Stand] are well-formed; the text of the big integer
    2^53 + 1 is "9007199254740993". *)
Lemma evmPayment_well_formed :
  well_formed Stand.codec "base"
    (Stand.evmPayload (VBigInt (2 ^ 53 + 1)))
    (Stand.evmPayload (VString "9007199254740993")).
Proof.
  split; [cbn; tauto|]. left. split; [cbn; tauto|].
  eexists _, _, _.
  refine (conj eq_refl (conj _ (conj eq_refl (conj _ (conj _ (conj _ (conj eq_refl _))))))).
  - plain_value.
  - plain_value.
  - intros k v [E|[E|[]]] N; injection E as <- <-; [constructor | congruence].
  - repeat (apply List.Forall2_cons; [split; [reflexivity|]|]); try apply List.Forall2_nil;
      try (apply plain_in_text; constructor).
    apply big_integer_in_text. split; [discriminate|].
    split; [reflexivity|].
    split; [right; eexists _, _; split; [reflexivity | discriminate]|].
    vm_compute. reflexivity.
  - vm_compute. reflexivity.
Qed.

Lemma svmPayment_well_formed :
  well_formed Stand.codec "solana" Stand.svmPayload Stand.svmPayload.
Proof.
  split; [cbn; tauto|]. right. left.
  split; [cbn; intuition discriminate|]. split; [cbn; tauto|].
  split; [|reflexivity].
  split; [unfold Stand.svmPayload; plain_value|].
  split; [eexists; vm_compute; reflexivity | vm_compute; reflexivity].
Qed.

Lemma hlPayment_well_formed :
  well_formed Stand.codec "hyperliquid" Stand.hlPayload Stand.hlPayload.
Proof.
  split; [cbn; tauto|]. right. right.
  split; [cbn; intuition discriminate|]. split; [cbn; intuition discriminate|].
  split; [cbn; tauto|]. split; [|reflexivity].
  eexists _, _, _, _. split; [reflexivity|].
  split; [plain_value|]. split; [left; eexists; split; [reflexivity | discriminate]|].
  split; [vm_compute; reflexivity|]. split; [reflexivity|].
  split; eexists; vm_compute; reflexivity.
Qed.

(** What the client sends has a [user] next to the fields of the schema,
    and the schema does not keep it. *)
Lemma user_of_the_client_is_not_carried :
  exists header,
    encodePayment Stand.codec Stand.hlPaymentOfClient = Returned header
    /\ decodePayment Stand.codec header = Returned Stand.hlPayment.
Proof. eexists. split; vm_compute; reflexivity. Qed.

(** C1 fails where an amount is a big integer: [encodePayment] writes it
    as its decimal text and [decodePayment] gives the text back, so the
    payment with the amount 2^53 + 1 comes back with the string
    "9007199254740993" in its place, which is another value. *)
Lemma big_integers_come_back_as_text :
  exists header,
    encodePayment Stand.codec Stand.evmPayment = Returned header
    /\ decodePayment Stand.codec header
       = Returned (Stand.envelope "base" (Stand.evmPayload (VString "9007199254740993")))
    /\ Stand.envelope "base" (Stand.evmPayload (VString "9007199254740993"))
       <> Stand.evmPayment.
Proof.
  eexists. split; [vm_compute; reflexivity|]. split; [vm_compute; reflexivity|].
  discriminate.
Qed.

(** C1, amended.  For every well-formed payload of each of the three
    network families, [encodePayment] of the payment yields a header, and
    [decodePayment] of that header is the payment in text: the same
    payment, in which each big integer of an EVM authorization is the
    string of its decimal digits, of any length, from which [BigInt]
    reads the same integer.  A payload that holds no big integer comes
    back as it is.  A Hyperliquid payload has the fields of
    [ExactHlPayloadSchema].  It is assumed of the base64 helpers that
    decoding undoes encoding, and of JSON that parsing the text of a
    value gives the value.  The schemas of the EVM and the SVM payload
    are not among the sources: a well-formed payload of one of these
    families is one that the schema of its family gives back as it is,
    in text, and that a schema tried before refuses. *)
Theorem decode_encode_round_trip (c : Codec.t) (network : string)
    (payload payload' : value) :
  base64_round_trip c ->
  json_round_trip c ->
  well_formed c network payload payload' ->
  (exists header,
      encodePayment c (envelope network payload) = Returned header
      /\ decodePayment c header = Returned (envelope network payload'))
  /\ (Json.plain payload -> payload' = payload).
Proof.
  intros B J W. split; [|now apply (well_formed_plain c network)].
  pose proof (payload_schema_fixed c network payload payload' W) as U.
  destruct W as (Hn & [(He & W)|[(Ne & Hs & W & ->)|(Ne & Ns & Hh & W & ->)]]).
  - eexists. split; [exact (encodePayment_in_text c network payload payload' He W)|].
    apply decodePayment_envelope; try assumption; [now left|].
    now apply (evm_payload_plain c payload).
  - destruct W as (P & _). eexists. split.
    + apply encodePayment_as_it_is; [exact Ne | now left | exact P].
    + apply decodePayment_envelope; try assumption. right. now left.
  - pose proof (hl_payload_plain c payload W) as P. eexists. split.
    + apply encodePayment_as_it_is; [exact Ne | now right | exact P].
    + apply decodePayment_envelope; try assumption. right. now right.
Qed.

Lemma decode_encode_round_trip_witness :
  (exists header,
      encodePayment Stand.codec Stand.evmPayment = Returned header
      /\ decodePayment Stand.codec header
         = Returned (envelope "base" (Stand.evmPayload (VString "9007199254740993"))))
  /\ (exists header,
         encodePayment Stand.codec Stand.svmPayment = Returned header
         /\ decodePayment Stand.codec header = Returned Stand.svmPayment)
  /\ (exists header,
         encodePayment Stand.codec Stand.hlPayment = Returned header
         /\ decodePayment Stand.codec header = Returned Stand.hlPayment).
Proof.
  split; [|split].
  - exact (proj1 (decode_encode_round_trip Stand.codec "base" _ _
                    stand_base64 stand_json evmPayment_well_formed)).
  - exact (proj1 (decode_encode_round_trip Stand.codec "solana" _ _
                    stand_base64 stand_json svmPayment_well_formed)).
  - exact (proj1 (decode_encode_round_trip Stand.codec "hyperliquid" _ _
                    stand_base64 stand_json hlPayment_well_formed)).
Defined.

End CodecFacts.


(* ================================================================== *)
(** * The conversion of an amount rounds down *)
(* ================================================================== *)

Module AmountRounding.
Import Verify StringFacts AmountFacts DigitFacts.

(** The value of a string of digits lies below the power of ten of its
    length. *)
Lemma digits_value_bound s :
  JsString.all_chars JsString.is_digit s = true ->
  exists v, 0 <= v < 10 ^ Z.of_nat (String.length s)
            /\ forall acc, JsString.digits_from 10 acc s
                           = Some (acc * 10 ^ Z.of_nat (String.length s) + v).
Proof.
  induction s as [|c r IH]; intros H.
  - exists 0. split; [cbn; lia|]. intros acc. cbn. f_equal. lia.
  - cbn [JsString.all_chars] in H. apply andb_true_iff in H as [Hc Hr].
    destruct (IH Hr) as (v & Hv & E).
    destruct (digit_value_digit c Hc) as (d & Hd & Rd).
    exists (d * 10 ^ Z.of_nat (String.length r) + v).
    cbn [String.length]. rewrite Nat2Z.inj_succ, Z.pow_succ_r by lia.
    split; [nia|].
    intros acc. cbn [JsString.digits_from]. rewrite Hd, E.
    f_equal. change (Z.of_N 10) with 10. ring.
Qed.

Lemma take_split n s :
  exists r, s = JsString.take n s ++ r
            /\ String.length (JsString.take n s) = Nat.min n (String.length s).
Proof.
  revert s. induction n as [|n IH]; intros s.
  - exists s. split; reflexivity.
  - destruct s as [|c t]; [exists ""; split; reflexivity|].
    destruct (IH t) as (r & E & L). exists r. cbn [JsString.take String.append String.length].
    split; [now rewrite <- E | now rewrite L].
Qed.

Lemma zeros_value n acc :
  JsString.digits_from 10 acc (JsString.zeros n) = Some (acc * 10 ^ Z.of_nat n).
Proof.
  revert acc. induction n as [|n IH]; intros acc.
  - cbn. f_equal. lia.
  - cbn [JsString.zeros JsString.digits_from].
    change (JsString.digit_value 10 "0") with (Some 0). cbv beta iota.
    rewrite IH. f_equal. rewrite Nat2Z.inj_succ, Z.pow_succ_r by lia.
    change (Z.of_N 10) with 10. ring.
Qed.

(** [decimalToAtomic] rounds down: it yields the amount times
    [10 ^ decimals], cut to an integer. *)
Lemma decimalToAtomic_floor amount d :
  0 <= d ->
  is_decimal_literal (JsString.trim amount) = true ->
  exists a, decimalToAtomic amount (JsNumber.of_Z d) = Returned a
            /\ AmountValue.floor_atomic (JsString.trim amount) d = Some a.
Proof.
  intros Hd L.
  destruct (decimalToAtomic_spec amount d Hd L) as (a & Ea & Sa).
  exists a. split; [exact Ea|].
  unfold AmountSpec.atomic in Sa.
  unfold AmountValue.floor_atomic, AmountValue.digits, AmountValue.scale.
  destruct (decimal_literal_parts _ L) as (Nw & Dw & Df).
  set (parts := JsString.split "." (JsString.trim amount)) in *.
  set (whole := nth 0 parts "") in *. set (fraction := nth 1 parts "") in *.
  cbv zeta in Sa |- *.
  destruct (digits_value_bound whole Dw) as (wv & Bw & Ew).
  unfold JsString.parse_digits in Sa |- *.
  replace (JsString.is_empty (whole ++ fraction)) with false
    by (destruct whole; [congruence | reflexivity]).
  replace (JsString.is_empty
             (whole ++ AmountSpec.exact_fraction fraction (Z.to_nat d))) with false in Sa
    by (destruct whole; [congruence | reflexivity]).
  rewrite digits_from_app, Ew in Sa |- *.
  rewrite Z.mul_0_l, Z.add_0_l in Sa |- *.
  destruct (digits_value_bound fraction Df) as (fv & Bf & Ef). rewrite Ef.
  f_equal.
  set (k := Z.of_nat (String.length fraction)) in *.
  assert (P10 : forall e, 0 <= e -> 0 < 10 ^ e) by (intros; apply Z.pow_pos_nonneg; lia).
  unfold AmountSpec.exact_fraction in Sa.
  destruct (Z.le_gt_cases k d) as [Le|Gt].
  - (* the fraction is padded *)
    rewrite take_app_ge in Sa by lia.
    rewrite take_zeros in Sa by lia.
    rewrite digits_from_app, Ef, zeros_value in Sa. injection Sa as <-.
    replace (Z.of_nat (Z.to_nat d - String.length fraction)) with (d - k) by lia.
    replace (10 ^ d) with (10 ^ (d - k) * 10 ^ k)
      by (rewrite <- Z.pow_add_r by lia; f_equal; lia).
    rewrite Z.mul_assoc, Z.div_mul by (pose proof (P10 k); lia).
    reflexivity.
  - (* the fraction is cut *)
    rewrite take_app_le in Sa by lia.
    destruct (take_split (Z.to_nat d) fraction) as (rest & Es & Ls).
    set (kept := JsString.take (Z.to_nat d) fraction) in *.
    assert (Dk : JsString.all_chars JsString.is_digit kept = true)
      by now apply all_chars_take.
    assert (Dr : JsString.all_chars JsString.is_digit rest = true).
    { rewrite Es, all_chars_app in Df. now apply andb_true_iff in Df as [_ ?]. }
    destruct (digits_value_bound kept Dk) as (kv & Bk & Ek).
    destruct (digits_value_bound rest Dr) as (rv & Br & Er).
    rewrite Ek in Sa. injection Sa as <-.
    assert (Lk : Z.of_nat (String.length kept) = d) by lia.
    assert (Lr : Z.of_nat (String.length rest) = k - d).
    { pose proof (f_equal String.length Es) as Len. rewrite length_app in Len.
      unfold k. lia. }
    rewrite Lk in *. rewrite Lr in *.
    assert (Efv : wv * 10 ^ k + fv = (wv * 10 ^ d + kv) * 10 ^ (k - d) + rv).
    { specialize (Ef wv). rewrite Es, digits_from_app, Ek, Er in Ef.
      rewrite ?Lk, ?Lr in Ef. fold k in Ef. injection Ef as Ef. lia. }
    rewrite Efv.
    replace (10 ^ k) with (10 ^ d * 10 ^ (k - d))
      by (rewrite <- Z.pow_add_r by lia; f_equal; lia).
    rewrite (Z.mul_comm _ (10 ^ d)).
    rewrite Z.div_mul_cancel_l by (pose proof (P10 d); pose proof (P10 (k - d)); lia).
    symmetry. apply Z.div_unique with (r := rv); [lia|]. ring.
Qed.

End AmountRounding.

(* ================================================================== *)
(** * The amount the client writes *)
(* ================================================================== *)

Module FormatFacts.
Import Verify VerifySpec StringFacts AmountFacts DecimalsFacts DigitFacts AmountRounding.

Lemma rev_onto_app s acc : JsString.rev_onto s acc = JsString.rev s ++ acc.
Proof.
  unfold JsString.rev. revert acc. induction s as [|c r IH]; intros acc; [reflexivity|].
  cbn [JsString.rev_onto]. rewrite IH, (IH (String c "")), append_assoc. reflexivity.
Qed.

Lemma rev_app s t : JsString.rev (s ++ t) = JsString.rev t ++ JsString.rev s.
Proof.
  induction s as [|c r IH]; [cbn; now rewrite append_empty_r|].
  unfold JsString.rev in *. cbn [String.append JsString.rev_onto].
  rewrite (rev_onto_app (r ++ t)), (rev_onto_app r). unfold JsString.rev.
  rewrite IH, append_assoc. reflexivity.
Qed.

Lemma zeros_snoc n : JsString.zeros n ++ "0" = JsString.zeros (S n).
Proof. induction n as [|n IH]; [reflexivity|]. cbn [JsString.zeros String.append] in *. now rewrite IH. Qed.

Lemma rev_zeros n : JsString.rev (JsString.zeros n) = JsString.zeros n.
Proof.
  induction n as [|n IH]; [reflexivity|].
  change (JsString.zeros (S n)) with ("0" ++ JsString.zeros n) at 1.
  rewrite rev_app, IH. apply zeros_snoc.
Qed.

Lemma drop_while_zeros s :
  exists k, s = JsString.zeros k ++ JsString.drop_while (Ascii.eqb "0") s.
Proof.
  induction s as [|c r (k & IH)]; [exists 0%nat; reflexivity|].
  cbn [JsString.drop_while]. destruct (Ascii.eqb_spec "0" c) as [<-|N].
  - exists (S k). cbn [JsString.zeros String.append]. now rewrite <- IH.
  - exists 0%nat. reflexivity.
Qed.

(** What [replace(/0+$/, "")] takes away is a run of zeros at the end. *)
Lemma strip_trailing_zeros_spec s :
  exists k, s = Client.strip_trailing_zeros s ++ JsString.zeros k.
Proof.
  unfold Client.strip_trailing_zeros.
  destruct (drop_while_zeros (JsString.rev s)) as (k & E).
  exists k. rewrite <- (rev_involutive s) at 1. rewrite E at 1.
  now rewrite rev_app, rev_zeros.
Qed.

Lemma all_chars_weaken (p q : ascii -> bool) s :
  (forall c, p c = true -> q c = true) ->
  JsString.all_chars p s = true -> JsString.all_chars q s = true.
Proof.
  intros I. induction s as [|c r IH]; [reflexivity|]. cbn [JsString.all_chars].
  intros H. apply andb_true_iff in H as [Hc Hr]. now rewrite (I c Hc), (IH Hr).
Qed.

Lemma digits_free_of_point s :
  JsString.all_chars JsString.is_digit s = true -> free_of "." s = true.
Proof.
  apply all_chars_weaken. intros c.
  destruct c as [[] [] [] [] [] [] [] []]; try discriminate; reflexivity.
Qed.

(** A string without white space is its own [trim]. *)
Lemma trim_clean s :
  JsString.all_chars (fun c => negb (JsString.is_space c)) s = true ->
  JsString.trim s = s.
Proof.
  intros H. unfold JsString.trim.
  assert (D : forall t, JsString.all_chars (fun c => negb (JsString.is_space c)) t = true ->
                        JsString.drop_while JsString.is_space t = t).
  { intros [|c r]; [reflexivity|]. cbn [JsString.all_chars JsString.drop_while].
    intros K. apply andb_true_iff in K as [Kc _]. apply negb_true_iff in Kc.
    now rewrite Kc. }
  rewrite (D s H). rewrite D; [apply rev_involutive|].
  unfold JsString.rev. now apply all_chars_rev_onto.
Qed.

Lemma decimal_chars_clean whole fraction :
  JsString.all_chars JsString.is_digit whole = true ->
  JsString.all_chars JsString.is_digit fraction = true ->
  JsString.all_chars (fun c => negb (JsString.is_space c))
    (whole ++ "." ++ fraction) = true.
Proof.
  intros Hw Hf. rewrite !all_chars_app.
  assert (I : forall c, JsString.is_digit c = true -> negb (JsString.is_space c) = true).
  { intros c Hc. now rewrite (digit_not_space c Hc). }
  rewrite (all_chars_weaken _ _ _ I Hw), (all_chars_weaken _ _ _ I Hf). reflexivity.
Qed.

Lemma of_Z_positive d : 1 <= d -> JsNumber.le (JsNumber.of_Z d) (JsNumber.of_Z 0) = false.
Proof.
  intros H. unfold JsNumber.le, JsNumber.of_Z, Qle_bool, inject_Z. cbn [Qnum Qden].
  apply Z.leb_gt. lia.
Qed.

Lemma trunc_of_Z d : Client.trunc (inject_Z d) = d.
Proof. unfold Client.trunc, inject_Z. cbn [Qnum Qden]. apply Z.quot_1_r. Qed.

Lemma formatDecimalAmount_unfold amount a d :
  1 <= d ->
  BigInt_of_string amount = Returned a ->
  0 <= a ->
  Client.formatDecimalAmount amount (Some (JsNumber.of_Z d))
  = if a mod 10 ^ d =? 0
    then Returned (PaymentUtils.bigint_toString (a / 10 ^ d))
    else Returned
           (PaymentUtils.bigint_toString (a / 10 ^ d) ++ "."
            ++ Client.strip_trailing_zeros
                 (Client.padStart0 (PaymentUtils.bigint_toString (a mod 10 ^ d))
                    (Z.to_nat d))).
Proof.
  intros Hd Ea Ha.
  assert (P : 0 < 10 ^ d) by (apply Z.pow_pos_nonneg; lia).
  unfold Client.formatDecimalAmount, JsNumber.of_Z at 1.
  fold (JsNumber.of_Z d). rewrite (of_Z_positive d Hd), trunc_of_Z, Ea.
  now rewrite Z.quot_div_nonneg, Z.rem_mod_nonneg by lia.
Qed.

(** What [formatDecimalAmount] yields for an amount that is not
    negative and at least one decimal. *)
Lemma formatDecimalAmount_value amount a d :
  1 <= d ->
  BigInt_of_string amount = Returned a ->
  0 <= a ->
  let whole := PaymentUtils.bigint_toString (a / 10 ^ d) in
  if a mod 10 ^ d =? 0
  then Client.formatDecimalAmount amount (Some (JsNumber.of_Z d)) = Returned whole
  else exists fraction k,
         Client.formatDecimalAmount amount (Some (JsNumber.of_Z d))
         = Returned (whole ++ "." ++ fraction)
         /\ fraction <> ""
         /\ JsString.all_chars JsString.is_digit fraction = true
         /\ (String.length fraction + k)%nat = Z.to_nat d
         /\ JsString.digits_from 10 0 (fraction ++ JsString.zeros k) = Some (a mod 10 ^ d).
Proof.
  intros Hd Ea Ha. cbv zeta.
  assert (P : 0 < 10 ^ d) by (apply Z.pow_pos_nonneg; lia).
  rewrite (formatDecimalAmount_unfold amount a d Hd Ea Ha).
  destruct (Z.eqb_spec (a mod 10 ^ d) 0) as [R|R]; [reflexivity|].
  pose proof (Z.mod_pos_bound a (10 ^ d) P) as B.
  set (r := a mod 10 ^ d) in *.
  destruct (bigint_toString_digits r ltac:(lia)) as (Dr & Nr & Vr).
  pose proof (bigint_toString_length r d ltac:(lia)) as Lr.
  set (text := PaymentUtils.bigint_toString r) in *.
  set (padded := Client.padStart0 text (Z.to_nat d)).
  assert (Lp : String.length padded = Z.to_nat d).
  { unfold padded, Client.padStart0. rewrite length_app, length_zeros. lia. }
  assert (Dp : JsString.all_chars JsString.is_digit padded = true).
  { unfold padded, Client.padStart0. now rewrite all_chars_app, zeros_digits, Dr. }
  assert (Vp : JsString.digits_from 10 0 padded = Some r).
  { unfold padded, Client.padStart0. rewrite digits_from_app, zeros_value, Vr.
    f_equal. }
  destruct (strip_trailing_zeros_spec padded) as (k & Ek).
  set (fraction := Client.strip_trailing_zeros padded) in *.
  exists fraction, k.
  assert (Df : JsString.all_chars JsString.is_digit fraction = true).
  { rewrite Ek, all_chars_app in Dp. now apply andb_true_iff in Dp as [? _]. }
  split; [reflexivity|]. split; [|split; [exact Df|split]].
  - intros E. rewrite E in Ek. cbn [String.append] in Ek.
    rewrite Ek, zeros_value in Vp. injection Vp as Vp. lia.
  - pose proof (f_equal String.length Ek) as Len.
    rewrite length_app, length_zeros in Len. lia.
  - now rewrite <- Ek.
Qed.

(** What [formatDecimalAmount] writes, [decimalToAtomic] reads back. *)
Lemma format_then_atomic amount a d :
  1 <= d ->
  BigInt_of_string amount = Returned a ->
  0 <= a ->
  exists text,
    Client.formatDecimalAmount amount (Some (JsNumber.of_Z d)) = Returned text
    /\ text <> ""
    /\ is_decimal_literal (JsString.trim text) = true
    /\ decimalToAtomic text (JsNumber.of_Z d) = Returned a.
Proof.
  intros Hd Ea Ha.
  assert (P : 0 < 10 ^ d) by (apply Z.pow_pos_nonneg; lia).
  pose proof (formatDecimalAmount_value amount a d Hd Ea Ha) as F. cbv zeta in F.
  pose proof (Z.div_pos a (10 ^ d) Ha P) as Hw.
  destruct (bigint_toString_digits (a / 10 ^ d) Hw) as (Dw & Nw & Vw).
  set (whole := PaymentUtils.bigint_toString (a / 10 ^ d)) in *.
  pose proof (Z.div_mod a (10 ^ d) ltac:(lia)) as DM.
  assert (Atomic : forall text,
             is_decimal_literal (JsString.trim text) = true ->
             AmountSpec.atomic (JsString.trim text) (Z.to_nat d) = Some a ->
             decimalToAtomic text (JsNumber.of_Z d) = Returned a).
  { intros text L S.
    destruct (decimalToAtomic_spec text d ltac:(lia) L) as (a' & E & S').
    rewrite S in S'. now injection S' as <-. }
  destruct (Z.eqb_spec (a mod 10 ^ d) 0) as [R|R].
  - exists whole. split; [exact F|]. split; [exact Nw|].
    assert (T : JsString.trim whole = whole) by now apply trim_digits.
    assert (Sp : JsString.split "." whole = [whole])
      by (apply split_free; now apply digits_free_of_point).
    assert (L : is_decimal_literal (JsString.trim whole) = true).
    { rewrite T. unfold is_decimal_literal. rewrite Sp, Dw.
      destruct whole; [congruence | reflexivity]. }
    split; [exact L|]. apply Atomic; [exact L|].
    rewrite T. unfold AmountSpec.atomic. rewrite Sp. cbn [nth].
    unfold AmountSpec.exact_fraction. cbn [String.append].
    rewrite take_zeros by lia.
    unfold JsString.parse_digits.
    replace (JsString.is_empty (whole ++ JsString.zeros (Z.to_nat d))) with false
      by (destruct whole; [congruence | reflexivity]).
    rewrite digits_from_app, Vw, zeros_value. f_equal. rewrite Z2Nat.id by lia. lia.
  - destruct F as (fraction & k & F & Nf & Df & Lf & Vf).
    exists (whole ++ "." ++ fraction). split; [exact F|].
    split; [destruct whole; [congruence | discriminate]|].
    assert (T : JsString.trim (whole ++ "." ++ fraction) = whole ++ "." ++ fraction)
      by (apply trim_clean; now apply decimal_chars_clean).
    assert (Sp : JsString.split "." (whole ++ "." ++ fraction) = [whole; fraction]).
    { change (whole ++ "." ++ fraction) with (whole ++ String "." fraction).
      rewrite split_compound by now apply digits_free_of_point.
      now rewrite split_free by now apply digits_free_of_point. }
    assert (L : is_decimal_literal (JsString.trim (whole ++ "." ++ fraction)) = true).
    { rewrite T. unfold is_decimal_literal. rewrite Sp, Dw, Df.
      destruct whole; [congruence|]. destruct fraction; [congruence | reflexivity]. }
    split; [exact L|]. apply Atomic; [exact L|].
    rewrite T. unfold AmountSpec.atomic. rewrite Sp. cbn [nth].
    unfold AmountSpec.exact_fraction.
    rewrite take_app_ge by lia. rewrite take_zeros by lia.
    replace (Z.to_nat d - String.length fraction)%nat with k by lia.
    unfold JsString.parse_digits.
    replace (JsString.is_empty (whole ++ fraction ++ JsString.zeros k)) with false
      by (destruct whole; [congruence | reflexivity]).
    rewrite digits_from_app, Vw.
    destruct (digits_value_bound (fraction ++ JsString.zeros k)) as (v & _ & Ev).
    { now rewrite all_chars_app, Df, zeros_digits. }
    rewrite Ev. rewrite Ev in Vf. injection Vf as Vf.
    rewrite length_app, length_zeros. f_equal.
    replace (Z.of_nat (String.length fraction + k)) with d by lia. lia.
Qed.

End FormatFacts.

(* ================================================================== *)
(** * Amounts, and the clock of [verify] *)
(* ================================================================== *)

Module AmountExact.
Import Verify VerifySpec VerifyFacts StringFacts AmountFacts DecimalsFacts DigitFacts
  AmountRounding FormatFacts.

Lemma of_Z_not_negative d : 0 <= d -> JsNumber.lt (JsNumber.of_Z d) (JsNumber.of_Z 0) = false.
Proof.
  intros H. unfold JsNumber.lt, JsNumber.of_Z, Qle_bool, inject_Z. cbn [Qnum Qden].
  apply negb_false_iff. apply Z.leb_le. lia.
Qed.

(** X1.  [decimalToAtomic] rounds down.  For an amount that is a decimal
    literal, with the digits [n] and [k] of them after the point (the
    amount is [n / 10^k]), it returns the integer [a] with
    [a <= amount * 10^decimals < a + 1]: digits beyond [decimals] places
    are cut off, never rounded up. *)
Theorem decimalToAtomic_rounds_down (amount : string) (decimals : Z) :
  0 <= decimals ->
  is_decimal_literal (JsString.trim amount) = true ->
  exists n a,
    AmountValue.digits (JsString.trim amount) = Some n
    /\ decimalToAtomic amount (JsNumber.of_Z decimals) = Returned a
    /\ a = n * 10 ^ decimals / 10 ^ AmountValue.scale (JsString.trim amount)
    /\ a * 10 ^ AmountValue.scale (JsString.trim amount) <= n * 10 ^ decimals
       < (a + 1) * 10 ^ AmountValue.scale (JsString.trim amount).
Proof.
  intros Hd L.
  destruct (decimalToAtomic_floor amount decimals Hd L) as (a & Ea & Fa).
  unfold AmountValue.floor_atomic in Fa.
  destruct (AmountValue.digits (JsString.trim amount)) as [n|]; [|discriminate].
  injection Fa as Fa. exists n, a. repeat split; try congruence.
  - subst a. rewrite Z.mul_comm. apply Z.mul_div_le.
    apply Z.pow_pos_nonneg; [lia | unfold AmountValue.scale; lia].
  - subst a. set (p := 10 ^ AmountValue.scale (JsString.trim amount)).
    assert (P : 0 < p)
      by (apply Z.pow_pos_nonneg; [lia | unfold AmountValue.scale; lia]).
    pose proof (Z.mod_pos_bound (n * 10 ^ decimals) p P) as B.
    pose proof (Z.div_mod (n * 10 ^ decimals) p ltac:(lia)) as D.
    nia.
Qed.

Lemma decimalToAtomic_rounds_down_witness :
  exists n a,
    AmountValue.digits (JsString.trim " 0.9999999 ") = Some n
    /\ decimalToAtomic " 0.9999999 " (JsNumber.of_Z 6) = Returned a
    /\ a = n * 10 ^ 6 / 10 ^ AmountValue.scale (JsString.trim " 0.9999999 ")
    /\ a * 10 ^ AmountValue.scale (JsString.trim " 0.9999999 ") <= n * 10 ^ 6
       < (a + 1) * 10 ^ AmountValue.scale (JsString.trim " 0.9999999 ").
Proof.
  apply (decimalToAtomic_rounds_down " 0.9999999 " 6); [lia | reflexivity].
Defined.

(** X2.  With decimals that are known and not negative, the amount check
    never falls back on comparing numbers: an amount that is not a
    decimal literal (a sign, an exponent, a second point, no digits), a
    number of decimals that is not an integer, and a required amount
    that is no integer literal each make the check fail. *)
Theorem amount_check_fails_on_what_it_cannot_read (w : World)
    (amount required : string) (decimals : number) :
  JsNumber.lt decimals (JsNumber.of_Z 0) = false ->
  is_decimal_literal (JsString.trim amount) = false
  \/ (forall z, BigInt_of_number decimals <> Returned z)
  \/ JsString.toBigInt required = None ->
  ensureAmountMeetsRequirement w amount required (Some decimals) = false.
Proof.
  intros N H. unfold ensureAmountMeetsRequirement. rewrite N.
  unfold decimalToAtomic.
  destruct (is_decimal_literal (JsString.trim amount)) eqn:L; [|reflexivity].
  cbn [negb].
  destruct (BigInt_of_number decimals) as [d|e] eqn:B; [|reflexivity].
  destruct (BigInt_of_string (if JsString.is_empty _ then "0" else _)); [|reflexivity].
  destruct (BigInt_of_string (if JsString.is_empty _ then "0" else _)); [|reflexivity].
  destruct H as [H|[H|H]]; [discriminate | now destruct (H d) |].
  unfold BigInt_of_string. now rewrite H.
Qed.

Lemma amount_check_fails_on_what_it_cannot_read_witness :
  ensureAmountMeetsRequirement Sample.calm "1e9" "1000000" (Some (JsNumber.of_Z 6)) = false.
Proof.
  apply (amount_check_fails_on_what_it_cannot_read Sample.calm); [reflexivity|].
  left. reflexivity.
Defined.

(** X3.  What the client's [formatDecimalAmount] writes, the facilitator's
    [decimalToAtomic] reads back.  For a required amount that is an
    integer not below zero and at least one decimal, the formatted text
    converts to exactly the required amount, so it passes the amount
    check of [verify] against that requirement. *)
Theorem formatted_amount_reads_back (amount : string) (a decimals : Z) :
  1 <= decimals ->
  BigInt_of_string amount = Returned a ->
  0 <= a ->
  exists text,
    Client.formatDecimalAmount amount (Some (JsNumber.of_Z decimals)) = Returned text
    /\ decimalToAtomic text (JsNumber.of_Z decimals) = Returned a
    /\ forall w, ensureAmountMeetsRequirement w text amount
                   (Some (JsNumber.of_Z decimals)) = true.
Proof.
  intros Hd Ea Ha.
  destruct (format_then_atomic amount a decimals Hd Ea Ha) as (text & F & _ & _ & R).
  exists text. split; [exact F|]. split; [exact R|].
  intros w. unfold ensureAmountMeetsRequirement.
  rewrite (of_Z_not_negative decimals ltac:(lia)), R, Ea. apply Z.leb_refl.
Qed.

Lemma formatted_amount_reads_back_witness :
  exists text,
    Client.formatDecimalAmount "1234" (Some (JsNumber.of_Z 3)) = Returned text
    /\ decimalToAtomic text (JsNumber.of_Z 3) = Returned 1234
    /\ forall w, ensureAmountMeetsRequirement w text "1234" (Some (JsNumber.of_Z 3)) = true.
Proof.
  apply (formatted_amount_reads_back "1234" 1234 3); [lia | reflexivity | lia].
Defined.

End AmountExact.

Module VerifyClock.
Import Verify.

(** X4.  Freshness is monotone.  A payment that is within its time to
    live at some reading of the clock is within it at every earlier
    reading and under every longer time-out; so a payment once expired
    stays expired. *)
Theorem withinTtl_is_monotone (dateNow dateNow' : Z) (actionTime : value)
    (maxTimeoutSeconds maxTimeoutSeconds' : number) :
  withinTtl dateNow actionTime maxTimeoutSeconds = true ->
  dateNow' <= dateNow ->
  JsNumber.le maxTimeoutSeconds maxTimeoutSeconds' = true ->
  withinTtl dateNow' actionTime maxTimeoutSeconds' = true.
Proof.
  unfold withinTtl. destruct actionTime as [| | |[| | |t]| | | |]; try discriminate.
  intros W Hn Hm.
  apply Binary64.le_trans with (JsNumber.of_Z dateNow).
  { unfold JsNumber.of_Z. cbn [JsNumber.le]. apply Qle_bool_iff. now rewrite <- Zle_Qle. }
  eapply Binary64.le_trans; [exact W|].
  apply Binary64.add_mono. apply Binary64.mul_mono; [lia | exact Hm].
Qed.

Lemma withinTtl_is_monotone_witness :
  withinTtl 1699999990000 (VNumber (JsNumber.of_Z 1700000000000)) (JsNumber.of_Z 600) = true.
Proof.
  apply (withinTtl_is_monotone 1700000300000 1699999990000
           (VNumber (JsNumber.of_Z 1700000000000)) (JsNumber.of_Z 300) (JsNumber.of_Z 600));
    [reflexivity | lia | reflexivity].
Defined.

End VerifyClock.

(* ================================================================== *)
(** * The token-info cache *)
(* ================================================================== *)

Module CacheFacts.
Import Verify VerifySpec VerifyFacts SettleSpec CacheSpec.

Section Facts.
Variable w : World.

(** [fetchHyperliquidTokenInfo], case by case. *)
Lemma fetchHyperliquidTokenInfo_cases network tokenId s :
  Shared.fetchHyperliquidTokenInfo w network tokenId s
  = let s1 := logged (CallFetchTokenInfo network tokenId) s in
    if includes_network SupportedHLNetworks network then
      match hyperliquidTokenInfoCache s !! cacheKey network tokenId with
      | Some cached => (Returned cached, s1)
      | None =>
          let client := client_of network in
          let s2 := logged (RequestTokenDetails client tokenId) s1 in
          match tokenDetails w client tokenId with
          | Returned response =>
              (Returned (info_of response tokenId),
               {| hyperliquidTokenInfoCache :=
                    <[cacheKey network tokenId := info_of response tokenId]>
                      (hyperliquidTokenInfoCache s);
                  log := log s2 |})
          | Thrown e => (Thrown e, s2)
          end
      end
    else (Thrown ("Error: Unsupported Hyperliquid network: " ++ network), s1).
Proof.
  unfold Shared.fetchHyperliquidTokenInfo, bind, emit, lift, get_cache, set_cache, ret,
    Shared.createInfoClient, Shared.assertHyperliquidNetwork, cacheKey, client_of, logged.
  cbn [hyperliquidTokenInfoCache log].
  destruct (includes_network SupportedHLNetworks network); [|reflexivity].
  destruct (hyperliquidTokenInfoCache s !! _) as [info|]; [reflexivity|].
  destruct (tokenDetails w _ tokenId); reflexivity.
Qed.

End Facts.

(** The keys of the two networks never meet. *)
Lemma cacheKey_inj network network' tokenId tokenId' :
  In network SupportedHLNetworks -> In network' SupportedHLNetworks ->
  cacheKey network tokenId = cacheKey network' tokenId' ->
  network = network'
  /\ JsString.toLowerCase tokenId = JsString.toLowerCase tokenId'.
Proof.
  unfold cacheKey. cbn [SupportedHLNetworks In].
  intros [<-|[<-|[]]] [<-|[<-|[]]] E; cbn in E; try discriminate;
    (split; [reflexivity|]); now injection E.
Qed.

(** X5.  A token looked up once is served from the cache.  After a call
    of [fetchHyperliquidTokenInfo] that returned, every later call for
    the same network and a token id that differs at most in letter case
    returns the same entry without a request to the network, whatever
    the network would answer then. *)
Theorem token_info_is_served_from_cache (w w' : World)
    (network tokenId tokenId' : string) (s s1 : State) (info : HyperliquidTokenInfo.t) :
  Shared.fetchHyperliquidTokenInfo w network tokenId s = (Returned info, s1) ->
  JsString.toLowerCase tokenId' = JsString.toLowerCase tokenId ->
  Shared.fetchHyperliquidTokenInfo w' network tokenId' s1
  = (Returned info, logged (CallFetchTokenInfo network tokenId') s1).
Proof.
  intros F L. rewrite fetchHyperliquidTokenInfo_cases in F. cbv zeta in F.
  rewrite fetchHyperliquidTokenInfo_cases. cbv zeta.
  destruct (includes_network SupportedHLNetworks network); [|discriminate].
  assert (K : cacheKey network tokenId' = cacheKey network tokenId)
    by (unfold cacheKey; now rewrite L).
  rewrite K.
  destruct (hyperliquidTokenInfoCache s !! cacheKey network tokenId) as [cached|] eqn:C.
  - injection F as <- <-. cbn [logged hyperliquidTokenInfoCache]. now rewrite C.
  - destruct (tokenDetails w _ tokenId) as [response|e]; [|discriminate].
    injection F as <- <-. cbn [hyperliquidTokenInfoCache].
    now rewrite lookup_insert_eq.
Qed.

Lemma token_info_is_served_from_cache_witness :
  let first :=
    Shared.fetchHyperliquidTokenInfo Sample.calm "hyperliquid"
      "0xEB62EEE3685FC4C43992FEBCD9E75443" initial_state in
  exists info,
    fst first = Returned info
    /\ Shared.fetchHyperliquidTokenInfo Sample.calm "hyperliquid"
         "0xeb62eee3685fc4c43992febcd9e75443" (snd first)
       = (Returned info,
          logged (CallFetchTokenInfo "hyperliquid" "0xeb62eee3685fc4c43992febcd9e75443")
            (snd first)).
Proof.
  intros first.
  assert (E : fst first
              = Returned (info_of {| weiDecimals := JsNumber.of_Z 6; name := "USDC" |}
                            "0xEB62EEE3685FC4C43992FEBCD9E75443"))
    by (vm_compute; reflexivity).
  eexists. split; [exact E|].
  apply (token_info_is_served_from_cache Sample.calm Sample.calm "hyperliquid"
           "0xEB62EEE3685FC4C43992FEBCD9E75443" "0xeb62eee3685fc4c43992febcd9e75443"
           initial_state); [|reflexivity].
  rewrite <- E. apply surjective_pairing.
Defined.

(** X6.  What a call of [fetchHyperliquidTokenInfo] does to the cache.  A
    call that throws leaves it as it was, so a failed lookup is tried
    again the next time; an entry that is there is never replaced; and a
    call that returns leaves under its own key the entry it returned
    and touches the entry of no other token and of no other network. *)
Theorem token_cache_is_filled_in_place (w : World)
    (network tokenId : string) (s : State) :
  let result := Shared.fetchHyperliquidTokenInfo w network tokenId s in
  let cache := hyperliquidTokenInfoCache s in
  let cache' := hyperliquidTokenInfoCache (snd result) in
  (forall e, fst result = Thrown e -> cache' = cache)
  /\ (forall old, cache !! cacheKey network tokenId = Some old -> cache' = cache)
  /\ (forall info,
        fst result = Returned info ->
        cache' !! cacheKey network tokenId = Some info
        /\ forall network' tokenId',
            In network' SupportedHLNetworks ->
            network' <> network
            \/ JsString.toLowerCase tokenId' <> JsString.toLowerCase tokenId ->
            cache' !! cacheKey network' tokenId' = cache !! cacheKey network' tokenId').
Proof.
  cbv zeta. rewrite fetchHyperliquidTokenInfo_cases. cbv zeta.
  destruct (includes_network SupportedHLNetworks network) eqn:Nw.
  2: { split; [reflexivity|]. split; [reflexivity | discriminate]. }
  apply includes_network_In in Nw.
  destruct (hyperliquidTokenInfoCache s !! cacheKey network tokenId) as [cached|] eqn:C.
  - cbn [fst snd logged hyperliquidTokenInfoCache].
    split; [discriminate|]. split; [reflexivity|].
    intros info [= <-]. split; [exact C | reflexivity].
  - destruct (tokenDetails w _ tokenId) as [response|e];
      cbn [fst snd logged hyperliquidTokenInfoCache].
    + split; [discriminate|]. split; [discriminate|].
      intros info [= <-]. split; [apply lookup_insert_eq|].
      intros network' tokenId' Nw' D. apply lookup_insert_ne.
      intros E. destruct (cacheKey_inj _ _ _ _ Nw Nw' E) as [E1 E2].
      destruct D as [D|D]; congruence.
    + split; [reflexivity|]. split; [reflexivity | discriminate].
Qed.

Lemma token_cache_is_filled_in_place_witness :
  hyperliquidTokenInfoCache
    (snd (Shared.fetchHyperliquidTokenInfo Sample.calm "hyperliquid"
            "0xeb62eee3685fc4c43992febcd9e75443" initial_state))
  !! cacheKey "hyperliquid-testnet" "0xeb62eee3685fc4c43992febcd9e75443"
  = None.
Proof.
  pose proof (token_cache_is_filled_in_place Sample.calm "hyperliquid"
                "0xeb62eee3685fc4c43992febcd9e75443" initial_state) as (_ & _ & H).
  destruct (H _ eq_refl) as [_ K].
  rewrite (K "hyperliquid-testnet" "0xeb62eee3685fc4c43992febcd9e75443").
  - reflexivity.
  - left; reflexivity.
  - left; discriminate.
Defined.

End CacheFacts.

(* ================================================================== *)
(** * What [verify] reads and sends *)
(* ================================================================== *)

Module VerifyReads.
Import Verify VerifySpec VerifyFacts SettleSpec Traffic CacheSpec CacheFacts DecimalsFacts.

(** A payload that is there hands out its properties. *)
Lemma get_returns v k : Js.nullish v = false -> Js.get v k = Returned (Js.own v k).
Proof. intros H. unfold Js.get. now rewrite H. Qed.

Lemma get_throws v k : Js.nullish v = true -> exists e, Js.get v k = Thrown e.
Proof. intros H. unfold Js.get. rewrite H. eauto. Qed.

Lemma structured_not_nullish v :
  Js.truthy v = true -> Js.nullish v = false.
Proof. destruct v; try reflexivity; discriminate. Qed.

(** [extractPayer] reads the [user] and the [action] of the payload and
    nothing else. *)
Lemma extractPayer_reads payload payload' :
  Js.get payload "action" = Js.get payload' "action" ->
  Js.get payload "user" = Js.get payload' "user" ->
  extractPayer payload = extractPayer payload'.
Proof. intros A U. unfold extractPayer. now rewrite A, U. Qed.

Lemma extractPayer_of_action payload :
  Js.nullish payload = false ->
  Js.truthy (Js.own payload "action") = true ->
  exists payer, extractPayer payload = Returned payer.
Proof.
  intros N T. unfold extractPayer. rewrite !(get_returns _ _ N).
  rewrite (get_returns _ _ (structured_not_nullish _ T)).
  destruct (Js.own payload "user"); eauto.
Qed.

Section Facts.
Variable w : World.

(** Where [verify] leaves the state: as it was, or as [resolveDecimals]
    left it. *)
Lemma verify_state pp pr s :
  snd (verify w pp pr s) = s \/ snd (verify w pp pr s) = snd (resolveDecimals w pr s).
Proof.
  remember (snd (verify w pp pr s)) as st eqn:E. unfold verify in E.
  destruct (negb _ || negb _ || negb _ || negb _); [now left|].
  unfold bind at 1 in E. unfold lift at 1 in E.
  destruct (Js.get (PaymentPayload.payload pp) "action") as [action|e]; [|now left].
  cbv beta iota in E.
  destruct (negb (Js.truthy action) || negb (String.eqb (Js.typeof action) "object"));
    [now left|].
  destruct (string_or_undefined (Js.own action "destination")) as [d|]; [|now left].
  destruct (string_or_undefined (Js.own action "token")) as [t|]; [|now left].
  destruct (string_or_undefined (Js.own action "amount")) as [a|]; [|now left].
  destruct (JsString.is_empty d || JsString.is_empty t || JsString.is_empty a);
    [now left|].
  destruct (negb (String.eqb (JsString.toLowerCase d) _)); [now left|].
  destruct (negb (String.eqb t _)); [now left|].
  right. unfold bind at 1 in E.
  destruct (resolveDecimals w pr s) as [[decimals|e] s']; [|exact E].
  destruct (negb (ensureAmountMeetsRequirement _ _ _ _)); [exact E|].
  destruct (negb (withinTtl _ _ _)); [exact E|].
  unfold bind, lift, ret in E. destruct (extractPayer _); exact E.
Qed.

(** What one call of [fetchHyperliquidTokenInfo] adds to the log. *)
Lemma fetchHyperliquidTokenInfo_traffic network tokenId s :
  let s' := snd (Shared.fetchHyperliquidTokenInfo w network tokenId s) in
  added s s' [CallFetchTokenInfo network tokenId]
  \/ added s s' [RequestTokenDetails (client_of network) tokenId;
                 CallFetchTokenInfo network tokenId].
Proof.
  cbv zeta. rewrite fetchHyperliquidTokenInfo_cases. cbv zeta. unfold added.
  destruct (includes_network SupportedHLNetworks network); [|now left].
  destruct (hyperliquidTokenInfoCache s !! _); [now left|].
  destruct (tokenDetails w _ tokenId); now right.
Qed.

Lemma resolveDecimals_traffic pr s :
  let s' := snd (resolveDecimals w pr s) in
  let network := PaymentRequirements.network pr in
  s' = s
  \/ exists tokenId,
       added s s' [CallFetchTokenInfo network tokenId]
       \/ added s s' [RequestTokenDetails (client_of network) tokenId;
                      CallFetchTokenInfo network tokenId].
Proof.
  cbv zeta. unfold resolveDecimals.
  destruct (Js.get_opt _ _); try (now left);
    (destruct (extractHyperliquidTokenId _) as [t|]; [|now left];
     destruct (JsString.is_empty t); [now left|];
     right; exists t;
     pose proof (fetchHyperliquidTokenInfo_traffic (PaymentRequirements.network pr) t s) as T;
     cbv zeta in T; unfold try_catch, bind, ret;
     destruct (Shared.fetchHyperliquidTokenInfo w _ t s) as [[info|e] s1]; exact T).
Qed.

End Facts.

(** X7.  [verify] throws exactly when the pair passes the first check and
    the payment has no payload at all (it is [null] or [undefined]): the
    TypeError of reading [action] off it, the state untouched.  In every
    other case it returns a response. *)
Theorem verify_throws_only_without_payload (w : World)
    (pp : PaymentPayload.t) (pr : PaymentRequirements.t) (s : State) :
  (guard_passes pp pr -> Js.nullish (PaymentPayload.payload pp) = true ->
   exists e, verify w pp pr s = (Thrown e, s))
  /\ (~ guard_passes pp pr \/ Js.nullish (PaymentPayload.payload pp) = false ->
      exists resp s', verify w pp pr s = (Returned resp, s')).
Proof.
  split.
  - intros G N. unfold verify. rewrite (guard_passes_false _ _ G).
    unfold bind at 1. unfold lift at 1.
    destruct (get_throws _ "action" N) as (e & ->). eauto.
  - intros H. destruct (guard_passes_dec pp pr) as [G|G].
    2: { rewrite (verify_guard w _ _ s G). eauto. }
    destruct H as [H|N]; [contradiction|].
    unfold verify. rewrite (guard_passes_false _ _ G).
    unfold bind at 1. unfold lift at 1. rewrite (get_returns _ _ N). cbv beta iota.
    destruct (Js.truthy (Js.own (PaymentPayload.payload pp) "action")) eqn:T;
      [|unfold ret; eauto].
    cbn [negb orb].
    destruct (negb (String.eqb _ "object")); [unfold ret; eauto|].
    destruct (string_or_undefined _) as [d|]; [|unfold ret; eauto].
    destruct (string_or_undefined _) as [t|]; [|unfold ret; eauto].
    destruct (string_or_undefined _) as [a|]; [|unfold ret; eauto].
    destruct (JsString.is_empty d || JsString.is_empty t || JsString.is_empty a);
      [unfold ret; eauto|].
    destruct (negb (String.eqb (JsString.toLowerCase d) _)); [unfold ret; eauto|].
    destruct (negb (String.eqb t _)); [unfold ret; eauto|].
    unfold bind at 1.
    destruct (resolveDecimals_returns w pr s) as (decimals & s' & ->).
    destruct (negb (ensureAmountMeetsRequirement _ _ _ _)); [unfold ret; eauto|].
    destruct (negb (withinTtl _ _ _)); [unfold ret; eauto|].
    destruct (extractPayer_of_action _ N T) as (payer & P).
    unfold bind, lift, ret. rewrite P. eauto.
Qed.

Lemma verify_throws_only_without_payload_witness :
  (exists e,
      verify Sample.calm
        {| PaymentPayload.x402Version := JsNumber.of_Z 1;
           PaymentPayload.scheme := "exact";
           PaymentPayload.network := "hyperliquid";
           PaymentPayload.payload := VNull |}
        Sample.baseRequirements initial_state = (Thrown e, initial_state))
  /\ exists resp s',
      verify Sample.calm Sample.basePayload Sample.baseRequirements initial_state
      = (Returned resp, s').
Proof.
  split.
  - apply (proj1 (verify_throws_only_without_payload Sample.calm _ _ initial_state));
      [|reflexivity].
    repeat split; try reflexivity. right; left; reflexivity.
  - apply (proj2 (verify_throws_only_without_payload Sample.calm _ _ initial_state)).
    right. reflexivity.
Defined.

(** X8.  The answer of [verify] depends on the payment only through its
    scheme, its network, and the [action] and the [user] of its
    payload: the signature, the nonce and the protocol version are
    never read, whatever they are. *)
Theorem verify_reads_action_and_user_only (w : World)
    (pp pp' : PaymentPayload.t) (pr : PaymentRequirements.t) (s : State) :
  PaymentPayload.scheme pp = PaymentPayload.scheme pp' ->
  PaymentPayload.network pp = PaymentPayload.network pp' ->
  Js.get (PaymentPayload.payload pp) "action" = Js.get (PaymentPayload.payload pp') "action" ->
  Js.get (PaymentPayload.payload pp) "user" = Js.get (PaymentPayload.payload pp') "user" ->
  verify w pp pr s = verify w pp' pr s.
Proof.
  intros S N A U. unfold verify. rewrite S, N, A.
  now rewrite (extractPayer_reads _ _ A U).
Qed.

Lemma verify_reads_action_and_user_only_witness :
  verify Sample.calm Sample.basePayload Sample.baseRequirements initial_state
  = verify Sample.calm
      {| PaymentPayload.x402Version := JsNumber.of_Z 2;
         PaymentPayload.scheme := "exact";
         PaymentPayload.network := "hyperliquid";
         PaymentPayload.payload :=
           VObject [("action", Sample.action Sample.PAY_TO Sample.TOKEN "1" Sample.TIMESTAMP);
                    ("user", VString Sample.PAYER)] |}
      Sample.baseRequirements initial_state.
Proof.
  apply (verify_reads_action_and_user_only Sample.calm); reflexivity.
Defined.

(** X9.  [verify] only reads.  All it may send is one token-info lookup
    for the network of the requirements, answered from the cache or by
    one request to the network; it posts nothing to the exchange and asks
    for no account history and no transaction.  When the requirements
    state their decimals nothing is sent and the state stays as it was. *)
Theorem verify_sends_one_lookup_at_most (w : World)
    (pp : PaymentPayload.t) (pr : PaymentRequirements.t) (s : State) :
  let s' := snd (verify w pp pr s) in
  let network := PaymentRequirements.network pr in
  (s' = s
   \/ exists tokenId,
        added s s' [CallFetchTokenInfo network tokenId]
        \/ added s s' [RequestTokenDetails (client_of network) tokenId;
                       CallFetchTokenInfo network tokenId])
  /\ ((exists n, Js.get_opt (PaymentRequirements.extra pr) "decimals" = VNumber n) ->
      s' = s).
Proof.
  cbv zeta. pose proof (verify_state w pp pr s) as V. split.
  - destruct V as [V|V]; [now left|]. rewrite V. apply resolveDecimals_traffic.
  - intros (n & E). destruct V as [V|V]; [exact V|].
    rewrite V, (resolveDecimals_provided w pr s n E). reflexivity.
Qed.

Lemma verify_sends_one_lookup_at_most_witness :
  snd (verify Sample.calm Sample.basePayload Sample.baseRequirements initial_state)
  = initial_state.
Proof.
  apply (proj2 (verify_sends_one_lookup_at_most Sample.calm Sample.basePayload
                  Sample.baseRequirements initial_state)).
  exists (JsNumber.of_Z 6). reflexivity.
Defined.

End VerifyReads.

(* ================================================================== *)
(** * The client's decimals and token string *)
(* ================================================================== *)

Module ClientFacts.
Import Verify VerifySpec VerifyFacts StringFacts AmountFacts DecimalsFacts DigitFacts
  AmountRounding FormatFacts AmountExact VerifyReads ClientSpec.

Lemma includes_char s c :
  JsString.includes s (String c "") = negb (free_of c s).
Proof.
  unfold free_of. induction s as [|b r IH]; [reflexivity|].
  cbn [JsString.includes String.prefix JsString.all_chars].
  rewrite IH. destruct (Ascii.ascii_dec c b) as [<-|N].
  - rewrite Ascii.eqb_refl. now destruct r.
  - destruct (Ascii.eqb_spec b c) as [->|_]; [congruence|].
    cbn [negb andb orb]. reflexivity.
Qed.

Lemma includes_after s c t : JsString.includes (s ++ String c t) (String c "") = true.
Proof.
  induction s as [|b r IH].
  - cbn [String.append JsString.includes String.prefix].
    destruct (Ascii.ascii_dec c c); [now destruct t | congruence].
  - cbn [String.append JsString.includes]. rewrite IH. apply orb_true_r.
Qed.

Lemma includes_not_empty s c : JsString.includes s (String c "") = true -> s <> "".
Proof. intros H ->. discriminate. Qed.

Lemma toLowerCase_empty s : JsString.toLowerCase s = "" -> s = "".
Proof. destruct s; [reflexivity | discriminate]. Qed.

Lemma bigint_toString_not_empty z : PaymentUtils.bigint_toString z <> "".
Proof.
  unfold PaymentUtils.bigint_toString.
  destruct z as [|p|p]; cbn [Z.to_int NilZero.string_of_int]; try discriminate.
  unfold NilZero.string_of_uint.
  pose proof (DecimalPos.Unsigned.to_uint_nonnil p).
  destruct (Pos.to_uint p); try congruence; discriminate.
Qed.

Lemma formatDecimalAmount_not_empty amount decimals text :
  amount <> "" ->
  Client.formatDecimalAmount amount decimals = Returned text -> text <> "".
Proof.
  intros N. unfold Client.formatDecimalAmount.
  destruct decimals as [[| | |q]|]; try (now intros [= <-]).
  destruct (JsNumber.le _ _); [now intros [= <-]|].
  destruct (BigInt_of_string amount) as [a|]; [|discriminate].
  destruct (_ =? 0).
  - intros [= <-]. apply bigint_toString_not_empty.
  - intros [= <-]. pose proof (bigint_toString_not_empty (Z.quot a (10 ^ Client.trunc q))).
    destruct (PaymentUtils.bigint_toString _); [congruence | discriminate].
Qed.

Section Facts.
Variable w : World.

Lemma resolveHyperliquidDecimals_provided pr s n :
  Js.get_opt (PaymentRequirements.extra pr) "decimals" = VNumber n ->
  Client.resolveHyperliquidDecimals w pr s = (Returned (Some n), s).
Proof. intros H. unfold Client.resolveHyperliquidDecimals. now rewrite H. Qed.

Lemma resolveTokenString_compound pr s :
  JsString.includes (PaymentRequirements.asset pr) ":" = true ->
  Client.resolveTokenString w pr s = (Returned (PaymentRequirements.asset pr), s).
Proof. intros H. unfold Client.resolveTokenString. now rewrite H. Qed.

(** The token string of an asset without a colon. *)
Lemma resolveTokenString_bare pr s :
  JsString.includes (PaymentRequirements.asset pr) ":" = false ->
  exists symbol s',
    Client.resolveTokenString w pr s
    = (Returned (symbol ++ ":" ++ PaymentRequirements.asset pr), s')
    /\ symbol <> ""
    /\ (forall given,
          Js.get_opt (PaymentRequirements.extra pr) "tokenSymbol" = VString given ->
          given <> "" -> symbol = given /\ s' = s).
Proof.
  intros H. unfold Client.resolveTokenString. rewrite H.
  destruct (string_or_undefined _) as [given|] eqn:G.
  - destruct (JsString.is_empty given) eqn:Eg.
    + cbn [missing negb]. rewrite Eg. cbn [negb].
      unfold bind, try_catch, ret.
      destruct (Shared.fetchHyperliquidTokenInfo w _ _ s) as [[info|e] s1].
      * destruct (HyperliquidTokenInfo.symbol info) as [sym|]; cbn [missing].
        -- destruct (JsString.is_empty sym) eqn:Es; cbn [negb].
           ++ exists "TOKEN", s1. split; [reflexivity|]. split; [discriminate|].
              intros g Eg' Ng. unfold string_or_undefined in G. rewrite Eg' in G.
              injection G as <-. apply is_empty_true in Eg. congruence.
           ++ exists sym, s1. split; [reflexivity|].
              split; [intros ->; discriminate|].
              intros g Eg' Ng. unfold string_or_undefined in G. rewrite Eg' in G.
              injection G as <-. apply is_empty_true in Eg. congruence.
        -- exists "TOKEN", s1. split; [reflexivity|]. split; [discriminate|].
           intros g Eg' Ng. unfold string_or_undefined in G. rewrite Eg' in G.
           injection G as <-. apply is_empty_true in Eg. congruence.
      * exists "TOKEN", s1. split; [reflexivity|]. split; [discriminate|].
        intros g Eg' Ng. unfold string_or_undefined in G. rewrite Eg' in G.
        injection G as <-. apply is_empty_true in Eg. congruence.
    + cbn [missing negb]. rewrite Eg. cbn [negb]. unfold ret.
      exists given, s. split; [reflexivity|].
      split; [intros ->; discriminate|].
      intros g Eg' _. unfold string_or_undefined in G. rewrite Eg' in G.
      now injection G as <-.
  - cbn [missing negb]. unfold bind, try_catch, ret.
    assert (NG : forall g, Js.get_opt (PaymentRequirements.extra pr) "tokenSymbol"
                           <> VString g).
    { intros g Eg. unfold string_or_undefined in G. now rewrite Eg in G. }
    destruct (Shared.fetchHyperliquidTokenInfo w _ _ s) as [[info|e] s1].
    + destruct (HyperliquidTokenInfo.symbol info) as [sym|]; cbn [missing].
      * destruct (JsString.is_empty sym) eqn:Es; cbn [negb].
        -- exists "TOKEN", s1. split; [reflexivity|]. split; [discriminate|].
           intros g Eg' _. now destruct (NG g).
        -- exists sym, s1. split; [reflexivity|].
           split; [intros ->; discriminate|].
           intros g Eg' _. now destruct (NG g).
      * exists "TOKEN", s1. split; [reflexivity|]. split; [discriminate|].
        intros g Eg' _. now destruct (NG g).
    + exists "TOKEN", s1. split; [reflexivity|]. split; [discriminate|].
      intros g Eg' _. now destruct (NG g).
Qed.

End Facts.

(** X10.  For an asset without a colon the client and the facilitator
    resolve the decimals alike: [resolveHyperliquidDecimals] of the
    client and [resolveDecimals] of [verify] give the same result and
    leave the same state.  For an asset that does not start with [0x]
    (so for every [SYMBOL:0xHEX] id) the client looks nothing up and,
    unless the requirements state the decimals, has none. *)
Theorem client_and_verify_resolve_decimals_alike (w : World)
    (pr : PaymentRequirements.t) (s : State) :
  (JsString.includes (PaymentRequirements.asset pr) ":" = false ->
   Client.resolveHyperliquidDecimals w pr s = resolveDecimals w pr s)
  /\ (JsString.startsWith (PaymentRequirements.asset pr) "0x" = false ->
      (forall n, Js.get_opt (PaymentRequirements.extra pr) "decimals" <> VNumber n) ->
      Client.resolveHyperliquidDecimals w pr s = (Returned None, s)).
Proof.
  split.
  - intros H. rewrite includes_char in H. apply negb_false_iff in H.
    unfold Client.resolveHyperliquidDecimals, resolveDecimals, extractHyperliquidTokenId.
    rewrite (split_free _ _ H). cbn [length Nat.eqb nth_error].
    destruct (Js.get_opt _ _); try reflexivity;
      (destruct (PaymentRequirements.asset pr) as [|c r]; [reflexivity|];
       cbn [JsString.is_empty];
       destruct (JsString.startsWith (String c r) "0x"); reflexivity).
  - intros H N. unfold Client.resolveHyperliquidDecimals. rewrite H.
    destruct (Js.get_opt _ _) as [| | |n| | | |]; try reflexivity. now destruct (N n).
Qed.

Lemma client_and_verify_resolve_decimals_alike_witness :
  Client.resolveHyperliquidDecimals Sample.calm
    (Sample.requirements "0xc4bf3f870c0e9465323c0b6ed28096c2" VUndefined) initial_state
  = resolveDecimals Sample.calm
      (Sample.requirements "0xc4bf3f870c0e9465323c0b6ed28096c2" VUndefined) initial_state
  /\ Client.resolveHyperliquidDecimals Sample.calm
       (Sample.requirements Sample.TOKEN VUndefined) initial_state
     = (Returned None, initial_state).
Proof.
  split.
  - apply (proj1 (client_and_verify_resolve_decimals_alike Sample.calm _ initial_state)).
    reflexivity.
  - apply (proj2 (client_and_verify_resolve_decimals_alike Sample.calm _ initial_state));
      [reflexivity | discriminate].
Defined.

(** X11.  The token string the client puts into the action always has the
    form [SYMBOL:id], and [resolveTokenString] never throws.  An asset
    that contains a colon is taken as it is, nothing being looked up; an
    asset without one is prefixed with a symbol that is not empty (the
    [tokenSymbol] of the requirements when that is a non-empty string,
    nothing being looked up then), so the token string differs from the
    asset. *)
Theorem resolveTokenString_yields_compound_id (w : World)
    (pr : PaymentRequirements.t) (s : State) :
  let asset := PaymentRequirements.asset pr in
  exists token s',
    Client.resolveTokenString w pr s = (Returned token, s')
    /\ JsString.includes token ":" = true
    /\ (JsString.includes asset ":" = true -> token = asset /\ s' = s)
    /\ (JsString.includes asset ":" = false ->
        token <> asset
        /\ exists symbol,
            symbol <> "" /\ token = symbol ++ ":" ++ asset
            /\ forall given,
                Js.get_opt (PaymentRequirements.extra pr) "tokenSymbol" = VString given ->
                given <> "" -> symbol = given /\ s' = s).
Proof.
  cbv zeta. destruct (JsString.includes (PaymentRequirements.asset pr) ":") eqn:I.
  - exists (PaymentRequirements.asset pr), s.
    split; [now apply resolveTokenString_compound|]. split; [exact I|].
    split; [now split | discriminate].
  - destruct (resolveTokenString_bare w pr s I) as (symbol & s' & E & N & G).
    exists (symbol ++ ":" ++ PaymentRequirements.asset pr), s'.
    split; [exact E|]. split; [apply includes_after|]. split; [discriminate|].
    intros _. split.
    + intros Eq. pose proof (includes_after symbol ":" (PaymentRequirements.asset pr)) as J.
      change (symbol ++ String ":" (PaymentRequirements.asset pr))
        with (symbol ++ ":" ++ PaymentRequirements.asset pr) in J.
      rewrite Eq in J. congruence.
    + exists symbol. repeat split; try assumption; now apply (G given).
Qed.

Lemma resolveTokenString_yields_compound_id_witness :
  exists token s',
    Client.resolveTokenString Sample.calm
      (Sample.requirements "0xc4bf3f870c0e9465323c0b6ed28096c2"
         (VObject [("tokenSymbol", VString "PURR")])) initial_state
    = (Returned token, s')
    /\ token = "PURR:0xc4bf3f870c0e9465323c0b6ed28096c2" /\ s' = initial_state.
Proof.
  destruct (resolveTokenString_yields_compound_id Sample.calm
              (Sample.requirements "0xc4bf3f870c0e9465323c0b6ed28096c2"
                 (VObject [("tokenSymbol", VString "PURR")])) initial_state)
    as (token & s' & E & _ & _ & B).
  destruct (B eq_refl) as (_ & symbol & _ & T & G).
  destruct (G "PURR" eq_refl ltac:(discriminate)) as [-> ->].
  exists token, initial_state. repeat split; assumption.
Defined.

End ClientFacts.

(* ================================================================== *)
(** * From [createPaymentPayload] to [verify] *)
(* ================================================================== *)

Module ClientVerify.
Import Verify VerifySpec VerifyFacts StringFacts AmountFacts DecimalsFacts DigitFacts
  AmountRounding FormatFacts AmountExact VerifyReads ClientSpec ClientFacts.

Lemma getHyperliquidChain_returns network :
  In network SupportedHLNetworks ->
  exists chain, SharedConfig.getHyperliquidChain network = Returned chain.
Proof.
  cbn [SupportedHLNetworks In]. intros [<-|[<-|[]]]; eexists; reflexivity.
Qed.

(** What [createPaymentPayload] hands out, step by step. *)
Lemma createPaymentPayload_returned sdk w wallet version pr s pp s1 :
  Client.createPaymentPayload sdk w wallet version pr s = (Returned pp, s1) ->
  exists address decimals s0 chain token amount request action signature,
    Client.getWalletAddress wallet = Returned address
    /\ Client.resolveHyperliquidDecimals w pr s = (Returned decimals, s0)
    /\ Client.resolveTokenString w pr s0 = (Returned token, s1)
    /\ Client.formatDecimalAmount (PaymentRequirements.maxAmountRequired pr) decimals
       = Returned amount
    /\ Sdk.parseSpotSendRequest sdk
         (Client.spotSendRequest sdk chain (PaymentRequirements.payTo pr) token amount
            (JsNumber.of_Z (now w)))
       = Returned request
    /\ Js.get request "action" = Returned action
    /\ pp = {| PaymentPayload.x402Version := version;
               PaymentPayload.scheme := PaymentRequirements.scheme pr;
               PaymentPayload.network := PaymentRequirements.network pr;
               PaymentPayload.payload :=
                 VObject [("action", action);
                          ("signature", signature);
                          ("nonce", VNumber (JsNumber.of_Z (now w)));
                          ("user", VString address)] |}.
Proof.
  unfold Client.createPaymentPayload.
  unfold bind at 1. unfold lift at 1.
  destruct (Client.getWalletAddress wallet) as [address|e] eqn:E1; [|discriminate].
  unfold bind at 1.
  destruct (Client.resolveHyperliquidDecimals w pr s) as [[decimals|e] s0] eqn:E2;
    [|discriminate].
  unfold bind at 1. unfold lift at 1.
  destruct (SharedConfig.getHyperliquidChain _) as [chain|e]; [|discriminate].
  unfold bind at 1.
  destruct (Client.resolveTokenString w pr s0) as [[token|e] s1'] eqn:E3; [|discriminate].
  unfold bind at 1. unfold lift at 1.
  destruct (Client.formatDecimalAmount _ decimals) as [amount|e] eqn:E4; [|discriminate].
  unfold bind at 1. unfold lift at 1.
  destruct (Sdk.parseSpotSendRequest sdk _) as [request|e] eqn:E5; [|discriminate].
  unfold bind at 1. unfold lift at 1.
  destruct (Js.get request "action") as [action|e] eqn:E6; [|discriminate].
  unfold bind at 1. unfold lift at 1.
  destruct (Sdk.signUserSignedAction sdk wallet action) as [signature|e]; [|discriminate].
  unfold ret. intros [= <- <-].
  exists address, decimals, s0, chain, token, amount, request, action, signature.
  repeat split; assumption.
Qed.

(** The action of a payment the client made, as [verify] reads it. *)
Lemma created_payment_carries sdk w wallet version pr s pp s1 :
  faithful sdk ->
  PaymentRequirements.payTo pr <> "" ->
  Client.createPaymentPayload sdk w wallet version pr s = (Returned pp, s1) ->
  exists address decimals s0 action destination token amount,
    Client.getWalletAddress wallet = Returned address
    /\ Client.resolveHyperliquidDecimals w pr s = (Returned decimals, s0)
    /\ Client.resolveTokenString w pr s0 = (Returned token, s1)
    /\ Client.formatDecimalAmount (PaymentRequirements.maxAmountRequired pr) decimals
       = Returned amount
    /\ (token <> "" -> amount <> "" -> carries pp action destination token amount)
    /\ JsString.toLowerCase destination
       = JsString.toLowerCase (PaymentRequirements.payTo pr)
    /\ Js.own action "time" = VNumber (JsNumber.of_Z (now w))
    /\ extractPayer (PaymentPayload.payload pp) = Returned (Some address)
    /\ PaymentPayload.scheme pp = PaymentRequirements.scheme pr
    /\ PaymentPayload.network pp = PaymentRequirements.network pr.
Proof.
  intros F Np C.
  destruct (createPaymentPayload_returned _ _ _ _ _ _ _ _ C)
    as (address & decimals & s0 & chain & token & amount & request & action & signature
        & Ew & Ed & Et & Ea & Ep & Eg & ->).
  destruct (F _ _ Ep) as (Kt & Ka & Km & Kd).
  assert (Ac : Js.own request "action" = action).
  { unfold Js.get in Eg. destruct (Js.nullish request); [discriminate|]. now injection Eg. }
  rewrite Ac in Kt, Ka, Km, Kd.
  change (Js.own (Js.own (Client.spotSendRequest sdk chain (PaymentRequirements.payTo pr)
                            token amount (JsNumber.of_Z (now w))) "action") "token")
    with (VString token) in Kt.
  change (Js.own (Js.own (Client.spotSendRequest sdk chain (PaymentRequirements.payTo pr)
                            token amount (JsNumber.of_Z (now w))) "action") "amount")
    with (VString amount) in Ka.
  change (Js.own (Js.own (Client.spotSendRequest sdk chain (PaymentRequirements.payTo pr)
                            token amount (JsNumber.of_Z (now w))) "action") "time")
    with (VNumber (JsNumber.of_Z (now w))) in Km.
  destruct (Kd (PaymentRequirements.payTo pr) eq_refl) as (destination & Ed' & El).
  exists address, decimals, s0, action, destination, token, amount.
  repeat split; try assumption; try reflexivity.
  intros E. rewrite E in El. symmetry in El. apply toLowerCase_empty in El. congruence.
Qed.

(** A number of decimals that is a whole number, however it is
    written. *)
Lemma as_integer_value q z :
  JsNumber.as_integer q = Some z -> Qnum q = z * Zpos (Qden q).
Proof.
  unfold JsNumber.as_integer.
  destruct (Qnum q mod Z.pos (Qden q) =? 0) eqn:E; [|discriminate].
  apply Z.eqb_eq in E. intros [= <-].
  rewrite Z.mul_comm. apply Z.div_exact; [discriminate | exact E].
Qed.

Lemma as_integer_of_Z z : JsNumber.as_integer (inject_Z z) = Some z.
Proof.
  unfold JsNumber.as_integer, inject_Z. cbn [Qnum Qden].
  now rewrite Z.mod_1_r, Z.div_1_r.
Qed.

Lemma formatDecimalAmount_whole amount q z :
  JsNumber.as_integer q = Some z ->
  Client.formatDecimalAmount amount (Some (Fin q))
  = Client.formatDecimalAmount amount (Some (JsNumber.of_Z z)).
Proof.
  intros H. apply as_integer_value in H.
  unfold Client.formatDecimalAmount, JsNumber.of_Z.
  assert (T : Client.trunc q = z).
  { unfold Client.trunc. rewrite H. apply Z.quot_mul. discriminate. }
  rewrite T, trunc_of_Z.
  assert (L : JsNumber.le (Fin q) (Fin (inject_Z 0))
              = JsNumber.le (Fin (inject_Z z)) (Fin (inject_Z 0))).
  { cbn [JsNumber.le]. unfold Qle_bool, inject_Z. cbn [Qnum Qden]. rewrite H.
    apply eq_true_iff_eq. rewrite !Z.leb_le. nia. }
  unfold JsNumber.of_Z in L. now rewrite L.
Qed.

Lemma ensureAmountMeetsRequirement_whole w amount required q z :
  JsNumber.as_integer q = Some z ->
  ensureAmountMeetsRequirement w amount required (Some (Fin q))
  = ensureAmountMeetsRequirement w amount required (Some (JsNumber.of_Z z)).
Proof.
  intros H. unfold ensureAmountMeetsRequirement, decimalToAtomic, JsNumber.of_Z.
  cbn [BigInt_of_number]. rewrite H, as_integer_of_Z.
  apply as_integer_value in H.
  assert (L : JsNumber.lt (Fin q) (Fin (inject_Z 0))
              = JsNumber.lt (Fin (inject_Z z)) (Fin (inject_Z 0))).
  { cbn [JsNumber.lt]. unfold Qle_bool, inject_Z. cbn [Qnum Qden]. rewrite H.
    f_equal. apply eq_true_iff_eq. rewrite !Z.leb_le. nia. }
  now rewrite L.
Qed.

Lemma formatDecimalAmount_positive amount q text :
  (0 < q)%Q ->
  Client.formatDecimalAmount amount (Some (Fin q)) = Returned text -> text <> "".
Proof.
  intros P. unfold Client.formatDecimalAmount.
  assert (L : JsNumber.le (Fin q) (JsNumber.of_Z 0) = false).
  { unfold JsNumber.of_Z. cbn [JsNumber.le].
    destruct (Qle_bool q (inject_Z 0)) eqn:E; [|reflexivity].
    apply Qle_bool_iff in E. exfalso. exact (Qlt_not_le _ _ P E). }
  rewrite L. destruct (BigInt_of_string amount) as [a|]; [|discriminate].
  destruct (_ =? 0).
  - intros [= <-]. apply bigint_toString_not_empty.
  - intros [= <-]. pose proof (bigint_toString_not_empty (Z.quot a (10 ^ Client.trunc q))).
    destruct (PaymentUtils.bigint_toString _); [congruence | discriminate].
Qed.

(** X12.  What [verify] makes of a payment the client made for
    requirements that state a compound asset and decimals of at least
    one.  With a parser of the SDK that hands on the transfer, a
    required amount that is an integer not below zero and a non-empty
    [payTo], and the clock of the facilitator not past the time of
    creation plus [maxTimeoutSeconds]: when the decimals are a whole
    number, whatever [createPaymentPayload] returns passes every check
    and the payer reported is the address of the wallet; when they are
    not, the client has cut them to a whole number, [verify] cannot
    convert them, and it refuses the payment for its amount. *)
Theorem created_payment_is_accepted (sdk : Sdk.t) (w w' : World)
    (wallet : value) (version : number) (pr : PaymentRequirements.t)
    (decimals : Q) (a : Z) (timeout : Q) (pp : PaymentPayload.t) (s s1 s2 : State) :
  faithful sdk ->
  PaymentRequirements.scheme pr = SCHEME ->
  In (PaymentRequirements.network pr) SupportedHLNetworks ->
  PaymentRequirements.payTo pr <> "" ->
  JsString.includes (PaymentRequirements.asset pr) ":" = true ->
  Js.get_opt (PaymentRequirements.extra pr) "decimals" = VNumber (Fin decimals) ->
  (1 <= decimals)%Q ->
  BigInt_of_string (PaymentRequirements.maxAmountRequired pr) = Returned a ->
  0 <= a ->
  PaymentRequirements.maxTimeoutSeconds pr = Fin timeout ->
  Client.createPaymentPayload sdk w wallet version pr s = (Returned pp, s1) ->
  clock_reading (now w) ->
  clock_reading (now w') ->
  (inject_Z (now w') <= inject_Z (now w) + timeout * inject_Z 1000)%Q ->
  exists address,
    Client.getWalletAddress wallet = Returned address
    /\ verify w' pp pr s2
       = (Returned (match JsNumber.as_integer decimals with
                    | Some _ => accept (Some address)
                    | None => reject invalid_exact_hl_payload_amount_mismatch
                    end), s2).
Proof.
  intros F Sc Nw Np Ic Dc Hd Ea Ha Tm C Rw Rw' Clock.
  destruct (created_payment_carries _ _ _ _ _ _ _ _ F Np C)
    as (address & d & s0 & action & destination & token & amount
        & Ew & Ed & Et & Ef & Ca & El & Tk & Ep & Sp & Npp).
  rewrite (resolveHyperliquidDecimals_provided w pr s _ Dc) in Ed.
  injection Ed as <- <-.
  rewrite (resolveTokenString_compound w pr s Ic) in Et. injection Et as <- _.
  assert (Pd : (0 < decimals)%Q) by (eapply Qlt_le_trans; [|exact Hd]; reflexivity).
  specialize (Ca (includes_not_empty _ _ Ic) (formatDecimalAmount_positive _ _ _ Pd Ef)).
  exists address. split; [exact Ew|].
  assert (G : guard_passes pp pr).
  { unfold guard_passes. rewrite Sp, Npp, Sc. repeat split. exact Nw. }
  rewrite (verify_verdict w' pp pr action destination _ _ s2 G Ca).
  unfold verdict. rewrite El, !String.eqb_refl. cbn [negb].
  rewrite (resolveDecimals_provided w' pr s2 _ Dc).
  destruct (JsNumber.as_integer decimals) as [z|] eqn:Ez.
  - assert (Hz : 1 <= z).
    { pose proof (as_integer_value _ _ Ez) as V.
      unfold Qle in Hd. cbn [Qnum Qden] in Hd. rewrite V in Hd. nia. }
    rewrite (formatDecimalAmount_whole _ _ _ Ez) in Ef.
    destruct (format_then_atomic _ a z Hz Ea Ha) as (text & Ft & _ & _ & Rt).
    rewrite Ft in Ef. injection Ef as <-.
    rewrite (ensureAmountMeetsRequirement_whole w' _ _ _ _ Ez).
    assert (Ok : ensureAmountMeetsRequirement w' text
                   (PaymentRequirements.maxAmountRequired pr)
                   (Some (JsNumber.of_Z z)) = true).
    { unfold ensureAmountMeetsRequirement.
      rewrite (of_Z_not_negative z ltac:(lia)), Rt, Ea. apply Z.leb_refl. }
    rewrite Ok. cbn [negb]. rewrite Tk, Tm.
    rewrite (TtlFacts.withinTtl_between_readings _ _ _ Rw Rw' Clock).
    cbn [negb]. now rewrite Ep.
  - assert (No : ensureAmountMeetsRequirement w' amount
                   (PaymentRequirements.maxAmountRequired pr)
                   (Some (Fin decimals)) = false).
    { unfold ensureAmountMeetsRequirement, decimalToAtomic. cbn [BigInt_of_number].
      rewrite Ez.
      assert (L : JsNumber.lt (Fin decimals) (JsNumber.of_Z 0) = false).
      { unfold JsNumber.of_Z. cbn [JsNumber.lt]. apply negb_false_iff.
        apply Qle_bool_iff. now apply Qlt_le_weak. }
      rewrite L. now destruct (negb _). }
    rewrite No. reflexivity.
Qed.

Lemma created_payment_is_accepted_witness :
  (exists pp s1,
      Client.createPaymentPayload mock Sample.calm (wallet Sample.PAYER) (JsNumber.of_Z 1)
        Sample.baseRequirements initial_state = (Returned pp, s1)
      /\ exists address,
          Client.getWalletAddress (wallet Sample.PAYER) = Returned address
          /\ verify Sample.calm pp Sample.baseRequirements initial_state
             = (Returned (accept (Some address)), initial_state))
  /\ (exists pp s1,
         Client.createPaymentPayload mock Sample.calm (wallet Sample.PAYER) (JsNumber.of_Z 1)
           (Sample.requirements Sample.TOKEN (VObject [("decimals", VNumber (Fin (5 # 2)))]))
           initial_state = (Returned pp, s1)
         /\ exists address,
             Client.getWalletAddress (wallet Sample.PAYER) = Returned address
             /\ verify Sample.calm pp
                  (Sample.requirements Sample.TOKEN
                     (VObject [("decimals", VNumber (Fin (5 # 2)))]))
                  initial_state
                = (Returned (reject invalid_exact_hl_payload_amount_mismatch),
                   initial_state)).
Proof.
  assert (F : faithful mock).
  { intros request request' [= <-]. repeat split; try reflexivity. eauto. }
  assert (R : clock_reading (now Sample.calm)) by (split; vm_compute; discriminate).
  split.
  - eexists. eexists. split; [vm_compute; reflexivity|].
    apply (created_payment_is_accepted mock Sample.calm Sample.calm (wallet Sample.PAYER)
             (JsNumber.of_Z 1) Sample.baseRequirements (inject_Z 6) 1000000 (inject_Z 300)
             _ initial_state initial_state initial_state F);
      first [ exact R | lia | right; left; reflexivity | discriminate
            | vm_compute; reflexivity ].
  - eexists. eexists. split; [vm_compute; reflexivity|].
    apply (created_payment_is_accepted mock Sample.calm Sample.calm (wallet Sample.PAYER)
             (JsNumber.of_Z 1)
             (Sample.requirements Sample.TOKEN (VObject [("decimals", VNumber (Fin (5 # 2)))]))
             (5 # 2) 1000000 (inject_Z 300)
             _ initial_state initial_state initial_state F);
      first [ exact R | lia | right; left; reflexivity | discriminate
            | vm_compute; reflexivity ].
Defined.

(** X13.  A payment the client makes for requirements whose asset has no
    colon (a bare token id) is refused by [verify].  The client puts
    [SYMBOL:id] into the action, [verify] compares the token with the
    asset as strings, and so, with a parser of the SDK that hands on
    the transfer, the answer is the asset mismatch. *)
Theorem created_payment_for_bare_asset_is_refused (sdk : Sdk.t) (w w' : World)
    (wallet : value) (version : number) (pr : PaymentRequirements.t)
    (pp : PaymentPayload.t) (s s1 s2 : State) :
  faithful sdk ->
  PaymentRequirements.scheme pr = SCHEME ->
  In (PaymentRequirements.network pr) SupportedHLNetworks ->
  PaymentRequirements.payTo pr <> "" ->
  PaymentRequirements.maxAmountRequired pr <> "" ->
  JsString.includes (PaymentRequirements.asset pr) ":" = false ->
  Client.createPaymentPayload sdk w wallet version pr s = (Returned pp, s1) ->
  verify w' pp pr s2 = (Returned (reject invalid_exact_hl_payload_asset_mismatch), s2).
Proof.
  intros F Sc Nw Np Na Ib C.
  destruct (created_payment_carries _ _ _ _ _ _ _ _ F Np C)
    as (address & d & s0 & action & destination & token & amount
        & Ew & Ed & Et & Ef & Ca & El & Tk & Ep & Sp & Npp).
  destruct (resolveTokenString_bare w pr s0 Ib) as (symbol & s1' & Et' & Ns & _).
  rewrite Et' in Et. injection Et as <- _.
  assert (Nt : symbol ++ ":" ++ PaymentRequirements.asset pr <> "").
  { destruct symbol; [congruence | discriminate]. }
  specialize (Ca Nt (formatDecimalAmount_not_empty _ _ _ Na Ef)).
  assert (G : guard_passes pp pr).
  { unfold guard_passes. rewrite Sp, Npp, Sc. repeat split. exact Nw. }
  rewrite (verify_verdict w' pp pr action destination _ _ s2 G Ca).
  unfold verdict. rewrite El, String.eqb_refl. cbn [negb].
  match goal with
  | |- context [String.eqb ?x ?y] => destruct (String.eqb_spec x y) as [E|_]
  end; [|reflexivity].
  pose proof (includes_after symbol ":" (PaymentRequirements.asset pr)) as J.
  rewrite E in J. congruence.
Qed.

Lemma created_payment_for_bare_asset_is_refused_witness :
  exists pp s1,
    Client.createPaymentPayload mock Sample.calm (wallet Sample.PAYER) (JsNumber.of_Z 1)
      (Sample.requirements "0xc4bf3f870c0e9465323c0b6ed28096c2" VUndefined) initial_state
    = (Returned pp, s1)
    /\ verify Sample.calm pp
         (Sample.requirements "0xc4bf3f870c0e9465323c0b6ed28096c2" VUndefined) initial_state
       = (Returned (reject invalid_exact_hl_payload_asset_mismatch), initial_state).
Proof.
  eexists. eexists. split; [vm_compute; reflexivity|].
  eapply (created_payment_for_bare_asset_is_refused mock Sample.calm Sample.calm
           (wallet Sample.PAYER) (JsNumber.of_Z 1)
           (Sample.requirements "0xc4bf3f870c0e9465323c0b6ed28096c2" VUndefined)
           _ initial_state _ initial_state).
  - intros request request' [= <-]. repeat split; try reflexivity. eauto.
  - reflexivity.
  - right; left; reflexivity.
  - discriminate.
  - discriminate.
  - reflexivity.
  - vm_compute. reflexivity.
Defined.

End ClientVerify.

(* ================================================================== *)
(** * What [settle] sends *)
(* ================================================================== *)

Module SettleTraffic.
Import Settle VerifySpec SettleSpec VerifyFacts SettleFacts SettleSteps Traffic.

Lemma within_nil : within 0 0 0 [].
Proof. unfold within, count. cbn. repeat split; lia. Qed.

Lemma within_more a b c a' b' c' fresh :
  within a b c fresh -> (a <= a')%nat -> (b <= b')%nat -> (c <= c')%nat ->
  within a' b' c' fresh.
Proof.
  unfold within, CONFIRMATION_DELAY_MS. intros (H1 & H2 & H3 & H4 & H5 & H6) A B C.
  repeat split; try lia.
Qed.

Lemma count_app p l1 l2 : count p (l1 ++ l2) = (count p l1 + count p l2)%nat.
Proof. unfold count. now rewrite List.filter_app, List.length_app. Qed.

Lemma paused_app l1 l2 : paused (l1 ++ l2) = paused l1 + paused l2.
Proof.
  induction l1 as [|e l IH]; [reflexivity|].
  cbn [app paused fold_right] in *. fold (paused (l ++ l2)). fold (paused l).
  destruct e; lia.
Qed.

Lemma within_app a b c a' b' c' later earlier :
  within a b c earlier -> within a' b' c' later ->
  within (a + a') (b + b') (c + c') (later ++ earlier).
Proof.
  unfold within. intros (H1 & H2 & H3 & H4 & H5 & H6) (K1 & K2 & K3 & K4 & K5 & K6).
  rewrite !count_app, paused_app. unfold CONFIRMATION_DELAY_MS in *.
  repeat split; lia.
Qed.

Lemma added_refl s : added s s [].
Proof. reflexivity. Qed.

Lemma added_trans s1 s2 s3 earlier later :
  added s1 s2 earlier -> added s2 s3 later -> added s1 s3 (later ++ earlier).
Proof. unfold added. intros -> ->. apply app_assoc. Qed.

Section Facts.
Variable w : World.

(** What [submitExchange] sends: one post, unless the request cannot be
    written as JSON. *)
Lemma submitExchange_traffic endpoint payload s o s1 :
  submitExchange w endpoint payload s = (o, s1) ->
  hyperliquidTokenInfoCache s1 = hyperliquidTokenInfoCache s
  /\ ((s1 = s /\ exists e, o = Thrown e)
      \/ exists body, added s s1 [PostExchange endpoint body]).
Proof.
  unfold submitExchange. unfold bind at 1. unfold lift at 1.
  destruct (Json.serializable _) as [body|e];
    [|intros [= <- <-]; split; [reflexivity | left; eauto]].
  cbv zeta beta iota. unfold bind at 1, emit, throw, ret.
  assert (Sent : forall o' : outcome HyperliquidSettleResponse.t,
             (o', {| hyperliquidTokenInfoCache := hyperliquidTokenInfoCache s;
                     log := PostExchange endpoint
                              match body with Some b => b | None => VUndefined end
                            :: log s |}) = (o, s1) ->
             hyperliquidTokenInfoCache s1 = hyperliquidTokenInfoCache s
             /\ ((s1 = s /\ exists e, o = Thrown e)
                 \/ exists body, added s s1 [PostExchange endpoint body])).
  { intros o' [= <- <-]. split; [reflexivity | right; eexists; reflexivity]. }
  destruct (fetch w endpoint _) as [e|ok json]; [apply Sent|].
  destruct (negb ok); [apply Sent|].
  destruct json as [b|]; [|apply Sent].
  destruct (HyperliquidSettleResponse.status b) as [st|]; [|apply Sent].
  destruct (String.eqb st "ok"); apply Sent.
Qed.

(** The events of a poll. *)
Lemma confirm_from_traffic client hash :
  forall remaining attempt s,
    let s' := snd (confirm_from w client hash remaining attempt s) in
    hyperliquidTokenInfoCache s' = hyperliquidTokenInfoCache s
    /\ exists fresh, added s s' fresh /\ within 0 0 remaining fresh.
Proof.
  induction remaining as [|r IH]; intros attempt s; cbv zeta.
  - split; [reflexivity|]. exists []. split; [reflexivity | apply within_nil].
  - rewrite confirm_from_round. cbv zeta.
    assert (One : hyperliquidTokenInfoCache (logged (RequestTxDetails client hash) s)
                  = hyperliquidTokenInfoCache s
                  /\ exists fresh,
                      added s (logged (RequestTxDetails client hash) s) fresh
                      /\ within 0 0 (S r) fresh).
    { split; [reflexivity|]. exists [RequestTxDetails client hash].
      split; [reflexivity|]. unfold within, count, CONFIRMATION_DELAY_MS. cbn.
      repeat split; lia. }
    assert (More : hyperliquidTokenInfoCache
                     (snd (confirm_from w client hash r (S attempt)
                             (logged (Delay CONFIRMATION_DELAY_MS)
                                (logged (RequestTxDetails client hash) s))))
                   = hyperliquidTokenInfoCache s
                   /\ exists fresh,
                       added s
                         (snd (confirm_from w client hash r (S attempt)
                                 (logged (Delay CONFIRMATION_DELAY_MS)
                                    (logged (RequestTxDetails client hash) s)))) fresh
                       /\ within 0 0 (S r) fresh).
    { specialize (IH (S attempt)
                    (logged (Delay CONFIRMATION_DELAY_MS)
                       (logged (RequestTxDetails client hash) s))).
      cbv zeta in IH. destruct IH as (C & fresh & A & W).
      split; [now rewrite C|].
      exists (fresh ++ [Delay CONFIRMATION_DELAY_MS; RequestTxDetails client hash])%list.
      split.
      - unfold added in *. rewrite A. cbn [logged log]. now rewrite <- app_assoc.
      - assert (W1 : within 0 0 1 [Delay CONFIRMATION_DELAY_MS; RequestTxDetails client hash]).
        { unfold within, count, CONFIRMATION_DELAY_MS. cbn. repeat split; lia. }
        pose proof (within_app _ _ _ _ _ _ _ _ W1 W) as W2.
        eapply within_more; [exact W2| lia | lia | lia]. }
    destruct (txDetails w client attempt hash) as [response|e].
    + destruct (Js.get response "tx") as [tx|e]; [exact One|].
      destruct (says_not_found e); [exact One | exact More].
    + destruct (says_not_found e); [exact One | exact More].
Qed.

(** The poll after [k] failed rounds, when the next lookup answers. *)
Lemma confirm_from_confirmed client hash k :
  forall remaining attempt s,
    (k < remaining)%nat ->
    (forall i, (i < k)%nat ->
               exists e, lookup_fails w client hash (attempt + i) e
                         /\ says_not_found e = false) ->
    lookup_succeeds w client hash (attempt + k) ->
    exists s',
      confirm_from w client hash remaining attempt s = (Returned confirmed, s')
      /\ log s' = (RequestTxDetails client hash :: failed_rounds client hash k ++ log s)%list.
Proof.
  induction k as [|k IH]; intros remaining attempt s Hk Hfail Hlast.
  - destruct remaining as [|r]; [lia|]. rewrite confirm_from_round. cbv zeta.
    rewrite Nat.add_0_r in Hlast. destruct Hlast as (response & tx & E1 & E2).
    rewrite E1, E2. eexists. split; reflexivity.
  - destruct remaining as [|r]; [lia|]. rewrite confirm_from_round. cbv zeta.
    destruct (Hfail 0%nat ltac:(lia)) as (e0 & F0 & S0).
    rewrite Nat.add_0_r in F0. unfold lookup_fails in F0.
    assert (Rest : exists s',
               confirm_from w client hash r (S attempt)
                 (logged (Delay CONFIRMATION_DELAY_MS)
                    (logged (RequestTxDetails client hash) s))
               = (Returned confirmed, s')
               /\ log s' = (RequestTxDetails client hash
                            :: failed_rounds client hash (S k) ++ log s)%list).
    { destruct (IH r (S attempt)
                  (logged (Delay CONFIRMATION_DELAY_MS)
                     (logged (RequestTxDetails client hash) s)))
        as (s' & E & L); try lia.
      - intros i Hi. destruct (Hfail (S i) ltac:(lia)) as (e & F & Sy).
        exists e. split; [|exact Sy].
        now replace (S attempt + i)%nat with (attempt + S i)%nat by lia.
      - now replace (S attempt + k)%nat with (attempt + S k)%nat by lia.
      - exists s'. split; [exact E|].
        rewrite L. cbn [logged log]. now rewrite failed_rounds_shift. }
    destruct (txDetails w client attempt hash) as [response|e].
    + rewrite F0, S0. exact Rest.
    + subst e. rewrite S0. exact Rest.
Qed.

(** The traffic of [settle] past the shape checks. *)
Lemma conclusion_traffic pp pr payer s :
  let s' := snd (conclusion w pp pr payer s) in
  hyperliquidTokenInfoCache s' = hyperliquidTokenInfoCache s
  /\ exists fresh,
      added s s' fresh
      /\ within 1 1 CONFIRMATION_RETRIES fresh
      /\ (count is_post fresh = 0%nat -> fresh = []).
Proof.
  cbv zeta. unfold conclusion.
  destruct (submitExchange w _ _ s) as [[ack|e] s1] eqn:Sub;
    destruct (submitExchange_traffic _ _ _ _ _ Sub) as (C1 & T1).
  2: { cbn [snd]. split; [exact C1|]. destruct T1 as [[-> _]|(body & A)].
       - exists []. split; [reflexivity|]. split; [|reflexivity].
         eapply within_more; [apply within_nil | lia | lia | lia].
       - exists [PostExchange (endpoint_of (PaymentRequirements.network pr)) body].
         split; [exact A|]. split; [|discriminate].
         unfold within, count, CONFIRMATION_DELAY_MS, CONFIRMATION_RETRIES. cbn.
         repeat split; lia. }
  destruct T1 as [[_ (e & E)]|(body & A1)]; [discriminate|].
  set (post := PostExchange (endpoint_of (PaymentRequirements.network pr)) body) in *.
  assert (W1 : within 1 0 0 [post])
    by (unfold within, count, CONFIRMATION_DELAY_MS; cbn; repeat split; lia).
  destruct (matched w pp pr payer _ s1) as [m s2] eqn:Mt.
  destruct (matched_hex w _ _ _ _ _ _ _ Mt) as [_ St].
  assert (T2 : hyperliquidTokenInfoCache s2 = hyperliquidTokenInfoCache s
               /\ exists fresh, added s s2 (fresh ++ [post]) /\ within 1 1 0 (fresh ++ [post])).
  { destruct St as [->|(p & ->)].
    - split; [exact C1|]. exists []. split; [exact A1|].
      eapply within_more; [exact W1 | lia | lia | lia].
    - split; [exact C1|]. exists [RequestUserDetails (client_of (PaymentRequirements.network pr)) p].
      split; [unfold added in *; cbn [logged log app]; now rewrite A1|].
      unfold within, count, CONFIRMATION_DELAY_MS. cbn. repeat split; lia. }
  destruct T2 as (C2 & fresh2 & A2 & W2).
  assert (Stop : hyperliquidTokenInfoCache s2 = hyperliquidTokenInfoCache s
                 /\ exists fresh,
                     added s s2 fresh
                     /\ within 1 1 CONFIRMATION_RETRIES fresh
                     /\ (count is_post fresh = 0%nat -> fresh = [])).
  { split; [exact C2|]. exists (fresh2 ++ [post])%list. split; [exact A2|]. split.
    - eapply within_more; [exact W2 | lia | lia | unfold CONFIRMATION_RETRIES; lia].
    - rewrite count_app. unfold count at 2. cbn. lia. }
  destruct (known payer && Verify.missing m); [exact Stop|].
  destruct (resolved_id m ack) as [h|]; [|exact Stop].
  destruct (JsString.is_empty h || negb (isHexHash h)); [exact Stop|].
  pose proof (confirm_from_traffic (client_of (PaymentRequirements.network pr)) h
                CONFIRMATION_RETRIES 0 s2) as T3.
  cbv zeta in T3. fold (confirmTransaction w (client_of (PaymentRequirements.network pr)) h s2) in T3.
  destruct T3 as (C3 & fresh3 & A3 & W3).
  assert (Poll : hyperliquidTokenInfoCache
                   (snd (confirmTransaction w (client_of (PaymentRequirements.network pr)) h s2))
                 = hyperliquidTokenInfoCache s
                 /\ exists fresh,
                     added s (snd (confirmTransaction w
                                     (client_of (PaymentRequirements.network pr)) h s2)) fresh
                     /\ within 1 1 CONFIRMATION_RETRIES fresh
                     /\ (count is_post fresh = 0%nat -> fresh = [])).
  { split; [now rewrite C3|]. exists (fresh3 ++ fresh2 ++ [post])%list.
    split; [exact (added_trans _ _ _ _ _ A2 A3)|]. split.
    - pose proof (within_app _ _ _ _ _ _ _ _ W2 W3) as W.
      eapply within_more; [exact W | lia | lia | lia].
    - rewrite !count_app. unfold count at 3. cbn. lia. }
  destruct (confirmTransaction w _ h s2) as [[[]|e] s3]; exact Poll.
Qed.

End Facts.

(** X14.  What [settle] sends out is bounded.  In one call it posts to
    the exchange at most once, asks for the account history at most once
    and looks the transaction up at most [CONFIRMATION_RETRIES] times,
    pausing no longer than that many times [CONFIRMATION_DELAY_MS] in
    all; it looks up no token and leaves the token cache as it is.
    Nothing is sent unless the submission was posted, and nothing at all
    when the pair fails the first check or the action is not a record. *)
Theorem settle_traffic_is_bounded (w : World)
    (pp : PaymentPayload.t) (pr : PaymentRequirements.t) (s : State) :
  let s' := snd (settle w pp pr s) in
  hyperliquidTokenInfoCache s' = hyperliquidTokenInfoCache s
  /\ exists fresh,
      added s s' fresh
      /\ within 1 1 CONFIRMATION_RETRIES fresh
      /\ (count is_post fresh = 0%nat -> fresh = [])
      /\ (~ guard_passes pp pr
          \/ is_structured (Js.get_opt (PaymentPayload.payload pp) "action") = false ->
          fresh = []).
Proof.
  cbv zeta.
  assert (Early : forall reason,
             hyperliquidTokenInfoCache
               (snd (lift (failureResponse reason pr pp None None) s))
             = hyperliquidTokenInfoCache s
             /\ exists fresh,
                 added s (snd (lift (failureResponse reason pr pp None None) s)) fresh
                 /\ within 1 1 CONFIRMATION_RETRIES fresh
                 /\ (count is_post fresh = 0%nat -> fresh = [])
                 /\ (~ guard_passes pp pr
                     \/ is_structured (Js.get_opt (PaymentPayload.payload pp) "action") = false ->
                     fresh = [])).
  { intros reason. split; [reflexivity|]. exists [].
    split; [reflexivity|]. split; [|split; reflexivity].
    eapply within_more; [apply within_nil | lia | lia | lia]. }
  destruct (guard_passes_dec pp pr) as [G|G];
    [|rewrite (settle_guard w _ _ s G); apply Early].
  destruct (is_structured (Js.get_opt (PaymentPayload.payload pp) "action")) eqn:A;
    [|rewrite (settle_unstructured w _ _ s G A); apply Early].
  destruct (structured_extractPayer _ A) as [payer P].
  rewrite (settle_conclusion w _ _ _ s G A P).
  destruct (conclusion_traffic w pp pr payer s) as (C & fresh & Ad & W & Z).
  split; [exact C|]. exists fresh. repeat split; try assumption; try apply W.
  intros [H|H]; [contradiction | discriminate].
Qed.

End SettleTraffic.

(* ================================================================== *)
(** * The answers of [settle] *)
(* ================================================================== *)

Module SettleAnswers.
Import Settle VerifySpec SettleSpec VerifyFacts SettleFacts SettleSteps Traffic SettleTraffic.

(** The reasons [settle] answers with. *)
Lemma conclusion_response (w : World) pp pr payer s resp s' :
  conclusion w pp pr payer s = (Returned resp, s') ->
  SettleResponse.network resp = PaymentRequirements.network pr
  /\ SettleResponse.payer resp = payer
  /\ ((SettleResponse.success resp = true /\ SettleResponse.errorReason resp = None)
      \/ (SettleResponse.success resp = false
          /\ (SettleResponse.errorReason resp = Some hl_exchange_error
              /\ SettleResponse.transaction resp = PaymentRequirements.payTo pr
              \/ SettleResponse.errorReason resp = Some hl_tx_not_found
              \/ SettleResponse.errorReason resp = Some hl_tx_unconfirmed))).
Proof.
  unfold conclusion.
  assert (Refused : forall s0,
             (Returned (failure hl_exchange_error pr (PaymentRequirements.payTo pr) payer), s0)
             = (Returned resp, s') ->
             SettleResponse.network resp = PaymentRequirements.network pr
             /\ SettleResponse.payer resp = payer
             /\ ((SettleResponse.success resp = true /\ SettleResponse.errorReason resp = None)
                 \/ (SettleResponse.success resp = false
                     /\ (SettleResponse.errorReason resp = Some hl_exchange_error
                         /\ SettleResponse.transaction resp = PaymentRequirements.payTo pr
                         \/ SettleResponse.errorReason resp = Some hl_tx_not_found
                         \/ SettleResponse.errorReason resp = Some hl_tx_unconfirmed)))).
  { intros s0 [= <- _]. cbn. repeat split. right. split; [reflexivity|]. left. now split. }
  assert (Lost : forall t reason s0,
             reason = hl_tx_not_found \/ reason = hl_tx_unconfirmed ->
             (Returned (failure reason pr t payer), s0) = (Returned resp, s') ->
             SettleResponse.network resp = PaymentRequirements.network pr
             /\ SettleResponse.payer resp = payer
             /\ ((SettleResponse.success resp = true /\ SettleResponse.errorReason resp = None)
                 \/ (SettleResponse.success resp = false
                     /\ (SettleResponse.errorReason resp = Some hl_exchange_error
                         /\ SettleResponse.transaction resp = PaymentRequirements.payTo pr
                         \/ SettleResponse.errorReason resp = Some hl_tx_not_found
                         \/ SettleResponse.errorReason resp = Some hl_tx_unconfirmed)))).
  { intros t reason s0 R [= <- _]. cbn. repeat split. right. split; [reflexivity|].
    right. destruct R as [-> | ->]; [now left | now right]. }
  destruct (submitExchange w _ _ s) as [[ack|e] s1]; [|apply Refused].
  destruct (matched w pp pr payer _ s1) as [m s2].
  destruct (known payer && Verify.missing m); [apply Lost; now left|].
  destruct (resolved_id m ack) as [h|]; [|apply Lost; now left].
  destruct (JsString.is_empty h || negb (isHexHash h)); [apply Lost; now left|].
  destruct (confirmTransaction w _ h s2) as [[[]|e] s3];
    [|apply Lost; now left|apply Lost; now right|apply Refused].
  intros [= <- _]. cbn. repeat split. now left.
Qed.

(** X15.  Every response of [settle] is consistent.  It names the
    network of the requirements and the payer read off the payload; it
    is a success without a reason, or a failure with one of the five
    reasons of settlement; and a failure for the first check, for the
    shape of the action or for an exchange error carries the [payTo]
    address in the place of the transaction id. *)
Theorem settle_response_is_consistent (w : World)
    (pp : PaymentPayload.t) (pr : PaymentRequirements.t) (s s' : State)
    (resp : SettleResponse.t) :
  settle w pp pr s = (Returned resp, s') ->
  SettleResponse.network resp = PaymentRequirements.network pr
  /\ extractPayer (PaymentPayload.payload pp) = Returned (SettleResponse.payer resp)
  /\ (SettleResponse.success resp = true <-> SettleResponse.errorReason resp = None)
  /\ (forall reason,
        SettleResponse.errorReason resp = Some reason ->
        In reason [invalid_exact_hl_network; invalid_exact_hl_payload;
                   hl_exchange_error; hl_tx_not_found; hl_tx_unconfirmed])
  /\ (forall reason,
        SettleResponse.errorReason resp = Some reason ->
        In reason [invalid_exact_hl_network; invalid_exact_hl_payload; hl_exchange_error] ->
        SettleResponse.transaction resp = PaymentRequirements.payTo pr).
Proof.
  assert (Early : forall reason,
             reason = invalid_exact_hl_network \/ reason = invalid_exact_hl_payload ->
             lift (failureResponse reason pr pp None None) s = (Returned resp, s') ->
             SettleResponse.network resp = PaymentRequirements.network pr
             /\ extractPayer (PaymentPayload.payload pp)
                = Returned (SettleResponse.payer resp)
             /\ (SettleResponse.success resp = true
                 <-> SettleResponse.errorReason resp = None)
             /\ (forall reason,
                   SettleResponse.errorReason resp = Some reason ->
                   In reason [invalid_exact_hl_network; invalid_exact_hl_payload;
                              hl_exchange_error; hl_tx_not_found; hl_tx_unconfirmed])
             /\ (forall reason,
                   SettleResponse.errorReason resp = Some reason ->
                   In reason [invalid_exact_hl_network; invalid_exact_hl_payload;
                              hl_exchange_error] ->
                   SettleResponse.transaction resp = PaymentRequirements.payTo pr)).
  { intros reason R. unfold lift.
    destruct (extractPayer (PaymentPayload.payload pp)) as [payer0|e] eqn:P.
    2: { unfold failureResponse. rewrite P. discriminate. }
    rewrite (failureResponse_returns reason pr pp None None payer0 P).
    intros [= <- _]. cbn. repeat split; try discriminate.
    - intros r [= <-]. destruct R as [-> | ->]; cbn; tauto.
  }
  destruct (guard_passes_dec pp pr) as [G|G];
    [|rewrite (settle_guard w _ _ s G); apply Early; now left].
  destruct (is_structured (Js.get_opt (PaymentPayload.payload pp) "action")) eqn:A;
    [|rewrite (settle_unstructured w _ _ s G A); apply Early; now right].
  destruct (structured_extractPayer _ A) as [payer P].
  rewrite (settle_conclusion w _ _ _ s G A P). intros C.
  destruct (conclusion_response w _ _ _ _ _ _ C) as (N & Py & R).
  split; [exact N|]. split; [now rewrite Py|].
  destruct R as [[S E]|[S [[E T]|[E|E]]]]; rewrite S, E;
    (split; [split; congruence|]);
    (split; [intros r [= <-]; cbn; tauto|]);
    intros r [= <-]; cbn; intros [K|[K|[K|[]]]]; try discriminate; assumption.
Qed.

Lemma settle_response_is_consistent_witness :
  exists resp s',
    settle Sample.calm Sample.basePayload Sample.baseRequirements initial_state
    = (Returned resp, s')
    /\ SettleResponse.network resp = "hyperliquid"
    /\ extractPayer (PaymentPayload.payload Sample.basePayload)
       = Returned (SettleResponse.payer resp).
Proof.
  assert (E : exists resp s',
             settle Sample.calm Sample.basePayload Sample.baseRequirements initial_state
             = (Returned resp, s'))
    by (eexists; eexists; vm_compute; reflexivity).
  destruct E as (resp & s' & E). exists resp, s'. split; [exact E|].
  destruct (settle_response_is_consistent Sample.calm Sample.basePayload
              Sample.baseRequirements initial_state s' resp E) as (N & P & _).
  split; [exact N | exact P].
Defined.

(** X16.  A lookup that fails for another reason than "not found" is tried
    again.  When the first [k] detail lookups of the resolved id fail
    without the "not found" signal, [k] below [CONFIRMATION_RETRIES],
    and the next one answers, [settle] succeeds with that id, after [k]
    pauses. *)
Theorem settle_confirms_after_retries (w : World)
    (pp : PaymentPayload.t) (pr : PaymentRequirements.t)
    (payer : option string) (s0 s1 s : State)
    (ack : HyperliquidSettleResponse.t) (m : option string) (hash : string) (k : nat) :
  let client := client_of (PaymentRequirements.network pr) in
  guard_passes pp pr ->
  is_structured (Js.get_opt (PaymentPayload.payload pp) "action") = true ->
  extractPayer (PaymentPayload.payload pp) = Returned payer ->
  submitExchange w (endpoint_of (PaymentRequirements.network pr))
    (PaymentPayload.payload pp) s0 = (Returned ack, s1) ->
  matched w pp pr payer client s1 = (m, s) ->
  (known payer = true -> m <> None) ->
  resolved_id m ack = Some hash ->
  isHexHash hash = true ->
  (k < CONFIRMATION_RETRIES)%nat ->
  (forall i, (i < k)%nat ->
             exists e, lookup_fails w client hash i e /\ says_not_found e = false) ->
  lookup_succeeds w client hash k ->
  exists s',
    settle w pp pr s0 = (Returned (settled pr hash payer), s')
    /\ log s' = (RequestTxDetails client hash :: failed_rounds client hash k ++ log s)%list
    /\ paused (RequestTxDetails client hash :: failed_rounds client hash k)
       = Z.of_nat k * CONFIRMATION_DELAY_MS.
Proof.
  intros client G A P Sub Mt Kn Rs Hx Hk Hfail Hlast.
  rewrite (settle_reaches_poll w _ _ _ _ _ _ _ _ _ G A P Sub Mt Kn Rs Hx).
  fold client. unfold confirmTransaction.
  destruct (confirm_from_confirmed w client hash k CONFIRMATION_RETRIES 0 s)
    as (s' & E & L); try assumption.
  exists s'. rewrite E. split; [reflexivity|]. split; [exact L|].
  clear. induction k as [|k IH]; [reflexivity|].
  cbn [failed_rounds paused fold_right] in *. fold (paused (failed_rounds client hash k)) in *.
  unfold CONFIRMATION_DELAY_MS in *. lia.
Qed.

Lemma settle_confirms_after_retries_witness :
  fst (settle (Sample.world (FetchResponse true (Some (Sample.ack None)))
                 [Sample.userTx Sample.TX_HASH
                    (Sample.action Sample.PAY_TO Sample.TOKEN "1" Sample.TIMESTAMP)]
                 (fun n => match n with
                           | O => Thrown "Error: temporary confirmation error"
                           | _ => Sample.found Sample.TX_HASH
                           end))
         Sample.basePayload Sample.baseRequirements initial_state)
  = Returned (settled Sample.baseRequirements Sample.TX_HASH (Some Sample.PAYER)).
Proof.
  edestruct (settle_confirms_after_retries
               (Sample.world (FetchResponse true (Some (Sample.ack None)))
                  [Sample.userTx Sample.TX_HASH
                     (Sample.action Sample.PAY_TO Sample.TOKEN "1" Sample.TIMESTAMP)]
                  (fun n => match n with
                            | O => Thrown "Error: temporary confirmation error"
                            | _ => Sample.found Sample.TX_HASH
                            end))
               Sample.basePayload Sample.baseRequirements (Some Sample.PAYER)
               initial_state) with (k := 1%nat)
    as (s' & E & _).
  - apply sample_guard.
  - reflexivity.
  - reflexivity.
  - vm_compute; reflexivity.
  - vm_compute; reflexivity.
  - discriminate.
  - reflexivity.
  - reflexivity.
  - unfold CONFIRMATION_RETRIES. lia.
  - intros i Hi. assert (i = 0)%nat as -> by lia. eexists. split; reflexivity.
  - eexists. eexists. split; reflexivity.
  - now rewrite E.
Defined.

End SettleAnswers.

Module SettleHistory.
Import Settle VerifySpec SettleSpec VerifyFacts SettleFacts SettleSteps.

(** X17.  The match of a history entry takes [payTo] and [asset] up to
    letter case: requirements that differ only in the case of these two
    match the same transactions (where [verify] compares the asset as
    it is written). *)
Theorem history_match_ignores_letter_case (w : World)
    (tx payload : value) (pr pr' : PaymentRequirements.t) :
  JsString.toLowerCase (PaymentRequirements.payTo pr)
  = JsString.toLowerCase (PaymentRequirements.payTo pr') ->
  JsString.toLowerCase (PaymentRequirements.asset pr)
  = JsString.toLowerCase (PaymentRequirements.asset pr') ->
  transactionMatchesPayment w tx payload pr = transactionMatchesPayment w tx payload pr'.
Proof.
  intros P A. unfold transactionMatchesPayment, equalsIgnoreCase, toLower.
  cbn [stringify fmap option_fmap option_map]. now rewrite P, A.
Qed.

Lemma history_match_ignores_letter_case_witness :
  transactionMatchesPayment Sample.calm
    (Sample.userTx Sample.TX_HASH
       (Sample.action Sample.PAY_TO Sample.TOKEN "1" Sample.TIMESTAMP))
    (PaymentPayload.payload Sample.basePayload)
    (Sample.requirements "usdc:0xEB62EEE3685FC4C43992FEBCD9E75443" VUndefined)
  = transactionMatchesPayment Sample.calm
      (Sample.userTx Sample.TX_HASH
         (Sample.action Sample.PAY_TO Sample.TOKEN "1" Sample.TIMESTAMP))
      (PaymentPayload.payload Sample.basePayload)
      Sample.baseRequirements.
Proof.
  apply (history_match_ignores_letter_case Sample.calm); reflexivity.
Defined.

Section Facts.
Variable w : World.

Lemma nullish_entry_throws tx payload pr :
  Js.nullish tx = true ->
  exists e, transactionMatchesPayment w tx payload pr = Thrown e.
Proof.
  intros N. unfold transactionMatchesPayment.
  destruct tx; try discriminate; eexists; reflexivity.
Qed.

Lemma filter_matching_nullish txs payload pr tx :
  In tx txs -> Js.nullish tx = true ->
  exists e, filter_matching w txs payload pr = Thrown e.
Proof.
  intros I N. induction txs as [|x rest IH]; [destruct I|].
  cbn [filter_matching]. destruct I as [->|I].
  - destruct (nullish_entry_throws tx payload pr N) as (e & ->). eauto.
  - destruct (transactionMatchesPayment w x payload pr) as [keep|e]; [|eauto].
    destruct (IH I) as (e & ->). eauto.
Qed.

End Facts.

(** X18.  One entry of the account history that is [null] or [undefined]
    undoes the whole match.  Reading it throws, the exception is caught
    inside [findMatchingTransactionHash], and with a payer known
    [settle] answers [hl_tx_not_found], whatever else the history
    holds. *)
Theorem nullish_history_entry_hides_every_match (w : World)
    (pp : PaymentPayload.t) (pr : PaymentRequirements.t)
    (p : string) (s0 s1 : State) (ack : HyperliquidSettleResponse.t) (tx : value) :
  let client := client_of (PaymentRequirements.network pr) in
  guard_passes pp pr ->
  is_structured (Js.get_opt (PaymentPayload.payload pp) "action") = true ->
  extractPayer (PaymentPayload.payload pp) = Returned (Some p) ->
  p <> "" ->
  submitExchange w (endpoint_of (PaymentRequirements.network pr))
    (PaymentPayload.payload pp) s0 = (Returned ack, s1) ->
  In tx (history_of w client p) ->
  Js.nullish tx = true ->
  settle w pp pr s0
  = (Returned (failure hl_tx_not_found pr (shown (extractExchangeTxHash ack) pr) (Some p)),
     logged (RequestUserDetails client p) s1).
Proof.
  intros client G A P Np Sub I N.
  rewrite (settle_conclusion w _ _ _ s0 G A P). unfold conclusion. rewrite Sub.
  fold client.
  assert (M : matched w pp pr (Some p) client s1
              = (None, logged (RequestUserDetails client p) s1)).
  { unfold matched, known. cbn [Verify.missing]. rewrite (is_empty_false _ Np). cbn [negb].
    unfold findMatchingTransactionHash, try_catch, findMatchingTransactionHash_body.
    unfold bind at 1, emit. fold (logged (RequestUserDetails client p) s1).
    unfold bind at 1. unfold lift at 1.
    unfold history_of in I.
    destruct (userDetails w client p) as [details|e]; [|destruct I].
    destruct (filter_matching_nullish w _ (PaymentPayload.payload pp) pr tx I N) as (e & F).
    unfold bind at 1. unfold lift at 1. rewrite F. reflexivity. }
  rewrite M. unfold known. cbn [Verify.missing]. rewrite (is_empty_false _ Np).
  reflexivity.
Qed.

Lemma nullish_history_entry_hides_every_match_witness :
  fst (settle (Sample.world (FetchResponse true (Some (Sample.ack (Some Sample.TX_HASH))))
                 [Sample.userTx Sample.TX_HASH
                    (Sample.action Sample.PAY_TO Sample.TOKEN "1" Sample.TIMESTAMP);
                  VNull]
                 (fun _ => Sample.found Sample.TX_HASH))
         Sample.basePayload Sample.baseRequirements initial_state)
  = Returned (failure hl_tx_not_found Sample.baseRequirements Sample.TX_HASH
                (Some Sample.PAYER)).
Proof.
  erewrite nullish_history_entry_hides_every_match; cycle 1.
  - apply sample_guard.
  - reflexivity.
  - reflexivity.
  - discriminate.
  - vm_compute; reflexivity.
  - right; left; reflexivity.
  - reflexivity.
  - reflexivity.
Defined.

End SettleHistory.

(* ================================================================== *)
(** * Network helpers and the shape of a decoded payment *)
(* ================================================================== *)

Module NetworkFacts.
Import VerifySpec VerifyFacts SettleSpec.

(** X19.  The helpers of [shared/hyperliquid] agree on the networks.  For
    a network of [SupportedHLNetworks] each of them returns, the branch
    for a missing configuration or chain name being out of reach, and
    they name the same chain: the client is a test-net client exactly
    when the exchange URL is the one of the test net and exactly when
    the chain is called "Testnet".  For every other network each of
    them throws the same "Unsupported Hyperliquid network" error. *)
Theorem network_helpers_agree (chainIdHex : string) (network : string) :
  (In network SupportedHLNetworks ->
   exists client url chain config,
     Shared.createInfoClient network = Returned client
     /\ Shared.getExchangeBaseUrl network = Returned url
     /\ SharedConfig.getHyperliquidChain network = Returned chain
     /\ SharedConfig.getHyperliquidNetworkConfig chainIdHex network = Returned config
     /\ SharedConfig.getDefaultHyperliquidAsset chainIdHex network
        = Returned (SharedConfig.token config, SharedConfig.decimals config)
     /\ SharedConfig.getHyperliquidSignatureChainId chainIdHex network
        = Returned chainIdHex
     /\ (isTestnet client = true <-> url = "https://api.hyperliquid-testnet.xyz/exchange")
     /\ (isTestnet client = false <-> url = "https://api.hyperliquid.xyz/exchange")
     /\ (isTestnet client = true <-> chain = "Testnet")
     /\ (isTestnet client = false <-> chain = "Mainnet"))
  /\ (~ In network SupportedHLNetworks ->
      let error := "Error: Unsupported Hyperliquid network: " ++ network in
      Shared.createInfoClient network = Thrown error
      /\ Shared.getExchangeBaseUrl network = Thrown error
      /\ SharedConfig.getHyperliquidChain network = Thrown error
      /\ SharedConfig.getDefaultHyperliquidAsset chainIdHex network = Thrown error
      /\ SharedConfig.getHyperliquidSignatureChainId chainIdHex network = Thrown error).
Proof.
  split.
  - cbn [SupportedHLNetworks In]. intros [<-|[<-|[]]];
      eexists; eexists; eexists; eexists;
      (split; [reflexivity|]); (split; [reflexivity|]); (split; [reflexivity|]);
      (split; [reflexivity|]); (split; [reflexivity|]); (split; [reflexivity|]);
      cbn; repeat split; intros; congruence.
  - intros N. cbv zeta.
    assert (E : includes_network SupportedHLNetworks network = false).
    { destruct (includes_network SupportedHLNetworks network) eqn:E; [|reflexivity].
      apply includes_network_In in E. contradiction. }
    unfold Shared.createInfoClient, Shared.getExchangeBaseUrl,
      SharedConfig.getHyperliquidChain, SharedConfig.getDefaultHyperliquidAsset,
      SharedConfig.getHyperliquidSignatureChainId, SharedConfig.getHyperliquidNetworkConfig,
      Shared.assertHyperliquidNetwork.
    rewrite E. repeat split.
Qed.

Lemma network_helpers_agree_witness :
  exists client url chain,
    Shared.createInfoClient "hyperliquid-testnet" = Returned client
    /\ Shared.getExchangeBaseUrl "hyperliquid-testnet" = Returned url
    /\ SharedConfig.getHyperliquidChain "hyperliquid-testnet" = Returned chain
    /\ (isTestnet client = true <-> chain = "Testnet").
Proof.
  destruct (proj1 (network_helpers_agree "0xa4b1" "hyperliquid-testnet"))
    as (client & url & chain & config & E1 & E2 & E3 & _ & _ & _ & _ & _ & T & _).
  - left. reflexivity.
  - exists client, url, chain. repeat split; try assumption; apply T.
Defined.

End NetworkFacts.

Module CodecShape.
Import PaymentUtils CodecSpec SettleFacts CodecFacts.

Lemma has_key_set_prop k v props : Js.has_key k (set_prop k v props) = true.
Proof.
  induction props as [|[k' v'] rest IH]; cbn [set_prop Js.has_key].
  - now rewrite String.eqb_refl.
  - destruct (String.eqb k k') eqn:E; cbn [Js.has_key]; rewrite ?String.eqb_refl, ?E, ?IH;
      reflexivity.
Qed.

Lemma lookup_set_prop_other k k' v props :
  k <> k' -> Js.lookup k (set_prop k' v props) = Js.lookup k props.
Proof.
  intros N. induction props as [|[k0 v0] rest IH]; cbn [set_prop Js.lookup].
  - destruct (String.eqb_spec k k'); [contradiction | reflexivity].
  - destruct (String.eqb_spec k' k0) as [->|N0]; cbn [Js.lookup].
    + destruct (String.eqb_spec k k0); [contradiction | reflexivity].
    + now rewrite IH.
Qed.

Section Facts.
Variable c : Codec.t.

(** What the schema of the envelope lets through. *)
Lemma PaymentPayloadSchema_shape props p :
  Js.has_key "payload" props = true ->
  PaymentPayloadSchema c (VObject props) = Returned p ->
  exists version scheme network payload,
    p = VObject [("x402Version", VNumber version); ("scheme", VString scheme);
                 ("network", VString network); ("payload", payload)]
    /\ Js.lookup "network" props = VString network
    /\ In network X402Specs.networks.
Proof.
  intros K. unfold PaymentPayloadSchema, X402Specs.PaymentPayloadSchema, Zod.object.
  cbn [Zod.object_fields].
  unfold Zod.refine at 1, Zod.number_ at 1.
  destruct (Js.lookup "x402Version" props) as [| | |[| | |q]| | | |]; try discriminate;
    (match goal with |- context [if ?b then _ else _] => destruct b end; [|discriminate]);
    (unfold Zod.enum at 1;
     destruct (Js.lookup "scheme" props) as [| | | |sch| | |]; try discriminate;
     destruct (includes_network X402Specs.schemes sch); [|discriminate];
     unfold X402Specs.NetworkSchema, Zod.enum;
     destruct (Js.lookup "network" props) as [| | | |n| | |]; try discriminate;
     destruct (includes_network X402Specs.networks n) eqn:N; [|discriminate];
     destruct (Zod.union _ _) as [r|e]; [|discriminate];
     rewrite K, orb_true_r; cbn [negb orb];
     intros [= <-]; eexists; eexists; eexists; eexists;
     split; [reflexivity|]; split; [reflexivity|];
     now apply VerifyFacts.includes_network_In).
Qed.

End Facts.

(** X20.  Whatever [decodePayment] returns is the envelope and nothing
    else: an object with exactly the fields [x402Version], [scheme],
    [network] and [payload], in this order, fields of the header that
    the schema does not know being dropped; its network is one of the
    network enumeration and of one of the three families. *)
Theorem decodePayment_yields_the_envelope (c : Codec.t) (header : string) (p : value) :
  decodePayment c header = Returned p ->
  exists version scheme network payload,
    p = VObject [("x402Version", VNumber version); ("scheme", VString scheme);
                 ("network", VString network); ("payload", payload)]
    /\ In network X402Specs.networks
    /\ supported c network.
Proof.
  unfold decodePayment.
  destruct (Codec.safeBase64Decode c header) as [decoded|e]; [|discriminate].
  destruct (Codec.JSON_parse c decoded) as [parsed|e]; [|discriminate].
  destruct (Js.get parsed "network") as [network|e] eqn:G; [|discriminate].
  assert (Own : network = Js.own parsed "network").
  { unfold Js.get in G. destruct (Js.nullish parsed); [discriminate|]. now injection G. }
  assert (Shape : forall n,
             network = VString n -> supported c n ->
             PaymentPayloadSchema c
               (VObject (set_prop "payload" (Js.own parsed "payload") (spread parsed)))
             = Returned p ->
             exists version scheme network payload,
               p = VObject [("x402Version", VNumber version); ("scheme", VString scheme);
                            ("network", VString network); ("payload", payload)]
               /\ In network X402Specs.networks
               /\ supported c network).
  { intros n En Sn H.
    destruct (PaymentPayloadSchema_shape c _ p (has_key_set_prop _ _ _) H)
      as (version & scheme & n' & payload & -> & L & I).
    rewrite lookup_set_prop_other in L by discriminate.
    assert (n' = n).
    { rewrite En in Own. destruct parsed; try discriminate. cbn [spread Js.own] in *.
      congruence. }
    subst n'. exists version, scheme, n, payload. repeat split; assumption. }
  destruct (includes (Codec.SupportedEVMNetworks c) network) eqn:E1.
  { destruct network as [| | | |n| | |]; try discriminate.
    apply includes_In in E1. apply (Shape n eq_refl). now left. }
  destruct (includes (Codec.SupportedSVMNetworks c) network) eqn:E2.
  { destruct network as [| | | |n| | |]; try discriminate.
    apply includes_In in E2. apply (Shape n eq_refl). right. now left. }
  destruct (includes SupportedHLNetworks network) eqn:E3; [|discriminate].
  destruct network as [| | | |n| | |]; try discriminate.
  apply includes_In in E3. apply (Shape n eq_refl). right. now right.
Qed.

Lemma decodePayment_yields_the_envelope_witness :
  exists header p version scheme network payload,
    encodePayment Stand.codec Stand.hlPayment = Returned header
    /\ decodePayment Stand.codec header = Returned p
    /\ p = VObject [("x402Version", VNumber version); ("scheme", VString scheme);
                    ("network", VString network); ("payload", payload)]
    /\ supported Stand.codec network.
Proof.
  assert (E : exists header p,
             encodePayment Stand.codec Stand.hlPayment = Returned header
             /\ decodePayment Stand.codec header = Returned p)
    by (eexists; eexists; split; vm_compute; reflexivity).
  destruct E as (header & p & E & D).
  destruct (decodePayment_yields_the_envelope Stand.codec header p D)
    as (version & scheme & network & payload & Ep & _ & S).
  exists header, p, version, scheme, network, payload. repeat split; assumption.
Defined.

(** X21.  A payment whose network is no network of the three families
    cannot be encoded: for every payment that is there,
    [encodePayment] throws "Invalid network" unless the network is a
    string of [SupportedEVMNetworks], [SupportedSVMNetworks] or
    [SupportedHLNetworks]; and a header that carries such a payment is
    refused by [decodePayment] with the same error. *)
Theorem codec_refuses_foreign_networks (c : Codec.t) (payment : value) :
  Js.nullish payment = false ->
  (forall n, Js.own payment "network" = VString n -> ~ supported c n) ->
  encodePayment c payment = Thrown "Error: Invalid network"
  /\ forall header text,
      Codec.safeBase64Decode c header = Returned text ->
      Codec.JSON_parse c text = Returned payment ->
      decodePayment c header = Thrown "Error: Invalid network".
Proof.
  intros N F.
  assert (G : Js.get payment "network" = Returned (Js.own payment "network"))
    by (unfold Js.get; now rewrite N).
  assert (I : forall l, (forall n, In n l -> supported c n) ->
                        includes l (Js.own payment "network") = false).
  { intros l S. destruct (includes l (Js.own payment "network")) eqn:E; [|reflexivity].
    destruct (Js.own payment "network") as [| | | |n| | |] eqn:O; try discriminate.
    apply includes_In in E. destruct (F n eq_refl). now apply S. }
  assert (I1 : includes (Codec.SupportedEVMNetworks c) (Js.own payment "network") = false)
    by (apply I; intros n H; now left).
  assert (I2 : includes (Codec.SupportedSVMNetworks c) (Js.own payment "network") = false)
    by (apply I; intros n H; right; now left).
  assert (I3 : includes SupportedHLNetworks (Js.own payment "network") = false)
    by (apply I; intros n H; right; now right).
  split.
  - unfold encodePayment. now rewrite G, I1, I2, I3.
  - intros header text B J. unfold decodePayment. now rewrite B, J, G, I1, I2, I3.
Qed.

Lemma codec_refuses_foreign_networks_witness :
  encodePayment Stand.codec (Stand.envelope "ethereum" (VObject []))
  = Thrown "Error: Invalid network".
Proof.
  apply (codec_refuses_foreign_networks Stand.codec
           (Stand.envelope "ethereum" (VObject []))); [reflexivity|].
  intros n [= <-] [H|[H|H]]; cbn in H; intuition discriminate.
Defined.

End CodecShape.
